(* ===== verification/_CoqProject ===== *)
-Q . S2P
Prelude.v
Values.v
UuidText.v
UuidTheorems.v
Authority.v
Models.v
Graph.v
PanelValidator.v
SystemPanels.v
Artifacts.v
RuntimeService.v
PanelTheorems.v
MemoryRuntime.v
MemorySpec.v
MemoryInvariant.v
MemoryRefine.v
MemorySubmit.v
MemoryReplay.v
MemoryProgress.v
MemoryTheorems.v
Auth.v
Catalog.v
AuthSpec.v
AuthTheorems.v
Registry.v
Sql.v
PostgresRegistry.v
RegistryTheorems.v
Pydantic.v
Executor.v
ExecutorSpec.v
ExecutorTheorems.v
Shadow.v
ShadowTheorems.v
Genesis.v
GenesisTheorems.v
PostgresRuntime.v
PostgresSpec.v
PostgresInvariant.v
PostgresReplay.v
PostgresTheorems.v
Transactions.v
LeaseStore.v
LeaseGuard.v
LeaseTheorems.v
ClaimRace.v
PostgresAuth.v
PostgresAuthTheorems.v
Boundaries.v
BoundaryTheorems.v
Loader.v
Bootstrap.v
PanelStores.v
BootstrapTheorems.v
Observability.v
ObservabilityTheorems.v
Config.v
Startup.v
AuthorityStore.v
StartupTheorems.v
Api.v
ApiTheorems.v
Mcp.v
McpTheorems.v
Application.v
ArtifactStores.v
ArtifactStoreTheorems.v
Ddl.v
Migrations.v
MigrationTheorems.v
