(* ===== verification/Prelude.v ===== *)
(** * Ghost Mesh: a verification library

    Ghost Mesh runs work as cards that move through the buckets of Patch
    Panels: declared graphs of sources, workers, validators and sinks joined
    by pipes. Workers claim a card through an input pipe under a lease and
    submit artifact references through an output pipe; validators route
    cards by their exits; sinks let work leave. Around this core stand
    authorization, a registry of reusable panels, the governed publication
    of new panels, shadow execution of candidates and the launching of work
    from intents. Everything can be kept in memory or on PostgreSQL, and is
    reached over HTTP, MCP or external boundaries. This library models that
    program (src/src/ghostmesh and src/alembic) as executable definitions
    and proves what makes it correct.

    ** Conventions

    A method is a function of the same name in the monad [M S] of this file:
    it takes the state [S] of its component and the positions of the clock
    and of the UUID generator, and answers [Ok] or [Raise] with the state it
    reached; a raise does not roll back, as in Python, unless the code runs
    in a database transaction. [datetime.now(UTC)] and [uuid4()] read the
    oracle [Values.Oracle] at the next position, so a run is a function of
    the two streams; where a theorem needs it, [OracleLaws] assumes that the
    clock does not go back and that identifiers do not repeat. Dictionaries
    are association lists in insertion order ([dict_get], [dict_set]), since
    the code iterates over them; the specifications use finite maps where
    order does not matter. Integers are Python's, hence [Z]; the 32-bit
    columns of the tables check their range. A protocol of the code is a
    class ([CardRuntime], [AuthorizationRepository], [PatchPanelRegistry],
    [ArtifactStore]); what a store promises to its clients is a second class
    with laws ([RepositorySpec], [AuthorityStore], [RegistrySpec],
    [OwnerlessRegistry], [PanelStore], [UploadStore], and [QuietRuntime] and
    [QuietRegistry] for the read-only methods the routes use), which the
    clients' theorems assume and the implementations discharge. Methods need
    no fuel: every loop of the code runs over a finite list. Two definitions
    bound a walk by a length: the order of the revisions ([revisions_above],
    by their number) and the parents of a path (by its parts). Concurrent
    transactions are a step relation, whose termination is C31.

    What the program takes from libraries is an interface with the
    documented behaviour it relies on as laws, and an executable instance
    on which the evaluated examples run: [Graph.Networkx] (networkx),
    [Sql.Sql] (one-table statements of SQLAlchemy Core), [Ddl.Alembic]
    (migration operations), [Pydantic.Pydantic], [Boundaries.BoundaryModels]
    and [Mcp.McpModels] (field parsing and dumping), [Loader.Files] (files,
    YAML, JSON), [ArtifactStores.Sha256], [Disk], [ObjectStore] and [Http].

    ** Files, in dependency order

    - [Prelude], [Values], [UuidText], [UuidTheorems]: results, the monad and
      its weakest preconditions, Python dictionaries; documents, UUIDs,
      instants, string functions; UUIDs printed and read back.
    - [Authority] (domain/authority.py), [Models] (domain/models.py): the
      data, the enumerations with their string values, the model validators.
    - [Graph], [PanelValidator] (patchpanel/validator.py), [SystemPanels]
      (defaults/patchpanels), [PanelTheorems]: [validate] runs the eight
      checks in order. C10: it accepts exactly the panels that satisfy the
      declarative [panel_ok], and the exceptions it can end with; C11: the
      pipes of a validated panel resolve.
    - [Artifacts] (artifacts/validation.py), [RuntimeService]
      (runtime/service.py): acceptance rules and the checks both runtimes
      share.
    - [MemoryRuntime] (runtime/memory.py): [InMemoryCardRuntime] over the
      record [Runtime] of its six dictionaries. [MemorySpec] gives the
      specification, a step relation [rt_step] with the guard of every
      change; [MemoryInvariant] proves the invariant and what every step
      keeps; [MemoryRefine] proves that every method makes only such steps
      (C1). From it: one active lease per card (C2), replay of idempotency
      keys (C3), claims, with the panels that spoil them (C4), and exact
      submissions (C5), histories that only grow (C6), leases that keep what
      they are about and releases that are final (C7), expiry (C8), cards
      that stay in declared buckets (C9). The files are [MemorySubmit],
      [MemoryReplay], [MemoryProgress] and [MemoryTheorems].
    - [Auth] (auth/scopes.py, repositories.py, service.py, dependencies.py),
      [Catalog] (auth/catalog.py, bootstrap.py), [AuthSpec],
      [AuthTheorems]: a decision is positive exactly for the entitled (C12),
      the request guard (C13), the exact effect of assigning a role (C14).
      [RepositorySpec] is met by the repository in memory; that of
      PostgreSQL refuses to audit unknown participants (C33).
    - [Registry], [Sql], [PostgresRegistry] (registry/service.py),
      [RegistryTheorems]: both registries meet [RegistrySpec]; search (C15),
      the life cycle of entries (C16), and the round trip through table rows,
      whose instants come back in UTC (C17).
    - [Pydantic], [Executor] (nodes/executor.py), [ExecutorSpec],
      [ExecutorTheorems]: publication only after topology validation and
      governance approval, unless the sink has no input pipe bound to a
      bucket (C18), the topology validator (C19) and what a validation records
      (C20), both with their replays, what a publication does (C21).
    - [Shadow] (runtime/shadow.py), [ShadowTheorems]: the bound on parallel
      shadows (C22), shadows made under a fresh key do not leave (C23),
      promotion of mutations (C24).
    - [Genesis] (genesis/service.py), [GenesisTheorems]: intents are
      received once (C25); launches and proposals are idempotent (C26).
    - [PostgresRuntime] (runtime/postgres.py), [PostgresSpec],
      [PostgresInvariant], [PostgresReplay], [PostgresTheorems]:
      [PostgresCardRuntime] over ten tables, a transaction per method.
      For calls in sequence leases exclude each other, locations say where
      cards are and when, and history and released leases stay as they were
      (C27); a call that raises changes nothing, and a repeated call answers
      the current rows of the same objects (C28); claims stop working with
      two panels (C29).
    - [Transactions], [LeaseStore] (runtime/sqlalchemy_store.py and
      [claim_card] of runtime/postgres.py), [LeaseGuard], [LeaseTheorems],
      [ClaimRace]: methods as programs of statements, run alone or interleaved under READ
      COMMITTED with row locks. The lease store excludes (C30) and ends
      (C31); two calls of [claim_card] that find one card both lease it
      (C32).
    - [PostgresAuth] (auth/repositories.py), [PostgresAuthTheorems]: the
      authorization tables refine the repository in memory (C33).
    - [Boundaries] (boundaries.py), [BoundaryTheorems]: ingress is
      authorized and happens once (C34).
    - [Loader] (patchpanel/loader.py), [Bootstrap] (defaults/bootstrap.py),
      [PanelStores], [BootstrapTheorems]: the packaged panels, on any
      runtime and registry.
    - [Observability] (observability.py), [ObservabilityTheorems]: the
      metrics agree with the runtime they summarise (C38).
    - [Config] (config.py), [Startup] (bootstrap.py), [AuthorityStore],
      [StartupTheorems]: the choice of backends, as sums of the two classes;
      initialization makes the system ready and is idempotent (C37).
    - [Api] (api/main.py), [ApiTheorems]: a definition per route; who may do
      what (C35). [Mcp] (mcp/server.py), [McpTheorems]: the tools act as the
      routes, the boundary tools up to the context they audit (C36). [Application] ([create_app], [bind_app], cli.py): both
      on an initialized system.
    - [ArtifactStores] (artifacts/store.py, sdk/worker.py),
      [ArtifactStoreTheorems]: uploads are kept (C39).
    - [Ddl], [Migrations] (src/alembic, persistence/tables.py),
      [MigrationTheorems]: a static check of migrations, sound for every
      database, that the six revisions pass in both directions (C40).

    ** Not modelled

    Log lines, logging.py and db.py, which only call their libraries; the
    delivery of requests by FastAPI, FastMCP and uvicorn, and the schemas of
    responses; the offline mode of Alembic. A Python process serves one call
    at a time here; concurrency is modelled where processes meet, in the
    transactions of the lease store and of [claim_card]. *)
From Stdlib Require Import ZArith QArith Ascii String.
From stdpp Require Export base tactics list strings numbers relations.

(** ** Exceptions and results *)

(** The exceptions the code raises ([runtime/errors.py],
    [patchpanel/errors.py]) and the ones its Python primitives raise.
    [ValidationError] is pydantic's, a [ValueError] like every other error
    of this type that the code catches as [ValueError]. *)
Inductive exn : Type :=
  | NotFoundError (msg : string)
  | ConflictError (msg : string)
  | InvalidOperationError (msg : string)
  | PatchPanelLoadError (msg : string)
  | PatchPanelValidationError (errors : list string)
  | PermissionError (msg : string)
  | LookupError (msg : string)
  | RuntimeError (msg : string)
  | SystemExit (msg : string)
  | ValueError (msg : string)
  | ValidationError (msg : string)
  | KeyError (key : string)
  | IndexError (msg : string)
  | TypeError (msg : string)
  | OverflowError
  | HTTPException (status : Z) (detail : string)
  | IntegrityError (msg : string)
  | DataError (msg : string)
  | ProgrammingError (msg : string)
  | StatementError (msg : string)
  | HTTPStatusError (status : Z) (msg : string)
  | OSError (msg : string).

Inductive res (A : Type) : Type :=
  | Ok (a : A)
  | Raise (e : exn).
Arguments Ok {A} a.
Arguments Raise {A} e.

#[export] Instance res_ret : MRet res := fun A a => Ok a.
#[export] Instance res_bind : MBind res := fun A B f m =>
  match m with Ok a => f a | Raise e => Raise e end.

Definition is_ok {A} (r : res A) : Prop := exists a, r = Ok a.

(** ** The state and exception monad

    A computation owns a state [S] and the position of the two oracles every
    part of the program shares: the wall clock and the UUID generator. A
    raised exception keeps the state reached so far, as in Python: nothing
    rolls back the mutations made before the [raise]. *)
Record Env : Type := mkEnv { now_ctr : nat; uuid_ctr : nat }.

(** Later positions. *)
Definition env_le (e e' : Env) : Prop :=
  (now_ctr e <= now_ctr e')%nat /\ (uuid_ctr e <= uuid_ctr e')%nat.

Definition M (S A : Type) : Type := S * Env -> res A * (S * Env).

#[export] Instance M_ret {S} : MRet (M S) := fun A a s => (Ok a, s).
#[export] Instance M_bind {S} : MBind (M S) := fun A B f m s =>
  match m s with
  | (Ok a, s') => f a s'
  | (Raise e, s') => (Raise e, s')
  end.

Definition raise {S A} (e : exn) : M S A := fun s => (Raise e, s).
Definition lift_res {S A} (r : res A) : M S A := fun s => (r, s).
Definition get {S} : M S S := fun s => (Ok s.1, s).
Definition put {S} (st : S) : M S unit := fun s => (Ok tt, (st, s.2)).
Definition modify {S} (f : S -> S) : M S unit := fun s => (Ok tt, (f s.1, s.2)).

(** Running a component's computation on the part of a larger state that
    holds the component. *)
Definition zoom {S T A} (sel : S -> T) (upd : T -> S -> S) (m : M T A) : M S A :=
  fun s =>
    let '(r, (t, e)) := m (sel s.1, s.2) in (r, (upd t s.1, e)).

Fixpoint forM {S A} (l : list A) (f : A -> M S unit) : M S unit :=
  match l with
  | [] => mret tt
  | a :: l' => f a ≫= fun _ => forM l' f
  end.

(** [[f(x) for x in l]] over a function with effects. *)
Fixpoint mapE {S A B} (f : A -> M S B) (l : list A) : M S (list B) :=
  match l with
  | [] => mret []
  | a :: l' => b ← f a; bs ← mapE f l'; mret (b :: bs)
  end.

(** [any(p(x) for x in l)] over a predicate that can raise: stops at the
    first [True], as the generator does. *)
Fixpoint any_res {A} (p : A -> res bool) (l : list A) : res bool :=
  match l with
  | [] => Ok false
  | a :: l' => b ← p a; if (b : bool) then Ok true else any_res p l'
  end.

(** [next((x for x in l if p(x)), None)] over a predicate with effects. *)
Fixpoint nextM {S A} (p : A -> M S bool) (l : list A) : M S (option A) :=
  match l with
  | [] => mret None
  | a :: l' => b ← p a; if (b : bool) then mret (Some a) else nextM p l'
  end.

(** [next((x for x in l if p(x)), None)]. *)
Definition py_next {A} (p : A -> bool) (l : list A) : option A := List.find p l.

(** [[x for x in l if p(x)]]. *)
Definition py_filter {A} (p : A -> bool) (l : list A) : list A := List.filter p l.

(** [[x for x in l if p(x)]] over a predicate that can raise. *)
Fixpoint filter_res {A} (p : A -> res bool) (l : list A) : res (list A) :=
  match l with
  | [] => Ok []
  | a :: l' =>
      b ← p a; l'' ← filter_res p l';
      Ok (if (b : bool) then a :: l'' else l'')
  end.

(** [[f(x) for x in l]] over a function that can raise. *)
Fixpoint map_res {A B} (f : A -> res B) (l : list A) : res (list B) :=
  match l with
  | [] => Ok []
  | a :: l' => b ← f a; bs ← map_res f l'; Ok (b :: bs)
  end.

(** Truth value of an optional string: [None] and [""] are false. *)
Definition truthy (o : option string) : bool :=
  match o with Some s => negb (bool_decide (s = "")) | None => false end.

(** [a or b] on an optional string. *)
Definition str_or (o : option string) (d : string) : string :=
  match o with Some s => if truthy o then s else d | None => d end.

Definition opt_or (o : option string) (d : option string) : option string :=
  if truthy o then o else d.

Definition str_in (s : string) (l : list string) : bool := bool_decide (s ∈ l).

(** ** Dictionaries

    A Python [dict] keeps the insertion order of its keys; the code depends
    on it (the first registered panel, the first claimable card), so a
    dictionary is an association list: assignment to an existing key
    replaces the value in place and a new key goes last. *)
Section dict.
Context {K V : Type} `{EqDecision K}.

Fixpoint dict_get (k : K) (d : list (K * V)) : option V :=
  match d with
  | [] => None
  | (k', v) :: d' => if decide (k = k') then Some v else dict_get k d'
  end.

Fixpoint dict_set (k : K) (v : V) (d : list (K * V)) : list (K * V) :=
  match d with
  | [] => [(k, v)]
  | (k', v') :: d' =>
      if decide (k = k') then (k', v) :: d' else (k', v') :: dict_set k v d'
  end.

Definition dict_values (d : list (K * V)) : list V := d.*2.
Definition dict_keys (d : list (K * V)) : list K := d.*1.
Definition dict_mem (k : K) (d : list (K * V)) : bool :=
  match dict_get k d with Some _ => true | None => false end.

(** [d.update(d')], also the display [{**d, **d'}]. *)
Definition dict_update (d d' : list (K * V)) : list (K * V) :=
  foldl (fun acc kv => dict_set kv.1 kv.2 acc) d d'.

Definition dict_of_list (l : list (K * V)) : list (K * V) := dict_update [] l.

Lemma dict_get_set_eq k v d : dict_get k (dict_set k v d) = Some v.
Proof. induction d as [|[k' v'] d IH]; simpl; repeat (case_decide; simpl); congruence. Qed.

Lemma dict_get_set_ne k k' v d : k' <> k -> dict_get k' (dict_set k v d) = dict_get k' d.
Proof.
  intros ?. induction d as [|[j w] d IH]; simpl; repeat (case_decide; simpl); congruence.
Qed.

Lemma dict_get_set k k' v d :
  dict_get k' (dict_set k v d) = if decide (k' = k) then Some v else dict_get k' d.
Proof. case_decide as H; [subst; apply dict_get_set_eq | by apply dict_get_set_ne]. Qed.

Lemma dict_get_elem k v d : dict_get k d = Some v -> (k, v) ∈ d.
Proof.
  induction d as [|[k' v'] d IH]; simpl; [done|].
  case_decide; intros; simplify_eq; [left | right; auto].
Qed.

Lemma dict_get_value k v d : dict_get k d = Some v -> v ∈ dict_values d.
Proof. intros H%dict_get_elem. apply list_elem_of_fmap. by exists (k, v). Qed.

Lemma dict_get_key k v d : dict_get k d = Some v -> k ∈ dict_keys d.
Proof. intros H%dict_get_elem. apply list_elem_of_fmap. by exists (k, v). Qed.

Lemma dict_key_get k d : k ∈ dict_keys d -> is_Some (dict_get k d).
Proof.
  induction d as [|[k' v'] d IH]; simpl; [by intros ?%elem_of_nil|].
  intros [->|Hk]%elem_of_cons; case_decide; eauto; done.
Qed.

Lemma dict_elem_get k v d : NoDup (dict_keys d) -> (k, v) ∈ d -> dict_get k d = Some v.
Proof.
  induction d as [|[k' v'] d IH]; simpl; intros Hnd Hin; [by apply elem_of_nil in Hin|].
  apply NoDup_cons in Hnd as [Hk Hnd].
  apply elem_of_cons in Hin as [?|Hin]; simplify_eq.
  - by rewrite decide_True.
  - rewrite decide_False; [auto|]. intros ->. apply Hk, list_elem_of_fmap. by exists (k', v).
Qed.

Lemma dict_value_get v d :
  NoDup (dict_keys d) -> v ∈ dict_values d -> exists k, dict_get k d = Some v.
Proof.
  intros Hnd ([k w] & -> & Hin)%list_elem_of_fmap. exists k. by apply dict_elem_get.
Qed.

Lemma dict_set_keys_elem k v d k' : k' ∈ dict_keys (dict_set k v d) <-> k' = k \/ k' ∈ dict_keys d.
Proof.
  induction d as [|[j w] d IH]; simpl.
  - rewrite elem_of_cons. set_solver.
  - case_decide; simpl; [subst; set_solver|]. rewrite !elem_of_cons, IH. tauto.
Qed.

Lemma dict_set_NoDup k v d : NoDup (dict_keys d) -> NoDup (dict_keys (dict_set k v d)).
Proof.
  induction d as [|[j w] d IH]; simpl; intros Hnd; [apply NoDup_singleton|].
  apply NoDup_cons in Hnd as [Hj Hnd]. case_decide; simpl; apply NoDup_cons; split; auto.
  rewrite (dict_set_keys_elem k v d j). intros [->|]; tauto.
Qed.

Lemma dict_set_values_elem k v d v' :
  v' ∈ dict_values (dict_set k v d) -> v' = v \/ v' ∈ dict_values d.
Proof.
  induction d as [|[j w] d IH]; simpl; [intros ?%list_elem_of_singleton; auto|].
  case_decide; simpl; rewrite !elem_of_cons; tauto.
Qed.

Lemma dict_set_same k v d : dict_get k d = Some v -> dict_set k v d = d.
Proof.
  induction d as [|[j w] d IH]; simpl; [done|].
  case_decide; intros; simplify_eq; [done | by rewrite IH].
Qed.

Lemma dict_set_keys_same k v d : k ∈ dict_keys d -> dict_keys (dict_set k v d) = dict_keys d.
Proof.
  induction d as [|[j w] d IH]; simpl; [by intros ?%elem_of_nil|].
  intros Hk. case_decide; simpl; [done|]. f_equal. apply IH.
  apply elem_of_cons in Hk as [|]; done.
Qed.

Lemma dict_mem_true k d : dict_mem k d = true <-> k ∈ dict_keys d.
Proof.
  unfold dict_mem. split.
  - destruct (dict_get k d) eqn:E; [intros _; by eapply dict_get_key | done].
  - intros [v ->]%dict_key_get; done.
Qed.

Lemma dict_mem_false k d : dict_mem k d = false <-> dict_get k d = None.
Proof. unfold dict_mem. destruct (dict_get k d); split; congruence. Qed.

Lemma dict_update_get k (d l : list (K * V)) :
  dict_get k (dict_update d l) =
    match dict_get k (reverse l) with Some v => Some v | None => dict_get k d end.
Proof.
  unfold dict_update. induction l as [|[j w] l IH] using rev_ind; simpl; [done|].
  rewrite foldl_app, reverse_snoc; simpl. rewrite dict_get_set, IH. by repeat case_decide.
Qed.

Lemma dict_update_NoDup (d l : list (K * V)) :
  NoDup (dict_keys d) -> NoDup (dict_keys (dict_update d l)).
Proof.
  unfold dict_update. revert d. induction l as [|[j w] l IH]; simpl; intros d Hd; [done|].
  by apply IH, dict_set_NoDup.
Qed.

Lemma dict_update_keys_elem (d l : list (K * V)) k :
  k ∈ dict_keys (dict_update d l) <-> k ∈ dict_keys d \/ k ∈ dict_keys l.
Proof.
  unfold dict_update. revert d. induction l as [|[j w] l IH]; simpl; intros d.
  - set_solver.
  - rewrite IH, dict_set_keys_elem. simpl. rewrite elem_of_cons. tauto.
Qed.

Lemma dict_of_list_elem k v (l : list (K * V)) : dict_get k (dict_of_list l) = Some v -> (k, v) ∈ l.
Proof.
  unfold dict_of_list. rewrite dict_update_get. simpl.
  destruct (dict_get k (reverse l)) eqn:E; [|done]. intros [= ->].
  apply dict_get_elem in E. by apply elem_of_reverse.
Qed.

Lemma dict_of_list_get k v (l : list (K * V)) :
  NoDup (l.*1) -> dict_get k (dict_of_list l) = Some v <-> (k, v) ∈ l.
Proof.
  intros Hnd. split; [apply dict_of_list_elem|].
  intros Hin. unfold dict_of_list. rewrite dict_update_get.
  rewrite (dict_elem_get k v (reverse l)); [done| |].
  - unfold dict_keys. rewrite fmap_reverse. by rewrite reverse_Permutation.
  - by apply elem_of_reverse.
Qed.

Lemma dict_of_list_keys k (l : list (K * V)) : k ∈ dict_keys (dict_of_list l) <-> k ∈ l.*1.
Proof. unfold dict_of_list. rewrite dict_update_keys_elem. simpl. set_solver. Qed.

(** Two dictionaries that answer every lookup alike (their orders may
    differ). *)
Definition dict_equiv (d d' : list (K * V)) : Prop := forall k, dict_get k d = dict_get k d'.

#[export] Instance dict_equiv_equivalence : Equivalence dict_equiv.
Proof. split; repeat intro; congruence. Qed.

#[export] Instance dict_get_proper : Proper ((=) ==> dict_equiv ==> (=)) dict_get.
Proof. intros k ? <- d d' H. apply H. Qed.

#[export] Instance dict_set_proper : Proper ((=) ==> (=) ==> dict_equiv ==> dict_equiv) dict_set.
Proof. intros k ? <- v ? <- d d' H j. rewrite !dict_get_set, H. done. Qed.

Lemma dict_set_comm k k' v v' d :
  k <> k' -> dict_equiv (dict_set k v (dict_set k' v' d)) (dict_set k' v' (dict_set k v d)).
Proof. intros Hne j. rewrite !dict_get_set. by repeat case_decide; subst. Qed.
End dict.

(** ** Generic lemmas *)
Lemma py_next_some {A} (p : A -> bool) l a : py_next p l = Some a -> a ∈ l /\ p a = true.
Proof. intros [H ?]%List.find_some. split; [by apply list_elem_of_In | done]. Qed.

Lemma py_next_none {A} (p : A -> bool) l : py_next p l = None <-> (forall a, a ∈ l -> p a = false).
Proof.
  split.
  - intros H a Ha. eapply List.find_none; [exact H | by apply list_elem_of_In].
  - induction l as [|b l IH]; simpl; intros H; [done|].
    rewrite (H b) by left. apply IH. intros a Ha. apply H. by right.
Qed.

Lemma elem_of_py_filter {A} (p : A -> bool) l a : a ∈ py_filter p l <-> a ∈ l /\ p a = true.
Proof. unfold py_filter. rewrite !list_elem_of_In. apply List.filter_In. Qed.

Lemma str_in_true s l : str_in s l = true <-> s ∈ l.
Proof. unfold str_in. by rewrite bool_decide_eq_true. Qed.

Lemma str_in_false s l : str_in s l = false <-> s ∉ l.
Proof. unfold str_in. by rewrite bool_decide_eq_false. Qed.

Lemma any_res_total {A} (p : A -> res bool) (q : A -> bool) l :
  (forall a, a ∈ l -> p a = Ok (q a)) -> any_res p l = Ok (existsb q l).
Proof.
  induction l as [|a l IH]; intros H; [done|]. cbn [any_res existsb].
  rewrite (H a) by left. cbn. destruct (q a); [done|].
  apply IH. intros b Hb. apply H. by right.
Qed.

Lemma py_filter_perm {A} (p : A -> bool) (l l' : list A) : l ≡ₚ l' -> py_filter p l ≡ₚ py_filter p l'.
Proof.
  unfold py_filter. induction 1 as [|x l l' _ IH|x y l|]; simpl; [done | | |by etrans].
  - destruct (p x); [by rewrite IH | done].
  - destruct (p x), (p y); try done. constructor.
Qed.

Lemma py_filter_none {A} (p : A -> bool) l : (forall x, x ∈ l -> p x = false) -> py_filter p l = [].
Proof.
  intros Hp. apply elem_of_nil_inv. intros x [Hx Hpx]%elem_of_py_filter. by rewrite Hp in Hpx.
Qed.

Lemma py_filter_map {A B} (f : A -> B) (p : B -> bool) l :
  py_filter p (map f l) = map f (py_filter (fun a => p (f a)) l).
Proof.
  unfold py_filter. induction l as [|a l IH]; cbn; [done|]. destruct (p (f a)); cbn; by rewrite IH.
Qed.

Lemma py_filter_and {A} (p q : A -> bool) l :
  (forall a, a ∈ l -> q a = true -> p a = true) -> py_filter q (py_filter p l) = py_filter q l.
Proof.
  unfold py_filter. induction l as [|a l IH]; intros Hl; cbn; [done|].
  assert (Hrest : forall b, b ∈ l -> q b = true -> p b = true) by (intros b Hb; apply Hl; by right).
  destruct (p a) eqn:Ep; cbn; [by rewrite IH|]. destruct (q a) eqn:Eq; [|by apply IH].
  rewrite (Hl a) in Ep; [done | by left | done].
Qed.

Lemma filter_res_total {A} (p : A -> res bool) (q : A -> bool) l :
  (forall a, a ∈ l -> p a = Ok (q a)) -> filter_res p l = Ok (py_filter q l).
Proof.
  induction l as [|a l IH]; intros H; [done|]. cbn [filter_res].
  rewrite (H a) by left. cbn. rewrite IH; [by destruct (q a) | intros b Hb; apply H; by right].
Qed.

Lemma map_res_total {A B} (f : A -> res B) (g : A -> B) l :
  (forall a, a ∈ l -> f a = Ok (g a)) -> map_res f l = Ok (map g l).
Proof.
  induction l as [|a l IH]; intros H; [done|]. cbn [map_res].
  rewrite (H a) by left. cbn. rewrite IH; [done | intros b Hb; apply H; by right].
Qed.

Lemma existsb_true {A} (q : A -> bool) l : existsb q l = true <-> exists a, a ∈ l /\ q a = true.
Proof. rewrite existsb_exists. by setoid_rewrite list_elem_of_In. Qed.

Lemma existsb_false {A} (q : A -> bool) l :
  existsb q l = false <-> forall a, a ∈ l -> q a = false.
Proof.
  rewrite <- not_true_iff_false, existsb_true. split.
  - intros H a Ha. destruct (q a) eqn:E; [|done]. destruct H; eauto.
  - intros H (a & Ha & E). rewrite H in E; done.
Qed.

Lemma flat_map_nil {A B} (f : A -> list B) l : flat_map f l = [] <-> forall a, a ∈ l -> f a = [].
Proof.
  induction l as [|a l IH]; simpl.
  - split; [by intros _ ? ?%elem_of_nil | done].
  - split.
    + intros [Ha Hl]%app_eq_nil. intros b [->|Hb]%elem_of_cons; [done | by apply IH].
    + intros Hf. rewrite (Hf a) by left. apply IH. intros b Hb. apply Hf. by right.
Qed.

Lemma tc_mono {A} (R R' : relation A) x y : (forall a b, R a b -> R' a b) -> tc R x y -> tc R' x y.
Proof. intros HR. exact (tc_congruence id R' x y HR). Qed.

(** Elements of a list with distinct keys are equal when their keys are. *)
Lemma NoDup_map_inj {A B} (f : A -> B) l x y :
  NoDup (map f l) -> x ∈ l -> y ∈ l -> f x = f y -> x = y.
Proof.
  induction l as [|a l IH]; intros Hnd Hx Hy Hxy; [by apply elem_of_nil in Hx|].
  cbn in Hnd. apply NoDup_cons in Hnd as [Ha Hnd]. rewrite !elem_of_cons in *.
  destruct Hx as [->|Hx], Hy as [->|Hy]; auto; destruct Ha; apply list_elem_of_fmap; eauto.
Qed.

Lemma filter_NoDup_map {A B} (f : A -> B) p (l : list A) :
  NoDup (map f l) -> NoDup (map f (py_filter p l)).
Proof.
  unfold py_filter. induction l as [|a l IH]; simpl; [done|].
  intros [Ha Hl]%NoDup_cons. destruct (p a); simpl; [|auto]. apply NoDup_cons. split; [|auto].
  intros (b & Hb & Hin)%list_elem_of_fmap. apply Ha, list_elem_of_fmap. exists b.
  split; [done|]. by apply (elem_of_py_filter p) in Hin as [? _].
Qed.

Lemma elem_of_concat {A} (x : A) ls : x ∈ concat ls <-> exists l, l ∈ ls /\ x ∈ l.
Proof. rewrite list_elem_of_In, in_concat. by setoid_rewrite list_elem_of_In. Qed.

Lemma NoDup_map_on {A B C} (f : A -> B) (g : A -> C) l :
  NoDup (map f l) -> (forall x y, x ∈ l -> y ∈ l -> g x = g y -> f x = f y) -> NoDup (map g l).
Proof.
  induction l as [|a l IH]; intros Hnd Hg; [apply NoDup_nil_2|]. cbn in *.
  apply NoDup_cons in Hnd as [Ha Hnd]. apply NoDup_cons. split.
  - intros (y & Hy & Hin)%list_elem_of_fmap. apply Ha, list_elem_of_fmap. exists y.
    split; [|done]. apply Hg; [by left | by right | done].
  - apply IH; [done|]. intros x y Hx Hy. apply Hg; by right.
Qed.

(** ** Weakest preconditions

    [wp m Q s]: running [m] from [s] ends in a result and a state of [Q]. *)
Definition wp {S A} (m : M S A) (Q : res A -> S * Env -> Prop) (s : S * Env) : Prop :=
  Q (m s).1 (m s).2.
Arguments wp {S A} m Q s : simpl never.

Section wp.
Context {S A B : Type}.
Implicit Types (s : S * Env).

Lemma wp_ret (a : A) (Q : res A -> S * Env -> Prop) s : Q (Ok a) s -> wp (mret a) Q s.
Proof. done. Qed.

Lemma wp_raise e (Q : res A -> S * Env -> Prop) s : Q (Raise e) s -> wp (raise e) Q s.
Proof. done. Qed.

Lemma wp_lift_res (r : res A) (Q : res A -> S * Env -> Prop) s : Q r s -> wp (lift_res r) Q s.
Proof. done. Qed.

Lemma wp_get (Q : res S -> S * Env -> Prop) s : Q (Ok s.1) s -> wp get Q s.
Proof. done. Qed.

Lemma wp_put st (Q : res unit -> S * Env -> Prop) s : Q (Ok tt) (st, s.2) -> wp (put st) Q s.
Proof. done. Qed.

Lemma wp_modify f (Q : res unit -> S * Env -> Prop) s :
  Q (Ok tt) (f s.1, s.2) -> wp (modify f) Q s.
Proof. done. Qed.

Lemma wp_bind (m : M S A) (f : A -> M S B) Q s :
  wp m (fun r s' => match r with Ok a => wp (f a) Q s' | Raise e => Q (Raise e) s' end) s ->
  wp (m ≫= f) Q s.
Proof. unfold wp, mbind, M_bind. by destruct (m s) as [[a|e] s']. Qed.

Lemma wp_mono (m : M S A) (Q Q' : res A -> S * Env -> Prop) s :
  wp m Q s -> (forall r s', Q r s' -> Q' r s') -> wp m Q' s.
Proof. unfold wp. auto. Qed.

Lemma wp_conj (m : M S A) (Q Q' : res A -> S * Env -> Prop) s :
  wp m Q s -> wp m Q' s -> wp m (fun r s' => Q r s' /\ Q' r s') s.
Proof. by unfold wp. Qed.

End wp.

Lemma wp_forM {S A} (l : list A) (f : A -> M S unit) (I : S * Env -> Prop) s :
  I s -> (forall a s', a ∈ l -> I s' -> wp (f a) (fun r s'' => r = Ok tt /\ I s'') s') ->
  wp (forM l f) (fun r s' => r = Ok tt /\ I s') s.
Proof.
  revert s. induction l as [|a l IH]; intros s Hs Hf; cbn [forM]; [done|].
  apply wp_bind. eapply wp_mono; [apply Hf; [left | done]|].
  intros r s' [-> Hs']. apply IH; [done|]. intros b s'' Hb. apply Hf. by right.
Qed.

(** Effects that leave the state alone keep every invariant of it. *)
Lemma wp_mapE {S A B} (f : A -> M S B) (g : A -> B -> Prop) (I : S * Env -> Prop) l s :
  I s -> (forall a s', I s' -> wp (f a) (fun r s'' => exists b, r = Ok b /\ g a b /\ I s'') s') ->
  wp (mapE f l) (fun r s' => exists bs, r = Ok bs /\ Forall2 g l bs /\ I s') s.
Proof.
  intros Hs Hf. revert s Hs. induction l as [|a l IH]; intros s Hs; cbn [mapE].
  { apply wp_ret. exists []. split; [done|]. split; [constructor | done]. }
  apply wp_bind. eapply wp_mono; [by apply Hf|]. intros r s1 (b & -> & Hb & Hs1).
  apply wp_bind. eapply wp_mono; [by apply IH|]. intros r s2 (bs & -> & Hbs & Hs2).
  apply wp_ret. exists (b :: bs). split; [done|]. split; [by constructor | done].
Qed.

Lemma wp_zoom {S T A} (sel : S -> T) upd (m : M T A) (Q : res A -> S * Env -> Prop) s :
  wp m (fun r t => Q r (upd t.1 s.1, t.2)) (sel s.1, s.2) -> wp (zoom sel upd m) Q s.
Proof. unfold wp, zoom. by destruct (m (sel s.1, s.2)) as [r [t e]]. Qed.

Lemma wp_run {S A} (m : M S A) r s s' (Q : res A -> S * Env -> Prop) :
  m s = (r, s') -> Q r s' -> wp m Q s.
Proof. unfold wp. by intros ->. Qed.

Lemma mapE_reads {S A B} (f : A -> M S B) (g : A -> B) l s :
  (forall a, a ∈ l -> f a s = (Ok (g a), s)) -> mapE f l s = (Ok (map g l), s).
Proof.
  induction l as [|a l IH]; intros Hf; [done|]. cbn [mapE map]. unfold mbind at 1, M_bind at 1.
  rewrite Hf by left. unfold mbind at 1, M_bind at 1. rewrite IH; [done|].
  intros b ?. apply Hf. by right.
Qed.

Create HintDb ghost.
Create HintDb dict.
Create HintDb enum.
Create HintDb rt.
#[export] Hint Resolve dict_get_set_eq dict_set_NoDup dict_get_value dict_get_key : ghost.
#[export] Hint Rewrite @dict_get_set_eq : dict.

(** Symbolic execution of one monadic step. *)
Ltac wp_step :=
  lazymatch goal with
  | |- wp (mbind _ _) _ _ => apply wp_bind
  | |- wp (mret _) _ _ => apply wp_ret
  | |- wp (raise _) _ _ => apply wp_raise
  | |- wp (lift_res _) _ _ => apply wp_lift_res
  | |- wp get _ _ => apply wp_get
  | |- wp (put _) _ _ => apply wp_put
  | |- wp (modify _) _ _ => apply wp_modify
  end; cbn beta iota.
Ltac wp_steps := repeat wp_step.

(** ** Positions of the oracles *)
Lemma env_le_refl e : env_le e e.
Proof. split; lia. Qed.
Lemma env_le_trans e1 e2 e3 : env_le e1 e2 -> env_le e2 e3 -> env_le e1 e3.
Proof. unfold env_le. lia. Qed.
#[export] Hint Resolve env_le_refl : ghost.
