(* ===== verification/Values.v ===== *)
(** * Python values

    The values the program stores without looking at their type ([Any]):
    JSON documents, UUIDs, instants, and the string functions of the
    language that the code applies to them. The two sources of
    nondeterminism of the program, [datetime.now(UTC)] and [uuid4()], are
    oracles: the n-th call of the run gets the n-th answer. *)
From Stdlib Require Import ZArith QArith Ascii String.
From stdpp Require Import pretty.
From S2P Require Import Prelude.
Open Scope string_scope.
Open Scope list_scope.

(** ** Documents *)

(** A JSON-like value. A float carries its exact value and its [repr]. *)
Inductive value : Type :=
  | VNone
  | VBool (b : bool)
  | VInt (z : Z)
  | VFloat (q : Q) (repr : string)
  | VStr (s : string)
  | VList (l : list value)
  | VDict (d : list (string * value)).

Abbreviation doc := (list (string * value)).

(** [d.get(k)]. *)
Definition vget (k : string) (d : doc) : value :=
  match dict_get k d with Some v => v | None => VNone end.

Definition v_opt_str (o : option string) : value :=
  match o with Some s => VStr s | None => VNone end.

(** Truth value of a document. *)
Definition v_truthy (v : value) : bool :=
  match v with
  | VNone => false
  | VBool b => b
  | VInt z => negb (bool_decide (z = 0%Z))
  | VFloat q _ => negb (Qeq_bool q 0)
  | VStr s => negb (bool_decide (s = ""))
  | VList l => match l with [] => false | _ => true end
  | VDict d => match d with [] => false | _ => true end
  end.

(** [v is True]. *)
Definition v_is_true (v : value) : bool := match v with VBool true => true | _ => false end.

(** [v == s] for a string [s]. *)
Definition v_eq_str (v : value) (s : string) : bool :=
  match v with VStr t => bool_decide (t = s) | _ => false end.

(** Lists and dictionaries have no hash: [v in a_set] raises on them. *)
Definition hashable (v : value) : bool :=
  match v with VList _ | VDict _ => false | _ => true end.

(** ** Strings *)
Fixpoint str_concat (sep : string) (l : list string) : string :=
  match l with
  | [] => ""
  | [s] => s
  | s :: l' => s +:+ sep +:+ str_concat sep l'
  end.

(** [", ".join(...)]. *)
Definition comma_join : list string -> string := str_concat ", ".

(** [sorted(...)] of strings. *)
Fixpoint str_insert (s : string) (l : list string) : list string :=
  match l with
  | [] => [s]
  | t :: l' => if String.leb s t then s :: l else t :: str_insert s l'
  end.

Definition str_sorted (l : list string) : list string := foldr str_insert [] l.

(** [s.split(sep, maxsplit=1)]: the part before the first separator and the
    part after it when there is one. *)
Fixpoint split_first (sep : ascii) (s : string) : string * option string :=
  match s with
  | EmptyString => ("", None)
  | String c s' =>
      if decide (c = sep) then ("", Some s')
      else let '(a, b) := split_first sep s' in (String c a, b)
  end.

(** [s.rsplit(sep, 1)]: the same around the last separator. *)
Fixpoint split_last (sep : ascii) (s : string) : string * option string :=
  match s with
  | EmptyString => ("", None)
  | String c s' =>
      match split_last sep s' with
      | (a, Some b) => (String c a, Some b)
      | (a, None) => if decide (c = sep) then ("", Some s') else (String c a, None)
      end
  end.

(** [s.split(sep)]. *)
Fixpoint split_all (sep : ascii) (s : string) : list string :=
  match s with
  | EmptyString => [""]
  | String c s' =>
      if decide (c = sep) then "" :: split_all sep s'
      else match split_all sep s' with
           | a :: l => String c a :: l
           | [] => [String c ""]
           end
  end.

Definition is_space (c : ascii) : bool :=
  let n := N_of_ascii c in
  bool_decide (n = 32%N) || (N.leb 9 n && N.leb n 13) || (N.leb 28 n && N.leb n 31).

Fixpoint lstrip_by (drop : ascii -> bool) (s : string) : string :=
  match s with
  | String c s' => if drop c then lstrip_by drop s' else s
  | EmptyString => ""
  end.

Fixpoint rstrip_by (drop : ascii -> bool) (s : string) : string :=
  match s with
  | String c s' =>
      match rstrip_by drop s' with
      | EmptyString => if drop c then "" else String c ""
      | t => String c t
      end
  | EmptyString => ""
  end.

(** [s.strip(chars)], of a set of characters. *)
Definition strip_by (drop : ascii -> bool) (s : string) : string :=
  rstrip_by drop (lstrip_by drop s).

(** [s.strip()]. *)
Definition strip : string -> string := strip_by is_space.

(** [s.startswith(p)]. *)
Definition startswith (s p : string) : bool := String.prefix p s.

(** [s.removeprefix(p)]. *)
Definition removeprefix (p s : string) : string :=
  if startswith s p then String.substring (String.length p) (String.length s) s else s.

(** ** [str(v)] *)
Definition str_bool (b : bool) : string := if b then "True" else "False".

(** [repr] of a string without quotes or control characters of its own. *)
Definition str_repr (s : string) : string := "'" +:+ s +:+ "'".

Fixpoint v_repr (v : value) : string :=
  match v with
  | VNone => "None"
  | VBool b => str_bool b
  | VInt z => pretty z
  | VFloat _ r => r
  | VStr s => str_repr s
  | VList l => "[" +:+ comma_join (map v_repr l) +:+ "]"
  | VDict d =>
      "{" +:+ comma_join (map (fun kv => str_repr kv.1 +:+ ": " +:+ v_repr kv.2) d) +:+ "}"
  end.

Definition v_str (v : value) : string := match v with VStr s => s | _ => v_repr v end.

(** ** UUIDs *)

(** A UUID is its 128-bit integer; [str(u)] is the 8-4-4-4-12 hexadecimal
    form. *)
Abbreviation UUID := N.

Definition hex_digit (n : N) : ascii :=
  match String.get (N.to_nat n) "0123456789abcdef" with Some c => c | None => "0"%char end.

Fixpoint hex_digits (k : nat) (n : N) (acc : string) : string :=
  match k with
  | O => acc
  | S k' => hex_digits k' (N.shiftr n 4) (String (hex_digit (N.land n 15)) acc)
  end.

Definition uuid_str (u : UUID) : string :=
  let h := hex_digits 32 u "" in
  String.substring 0 8 h +:+ "-" +:+ String.substring 8 4 h +:+ "-" +:+
  String.substring 12 4 h +:+ "-" +:+ String.substring 16 4 h +:+ "-" +:+
  String.substring 20 12 h.

(** ** Instants *)

(** Microseconds since the epoch. [Aware] instants carry [tzinfo=UTC],
    [Naive] ones have no [tzinfo]; comparing one with the other raises. *)
Inductive datetime : Type :=
  | Aware (us : Z)
  | Naive (us : Z).

(** [value.replace(tzinfo=UTC)] when [tzinfo] is [None]. *)
Definition aware (t : datetime) : datetime :=
  match t with Naive us => Aware us | Aware us => Aware us end.

Definition is_aware (t : datetime) : Prop := exists us, t = Aware us.

Definition tz_mismatch : exn :=
  TypeError "can't compare offset-naive and offset-aware datetimes".

(** [a > b]. *)
Definition dt_gt (a b : datetime) : res bool :=
  match a, b with
  | Aware x, Aware y | Naive x, Naive y => Ok (Z.ltb y x)
  | _, _ => Raise tz_mismatch
  end.

(** [a <= b]. *)
Definition dt_le (a b : datetime) : res bool :=
  match a, b with
  | Aware x, Aware y | Naive x, Naive y => Ok (Z.leb x y)
  | _, _ => Raise tz_mismatch
  end.

(** [datetime.min] and [datetime.max]: 0001-01-01 and 9999-12-31. *)
Definition dt_min : Z := -62135596800000000.
Definition dt_max : Z := 253402300799999999.

(** [t + timedelta(seconds=seconds)]: outside the range of [datetime] (and
    of [timedelta], which is wider) Python raises [OverflowError]. *)
Definition dt_add_seconds (t : datetime) (seconds : Z) : res datetime :=
  let shift us := (us + seconds * 1000000)%Z in
  let ok us := Z.leb dt_min us && Z.leb us dt_max in
  match t with
  | Aware us => if ok (shift us) then Ok (Aware (shift us)) else Raise OverflowError
  | Naive us => if ok (shift us) then Ok (Naive (shift us)) else Raise OverflowError
  end.

(** ** The oracles *)
Class Oracle : Type := {
  clock_at : nat -> Z;
  uuid_at : nat -> UUID;
  isoformat : datetime -> string;
}.

(** The documented behaviour of the two: the clock does not go back, and
    [uuid4()] does not repeat itself. *)
Class OracleLaws `{Oracle} : Prop := {
  clock_mono : forall n m, (n <= m)%nat -> (clock_at n <= clock_at m)%Z;
  uuid_inj : forall n m, uuid_at n = uuid_at m -> n = m;
}.

Section oracle.
Context `{Oracle} {S : Type}.

(** [datetime.now(UTC)]. *)
Definition now : M S datetime := fun s =>
  (Ok (Aware (clock_at (now_ctr s.2))), (s.1, mkEnv (Datatypes.S (now_ctr s.2)) (uuid_ctr s.2))).

(** [uuid4()]. *)
Definition uuid4 : M S UUID := fun s =>
  (Ok (uuid_at (uuid_ctr s.2)), (s.1, mkEnv (now_ctr s.2) (Datatypes.S (uuid_ctr s.2)))).

Lemma wp_now (Q : res datetime -> S * Env -> Prop) s :
  Q (Ok (Aware (clock_at (now_ctr s.2))))
    (s.1, mkEnv (Datatypes.S (now_ctr s.2)) (uuid_ctr s.2)) ->
  wp now Q s.
Proof. done. Qed.

Lemma wp_uuid4 (Q : res UUID -> S * Env -> Prop) s :
  Q (Ok (uuid_at (uuid_ctr s.2)))
    (s.1, mkEnv (now_ctr s.2) (Datatypes.S (uuid_ctr s.2))) ->
  wp uuid4 Q s.
Proof. done. Qed.
End oracle.

Ltac wp_oracle_step := first [wp_step | apply wp_now | apply wp_uuid4]; cbn beta iota.

(** A concrete oracle: the clock advances one second at every reading and
    the generator counts. *)
Definition tick_oracle : Oracle := {|
  clock_at n := (1000000 * Z.of_nat n)%Z;
  uuid_at n := N.of_nat n;
  isoformat t := match t with Aware us => pretty us +:+ "Z" | Naive us => pretty us end;
|}.

Lemma tick_oracle_laws : @OracleLaws tick_oracle.
Proof. split; simpl; intros; lia. Qed.

(** ** Lemmas on strings *)
Lemma split_first_join sep a b :
  (split_first sep a).2 = None ->
  split_first sep (a +:+ String sep b) = (a, Some b).
Proof.
  induction a as [|c a IH]; simpl; [by rewrite decide_True|].
  case_decide; [done|]. destruct (split_first sep a) as [x y]; simpl in *.
  intros Hy. rewrite IH; done.
Qed.

Lemma split_last_join sep a b :
  (split_last sep b).2 = None ->
  split_last sep (a +:+ String sep b) = (a, Some b).
Proof.
  intros Hb. induction a as [|c a IH]; simpl.
  - destruct (split_last sep b) as [x y]; simpl in *. subst. by rewrite decide_True.
  - by rewrite IH.
Qed.

Lemma split_none sep s : (split_first sep s).2 = None <-> (split_last sep s).2 = None.
Proof.
  induction s as [|c s IH]; simpl; [done|].
  destruct (split_first sep s) as [a [b|]], (split_last sep s) as [a' [b'|]]; simpl in *;
    case_decide; simpl; naive_solver.
Qed.

Lemma aware_is_aware t : is_aware (aware t).
Proof. destruct t; eexists; done. Qed.

Lemma str_insert_elem s t l : t ∈ str_insert s l <-> t = s \/ t ∈ l.
Proof.
  induction l as [|u l IH]; simpl; [rewrite list_elem_of_singleton; set_solver|].
  destruct (String.leb s u); rewrite !elem_of_cons, ?IH; tauto.
Qed.

Lemma str_sorted_elem t l : t ∈ str_sorted l <-> t ∈ l.
Proof.
  unfold str_sorted. induction l as [|u l IH]; simpl; [done|].
  rewrite str_insert_elem, elem_of_cons, IH. done.
Qed.
