(* ===== verification/UuidText.v ===== *)
(** * Text of UUIDs

    [str.lower] on ASCII, hexadecimal digits, and the constructor
    [uuid.UUID(text)] with every form it takes. *)
From Stdlib Require Import ZArith Ascii String.
From S2P Require Import Prelude Values.
Open Scope string_scope.
Open Scope list_scope.

Definition lower_ascii (c : ascii) : ascii :=
  let n := N_of_ascii c in if N.leb 65 n && N.leb n 90 then ascii_of_N (n + 32) else c.
Fixpoint lower (s : string) : string :=
  match s with EmptyString => "" | String c s' => String (lower_ascii c) (lower s') end.

Definition hex_value (c : ascii) : option N :=
  let n := N_of_ascii c in
  if N.leb 48 n && N.leb n 57 then Some (n - 48)%N
  else if N.leb 97 n && N.leb n 102 then Some (n - 87)%N
  else if N.leb 65 n && N.leb n 70 then Some (n - 55)%N
  else None.

(** ** [UUID(text)] *)

(** [s.replace(p, "")], for a non-empty [p]. *)
Fixpoint remove_all (p s : string) (skip : nat) : string :=
  match s with
  | EmptyString => ""
  | String c s' =>
      match skip with
      | S k => remove_all p s' k
      | O => if startswith s p then remove_all p s' (pred (String.length p))
             else String c (remove_all p s' 0)
      end
  end.

Definition is_brace (c : ascii) : bool := str_in (String c "") ["{"; "}"].

(** The digits of [int(text, 16)]: single underscores may separate them.
    [ends]: the text may end here; [sep]: an underscore may follow. *)
Fixpoint hex_digits_of (s : string) (acc : N) (ends sep : bool) : option N :=
  match s with
  | EmptyString => if ends then Some acc else None
  | String c s' =>
      if decide (c = "_"%char) then if sep then hex_digits_of s' acc false false else None
      else match hex_value c with
           | Some d => hex_digits_of s' (acc * 16 + d)%N true true
           | None => None
           end
  end.

(** [int(text, 16)]: blanks around, a sign, a prefix [0x]. *)
Definition int16 (s : string) : option Z :=
  let unsigned s :=
    if startswith (lower s) "0x" then hex_digits_of (String.substring 2 (String.length s) s) 0 false true
    else hex_digits_of s 0 false false in
  match strip s with
  | String "-" s' => option_map (fun n => (- Z.of_N n)%Z) (unsigned s')
  | String "+" s' => option_map Z.of_N (unsigned s')
  | s' => option_map Z.of_N (unsigned s')
  end.

Definition UUID_of_text (text : string) : res UUID :=
  let hex := remove_all "-" (strip_by is_brace
               (remove_all "uuid:" (remove_all "urn:" text 0) 0)) 0 in
  if negb (Nat.eqb (String.length hex) 32)
  then Raise (ValueError "badly formed hexadecimal UUID string")
  else match int16 hex with
       | None => Raise (ValueError ("invalid literal for int() with base 16: " +:+ str_repr hex))
       | Some z => if Z.ltb z 0 then Raise (ValueError "int is out of range (need a 128-bit value)")
                   else Ok (Z.to_N z)
       end.
