(* ===== verification/UuidTheorems.v ===== *)
(** * UUIDs and text, lemmas

    [uuid_str] prints 32 digits and four dashes; [UUID(text)] reads back the
    UUID that was printed, so printing is injective, also in front of other
    text. Facts about single characters are decided over the alphabet. *)
From Stdlib Require Import ZArith Ascii String.
From S2P Require Import Prelude Values UuidText.
Open Scope string_scope.
Open Scope list_scope.

(** What [UUID(int=...)] holds. *)
Definition is_uuid (i : UUID) : Prop := (i < 2 ^ 128)%N.

(** ** Strings *)
Lemma app_cons c a b : String c a +:+ b = String c (a +:+ b).
Proof. done. Qed.

Lemma app_empty b : "" +:+ b = b.
Proof. done. Qed.

Lemma str_app_inj a b a' b' : String.length a = String.length a' ->
  a +:+ b = a' +:+ b' -> a = a' /\ b = b'.
Proof.
  revert a'. induction a as [|c a IH]; intros [|c' a']; try done.
  cbn [String.length]. rewrite !app_cons. intros [= Hl] [= -> Happ].
  by destruct (IH a' Hl Happ) as [-> ->].
Qed.

Lemma str_app_inj_l p a b : p +:+ a = p +:+ b -> a = b.
Proof. intros Hp. by apply str_app_inj in Hp as [_ ?]. Qed.

Lemma startswith_app p s : startswith (p +:+ s) p = true.
Proof.
  unfold startswith. induction p as [|c p IH]; [by destruct s|]. rewrite app_cons. cbn.
  by destruct (ascii_dec c c).
Qed.

Lemma substring_full s : forall n, (String.length s <= n)%nat -> substring 0 n s = s.
Proof. induction s as [|c s IH]; intros [|n] Hn; cbn in *; try done; try lia. f_equal. apply IH. lia. Qed.

Lemma substring_cut s : forall n m k,
  substring n m s +:+ substring (n + m) k s = substring n (m + k) s.
Proof.
  induction s as [|c s IH]; intros n m k; destruct n as [|n], m as [|m]; cbn; try done.
  rewrite app_cons. f_equal. apply (IH 0 m k).
Qed.

Lemma removeprefix_app p s : removeprefix p (p +:+ s) = s.
Proof.
  unfold removeprefix. rewrite startswith_app.
  assert (forall n, (String.length s <= n)%nat -> substring (String.length p) n (p +:+ s) = s) as Hs.
  { intros n Hn. induction p as [|c p IH]; [by apply substring_full|]. rewrite app_cons. exact IH. }
  apply Hs. clear Hs. induction p as [|c p IH]; [done|]. rewrite app_cons. cbn [String.length]. lia.
Qed.

(** ** The characters of a string *)
Fixpoint all_chars (P : ascii -> Prop) (s : string) : Prop :=
  match s with EmptyString => True | String c s' => P c /\ all_chars P s' end.

Lemma all_chars_app P a b : all_chars P (a +:+ b) <-> all_chars P a /\ all_chars P b.
Proof. induction a as [|c a IH]; [cbn; tauto|]. rewrite app_cons. cbn. rewrite IH. tauto. Qed.

Lemma all_chars_substring P s : all_chars P s -> forall n m, all_chars P (substring n m s).
Proof.
  induction s as [|c s IH]; intros Hs n m; destruct n, m; cbn in *; try done;
    destruct Hs; auto.
Qed.

Lemma all_chars_mono (P Q : ascii -> Prop) s : (forall c, P c -> Q c) -> all_chars P s -> all_chars Q s.
Proof. intros HPQ. induction s as [|c s IH]; cbn; [done|]. intros []. auto. Qed.

(** Characters of an alphabet, whose facts are decided letter by letter. *)
Definition char_of (alphabet : string) (c : ascii) : Prop := c ∈ list_ascii_of_string alphabet.
Definition all_letters (alphabet : string) (P : ascii -> bool) : bool :=
  forallb P (list_ascii_of_string alphabet).

Lemma char_of_all alphabet (P : ascii -> bool) c :
  all_letters alphabet P = true -> char_of alphabet c -> P c = true.
Proof.
  unfold all_letters, char_of.
  induction (list_ascii_of_string alphabet) as [|x l IH]; cbn; [by intros _ ?%elem_of_nil|].
  intros [Hx Hl]%andb_true_iff [->|Hc]%elem_of_cons; auto.
Qed.

(** ** Splitting and stripping *)
Lemma strip_by_none drop s : all_chars (fun c => drop c = false) s -> strip_by drop s = s.
Proof.
  intros Hs. unfold strip_by. replace (lstrip_by drop s) with s.
  - induction s as [|c s IH]; cbn in *; [done|]. destruct Hs as [Hc Hs]. rewrite (IH Hs).
    destruct s; [by rewrite Hc | done].
  - destruct s as [|c s]; [done|]. destruct Hs as [Hc _]. cbn. by rewrite Hc.
Qed.

Lemma split_all_none sep s : all_chars (fun c => c <> sep) s -> split_all sep s = [s].
Proof.
  induction s as [|c s IH]; cbn; [done|]. intros [Hc Hs]. by rewrite decide_False, IH.
Qed.

Lemma split_all_app sep a b : all_chars (fun c => c <> sep) a ->
  split_all sep (a +:+ String sep b) = a :: split_all sep b.
Proof.
  induction a as [|c a IH]; [intros _; rewrite app_empty; cbn; by rewrite decide_True|]. rewrite app_cons. cbn.
  intros [Hc Ha]. by rewrite decide_False, IH.
Qed.

(** The parts hold no separator. *)
Lemma split_all_parts sep s : Forall (all_chars (fun c => c <> sep)) (split_all sep s).
Proof.
  induction s as [|c s IH]; cbn; [by constructor|]. case_decide; [by constructor|].
  destruct (split_all sep s) as [|a l]; [by repeat constructor|].
  apply Forall_cons in IH as [Ha Hl]. by repeat constructor.
Qed.

Lemma remove_all_none x p s : all_chars (fun c => c <> x) s -> remove_all (String x p) s 0 = s.
Proof.
  induction s as [|c s IH]; [done|]. intros [Hc Hs]. cbn [remove_all].
  replace (startswith (String c s) (String x p)) with false; [by rewrite (IH Hs)|].
  unfold startswith. cbn. by destruct (ascii_dec x c).
Qed.

(** ** The digits *)
Definition hex_char : ascii -> Prop := char_of "0123456789abcdef".
Definition uuid_char : ascii -> Prop := char_of "-0123456789abcdef".
#[local] Instance hex_char_dec c : Decision (hex_char c).
Proof. unfold hex_char, char_of. apply _. Defined.

(** [s.replace("-", "")]. *)
Fixpoint drop_dashes (s : string) : string :=
  match s with
  | EmptyString => ""
  | String c s' => if decide (c = "-"%char) then drop_dashes s' else String c (drop_dashes s')
  end.

Lemma remove_all_dashes s : remove_all "-" s 0 = drop_dashes s.
Proof.
  induction s as [|c s IH]; [done|]. cbn [remove_all drop_dashes]. unfold startswith. cbn [String.prefix].
  destruct (ascii_dec "-" c) as [<-|Hc].
  - rewrite decide_True by done. cbn [String.length Nat.pred]. by destruct s.
  - rewrite decide_False by done. by rewrite IH.
Qed.

Lemma drop_dashes_app a b : drop_dashes (a +:+ b) = drop_dashes a +:+ drop_dashes b.
Proof.
  induction a as [|c a IH]; [done|]. rewrite app_cons. cbn. rewrite IH. by case_decide.
Qed.

(** Decided facts of the digits, and of the printed characters. *)
Lemma hex_chars_all (P : ascii -> bool) s : all_letters "0123456789abcdef" P = true ->
  all_chars hex_char s -> all_chars (fun c => P c = true) s.
Proof. intros HP. apply all_chars_mono. intros c. by apply char_of_all. Qed.

Lemma hex_chars_not x s : all_letters "0123456789abcdef" (fun c => negb (bool_decide (c = x))) = true ->
  all_chars hex_char s -> all_chars (fun c => c <> x) s.
Proof.
  intros HP Hs. eapply all_chars_mono; [|by apply (hex_chars_all _ _ HP)].
  intros c Hc. by apply negb_true_iff, bool_decide_eq_false in Hc.
Qed.

Lemma drop_dashes_none s : all_chars hex_char s -> drop_dashes s = s.
Proof.
  intros Hs%(hex_chars_not "-"); [|done]. induction s as [|c s IH]; [done|]. destruct Hs as [Hc Hs].
  cbn. by rewrite decide_False, IH.
Qed.

Lemma hex_digit_char n : (n < 16)%N -> hex_char (hex_digit n) /\ hex_value (hex_digit n) = Some n.
Proof.
  intros Hn. assert (n ∈ map N.of_nat (seq 0 16)) as Hin.
  { apply list_elem_of_fmap. exists (N.to_nat n). rewrite N2Nat.id. split; [done|].
    apply elem_of_seq. lia. }
  assert (forallb (fun n => bool_decide (hex_char (hex_digit n) /\ hex_value (hex_digit n) = Some n))
            (map N.of_nat (seq 0 16)) = true) as Hall
    by (vm_compute; done).
  rewrite forallb_forall in Hall. apply list_elem_of_In in Hin.
  by apply Hall, bool_decide_eq_true in Hin.
Qed.

Lemma land_15 (n : N) : (N.land n 15 = n mod 16)%N.
Proof. exact (N.land_ones n 4). Qed.

Lemma hex_digits_chars k n acc : all_chars hex_char acc -> all_chars hex_char (hex_digits k n acc).
Proof.
  revert n acc. induction k as [|k IH]; intros n acc Hacc; cbn [hex_digits]; [done|].
  apply IH. split; [|done]. rewrite land_15. apply hex_digit_char, N.mod_lt. done.
Qed.

Lemma hex_digits_length k n acc :
  String.length (hex_digits k n acc) = (k + String.length acc)%nat.
Proof.
  revert n acc. induction k as [|k IH]; intros n acc; cbn [hex_digits]; [done|].
  rewrite IH. cbn. lia.
Qed.

Lemma hex_digits_of_cons c s acc ends sep v : hex_char c -> hex_value c = Some v ->
  hex_digits_of (String c s) acc ends sep = hex_digits_of s (acc * 16 + v) true true.
Proof.
  intros Hc Hv. cbn [hex_digits_of]. rewrite decide_False, Hv; [done|].
  apply (char_of_all _ (fun c => negb (bool_decide (c = "_"%char)))) in Hc; [|done].
  by apply negb_true_iff, bool_decide_eq_false in Hc.
Qed.

Lemma hex_digits_of_digits k n acc :
  hex_digits_of (hex_digits k n acc) (N.shiftr n (4 * N.of_nat k)) true true =
  hex_digits_of acc n true true.
Proof.
  revert n acc. induction k as [|k IH]; intros n acc; cbn [hex_digits].
  { by rewrite N.mul_0_r, N.shiftr_0_r. }
  replace (4 * N.of_nat (S k))%N with (4 + 4 * N.of_nat k)%N by lia.
  rewrite <- N.shiftr_shiftr, IH. rewrite land_15.
  destruct (hex_digit_char (n mod 16)) as [Hc Hv]; [by apply N.mod_lt|].
  rewrite (hex_digits_of_cons _ _ _ _ _ _ Hc Hv). f_equal.
  rewrite N.shiftr_div_pow2. change (2 ^ 4)%N with 16%N. pose proof (N.div_mod n 16). lia.
Qed.

Lemma hex_char_value c : hex_char c -> exists v, hex_value c = Some v.
Proof.
  intros Hc. apply (char_of_all _ (fun c => bool_decide (is_Some (hex_value c)))) in Hc; [|done].
  by apply bool_decide_eq_true in Hc.
Qed.

(** [int(text, 16)] of the digits of a number. *)
Lemma int16_digits k n : (0 < k)%nat -> (n < 2 ^ (4 * N.of_nat k))%N ->
  int16 (hex_digits k n "") = Some (Z.of_N n).
Proof.
  intros Hk Hn. pose proof (hex_digits_of_digits k n "") as Hd.
  rewrite N.shiftr_div_pow2, N.div_small in Hd by done.
  pose proof (hex_digits_chars k n "" I) as Hc. pose proof (hex_digits_length k n "") as Hl.
  unfold int16, strip. rewrite strip_by_none.
  2: { eapply all_chars_mono; [|apply (hex_chars_all (fun c => negb (is_space c)) _ eq_refl Hc)].
       by intros c ?%negb_true_iff. }
  destruct (hex_digits k n "") as [|c s]; [cbn in Hl; lia|]. destruct Hc as [Hc Hs].
  destruct (hex_char_value c Hc) as [v Hv].
  rewrite (hex_digits_of_cons _ _ _ _ _ _ Hc Hv) in Hd.
  pose proof (hex_digits_of_cons c s 0 false false v Hc Hv) as Hu. rewrite Hd in Hu. clear Hd.
  assert (startswith (lower (String c s)) "0x" = false) as Hx.
  { unfold startswith. cbn [lower String.prefix]. destruct (ascii_dec "0" (lower_ascii c)); [|done].
    destruct s as [|x s]; [done|]. destruct Hs as [Hx _]. cbn [lower String.prefix].
    destruct (ascii_dec "x" (lower_ascii x)) as [Hlower|]; [|done]. exfalso.
    apply (char_of_all _ (fun x => negb (bool_decide ("x"%char = lower_ascii x)))) in Hx; [|done].
    by apply negb_true_iff, bool_decide_eq_false in Hx. }
  assert (c <> "-"%char /\ c <> "+"%char) as [Hminus Hplus].
  { split; eapply (hex_chars_not _ (String c "")); try done; by split. }
  cbv zeta. destruct c as [[] [] [] [] [] [] [] []]; try congruence; by rewrite Hx, Hu.
Qed.

(** ** Printing and reading back *)
Lemma uuid_str_chars u : all_chars uuid_char (uuid_str u).
Proof.
  assert (forall n m, all_chars uuid_char (substring n m (hex_digits 32 u ""))) as Hs.
  { intros n m. apply all_chars_substring. eapply all_chars_mono; [|by apply hex_digits_chars].
    intros c Hc. apply elem_of_cons. by right. }
  assert (uuid_char "-"%char) as Hdash by by left.
  unfold uuid_str. repeat (apply all_chars_app; split; [by auto|]; try (split; [done|]; cbn [String.append])).
  apply Hs.
Qed.

Lemma uuid_str_not x u : all_letters "-0123456789abcdef" (fun c => negb (bool_decide (c = x))) = true ->
  all_chars (fun c => c <> x) (uuid_str u).
Proof.
  intros HP. eapply all_chars_mono; [|apply uuid_str_chars]. intros c Hc.
  eapply char_of_all in Hc; [|exact HP]. by apply negb_true_iff, bool_decide_eq_false in Hc.
Qed.

Lemma uuid_str_digits u : drop_dashes (uuid_str u) = hex_digits 32 u "".
Proof.
  unfold uuid_str. set (h := hex_digits 32 u "").
  assert (Hc : all_chars hex_char h) by (by apply hex_digits_chars).
  rewrite !drop_dashes_app. cbn [drop_dashes]. rewrite !(drop_dashes_none (substring _ _ h))
    by by apply all_chars_substring.
  change (if decide ("-"%char = "-"%char) then "" else String "-" "") with "". cbn [String.append].
  transitivity (substring 0 32 h); [|apply substring_full; unfold h; rewrite hex_digits_length; done].
  rewrite (eq_sym (substring_cut h 0 8 24) : substring 0 32 h = _).
  rewrite (eq_sym (substring_cut h 8 4 20) : substring (0 + 8) 24 h = _).
  rewrite (eq_sym (substring_cut h 12 4 16) : substring (8 + 4) 20 h = _).
  rewrite (eq_sym (substring_cut h 16 4 12) : substring (12 + 4) 16 h = _). done.
Qed.

Lemma UUID_of_uuid_str u : is_uuid u -> UUID_of_text (uuid_str u) = Ok u.
Proof.
  intros Hu. unfold UUID_of_text.
  rewrite (remove_all_none "u" "rn:"), (remove_all_none "u" "uid:") by by apply uuid_str_not.
  rewrite strip_by_none, remove_all_dashes, uuid_str_digits, hex_digits_length.
  - cbn [Nat.eqb Nat.add String.length negb]. rewrite int16_digits by (done || lia). cbv iota beta.
    destruct (Z.ltb_spec (Z.of_N u) 0) as [Hneg|_]; [|by rewrite N2Z.id].
    pose proof (N2Z.is_nonneg u). lia.
  - eapply all_chars_mono; [|apply uuid_str_chars]. intros c Hc.
    by apply (char_of_all _ (fun c => negb (is_brace c))), negb_true_iff in Hc.
Qed.

Lemma uuid_str_inj u v : is_uuid u -> is_uuid v -> uuid_str u = uuid_str v -> u = v.
Proof.
  intros Hu Hv Heq. apply UUID_of_uuid_str in Hu, Hv. rewrite Heq in Hu. congruence.
Qed.

Lemma length_app_str a b : String.length (a +:+ b) = (String.length a + String.length b)%nat.
Proof. induction a as [|c a IH]; [done|]. rewrite app_cons. cbn. by rewrite IH. Qed.

Lemma length_substring s : forall n m, (n + m <= String.length s)%nat ->
  String.length (substring n m s) = m.
Proof.
  induction s as [|c s IH]; intros [|n] [|m] Hn; cbn in *; try lia; auto.
  - rewrite IH; lia.
  - apply IH. lia.
  - apply IH. lia.
Qed.

Lemma uuid_str_length u : String.length (uuid_str u) = 36%nat.
Proof.
  unfold uuid_str. rewrite !length_app_str, !length_substring by (rewrite hex_digits_length; cbn; lia).
  done.
Qed.

Lemma uuid_str_nonempty u : uuid_str u <> "".
Proof. intros Hu. pose proof (uuid_str_length u) as Hl. by rewrite Hu in Hl. Qed.

(** A printed UUID in front of a text is recovered with it. *)
Lemma uuid_str_app_inj u v a b : is_uuid u -> is_uuid v ->
  uuid_str u +:+ a = uuid_str v +:+ b -> u = v /\ a = b.
Proof.
  intros Hu Hv Happ. apply str_app_inj in Happ as [Heq ?]; [|by rewrite !uuid_str_length].
  split; [by apply uuid_str_inj | done].
Qed.
