(* ===== verification/Authority.v ===== *)
(** * Authority domain model ([domain/authority.py])

    Participants, roles, permissions, scopes, grants and authorization
    decisions: the enumerations with the string each member stands for, the
    records with pydantic's defaults written out by their constructors, and
    the validators the models declare. *)
From Stdlib Require Import ZArith Ascii String.
From S2P Require Import Prelude Values.
Open Scope string_scope.
Open Scope list_scope.

(** ** Enumerations *)
Inductive ParticipantType : Type :=
  | PT_HUMAN | PT_AGENT | PT_SCRIPT | PT_SERVICE | PT_SYSTEM_SERVICE | PT_VENDOR
  | PT_ORGANIZATION | PT_EXTERNAL_INTEGRATION | PT_SUBWORKFLOW.

Inductive ParticipantStatus : Type := PS_ACTIVE | PS_SUSPENDED | PS_ARCHIVED.

Inductive RoleName : Type :=
  | WORKFLOW_OWNER | WORKFLOW_DESIGNER | WORKER | VALIDATOR | ROUTING_VALIDATOR
  | SOURCE_OPERATOR | SINK_OPERATOR | REVIEWER_APPROVER | SHADOW_PARTICIPANT
  | LEARNING_OPTIMIZER | OBSERVER | ADMIN | INTENT_OPERATOR | WORKFLOW_ARCHITECT.

Inductive PermissionName : Type :=
  | PATCH_PANEL_CREATE | PATCH_PANEL_EDIT_DRAFT | PATCH_PANEL_PUBLISH_VERSION
  | PATCH_PANEL_ARCHIVE | PATCH_PANEL_DISCOVER | BUCKET_CREATE | NODE_CREATE
  | EDGE_CREATE | PIPE_BINDING_CREATE | CARD_CREATE | CARD_CLAIM
  | CARD_SUBMIT_ARTIFACT | CARD_RELEASE | CARD_VIEW | VALIDATION_SUBMIT
  | MUTATION_PROPOSE | MUTATION_VALIDATE | MUTATION_PROMOTE | SHADOW_CREATE
  | SHADOW_COMPLETE | SINK_EXECUTE | BOUNDARY_SOURCE_INGRESS | BOUNDARY_SINK_EGRESS
  | PARTICIPANT_MANAGE | PERMISSION_GRANT | AUDIT_VIEW.

Inductive ScopeType : Type :=
  | ST_GLOBAL | ST_DEVELOPMENT_GLOBAL | ST_ORGANIZATION | ST_WORKFLOW | ST_PATCH_PANEL
  | ST_BUCKET | ST_NODE | ST_CARD | ST_ARTIFACT | ST_VERSION.

Inductive AuditAction : Type :=
  | AUTHORIZATION_ALLOWED | AUTHORIZATION_DENIED | GENESIS_INTENT_RECEIVED
  | GENESIS_REGISTRY_SEARCHED | GENESIS_CANDIDATE_SELECTED | GENESIS_CARD_CREATED
  | GENESIS_PROPOSAL_SUBMITTED | GENESIS_DESIGN_REQUIRED | PARTICIPANT_CREATED
  | PARTICIPANT_UPDATED | PARTICIPANT_SUSPENDED | PARTICIPANT_ARCHIVED
  | ROLE_ASSIGNED | ROLE_REVOKED | PERMISSION_GRANTED | PERMISSION_REVOKED.

#[export] Instance ParticipantType_eq_dec : EqDecision ParticipantType.
Proof. solve_decision. Defined.
#[export] Instance ParticipantStatus_eq_dec : EqDecision ParticipantStatus.
Proof. solve_decision. Defined.
#[export] Instance RoleName_eq_dec : EqDecision RoleName.
Proof. solve_decision. Defined.
#[export] Instance PermissionName_eq_dec : EqDecision PermissionName.
Proof. solve_decision. Defined.
#[export] Instance ScopeType_eq_dec : EqDecision ScopeType.
Proof. solve_decision. Defined.
#[export] Instance AuditAction_eq_dec : EqDecision AuditAction.
Proof. solve_decision. Defined.

(** [.value] of the members that are stored or printed. *)
Definition ParticipantType_value (t : ParticipantType) : string :=
  match t with
  | PT_HUMAN => "human" | PT_AGENT => "agent" | PT_SCRIPT => "script"
  | PT_SERVICE => "service" | PT_SYSTEM_SERVICE => "system_service"
  | PT_VENDOR => "vendor" | PT_ORGANIZATION => "organization"
  | PT_EXTERNAL_INTEGRATION => "external_integration" | PT_SUBWORKFLOW => "subworkflow"
  end.

Definition ParticipantStatus_value (s : ParticipantStatus) : string :=
  match s with
  | PS_ACTIVE => "active" | PS_SUSPENDED => "suspended" | PS_ARCHIVED => "archived"
  end.

Definition RoleName_value (r : RoleName) : string :=
  match r with
  | WORKFLOW_OWNER => "workflow_owner" | WORKFLOW_DESIGNER => "workflow_designer"
  | WORKER => "worker" | VALIDATOR => "validator"
  | ROUTING_VALIDATOR => "routing_validator" | SOURCE_OPERATOR => "source_operator"
  | SINK_OPERATOR => "sink_operator" | REVIEWER_APPROVER => "reviewer_approver"
  | SHADOW_PARTICIPANT => "shadow_participant"
  | LEARNING_OPTIMIZER => "learning_optimizer" | OBSERVER => "observer"
  | ADMIN => "admin" | INTENT_OPERATOR => "intent_operator"
  | WORKFLOW_ARCHITECT => "workflow_architect"
  end.

Definition PermissionName_value (p : PermissionName) : string :=
  match p with
  | PATCH_PANEL_CREATE => "patch_panel:create"
  | PATCH_PANEL_EDIT_DRAFT => "patch_panel:edit_draft"
  | PATCH_PANEL_PUBLISH_VERSION => "patch_panel:publish_version"
  | PATCH_PANEL_ARCHIVE => "patch_panel:archive"
  | PATCH_PANEL_DISCOVER => "patch_panel:discover"
  | BUCKET_CREATE => "bucket:create"
  | NODE_CREATE => "node:create"
  | EDGE_CREATE => "edge:create"
  | PIPE_BINDING_CREATE => "pipe_binding:create"
  | CARD_CREATE => "card:create"
  | CARD_CLAIM => "card:claim"
  | CARD_SUBMIT_ARTIFACT => "card:submit_artifact"
  | CARD_RELEASE => "card:release"
  | CARD_VIEW => "card:view"
  | VALIDATION_SUBMIT => "validation:submit"
  | MUTATION_PROPOSE => "mutation:propose"
  | MUTATION_VALIDATE => "mutation:validate"
  | MUTATION_PROMOTE => "mutation:promote"
  | SHADOW_CREATE => "shadow:create"
  | SHADOW_COMPLETE => "shadow:complete"
  | SINK_EXECUTE => "sink:execute"
  | BOUNDARY_SOURCE_INGRESS => "boundary:source_ingress"
  | BOUNDARY_SINK_EGRESS => "boundary:sink_egress"
  | PARTICIPANT_MANAGE => "participant:manage"
  | PERMISSION_GRANT => "permission:grant"
  | AUDIT_VIEW => "audit:view"
  end.

Definition AuditAction_value (a : AuditAction) : string :=
  match a with
  | AUTHORIZATION_ALLOWED => "authorization:allowed"
  | AUTHORIZATION_DENIED => "authorization:denied"
  | GENESIS_INTENT_RECEIVED => "genesis:intent_received"
  | GENESIS_REGISTRY_SEARCHED => "genesis:registry_searched"
  | GENESIS_CANDIDATE_SELECTED => "genesis:candidate_selected"
  | GENESIS_CARD_CREATED => "genesis:card_created"
  | GENESIS_PROPOSAL_SUBMITTED => "genesis:proposal_submitted"
  | GENESIS_DESIGN_REQUIRED => "genesis:design_required"
  | PARTICIPANT_CREATED => "participant:created"
  | PARTICIPANT_UPDATED => "participant:updated"
  | PARTICIPANT_SUSPENDED => "participant:suspended"
  | PARTICIPANT_ARCHIVED => "participant:archived"
  | ROLE_ASSIGNED => "role:assigned"
  | ROLE_REVOKED => "role:revoked"
  | PERMISSION_GRANTED => "permission:granted"
  | PERMISSION_REVOKED => "permission:revoked"
  end.
Definition ScopeType_value (t : ScopeType) : string :=
  match t with
  | ST_GLOBAL => "global" | ST_DEVELOPMENT_GLOBAL => "development_global"
  | ST_ORGANIZATION => "organization" | ST_WORKFLOW => "workflow"
  | ST_PATCH_PANEL => "patch_panel" | ST_BUCKET => "bucket" | ST_NODE => "node"
  | ST_CARD => "card" | ST_ARTIFACT => "artifact" | ST_VERSION => "version"
  end.

(** The members in declaration order: iterating the enumeration, and
    [Enum(value)], which looks the value up among them. *)
Definition all_permissions : list PermissionName :=
  [PATCH_PANEL_CREATE; PATCH_PANEL_EDIT_DRAFT; PATCH_PANEL_PUBLISH_VERSION;
   PATCH_PANEL_ARCHIVE; PATCH_PANEL_DISCOVER; BUCKET_CREATE; NODE_CREATE; EDGE_CREATE;
   PIPE_BINDING_CREATE; CARD_CREATE; CARD_CLAIM; CARD_SUBMIT_ARTIFACT; CARD_RELEASE;
   CARD_VIEW; VALIDATION_SUBMIT; MUTATION_PROPOSE; MUTATION_VALIDATE; MUTATION_PROMOTE;
   SHADOW_CREATE; SHADOW_COMPLETE; SINK_EXECUTE; BOUNDARY_SOURCE_INGRESS;
   BOUNDARY_SINK_EGRESS; PARTICIPANT_MANAGE; PERMISSION_GRANT; AUDIT_VIEW].

Definition all_participant_types : list ParticipantType :=
  [PT_HUMAN; PT_AGENT; PT_SCRIPT; PT_SERVICE; PT_SYSTEM_SERVICE; PT_VENDOR;
   PT_ORGANIZATION; PT_EXTERNAL_INTEGRATION; PT_SUBWORKFLOW].

Definition all_participant_statuses : list ParticipantStatus :=
  [PS_ACTIVE; PS_SUSPENDED; PS_ARCHIVED].

Definition all_scope_types : list ScopeType :=
  [ST_GLOBAL; ST_DEVELOPMENT_GLOBAL; ST_ORGANIZATION; ST_WORKFLOW; ST_PATCH_PANEL;
   ST_BUCKET; ST_NODE; ST_CARD; ST_ARTIFACT; ST_VERSION].

Definition all_role_names : list RoleName :=
  [WORKFLOW_OWNER; WORKFLOW_DESIGNER; WORKER; VALIDATOR; ROUTING_VALIDATOR;
   SOURCE_OPERATOR; SINK_OPERATOR; REVIEWER_APPROVER; SHADOW_PARTICIPANT;
   LEARNING_OPTIMIZER; OBSERVER; ADMIN; INTENT_OPERATOR; WORKFLOW_ARCHITECT].

Definition enum_of_value {E} (val : E -> string) (members : list E) (label s : string) : res E :=
  match py_next (fun m => bool_decide (val m = s)) members with
  | Some m => Ok m
  | None => Raise (ValueError (str_repr s +:+ " is not a valid " +:+ label))
  end.

Definition PermissionName_of_value : string -> res PermissionName :=
  enum_of_value PermissionName_value all_permissions "PermissionName".
Definition ParticipantType_of_value : string -> res ParticipantType :=
  enum_of_value ParticipantType_value all_participant_types "ParticipantType".
Definition ParticipantStatus_of_value : string -> res ParticipantStatus :=
  enum_of_value ParticipantStatus_value all_participant_statuses "ParticipantStatus".
Definition ScopeType_of_value : string -> res ScopeType :=
  enum_of_value ScopeType_value all_scope_types "ScopeType".
Definition RoleName_of_value : string -> res RoleName :=
  enum_of_value RoleName_value all_role_names "RoleName".

(** ** Records *)
Record Scope : Type := mkScope { scope_type : ScopeType; scope_id : option string }.

#[export] Instance Scope_eq_dec : EqDecision Scope.
Proof. solve_decision. Defined.

Definition global_scope : Scope := mkScope ST_GLOBAL None.
Definition development_global : Scope := mkScope ST_DEVELOPMENT_GLOBAL None.

(** The model validator of [Scope]. *)
Definition validate_scope_id (s : Scope) : res Scope :=
  if bool_decide (scope_type s = ST_GLOBAL) || bool_decide (scope_type s = ST_DEVELOPMENT_GLOBAL)
  then
    match scope_id s with
    | Some _ =>
        Raise (ValueError (ScopeType_value (scope_type s) +:+ " scope must not include an id"))
    | None => Ok s
    end
  else if negb (truthy (scope_id s))
  then Raise (ValueError (ScopeType_value (scope_type s) +:+ " scope requires an id"))
  else Ok s.

Record Participant : Type := mkParticipant {
  part_id : string;
  part_type : ParticipantType;
  part_display_name : option string;
  part_status : ParticipantStatus;
  part_trust_level : option string;
  part_auth_method : option string;
  part_metadata : doc;
  part_created_at : datetime;
  part_archived_at : option datetime;
}.

Record Role : Type := mkRole {
  role_id : string;
  role_name : string;  (* [RoleName | str]: a [StrEnum] member is its string *)
  role_description : option string;
  role_permissions : list PermissionName;
  role_metadata : doc;
  role_created_at : datetime;
}.

Record RoleAssignment : Type := mkRoleAssignment {
  ra_id : UUID;
  ra_participant_id : string;
  ra_role_id : string;
  ra_scope : Scope;
  ra_assigned_by : option string;
  ra_expires_at : option datetime;
  ra_created_at : datetime;
  ra_revoked_at : option datetime;
  ra_metadata : doc;
}.

Record PermissionGrant : Type := mkPermissionGrant {
  pg_id : UUID;
  pg_permission : PermissionName;
  pg_scope : Scope;
  pg_participant_id : option string;
  pg_role_id : option string;
  pg_granted_by : option string;
  pg_expires_at : option datetime;
  pg_created_at : datetime;
  pg_revoked_at : option datetime;
  pg_metadata : doc;
}.

Record AuthorizationDecision : Type := mkDecision {
  dec_id : UUID;
  dec_participant_id : string;
  dec_permission : PermissionName;
  dec_scope : Scope;
  dec_allowed : bool;
  dec_reason : string;
  dec_evaluated_at : datetime;
  dec_matched_grant_ids : list UUID;
  dec_metadata : doc;
}.

Record AuthorizationAuditEvent : Type := mkAuditEvent {
  aud_id : UUID;
  aud_action : AuditAction;
  aud_participant_id : option string;
  aud_permission : option PermissionName;
  aud_scope : option Scope;
  aud_allowed : option bool;
  aud_reason : option string;
  aud_request_ref : option string;
  aud_target_ref : option string;
  aud_metadata : doc;
  aud_created_at : datetime;
}.

(** ** Operations of the models *)

(** [self.revoked_at is None and (self.expires_at is None or
    self.expires_at > checked_at)]. *)
Definition active_at (revoked_at expires_at : option datetime) (checked_at : datetime) : res bool :=
  match revoked_at with
  | Some _ => Ok false
  | None => match expires_at with None => Ok true | Some t => dt_gt t checked_at end
  end.

(** [RoleAssignment.is_active(at)]. *)
Definition assignment_is_active (a : RoleAssignment) (at_ : datetime) : res bool :=
  active_at (ra_revoked_at a) (ra_expires_at a) at_.

(** [PermissionGrant.is_active(at)]. *)
Definition grant_is_active (g : PermissionGrant) (at_ : datetime) : res bool :=
  active_at (pg_revoked_at g) (pg_expires_at g) at_.

(** The model validator of [PermissionGrant]. *)
Definition validate_grant_target (g : PermissionGrant) : res PermissionGrant :=
  let targets := [match pg_participant_id g with Some _ => true | None => false end;
                  match pg_role_id g with Some _ => true | None => false end] in
  if negb (Nat.eqb (length (py_filter id targets)) 1)
  then Raise (ValueError "permission grant must target exactly one participant_id or role_id")
  else Ok g.

(** [AuthorizationDecision.audit_action]. *)
Definition audit_action (d : AuthorizationDecision) : AuditAction :=
  if dec_allowed d then AUTHORIZATION_ALLOWED else AUTHORIZATION_DENIED.

Section models.
Context `{Oracle} {St : Type}.

(** [AuthorizationAuditEvent.from_decision]. *)
Definition from_decision (d : AuthorizationDecision) (request_ref target_ref : option string)
    : M St AuthorizationAuditEvent :=
  i ← uuid4; t ← now;
  mret (mkAuditEvent i (audit_action d) (Some (dec_participant_id d)) (Some (dec_permission d))
          (Some (dec_scope d)) (Some (dec_allowed d)) (Some (dec_reason d))
          request_ref target_ref (dec_metadata d) t).

Definition legacy_actor_to_participant_id (actor_id : string) : res string :=
  let normalized := strip actor_id in
  if bool_decide (normalized = "") then Raise (ValueError "actor_id must not be empty")
  else Ok ("legacy:" +:+ normalized).

(** [Participant.from_legacy_actor]. *)
Definition from_legacy_actor (actor_id : string) (participant_type : ParticipantType)
    : M St Participant :=
  pid ← lift_res (legacy_actor_to_participant_id actor_id);
  t ← now;
  mret (mkParticipant pid participant_type (Some actor_id) PS_ACTIVE None
          (Some "legacy_actor_string") [("legacy_actor_id", VStr actor_id)] t None).
End models.

(** ** Lemmas *)
Lemma enum_of_value_roundtrip {E} `{EqDecision E} (val : E -> string) members label m :
  m ∈ members -> (forall a b, a ∈ members -> b ∈ members -> val a = val b -> a = b) ->
  enum_of_value val members label (val m) = Ok m.
Proof.
  intros Hm Hinj. unfold enum_of_value.
  destruct (py_next _ members) as [x|] eqn:Hx.
  - apply py_next_some in Hx as [Hin Heq%bool_decide_eq_true]. f_equal. by apply Hinj.
  - rewrite py_next_none in Hx. specialize (Hx m Hm).
    apply bool_decide_eq_false in Hx. done.
Qed.

Ltac enum_roundtrip :=
  intros m; destruct m; vm_compute; reflexivity.

Lemma PermissionName_roundtrip p : PermissionName_of_value (PermissionName_value p) = Ok p.
Proof. revert p. enum_roundtrip. Qed.
Lemma ParticipantType_roundtrip p : ParticipantType_of_value (ParticipantType_value p) = Ok p.
Proof. revert p. enum_roundtrip. Qed.
Lemma ParticipantStatus_roundtrip p :
  ParticipantStatus_of_value (ParticipantStatus_value p) = Ok p.
Proof. revert p. enum_roundtrip. Qed.
Lemma ScopeType_roundtrip p : ScopeType_of_value (ScopeType_value p) = Ok p.
Proof. revert p. enum_roundtrip. Qed.
Lemma RoleName_roundtrip p : RoleName_of_value (RoleName_value p) = Ok p.
Proof. revert p. enum_roundtrip. Qed.

Lemma all_permissions_complete p : p ∈ all_permissions.
Proof. unfold all_permissions. destruct p; rewrite !elem_of_cons; tauto. Qed.

#[export] Hint Rewrite PermissionName_roundtrip ParticipantType_roundtrip
  ParticipantStatus_roundtrip ScopeType_roundtrip RoleName_roundtrip : enum.
