(* ===== verification/Models.v ===== *)
(** * Work domain model ([domain/models.py])

    Patch Panels and the objects that move through them: cards, leases,
    events, artifact references, registry entries, genesis intents, shadow
    links and mutations. [card.model_copy(update={...})] is a function per
    updated field set. *)
From Stdlib Require Import ZArith Ascii String.
From S2P Require Import Prelude Values Authority.
Open Scope string_scope.
Open Scope list_scope.

(** ** Enumerations *)
Inductive NodeType : Type := SOURCE | NT_WORKER | NT_VALIDATOR | LEARNING | SINK | SUBWORKFLOW.

Inductive MutationStatus : Type :=
  | MUT_PROPOSED | MUT_SHADOWING | MUT_VALIDATED | MUT_REJECTED | MUT_PROMOTED.

Inductive PatchPanelRegistryStatus : Type :=
  | DRAFT | REVIEW | APPROVED | PUBLISHED | ARCHIVED | SUPERSEDED.

Inductive GenesisIntentStatus : Type := GI_RECEIVED | GI_LAUNCHED | GI_DESIGN_REQUIRED | GI_PROPOSED.

#[export] Instance NodeType_eq_dec : EqDecision NodeType.
Proof. solve_decision. Defined.
#[export] Instance MutationStatus_eq_dec : EqDecision MutationStatus.
Proof. solve_decision. Defined.
#[export] Instance PatchPanelRegistryStatus_eq_dec : EqDecision PatchPanelRegistryStatus.
Proof. solve_decision. Defined.
#[export] Instance GenesisIntentStatus_eq_dec : EqDecision GenesisIntentStatus.
Proof. solve_decision. Defined.

Definition NodeType_value (t : NodeType) : string :=
  match t with
  | SOURCE => "source" | NT_WORKER => "worker" | NT_VALIDATOR => "validator"
  | LEARNING => "learning" | SINK => "sink" | SUBWORKFLOW => "subworkflow"
  end.

Definition RegistryStatus_value (s : PatchPanelRegistryStatus) : string :=
  match s with
  | DRAFT => "draft" | REVIEW => "review" | APPROVED => "approved"
  | PUBLISHED => "published" | ARCHIVED => "archived" | SUPERSEDED => "superseded"
  end.

Definition RegistryStatus_of_value : string -> res PatchPanelRegistryStatus :=
  enum_of_value RegistryStatus_value [DRAFT; REVIEW; APPROVED; PUBLISHED; ARCHIVED; SUPERSEDED]
    "PatchPanelRegistryStatus".

(** ** Patch Panels *)
Record AcceptanceContract : Type := mkContract {
  ac_id : string;
  ac_description : string;
  ac_schema_ref : option string;
  ac_rules : list doc;
}.

Record BucketDefinition : Type := mkBucket {
  bk_id : string;
  bk_description : option string;
  bk_input_requirements : list string;
  bk_output_requirements : list string;
  bk_acceptance_contract : option string;
  bk_shadow_eligible : bool;
}.

Record NodeDefinition : Type := mkNode {
  nd_id : string;
  nd_type : NodeType;
  nd_validator_kind : option string;
  nd_description : option string;
  nd_input_pipes : list string;
  nd_output_pipes : list string;
  nd_acceptance_contract : option string;
  nd_config : doc;
}.

Record EdgeDefinition : Type := mkEdge {
  from_node : string;
  to_node : string;
  ed_on : string;
  ed_condition : option doc;
}.

Record PipeBinding : Type := mkBinding {
  pb_bucket : string;
  pb_node : option string;
  pb_direction : option string;
}.

Record WorkflowVersion : Type := mkWorkflowVersion {
  wv_id : string;
  wv_patch_panel_id : string;
  wv_version : string;
  wv_active : bool;
  wv_created_at : datetime;
}.

Record PatchPanel : Type := mkPatchPanel {
  pp_id : string;
  pp_version : string;
  pp_description : option string;
  pp_buckets : list BucketDefinition;
  pp_nodes : list NodeDefinition;
  pp_edges : list EdgeDefinition;
  pp_pipe_bindings : list (string * PipeBinding);
  pp_acceptance_contracts : list AcceptanceContract;
  pp_metadata : doc;
}.

(** The loop of [_ensure_unique]: the values seen and the duplicates. *)
Definition ensure_unique_scan (values : list string) : list string * list string :=
  foldl (fun '(seen, duplicates) v =>
           (v :: seen,
            if str_in v seen then (if str_in v duplicates then duplicates else v :: duplicates)
            else duplicates))
    ([], []) values.

Definition _ensure_unique (label : string) (values : list string) : res () :=
  let duplicates := (ensure_unique_scan values).2 in
  match duplicates with
  | [] => Ok tt
  | _ => Raise (ValueError ("duplicate " +:+ label +:+ " id(s): " +:+
                            comma_join (str_sorted duplicates)))
  end.

(** The model validator of [PatchPanel]. *)
Definition validate_unique_local_ids (pp : PatchPanel) : res PatchPanel :=
  _ ← _ensure_unique "bucket" (map bk_id (pp_buckets pp));
  _ ← _ensure_unique "node" (map nd_id (pp_nodes pp));
  _ ← _ensure_unique "acceptance contract" (map ac_id (pp_acceptance_contracts pp));
  Ok pp.

(** [f"{patch_panel.id}:{patch_panel.version}"]. *)
Definition workflow_version_id (pp : PatchPanel) : string :=
  pp_id pp +:+ ":" +:+ pp_version pp.

(** ** Cards and their evidence *)
Record ArtifactReference : Type := mkArtifact {
  ar_id : UUID;
  ar_card_id : UUID;
  ar_event_id : option UUID;
  ar_storage_ref : string;
  ar_content_hash : string;
  ar_content_type : string;
  ar_size_bytes : Z;
  ar_metadata : doc;
  ar_created_at : datetime;
}.

Record Lease : Type := mkLease {
  ls_id : UUID;
  ls_card_id : UUID;
  ls_node_id : string;
  ls_worker_id : string;
  ls_input_pipe : string;
  ls_claimed_at : datetime;
  ls_expires_at : datetime;
  ls_released_at : option datetime;
}.

Record CardEvent : Type := mkEvent {
  ev_id : UUID;
  ev_card_id : UUID;
  ev_event_type : string;
  ev_actor_id : option string;
  ev_payload : doc;
  ev_occurred_at : datetime;
}.

Record Card : Type := mkCard {
  cd_id : UUID;
  cd_workflow_version : string;
  cd_current_bucket : string;
  cd_payload : doc;
  cd_metadata : doc;
  cd_created_at : datetime;
}.

Record CardLocation : Type := mkCardLocation {
  cl_id : UUID;
  cl_card_id : UUID;
  cl_bucket : string;
  cl_status : string;
  cl_entered_at : datetime;
  cl_accepted_at : option datetime;
  cl_exited_at : option datetime;
}.

Record ValidationResult : Type := mkValidationResult {
  vr_id : UUID;
  vr_card_id : UUID;
  vr_validator_id : string;
  vr_accepted : bool;
  vr_reason : option string;
  vr_output_pipe : option string;
  vr_payload : doc;
  vr_created_at : datetime;
}.

Record ShadowCardLink : Type := mkShadowCardLink {
  sl_id : UUID;
  sl_production_card_id : UUID;
  sl_shadow_card_id : UUID;
  sl_candidate_id : string;
  sl_status : string;
  sl_metrics : doc;
  sl_created_at : datetime;
}.

Record ProposedMutation : Type := mkMutation {
  mu_id : UUID;
  mu_mutation_type : string;
  mu_proposed_by : string;
  mu_payload : doc;
  mu_status : MutationStatus;
  mu_created_at : datetime;
  mu_validated_at : option datetime;
  mu_promoted_at : option datetime;
}.

(** The [model_copy(update=...)] calls. *)
Definition card_with_bucket (b : string) (c : Card) : Card :=
  mkCard (cd_id c) (cd_workflow_version c) b (cd_payload c) (cd_metadata c) (cd_created_at c).

Definition lease_with_released (t : datetime) (l : Lease) : Lease :=
  mkLease (ls_id l) (ls_card_id l) (ls_node_id l) (ls_worker_id l) (ls_input_pipe l)
    (ls_claimed_at l) (ls_expires_at l) (Some t).

Definition lease_with_expiry (t : datetime) (l : Lease) : Lease :=
  mkLease (ls_id l) (ls_card_id l) (ls_node_id l) (ls_worker_id l) (ls_input_pipe l)
    (ls_claimed_at l) t (ls_released_at l).

Definition artifact_with_event (card_id event_id : UUID) (a : ArtifactReference) :
    ArtifactReference :=
  mkArtifact (ar_id a) card_id (Some event_id) (ar_storage_ref a) (ar_content_hash a)
    (ar_content_type a) (ar_size_bytes a) (ar_metadata a) (ar_created_at a).

(** ** Registry entries and genesis intents *)
Record PatchPanelRegistryMetadata : Type := mkRegistryMetadata {
  rm_name : string;
  rm_description : option string;
  rm_tags : list string;
  rm_input_types : list string;
  rm_output_types : list string;
  rm_required_tools : list string;
  rm_required_permissions : list PermissionName;
  rm_risk_level : option string;
  rm_estimated_cost : option string;
  rm_estimated_latency : option string;
  rm_owner_participant_id : option string;
  rm_status : PatchPanelRegistryStatus;
}.

Definition metadata_with_status (s : PatchPanelRegistryStatus) (m : PatchPanelRegistryMetadata) :
    PatchPanelRegistryMetadata :=
  mkRegistryMetadata (rm_name m) (rm_description m) (rm_tags m) (rm_input_types m)
    (rm_output_types m) (rm_required_tools m) (rm_required_permissions m) (rm_risk_level m)
    (rm_estimated_cost m) (rm_estimated_latency m) (rm_owner_participant_id m) s.

Record PatchPanelRegistryEntry : Type := mkRegistryEntry {
  re_id : UUID;
  re_patch_panel_id : string;
  re_version : string;
  re_name : string;
  re_description : option string;
  re_tags : list string;
  re_input_types : list string;
  re_output_types : list string;
  re_required_tools : list string;
  re_required_permissions : list PermissionName;
  re_risk_level : option string;
  re_estimated_cost : option string;
  re_estimated_latency : option string;
  re_owner_participant_id : option string;
  re_status : PatchPanelRegistryStatus;
  re_supersedes_entry_id : option UUID;
  re_metadata : doc;
  re_created_at : datetime;
  re_updated_at : datetime;
  re_archived_at : option datetime;
}.

Record GenesisIntentConstraints : Type := mkConstraints {
  gc_risk_level : option string;
  gc_max_latency : option string;
  gc_requires_human_approval : bool;
  gc_metadata : doc;
}.

Record GenesisIntent : Type := mkIntent {
  gi_id : UUID;
  gi_requested_by : string;
  gi_deduplication_key : string;
  gi_goal : string;
  gi_input_type : string;
  gi_desired_outputs : list string;
  gi_tags : list string;
  gi_constraints : GenesisIntentConstraints;
  gi_launch_if_existing : bool;
  gi_propose_if_missing : bool;
  gi_status : GenesisIntentStatus;
  gi_candidate_registry_entry_ids : list UUID;
  gi_selected_registry_entry_id : option UUID;
  gi_launched_card_id : option UUID;
  gi_proposal_card_id : option UUID;
  gi_created_at : datetime;
  gi_updated_at : datetime;
  gi_metadata : doc;
}.

(** ** Constructors that call the default factories

    [Model(...)] draws its [id] from [uuid4()] and its timestamps from the
    clock, in the order of the fields. *)
Section constructors.
Context `{Oracle} {St : Type}.

Definition new_card (workflow_version current_bucket : string) (payload metadata : doc) :
    M St Card :=
  i ← uuid4; t ← now;
  mret (mkCard i workflow_version current_bucket payload metadata t).

Definition new_event (card_id : UUID) (event_type : string) (actor_id : option string)
    (payload : doc) : M St CardEvent :=
  i ← uuid4; t ← now;
  mret (mkEvent i card_id event_type actor_id payload t).

(** [PatchPanelRegistryEntry.from_patch_panel]. *)
Definition from_patch_panel (pp : PatchPanel) (m : PatchPanelRegistryMetadata)
    (supersedes_entry_id : option UUID) (metadata : doc) : M St PatchPanelRegistryEntry :=
  i ← uuid4; t1 ← now; t2 ← now;
  mret (mkRegistryEntry i (pp_id pp) (pp_version pp) (rm_name m) (rm_description m) (rm_tags m)
          (rm_input_types m) (rm_output_types m) (rm_required_tools m)
          (rm_required_permissions m) (rm_risk_level m) (rm_estimated_cost m)
          (rm_estimated_latency m) (rm_owner_participant_id m) (rm_status m)
          supersedes_entry_id metadata t1 t2 None).
End constructors.

(** ** Lemmas *)
Lemma RegistryStatus_roundtrip s : RegistryStatus_of_value (RegistryStatus_value s) = Ok s.
Proof. revert s. enum_roundtrip. Qed.
#[export] Hint Rewrite RegistryStatus_roundtrip : enum.

Lemma ensure_unique_scan_spec values :
  (forall v, v ∈ (ensure_unique_scan values).1 <-> v ∈ values) /\
  ((ensure_unique_scan values).2 = [] <-> NoDup values).
Proof.
  unfold ensure_unique_scan. induction values as [|v values [IH1 IH2]] using rev_ind.
  { split; [done|]. split; intros _; [apply NoDup_nil_2 | done]. }
  rewrite foldl_app. destruct (foldl _ _ values) as [seen dups]; simpl in *. split.
  - intros w. rewrite elem_of_cons, IH1, elem_of_app, list_elem_of_singleton. tauto.
  - rewrite NoDup_app, <- IH2. destruct (str_in v seen) eqn:E.
    + apply str_in_true, IH1 in E. split.
      * destruct (str_in v dups) eqn:Ed; [|done]. intros ->. apply str_in_true in Ed. set_solver.
      * intros (_ & Hn & _). exfalso. apply (Hn v E). by apply list_elem_of_singleton.
    + apply str_in_false in E. rewrite IH1 in E. split.
      * intros ->. split; [done|]. split; [|apply NoDup_singleton].
        intros x Hx ->%list_elem_of_singleton. done.
      * tauto.
Qed.

Lemma ensure_unique_ok label values : _ensure_unique label values = Ok tt <-> NoDup values.
Proof.
  unfold _ensure_unique. rewrite <- (proj2 (ensure_unique_scan_spec values)).
  destruct (ensure_unique_scan values).2; split; congruence.
Qed.

Lemma validate_unique_local_ids_same pp q : validate_unique_local_ids pp = Ok q -> q = pp.
Proof.
  unfold validate_unique_local_ids, mbind, res_bind.
  repeat (match goal with |- context [_ensure_unique ?a ?b] => destruct (_ensure_unique a b) end; [|done]).
  by intros [= ->].
Qed.
