(* ===== verification/Graph.v ===== *)
(** * Directed graphs

    The panel validator builds a [networkx.DiGraph] and asks it for degrees
    and descendants. networkx is not part of the program: it is the
    interface [Networkx], with the documented behaviour the validator relies
    on as [NetworkxLaws]. [ListGraph] is an executable instance that
    satisfies the laws, used to evaluate the validator on concrete panels. *)
From Stdlib Require Import ZArith Ascii String.
From S2P Require Import Prelude Values Authority Models.
Open Scope string_scope.
Open Scope list_scope.

(** ** The interface *)
Class Networkx : Type := {
  DiGraph : Type;
  nx_empty : DiGraph;
  nx_add_node : string -> NodeType -> DiGraph -> DiGraph;
  nx_add_edge : string -> string -> string -> option doc -> DiGraph -> DiGraph;
  nx_has_node : DiGraph -> string -> bool;
  nx_has_edge : DiGraph -> string -> string -> bool;
  nx_in_degree : DiGraph -> string -> nat;
  nx_out_degree : DiGraph -> string -> nat;
  nx_descendants : DiGraph -> string -> list string;
  nx_number_of_nodes : DiGraph -> nat;
  nx_number_of_edges : DiGraph -> nat;
  nx_simple_cycles : DiGraph -> list (list string);
}.

(** An edge of the graph, as a relation on node names. *)
Definition nx_edge `{Networkx} (g : DiGraph) (u v : string) : Prop := nx_has_edge g u v = true.

(** [add_edge] also adds its end points; a [DiGraph] keeps one edge for each
    pair; [descendants(g, n)] is every other node reachable from [n]. *)
Class NetworkxLaws `{Networkx} : Prop := {
  nx_has_edge_empty u v : nx_has_edge nx_empty u v = false;
  nx_has_edge_add_node n t g u v : nx_has_edge (nx_add_node n t g) u v = nx_has_edge g u v;
  nx_has_edge_add_edge a b o c g u v :
    nx_has_edge (nx_add_edge a b o c g) u v
    = bool_decide (a = u /\ b = v) || nx_has_edge g u v;
  nx_in_degree_pos g n : 0 < nx_in_degree g n <-> exists u, nx_edge g u n;
  nx_out_degree_pos g n : 0 < nx_out_degree g n <-> exists u, nx_edge g n u;
  nx_descendants_spec g n m : m ∈ nx_descendants g n <-> m <> n /\ tc (nx_edge g) n m;
}.

(** ** A list-based instance *)
Module ListGraph.

Record graph : Type := mkGraph { g_nodes : list string; g_edges : list (string * string) }.

Definition add {A} `{EqDecision A} (a : A) (l : list A) : list A :=
  if decide (a ∈ l) then l else l ++ [a].

Definition has_edge (g : graph) (u v : string) : bool := bool_decide ((u, v) ∈ g_edges g).

(** The transitive closure, one edge at a time: a path that uses [(u, v)]
    reaches [u], crosses, and goes on from [v]. *)
Definition sources (R : list (string * string)) (u : string) : list string :=
  u :: (List.filter (fun p => bool_decide (p.2 = u)) R).*1.
Definition targets (R : list (string * string)) (v : string) : list string :=
  v :: (List.filter (fun p => bool_decide (p.1 = v)) R).*2.

Fixpoint closure (E : list (string * string)) : list (string * string) :=
  match E with
  | [] => []
  | (u, v) :: E' =>
      let R := closure E' in remove_dups (R ++ list_prod (sources R u) (targets R v))
  end.

Definition descendants (g : graph) (n : string) : list string :=
  List.filter (fun m => negb (bool_decide (m = n))) (targets (closure (g_edges g)) n).

(** Elementary circuits through [n], as the simple paths that return to it. *)
Fixpoint circuits (fuel : nat) (E : list (string * string)) (start u : string)
    (path : list string) : list (list string) :=
  match fuel with
  | O => []
  | S fuel' =>
      List.flat_map (fun e =>
        if decide (e.1 = u) then
          if decide (e.2 = start) then [rev (u :: path)]
          else if decide (e.2 ∈ u :: path) then []
          else circuits fuel' E start e.2 (u :: path)
        else []) E
  end.

(** A circuit is listed once, from the first of its nodes in the order of
    the graph. *)
Fixpoint simple_cycles (fuel : nat) (nodes : list string) (E : list (string * string)) :
    list (list string) :=
  match nodes with
  | [] => []
  | n :: nodes' =>
      circuits fuel E n n [] ++
      simple_cycles fuel nodes'
        (List.filter (fun e => negb (bool_decide (e.1 = n)) && negb (bool_decide (e.2 = n))) E)
  end.

#[export] Instance networkx : Networkx := {|
  DiGraph := graph;
  nx_empty := mkGraph [] [];
  nx_add_node n _ g := mkGraph (add n (g_nodes g)) (g_edges g);
  nx_add_edge u v _ _ g := mkGraph (add v (add u (g_nodes g))) (add (u, v) (g_edges g));
  nx_has_node g n := bool_decide (n ∈ g_nodes g);
  nx_has_edge := has_edge;
  nx_in_degree g n := length (List.filter (fun e => bool_decide (e.2 = n)) (g_edges g));
  nx_out_degree g n := length (List.filter (fun e => bool_decide (e.1 = n)) (g_edges g));
  nx_descendants := descendants;
  nx_number_of_nodes g := length (g_nodes g);
  nx_number_of_edges g := length (g_edges g);
  nx_simple_cycles g := simple_cycles (length (g_nodes g)) (g_nodes g) (g_edges g);
|}.

Lemma elem_of_add {A} `{EqDecision A} (a b : A) l : b ∈ add a l <-> b = a \/ b ∈ l.
Proof.
  unfold add. case_decide; [set_solver|]. rewrite elem_of_app, list_elem_of_singleton. tauto.
Qed.

Lemma elem_of_sources R u a : a ∈ sources R u <-> a = u \/ (a, u) ∈ R.
Proof.
  unfold sources. rewrite elem_of_cons, list_elem_of_fmap.
  split; (intros [|Hx]; [by left | right]).
  - destruct Hx as ([x y] & -> & [? Hy%bool_decide_eq_true]%elem_of_py_filter). simpl in *. congruence.
  - exists (a, u). split; [done|]. apply elem_of_py_filter. split; [done|].
    by apply bool_decide_eq_true.
Qed.

Lemma elem_of_targets R v b : b ∈ targets R v <-> b = v \/ (v, b) ∈ R.
Proof.
  unfold targets. rewrite elem_of_cons, list_elem_of_fmap.
  split; (intros [|Hx]; [by left | right]).
  - destruct Hx as ([x y] & -> & [? Hy%bool_decide_eq_true]%elem_of_py_filter). simpl in *. congruence.
  - exists (v, b). split; [done|]. apply elem_of_py_filter. split; [done|].
    by apply bool_decide_eq_true.
Qed.

Lemma elem_of_list_prod {A B} (la : list A) (lb : list B) a b :
  (a, b) ∈ list_prod la lb <-> a ∈ la /\ b ∈ lb.
Proof. rewrite !list_elem_of_In. apply in_prod_iff. Qed.

Definition edge_in (E : list (string * string)) (u v : string) : Prop := (u, v) ∈ E.

Lemma elem_of_closure E a b : (a, b) ∈ closure E <-> tc (edge_in E) a b.
Proof.
  revert a b. induction E as [|[u v] E IH]; intros a b; cbn [closure].
  - split; [by intros ?%elem_of_nil|]. induction 1 as [? ? H|? ? ? H]; by apply elem_of_nil in H.
  - assert (Hsub : forall x y, tc (edge_in E) x y -> tc (edge_in ((u, v) :: E)) x y).
    { intros x y. apply tc_mono. intros ? ? ?. by right. }
    rewrite elem_of_remove_dups, elem_of_app. rewrite elem_of_list_prod, elem_of_sources,
      elem_of_targets, !IH. split.
    + intros [?|[Ha Hb]]; [auto|].
      assert (Hv : tc (edge_in ((u, v) :: E)) u b).
      { destruct Hb as [->|Hb]; [apply tc_once; by left|].
        eapply tc_l; [by left | auto]. }
      destruct Ha as [->|Ha]; [done | eapply tc_transitive; eauto].
    + induction 1 as [x y Hxy|x y z Hxy _ IHt].
      * apply elem_of_cons in Hxy as [?|?]; simplify_eq; [by right; auto | left; by apply tc_once].
      * apply elem_of_cons in Hxy as [?|?]; simplify_eq.
        -- destruct IHt as [?|[_ Hz]]; right; auto.
        -- assert (tc (edge_in E) x y) by by apply tc_once.
           destruct IHt as [?|[[->|?] Hz]]; [left | right | right];
             eauto using tc_transitive, tc_l.
Qed.

Lemma length_filter_pos {A} (p : A -> bool) l :
  0 < length (List.filter p l) <-> exists a, a ∈ l /\ p a = true.
Proof.
  setoid_rewrite <- elem_of_py_filter. unfold py_filter. destruct (List.filter p l) as [|a l'].
  - simpl. split; [lia | intros [? ?%elem_of_nil]; done].
  - simpl. split; [intros _; exists a; by left | lia].
Qed.

#[export] Instance networkx_laws : NetworkxLaws.
Proof.
  split; simpl; unfold nx_edge; simpl; unfold has_edge; simpl.
  - done.
  - done.
  - intros a b _ _ g u v. destruct (bool_decide ((u, v) ∈ g_edges g)) eqn:E.
    + apply bool_decide_eq_true in E. rewrite orb_true_r.
      apply bool_decide_eq_true, elem_of_add. by right.
    + apply bool_decide_eq_false in E. rewrite orb_false_r. apply bool_decide_ext.
      rewrite elem_of_add. naive_solver.
  - intros g n. rewrite length_filter_pos. setoid_rewrite bool_decide_eq_true. split.
    + intros ([x y] & ? & Hy); simpl in *; subst. eauto.
    + intros [u ?]. by exists (u, n).
  - intros g n. rewrite length_filter_pos. setoid_rewrite bool_decide_eq_true. split.
    + intros ([x y] & ? & Hy); simpl in *; subst. eauto.
    + intros [u ?]. by exists (n, u).
  - intros g n m. unfold descendants.
    change (List.filter ?p ?l) with (py_filter p l).
    rewrite elem_of_py_filter, negb_true_iff, bool_decide_eq_false, elem_of_targets, elem_of_closure.
    assert (Hiff : tc (edge_in (g_edges g)) n m <->
                   tc (fun u v => bool_decide ((u, v) ∈ g_edges g) = true) n m).
    { split; apply tc_mono; intros ? ? ?; [by apply bool_decide_eq_true|].
      by eapply bool_decide_eq_true. }
    rewrite <- Hiff. split; [intros [[->|?] ?]; done | tauto].
Qed.
End ListGraph.
