(* ===== verification/PanelValidator.v ===== *)
(** * Patch Panel graph validation ([patchpanel/validator.py])

    [validate] runs every check of [PatchPanelValidator], collects their
    messages and raises them together. [panel_ok] is the declarative
    statement of what a panel must satisfy; the two agree. *)
From Stdlib Require Import ZArith Ascii String.
From S2P Require Import Prelude Values Authority Models Graph.
Open Scope string_scope.
Open Scope list_scope.

Record GraphValidationReport : Type := mkReport {
  node_count : nat;
  edge_count : nat;
  cycles : list (list string);
}.

Definition node_ids (pp : PatchPanel) : list string := map nd_id (pp_nodes pp).
Definition bucket_ids (pp : PatchPanel) : list string := map bk_id (pp_buckets pp).
Definition contract_ids (pp : PatchPanel) : list string := map ac_id (pp_acceptance_contracts pp).

Definition of_type (t : NodeType) (n : NodeDefinition) : bool := bool_decide (nd_type n = t).

(** ** The checks *)
Definition contract_reference_errors (prefix : string) (ref : option string) (ids : list string) :
    list string :=
  match ref with
  | Some c =>
      if truthy ref && negb (str_in c ids)
      then [prefix +:+ " references unknown acceptance contract '" +:+ c +:+ "'"]
      else []
  | None => []
  end.

Definition _validate_contract_references (pp : PatchPanel) (contract_ids : list string) :
    list string :=
  flat_map (fun b => contract_reference_errors ("bucket '" +:+ bk_id b +:+ "'")
                       (bk_acceptance_contract b) contract_ids) (pp_buckets pp) ++
  flat_map (fun n => contract_reference_errors ("node '" +:+ nd_id n +:+ "'")
                       (nd_acceptance_contract n) contract_ids) (pp_nodes pp).

Definition _validate_edges (pp : PatchPanel) (node_ids : list string) : list string :=
  flat_map (fun e =>
    (if str_in (from_node e) node_ids then []
     else ["edge from '" +:+ from_node e +:+ "' references an unknown node"]) ++
    (if str_in (to_node e) node_ids then []
     else ["edge to '" +:+ to_node e +:+ "' references an unknown node"])) (pp_edges pp).

(** The dictionary of the exits of the validator nodes. *)
Definition validators_of (pp : PatchPanel) : list (string * list string) :=
  dict_of_list (map (fun n => (nd_id n, nd_output_pipes n))
                  (py_filter (of_type NT_VALIDATOR) (pp_nodes pp))).

Definition _validate_validator_edges (pp : PatchPanel) : list string :=
  let validators := validators_of pp in
  flat_map (fun e =>
    match dict_get (from_node e) validators with
    | None => []
    | Some output_pipes =>
        if str_in (ed_on e) output_pipes then []
        else ["validator edge from '" +:+ from_node e +:+ "' uses exit '" +:+ ed_on e +:+
              "' that is not declared in output_pipes"]
    end) (pp_edges pp).

Definition _is_routing_validator (n : NodeDefinition) : bool :=
  bool_decide (nd_validator_kind n = Some "routing") || Nat.ltb 1 (length (nd_output_pipes n)).

(** [accept_exit not in output_pipes], with [output_pipes] a set: an entry
    that cannot be hashed raises. *)
Definition accept_exit_errors (n : NodeDefinition) (accept_exit : value) : res (list string) :=
  if negb (hashable accept_exit) then Raise (TypeError "unhashable type")
  else if existsb (v_eq_str accept_exit) (nd_output_pipes n) then Ok []
  else Ok ["routing validator '" +:+ nd_id n +:+ "' accept_exits entry '" +:+
           v_str accept_exit +:+ "' is not declared in output_pipes"].

Fixpoint concat_res {A} (f : A -> res (list string)) (l : list A) : res (list string) :=
  match l with
  | [] => Ok []
  | a :: l' => e ← f a; e' ← concat_res f l'; Ok (e ++ e')
  end.

Definition routing_node_errors (n : NodeDefinition) : res (list string) :=
  if negb (of_type NT_VALIDATOR n) || negb (_is_routing_validator n) then Ok []
  else match vget "accept_exits" (nd_config n) with
       | VList accept_exits => concat_res (accept_exit_errors n) accept_exits
       | _ => Ok ["routing validator '" +:+ nd_id n +:+
                  "' must declare config.accept_exits as a list"]
       end.

Definition _validate_routing_validator_accept_exits (pp : PatchPanel) : res (list string) :=
  concat_res routing_node_errors (pp_nodes pp).

(** The pipes the nodes declare, with the node and the direction of the last
    declaration of each. *)
Definition node_pipe_declarations (n : NodeDefinition) : list (string * (string * string)) :=
  map (fun p => (p, (nd_id n, "input"))) (nd_input_pipes n) ++
  map (fun p => (p, (nd_id n, "output"))) (nd_output_pipes n).

Definition declared_pipes (pp : PatchPanel) : list (string * (string * string)) :=
  dict_of_list (flat_map node_pipe_declarations (pp_nodes pp)).

Definition binding_errors (node_ids bucket_ids : list string)
    (declared : list (string * (string * string))) (pipe : string) (b : PipeBinding) :
    list string :=
  match dict_get pipe declared with
  | None => ["pipe binding '" +:+ pipe +:+ "' is not declared by any node"]
  | Some (declared_node_id, declared_direction) =>
      (if truthy (pb_node b) && negb (str_in (str_or (pb_node b) "") node_ids)
       then ["pipe binding '" +:+ pipe +:+ "' references unknown node '" +:+
             str_or (pb_node b) "" +:+ "'"] else []) ++
      (if truthy (pb_node b) && negb (bool_decide (str_or (pb_node b) "" = declared_node_id))
       then ["pipe binding '" +:+ pipe +:+ "' is assigned to node '" +:+
             str_or (pb_node b) "" +:+ "' but is declared by node '" +:+
             declared_node_id +:+ "'"] else []) ++
      (if truthy (pb_direction b) &&
          negb (bool_decide (str_or (pb_direction b) "" = declared_direction))
       then ["pipe binding '" +:+ pipe +:+ "' declares direction '" +:+
             str_or (pb_direction b) "" +:+ "' but the node declares it as '" +:+
             declared_direction +:+ "'"] else []) ++
      (if str_in (pb_bucket b) bucket_ids then []
       else ["pipe binding '" +:+ pipe +:+ "' references unknown bucket '" +:+
             pb_bucket b +:+ "'"])
  end.

Definition _validate_pipe_bindings (pp : PatchPanel) (node_ids bucket_ids : list string) :
    list string :=
  let declared := declared_pipes pp in
  flat_map (fun kb => binding_errors node_ids bucket_ids declared kb.1 kb.2)
    (pp_pipe_bindings pp) ++
  flat_map (fun pipe =>
    if dict_mem pipe (pp_pipe_bindings pp) then []
    else ["declared pipe '" +:+ pipe +:+ "' is missing a pipe binding"]) (dict_keys declared).

Section validator.
Context `{Networkx}.

Definition _build_graph (pp : PatchPanel) : DiGraph :=
  let g := foldl (fun g n => nx_add_node (nd_id n) (nd_type n) g) nx_empty (pp_nodes pp) in
  foldl (fun g e => nx_add_edge (from_node e) (to_node e) (ed_on e) (ed_condition e) g) g
    (pp_edges pp).

Definition _validate_boundaries (pp : PatchPanel) (graph : DiGraph) : list string :=
  let source_nodes := py_filter (of_type SOURCE) (pp_nodes pp) in
  let sink_nodes := py_filter (of_type SINK) (pp_nodes pp) in
  (match source_nodes with
   | [] => ["Patch Panel must declare at least one source node"] | _ => [] end) ++
  (match sink_nodes with
   | [] => ["Patch Panel must declare at least one sink node"] | _ => [] end) ++
  flat_map (fun n =>
    if Nat.ltb 0 (nx_in_degree graph (nd_id n))
    then ["source node '" +:+ nd_id n +:+ "' must not have incoming edges"] else [])
    source_nodes ++
  flat_map (fun n =>
    if Nat.ltb 0 (nx_out_degree graph (nd_id n))
    then ["sink node '" +:+ nd_id n +:+ "' must not have outgoing edges"] else [])
    sink_nodes.

Definition _validate_reachability (pp : PatchPanel) (graph : DiGraph) : list string :=
  let source_ids := map nd_id (py_filter (of_type SOURCE) (pp_nodes pp)) in
  match source_ids with
  | [] => []
  | _ =>
      let reachable := source_ids ++ flat_map (nx_descendants graph) source_ids in
      flat_map (fun n =>
        if str_in (nd_id n) reachable then []
        else ["node '" +:+ nd_id n +:+ "' is not reachable from any source node"])
        (pp_nodes pp)
  end.

Definition _validate_dead_ends (pp : PatchPanel) (graph : DiGraph) : list string :=
  let sink_ids := map nd_id (py_filter (of_type SINK) (pp_nodes pp)) in
  flat_map (fun n =>
    if negb (str_in (nd_id n) sink_ids) && Nat.eqb (nx_out_degree graph (nd_id n)) 0
    then ["node '" +:+ nd_id n +:+ "' is a dead end and is not a sink"] else [])
    (pp_nodes pp).

Definition validate (pp : PatchPanel) : res GraphValidationReport :=
  let e1 := _validate_contract_references pp (contract_ids pp) in
  let e2 := _validate_edges pp (node_ids pp) in
  let e3 := _validate_validator_edges pp in
  e4 ← _validate_routing_validator_accept_exits pp;
  let e5 := _validate_pipe_bindings pp (node_ids pp) (bucket_ids pp) in
  let graph := _build_graph pp in
  let e6 := _validate_boundaries pp graph in
  let e7 := _validate_reachability pp graph in
  let e8 := _validate_dead_ends pp graph in
  match e1 ++ e2 ++ e3 ++ e4 ++ e5 ++ e6 ++ e7 ++ e8 with
  | [] => Ok (mkReport (nx_number_of_nodes graph) (nx_number_of_edges graph)
                (nx_simple_cycles graph))
  | errors => Raise (PatchPanelValidationError errors)
  end.
End validator.

(** ** The specification *)

(** The edges of a panel, as a relation on node ids. *)
Definition panel_edge (pp : PatchPanel) (u v : string) : Prop :=
  exists e, e ∈ pp_edges pp /\ from_node e = u /\ to_node e = v.

Definition panel_node (pp : PatchPanel) (t : NodeType) (n : NodeDefinition) : Prop :=
  n ∈ pp_nodes pp /\ nd_type n = t.

(** The bindings a declared pipe may have: to the node and in the direction
    of its declaration (both may be left out) and into a declared bucket. *)
Definition binding_ok (pp : PatchPanel) (pipe : string) (b : PipeBinding) : Prop :=
  exists node dir,
    dict_get pipe (declared_pipes pp) = Some (node, dir) /\
    (truthy (pb_node b) = true -> pb_node b = Some node) /\
    (truthy (pb_direction b) = true -> pb_direction b = Some dir) /\
    pb_bucket b ∈ bucket_ids pp.

Record panel_ok (pp : PatchPanel) : Prop := {
  ok_bucket_contracts b : b ∈ pp_buckets pp -> truthy (bk_acceptance_contract b) = true ->
    exists c, bk_acceptance_contract b = Some c /\ c ∈ contract_ids pp;
  ok_node_contracts n : n ∈ pp_nodes pp -> truthy (nd_acceptance_contract n) = true ->
    exists c, nd_acceptance_contract n = Some c /\ c ∈ contract_ids pp;
  ok_edges u v : panel_edge pp u v -> u ∈ node_ids pp /\ v ∈ node_ids pp;
  ok_validator_exits e n : e ∈ pp_edges pp -> panel_node pp NT_VALIDATOR n ->
    nd_id n = from_node e -> ed_on e ∈ nd_output_pipes n;
  ok_accept_exits n : panel_node pp NT_VALIDATOR n -> _is_routing_validator n = true ->
    exists exits, vget "accept_exits" (nd_config n) = VList (map VStr exits) /\
      (forall x, x ∈ exits -> x ∈ nd_output_pipes n);
  ok_bindings pipe b : (pipe, b) ∈ pp_pipe_bindings pp -> binding_ok pp pipe b;
  ok_bound pipe : pipe ∈ dict_keys (declared_pipes pp) -> pipe ∈ dict_keys (pp_pipe_bindings pp);
  ok_source : exists n, panel_node pp SOURCE n;
  ok_sink : exists n, panel_node pp SINK n;
  ok_source_in n u : panel_node pp SOURCE n -> ~ panel_edge pp u (nd_id n);
  ok_sink_out n v : panel_node pp SINK n -> ~ panel_edge pp (nd_id n) v;
  ok_reachable n : n ∈ pp_nodes pp ->
    exists s, panel_node pp SOURCE s /\ rtc (panel_edge pp) (nd_id s) (nd_id n);
  ok_progress n : n ∈ pp_nodes pp -> nd_type n <> SINK -> exists v, panel_edge pp (nd_id n) v;
}.

(** ** The checks against the specification *)
Section contracts.

Lemma contract_reference_ok prefix ref ids :
  contract_reference_errors prefix ref ids = [] <->
  (truthy ref = true -> exists c, ref = Some c /\ c ∈ ids).
Proof.
  unfold contract_reference_errors. destruct ref as [c|]; [|simpl; naive_solver].
  destruct (truthy (Some c)), (str_in c ids) eqn:E; simpl.
  - apply str_in_true in E. naive_solver.
  - apply str_in_false in E. naive_solver.
  - naive_solver.
  - naive_solver.
Qed.

Lemma contract_references_ok pp ids :
  _validate_contract_references pp ids = [] <->
  (forall b, b ∈ pp_buckets pp -> truthy (bk_acceptance_contract b) = true ->
    exists c, bk_acceptance_contract b = Some c /\ c ∈ ids) /\
  (forall n, n ∈ pp_nodes pp -> truthy (nd_acceptance_contract n) = true ->
    exists c, nd_acceptance_contract n = Some c /\ c ∈ ids).
Proof.
  unfold _validate_contract_references. split.
  - intros [Hb Hn]%app_eq_nil. rewrite flat_map_nil in Hb. rewrite flat_map_nil in Hn.
    split; intros x Hx; eapply contract_reference_ok; eauto.
  - intros [Hb Hn].
    rewrite (proj2 (flat_map_nil _ _)), (proj2 (flat_map_nil _ _)); [done| |];
      intros x Hx; apply contract_reference_ok; auto.
Qed.
End contracts.

Lemma if_str_in_nil s l (x : string) : (if str_in s l then [] else [x]) = [] <-> s ∈ l.
Proof. rewrite <- str_in_true. destruct (str_in s l); split; done. Qed.

Lemma if_not_nil (b : bool) (x : string) : (if b then [x] else []) = [] <-> b = false.
Proof. destruct b; split; done. Qed.

Lemma edges_ok pp ids :
  _validate_edges pp ids = [] <->
  (forall u v, panel_edge pp u v -> u ∈ ids /\ v ∈ ids).
Proof.
  unfold _validate_edges. rewrite flat_map_nil. split.
  - intros H u v (e & He & <- & <-). specialize (H e He).
    apply app_eq_nil in H as [H1 H2]. rewrite if_str_in_nil in H1. rewrite if_str_in_nil in H2. done.
  - intros H e He. destruct (H (from_node e) (to_node e)) as [? ?]; [by exists e|].
    rewrite (proj2 (if_str_in_nil _ _ _)), (proj2 (if_str_in_nil _ _ _)); done.
Qed.

Lemma py_filter_NoDup {A B} (f : A -> B) p (l : list A) :
  NoDup (map f l) -> NoDup (map f (py_filter p l)).
Proof.
  induction l as [|a l IH]; simpl; [done|]. intros [Ha Hl]%NoDup_cons.
  destruct (p a); simpl; [|auto]. apply NoDup_cons. split; [|auto].
  intros Hin. apply Ha. apply list_elem_of_fmap in Hin as (b & -> & Hb).
  apply elem_of_py_filter in Hb as [? _]. apply list_elem_of_fmap. eauto.
Qed.

Lemma validators_of_get pp u pipes :
  NoDup (node_ids pp) ->
  dict_get u (validators_of pp) = Some pipes <->
  exists n, panel_node pp NT_VALIDATOR n /\ nd_id n = u /\ nd_output_pipes n = pipes.
Proof.
  intros Hnd. unfold validators_of. rewrite dict_of_list_get.
  - rewrite list_elem_of_fmap. unfold panel_node. split.
    + intros (n & [= -> ->] & [? Ht%bool_decide_eq_true]%elem_of_py_filter). eauto.
    + intros (n & [? ?] & <- & <-). exists n. split; [done|].
      apply elem_of_py_filter. split; [done | by apply bool_decide_eq_true].
  - rewrite <- list_fmap_compose. by apply (py_filter_NoDup nd_id).
Qed.

Lemma validator_edges_ok pp :
  NoDup (node_ids pp) ->
  _validate_validator_edges pp = [] <->
  (forall e n, e ∈ pp_edges pp -> panel_node pp NT_VALIDATOR n -> nd_id n = from_node e ->
     ed_on e ∈ nd_output_pipes n).
Proof.
  intros Hnd. unfold _validate_validator_edges. rewrite flat_map_nil. split.
  - intros H e n He Hn Hid. specialize (H e He). cbv beta in H.
    rewrite (proj2 (validators_of_get pp (from_node e) (nd_output_pipes n) Hnd)) in H by eauto.
    by apply if_str_in_nil in H.
  - intros H e He. cbv beta. destruct (dict_get _ _) as [pipes|] eqn:E; [|done].
    apply validators_of_get in E as (n & Hn & Hid & <-); [|done].
    apply if_str_in_nil. eauto.
Qed.

Lemma concat_res_nil {A} (f : A -> res (list string)) l :
  concat_res f l = Ok [] <-> forall a, a ∈ l -> f a = Ok [].
Proof.
  induction l as [|a l IH]; simpl.
  - split; [by intros _ ? ?%elem_of_nil | done].
  - split.
    + intros H b Hb. unfold mbind, res_bind in H.
      destruct (f a) as [e|] eqn:Ea; [|done]. destruct (concat_res f l) as [e'|]; [|done].
      simplify_eq. apply app_eq_nil in H as [-> ->].
      apply elem_of_cons in Hb as [->|Hb]; [done | by apply IH].
    + intros H. rewrite (H a) by left. cbn. rewrite (proj2 IH); [done|].
      intros b Hb. apply H. by right.
Qed.

Lemma v_eq_str_true v s : v_eq_str v s = true <-> v = VStr s.
Proof. destruct v; simpl; try (split; congruence). rewrite bool_decide_eq_true. naive_solver. Qed.

Lemma accept_exit_ok n v :
  accept_exit_errors n v = Ok [] <-> exists s, v = VStr s /\ s ∈ nd_output_pipes n.
Proof.
  unfold accept_exit_errors. destruct (existsb _ _) eqn:E.
  - apply existsb_true in E as (s & Hs & ->%v_eq_str_true). simpl. naive_solver.
  - rewrite existsb_false in E. destruct (hashable v); simpl; split; try done.
    + intros (s & -> & Hs). specialize (E s Hs). by rewrite (proj2 (v_eq_str_true _ _)) in E.
    + intros (s & -> & Hs). specialize (E s Hs). by rewrite (proj2 (v_eq_str_true _ _)) in E.
Qed.

Lemma accept_exit_list_ok n l :
  concat_res (accept_exit_errors n) l = Ok [] <->
  exists exits, l = map VStr exits /\ forall x, x ∈ exits -> x ∈ nd_output_pipes n.
Proof.
  rewrite concat_res_nil. setoid_rewrite accept_exit_ok. split.
  - induction l as [|v l IH]; intros H; [exists []; split; [done | by intros ? ?%elem_of_nil]|].
    destruct (H v) as (s & -> & Hs); [left|].
    destruct IH as (exits & -> & Hex); [intros a Ha; apply H; by right|].
    exists (s :: exits). split; [done|]. intros x [->|]%elem_of_cons; auto.
  - intros (exits & -> & Hex) v (s & -> & Hs)%list_elem_of_fmap. eauto.
Qed.

Lemma accept_exits_ok pp :
  _validate_routing_validator_accept_exits pp = Ok [] <->
  (forall n, panel_node pp NT_VALIDATOR n -> _is_routing_validator n = true ->
    exists exits, vget "accept_exits" (nd_config n) = VList (map VStr exits) /\
      (forall x, x ∈ exits -> x ∈ nd_output_pipes n)).
Proof.
  unfold _validate_routing_validator_accept_exits. rewrite concat_res_nil.
  unfold panel_node. split; intros H n.
  - intros [Hn Ht] Hr. specialize (H n Hn). unfold routing_node_errors in H.
    rewrite Hr in H. unfold of_type in H. rewrite bool_decide_eq_true_2 in H by done.
    simpl in H. destruct (vget _ _); try done.
    apply accept_exit_list_ok in H as (exits & -> & ?). eauto.
  - intros Hn. unfold routing_node_errors, of_type. case_bool_decide as Ht; [|done].
    destruct (_is_routing_validator n) eqn:Hr; [|done]. simpl.
    destruct (H n) as (exits & -> & Hex); [done..|]. apply accept_exit_list_ok. eauto.
Qed.

Lemma truthy_str_or o d : truthy o = true -> o = Some (str_or o d).
Proof. destruct o as [s|]; [|done]. intros Ht. unfold str_or. by rewrite Ht. Qed.

Lemma truthy_match o s :
  truthy o && negb (bool_decide (str_or o "" = s)) = false <-> (truthy o = true -> o = Some s).
Proof.
  destruct (truthy o) eqn:Ht; simpl; [|naive_solver].
  rewrite negb_false_iff, bool_decide_eq_true. pose proof (truthy_str_or o "" Ht). naive_solver.
Qed.

Lemma binding_errors_ok pp pipe b :
  (forall n d, dict_get pipe (declared_pipes pp) = Some (n, d) -> n ∈ node_ids pp) ->
  binding_errors (node_ids pp) (bucket_ids pp) (declared_pipes pp) pipe b = [] <->
  binding_ok pp pipe b.
Proof.
  intros Hids. unfold binding_errors, binding_ok.
  destruct (dict_get pipe _) as [[n d]|] eqn:E; [|naive_solver].
  split.
  - intros [_ [H2 [H3 H4]%app_eq_nil]%app_eq_nil]%app_eq_nil.
    pose proof (proj1 (truthy_match _ _) (proj1 (if_not_nil _ _) H2)).
    pose proof (proj1 (truthy_match _ _) (proj1 (if_not_nil _ _) H3)).
    apply if_str_in_nil in H4. exists n, d. auto.
  - intros (n' & d' & [= <- <-] & Hn & Hd & Hb).
    rewrite (proj2 (if_str_in_nil _ _ _) Hb).
    rewrite (proj2 (truthy_match _ _) Hn), (proj2 (truthy_match _ _) Hd). rewrite !app_nil_r.
    apply if_not_nil. destruct (truthy (pb_node b)) eqn:Ht; [|done]. simpl.
    rewrite negb_false_iff, str_in_true. specialize (Hn eq_refl). rewrite Hn.
    unfold str_or. rewrite Hn in Ht. rewrite Ht. eauto.
Qed.

Lemma declared_pipes_sound pp pipe node dir :
  dict_get pipe (declared_pipes pp) = Some (node, dir) ->
  exists n, n ∈ pp_nodes pp /\ nd_id n = node /\
    (dir = "input" /\ pipe ∈ nd_input_pipes n \/ dir = "output" /\ pipe ∈ nd_output_pipes n).
Proof.
  intros H%dict_of_list_elem. apply list_elem_of_In, in_flat_map in H as (n & Hn & Hp).
  apply list_elem_of_In in Hn. apply list_elem_of_In in Hp. exists n. split; [done|].
  unfold node_pipe_declarations in Hp.
  apply elem_of_app in Hp as [(p & [= -> -> ->] & ?)%list_elem_of_fmap
                             |(p & [= -> -> ->] & ?)%list_elem_of_fmap]; auto.
Qed.

Lemma declared_pipes_complete pp pipe n :
  n ∈ pp_nodes pp -> pipe ∈ nd_input_pipes n ++ nd_output_pipes n ->
  pipe ∈ dict_keys (declared_pipes pp).
Proof.
  intros Hn Hp. apply dict_of_list_keys. apply list_elem_of_fmap.
  assert (exists x, x ∈ node_pipe_declarations n /\ pipe = x.1) as (x & Hx & ->).
  { unfold node_pipe_declarations. setoid_rewrite elem_of_app. setoid_rewrite list_elem_of_fmap.
    apply elem_of_app in Hp as [|]; eauto 10. }
  exists x. split; [done|]. apply list_elem_of_In, in_flat_map.
  exists n. by rewrite <- !list_elem_of_In.
Qed.

Lemma pipe_bindings_ok pp :
  _validate_pipe_bindings pp (node_ids pp) (bucket_ids pp) = [] <->
  (forall pipe b, (pipe, b) ∈ pp_pipe_bindings pp -> binding_ok pp pipe b) /\
  (forall pipe, pipe ∈ dict_keys (declared_pipes pp) -> pipe ∈ dict_keys (pp_pipe_bindings pp)).
Proof.
  assert (Hids : forall pipe n d, dict_get pipe (declared_pipes pp) = Some (n, d) -> n ∈ node_ids pp).
  { intros pipe n d (x & ? & <- & _)%declared_pipes_sound. apply list_elem_of_fmap. eauto. }
  unfold _validate_pipe_bindings. split.
  - intros [H1 H2]%app_eq_nil. rewrite flat_map_nil in H1. rewrite flat_map_nil in H2. split.
    + intros pipe b Hb. apply binding_errors_ok; eauto. exact (H1 (pipe, b) Hb).
    + intros pipe Hp. specialize (H2 pipe Hp). cbv beta in H2.
      destruct (dict_mem pipe _) eqn:E; [|done]. by apply dict_mem_true.
  - intros [H1 H2]. rewrite (proj2 (flat_map_nil _ _)); simpl.
    + apply flat_map_nil. intros pipe Hp. apply H2, dict_mem_true in Hp. by rewrite Hp.
    + intros [pipe b] Hb. apply binding_errors_ok; eauto.
Qed.

(** ** The graph checks *)
Section graph_checks.
Context `{NetworkxLaws}.

Lemma build_graph_edge pp u v : nx_edge (_build_graph pp) u v <-> panel_edge pp u v.
Proof.
  unfold _build_graph, nx_edge, panel_edge.
  assert (Hnodes : forall ns g, nx_has_edge
            (foldl (fun g n => nx_add_node (nd_id n) (nd_type n) g) g ns) u v
          = nx_has_edge g u v).
  { induction ns as [|n ns IH]; intros g; simpl; [done|].
    by rewrite IH, nx_has_edge_add_node. }
  assert (Hedges : forall es g, nx_has_edge
            (foldl (fun g e => nx_add_edge (from_node e) (to_node e) (ed_on e)
                                 (ed_condition e) g) g es) u v = true <->
          (exists e, e ∈ es /\ from_node e = u /\ to_node e = v) \/ nx_has_edge g u v = true).
  { induction es as [|e es IH]; intros g; simpl.
    - split; [by right | intros [(? & ?%elem_of_nil & _)|?]; done].
    - rewrite IH, nx_has_edge_add_edge, orb_true_iff, bool_decide_eq_true.
      setoid_rewrite elem_of_cons. naive_solver. }
  rewrite Hedges, Hnodes, nx_has_edge_empty. naive_solver.
Qed.

Lemma elem_of_type pp t n :
  n ∈ py_filter (of_type t) (pp_nodes pp) <-> panel_node pp t n.
Proof. rewrite elem_of_py_filter. unfold of_type, panel_node. by rewrite bool_decide_eq_true. Qed.

Lemma match_nil_filter {A} (p : A -> bool) l (m : string) :
  match py_filter p l with [] => [m] | _ => [] end = [] <-> exists a, a ∈ py_filter p l.
Proof.
  destruct (py_filter p l) as [|a l']; split; try done.
  - intros [? ?%elem_of_nil]. done.
  - intros _. exists a. left.
Qed.

Lemma boundaries_ok pp :
  _validate_boundaries pp (_build_graph pp) = [] <->
  (exists n, panel_node pp SOURCE n) /\ (exists n, panel_node pp SINK n) /\
  (forall n u, panel_node pp SOURCE n -> ~ panel_edge pp u (nd_id n)) /\
  (forall n v, panel_node pp SINK n -> ~ panel_edge pp (nd_id n) v).
Proof.
  unfold _validate_boundaries.
  assert (Happ : forall (a b c d : list string), a ++ b ++ c ++ d = [] <->
                 a = [] /\ b = [] /\ c = [] /\ d = []).
  { intros. split; [intros [? [? [? ?]%app_eq_nil]%app_eq_nil]%app_eq_nil; auto|].
    intros (-> & -> & -> & ->). done. }
  rewrite Happ, !match_nil_filter, !flat_map_nil.
  setoid_rewrite elem_of_type. setoid_rewrite if_not_nil. setoid_rewrite Nat.ltb_ge.
  split; (intros (? & ? & Hs & Hk); repeat split; auto).
  - intros n u Hn Hu. specialize (Hs n Hn). apply build_graph_edge in Hu.
    assert (0 < nx_in_degree (_build_graph pp) (nd_id n)) by (apply nx_in_degree_pos; eauto). lia.
  - intros n u Hn Hu. specialize (Hk n Hn). apply build_graph_edge in Hu.
    assert (0 < nx_out_degree (_build_graph pp) (nd_id n)) by (apply nx_out_degree_pos; eauto). lia.
  - intros n Hn. apply Nat.nlt_ge. intros [u Hu]%nx_in_degree_pos.
    apply build_graph_edge in Hu. by apply (Hs n u).
  - intros n Hn. apply Nat.nlt_ge. intros [u Hu]%nx_out_degree_pos.
    apply build_graph_edge in Hu. by apply (Hk n u).
Qed.

Lemma reachable_spec pp m :
  m ∈ map nd_id (py_filter (of_type SOURCE) (pp_nodes pp)) ++
      flat_map (nx_descendants (_build_graph pp))
        (map nd_id (py_filter (of_type SOURCE) (pp_nodes pp))) <->
  exists s, panel_node pp SOURCE s /\ rtc (panel_edge pp) (nd_id s) m.
Proof.
  assert (Hids : forall x, x ∈ map nd_id (py_filter (of_type SOURCE) (pp_nodes pp)) <->
                 exists s, panel_node pp SOURCE s /\ x = nd_id s).
  { intros x. setoid_rewrite list_elem_of_fmap. setoid_rewrite elem_of_type. naive_solver. }
  rewrite elem_of_app, Hids, list_elem_of_In, in_flat_map.
  setoid_rewrite <- list_elem_of_In. setoid_rewrite Hids. split.
  - intros [(s & Hs & ->)|(x & (s & Hs & ->) & [_ Hm]%nx_descendants_spec)].
    + exists s. split; [done | apply rtc_refl].
    + exists s. split; [done|]. apply tc_rtc.
      eapply tc_mono; [|exact Hm]. intros a b. apply build_graph_edge.
  - intros (s & Hs & Hm). destruct (decide (m = nd_id s)) as [->|Hne]; [left; eauto|].
    right. exists (nd_id s). split; [eauto|]. apply nx_descendants_spec. split; [done|].
    apply rtc_tc in Hm as [?|Hm]; [congruence|].
    eapply tc_mono; [|exact Hm]. intros a b. apply build_graph_edge.
Qed.

Lemma reachability_ok pp :
  (exists n, panel_node pp SOURCE n) ->
  _validate_reachability pp (_build_graph pp) = [] <->
  (forall n, n ∈ pp_nodes pp ->
     exists s, panel_node pp SOURCE s /\ rtc (panel_edge pp) (nd_id s) (nd_id n)).
Proof.
  intros [s0 Hs0]. unfold _validate_reachability.
  pose proof (reachable_spec pp) as Hr.
  assert (Hne : nd_id s0 ∈ map nd_id (py_filter (of_type SOURCE) (pp_nodes pp))).
  { apply list_elem_of_fmap. exists s0. by rewrite elem_of_type. }
  destruct (map nd_id _) as [|x xs]; [by apply elem_of_nil in Hne|].
  rewrite flat_map_nil. setoid_rewrite if_str_in_nil. setoid_rewrite Hr. done.
Qed.

Lemma dead_ends_ok pp :
  NoDup (node_ids pp) ->
  _validate_dead_ends pp (_build_graph pp) = [] <->
  (forall n, n ∈ pp_nodes pp -> nd_type n <> SINK -> exists v, panel_edge pp (nd_id n) v).
Proof.
  intros Hnd. unfold _validate_dead_ends. rewrite flat_map_nil. setoid_rewrite if_not_nil.
  assert (Hsink : forall n, n ∈ pp_nodes pp ->
            nd_id n ∈ map nd_id (py_filter (of_type SINK) (pp_nodes pp)) <-> nd_type n = SINK).
  { intros n Hn. rewrite list_elem_of_fmap. setoid_rewrite elem_of_type. split.
    - intros (m & Hid & [Hm Ht]). rewrite <- Ht. f_equal.
      apply list_elem_of_lookup in Hn as [i Hi]. apply list_elem_of_lookup in Hm as [j Hj].
      assert (i = j) as ->; [|congruence].
      eapply (NoDup_lookup (node_ids pp) i j (nd_id n)); [done| |].
      + unfold node_ids. by rewrite list_lookup_fmap, Hi.
      + unfold node_ids. by rewrite list_lookup_fmap, Hj, Hid.
    - intros. exists n. done. }
  assert (Hdeg : forall u, Nat.eqb (nx_out_degree (_build_graph pp) u) 0 = false <->
                 exists v, panel_edge pp u v).
  { intros u. setoid_rewrite <- build_graph_edge. rewrite <- nx_out_degree_pos, Nat.eqb_neq. lia. }
  split; intros Hall n Hn; specialize (Hall n Hn).
  - intros Ht. rewrite <- Hsink in Ht by done. apply str_in_false in Ht. rewrite Ht in Hall.
    by apply Hdeg.
  - destruct (str_in _ _) eqn:E; [done|]. apply str_in_false in E. rewrite Hsink in E by done.
    simpl. apply Hdeg. auto.
Qed.

(** The validator, from its checks. *)
Lemma validate_ok_split pp r :
  validate pp = Ok r ->
  _validate_contract_references pp (contract_ids pp) = [] /\
  _validate_edges pp (node_ids pp) = [] /\ _validate_validator_edges pp = [] /\
  _validate_routing_validator_accept_exits pp = Ok [] /\
  _validate_pipe_bindings pp (node_ids pp) (bucket_ids pp) = [] /\
  _validate_boundaries pp (_build_graph pp) = [] /\
  _validate_reachability pp (_build_graph pp) = [] /\
  _validate_dead_ends pp (_build_graph pp) = [].
Proof.
  unfold validate, mbind, res_bind. destruct (_validate_routing_validator_accept_exits pp); [|done].
  match goal with |- match ?l with _ => _ end = _ -> _ => destruct l eqn:E; [|done] end.
  repeat match goal with Hx : _ ++ _ = [] |- _ => apply app_eq_nil in Hx as [? Hx] end.
  intros _. subst. done.
Qed.

Lemma validate_ok_join pp :
  _validate_contract_references pp (contract_ids pp) = [] ->
  _validate_edges pp (node_ids pp) = [] -> _validate_validator_edges pp = [] ->
  _validate_routing_validator_accept_exits pp = Ok [] ->
  _validate_pipe_bindings pp (node_ids pp) (bucket_ids pp) = [] ->
  _validate_boundaries pp (_build_graph pp) = [] ->
  _validate_reachability pp (_build_graph pp) = [] ->
  _validate_dead_ends pp (_build_graph pp) = [] ->
  is_ok (validate pp).
Proof.
  intros H1 H2 H3 H4 H5 H6 H7 H8. unfold validate. rewrite H4. cbn [mbind res_bind].
  rewrite H1, H2, H3, H5, H6, H7, H8. by eexists.
Qed.

(** What a successful validation says of the bindings alone. *)
Lemma validated_bindings pp pipe b :
  is_ok (validate pp) -> (pipe, b) ∈ pp_pipe_bindings pp -> binding_ok pp pipe b.
Proof.
  intros [r Hr] Hb. apply validate_ok_split in Hr as (_ & _ & _ & _ & H5 & _).
  apply pipe_bindings_ok in H5 as [H5 _]. auto.
Qed.

Lemma validate_iff_ok pp :
  NoDup (node_ids pp) -> is_ok (validate pp) <-> panel_ok pp.
Proof.
  intros Hnd. split.
  - intros [r Hr]. apply validate_ok_split in Hr as (H1 & H2 & H3 & H4 & H5 & H6 & H7 & H8).
    apply contract_references_ok in H1 as [? ?]. rewrite edges_ok in H2.
    rewrite validator_edges_ok in H3 by done. rewrite accept_exits_ok in H4.
    apply pipe_bindings_ok in H5 as [? ?]. apply boundaries_ok in H6 as (? & ? & ? & ?).
    rewrite reachability_ok in H7 by done. rewrite dead_ends_ok in H8 by done.
    by constructor.
  - intros []. apply validate_ok_join.
    + by apply contract_references_ok.
    + by apply edges_ok.
    + by apply validator_edges_ok.
    + by apply accept_exits_ok.
    + by apply pipe_bindings_ok.
    + by apply boundaries_ok.
    + by apply reachability_ok.
    + by apply dead_ends_ok.
Qed.
End graph_checks.
