(* ===== verification/SystemPanels.v ===== *)
(** * The packaged system Patch Panels ([defaults/patchpanels/])

    The two panels every installation loads at start, as data: the examples
    on which the development evaluates its definitions. *)
From Stdlib Require Import ZArith Ascii String.
From S2P Require Import Prelude Values Authority Models Graph PanelValidator.
Open Scope string_scope.
Open Scope list_scope.

Definition simple_bucket (id description : string) : BucketDefinition :=
  mkBucket id (Some description) [] [] None false.
Definition simple_edge (u v on : string) : EdgeDefinition := mkEdge u v on None.
Definition input_binding (node bucket : string) : PipeBinding :=
  mkBinding bucket (Some node) (Some "input").
Definition output_binding (node bucket : string) : PipeBinding :=
  mkBinding bucket (Some node) (Some "output").
Definition routing_node (id : string) (inputs outputs : list string) (config : doc) :
    NodeDefinition :=
  mkNode id NT_VALIDATOR (Some "routing") None inputs outputs None config.
Definition source_node (id : string) (outputs : list string) : NodeDefinition :=
  mkNode id SOURCE None None [] outputs None [].
Definition sink_node (id : string) (inputs : list string) (config : doc) : NodeDefinition :=
  mkNode id SINK None None inputs [] None config.

Definition registry_doc (name description : string) (tags inputs outputs permissions : list string)
    (risk : string) : doc :=
  [("registry", VDict
     [("name", VStr name); ("description", VStr description); ("tags", VList (map VStr tags));
      ("input_types", VList (map VStr inputs)); ("output_types", VList (map VStr outputs));
      ("required_permissions", VList (map VStr permissions)); ("risk_level", VStr risk);
      ("status", VStr "published")])].

Definition system_pp_approval : PatchPanel := {|
  pp_id := "system_pp_approval";
  pp_version := "1.0.0";
  pp_description := Some "System workflow for Patch Panel proposal validation, governance, and registry publication.";
  pp_buckets :=
    [simple_bucket "topology_proposals"
       "Proposed Patch Panel definitions awaiting algorithmic topology validation.";
     simple_bucket "governance_review"
       "Valid topology proposals awaiting role-driven governance review.";
     simple_bucket "registry_publication"
       "Approved proposals ready for registry publication sink execution.";
     simple_bucket "rejected_proposals"
       "Proposals rejected by topology validation or governance review."];
  pp_nodes :=
    [source_node "proposal_source" ["proposal_submitted"];
     routing_node "topological_validator" ["topology_validation_input"]
       ["topology_valid"; "topology_invalid"]
       [("validation_handler", VStr "patch_panel_topology");
        ("valid_exit", VStr "topology_valid"); ("invalid_exit", VStr "topology_invalid");
        ("accept_exits", VList [VStr "topology_valid"])];
     routing_node "governance_reviewer" ["governance_review_input"]
       ["proposal_approved"; "proposal_rejected"]
       [("accept_exits", VList [VStr "proposal_approved"])];
     sink_node "registry_publication_sink" ["publication_input"]
       [("egress_contract", VDict [("type", VStr "registry_publication");
                                   ("external_reference_required", VBool false)])]];
  pp_edges :=
    [simple_edge "proposal_source" "topological_validator" "card_created";
     simple_edge "topological_validator" "governance_reviewer" "topology_valid";
     simple_edge "governance_reviewer" "registry_publication_sink" "proposal_approved"];
  pp_pipe_bindings :=
    [("proposal_submitted", output_binding "proposal_source" "topology_proposals");
     ("topology_validation_input", input_binding "topological_validator" "topology_proposals");
     ("topology_valid", output_binding "topological_validator" "governance_review");
     ("topology_invalid", output_binding "topological_validator" "rejected_proposals");
     ("governance_review_input", input_binding "governance_reviewer" "governance_review");
     ("proposal_approved", output_binding "governance_reviewer" "registry_publication");
     ("proposal_rejected", output_binding "governance_reviewer" "rejected_proposals");
     ("publication_input", input_binding "registry_publication_sink" "registry_publication")];
  pp_acceptance_contracts := [];
  pp_metadata :=
    registry_doc "System Patch Panel Approval"
      "Validates proposed Patch Panel topologies, routes governance decisions, and publishes approved registry entries."
      ["system"; "governance"; "patch-panel-approval"] ["patch_panel_proposal"]
      ["patch_panel_registry_entry"] ["mutation:propose"; "validation:submit"; "sink:execute"]
      "medium";
|}.

Definition system_agent_registration : PatchPanel := {|
  pp_id := "system_agent_registration";
  pp_version := "1.0.0";
  pp_description := Some "System workflow for governed participant onboarding and role provisioning.";
  pp_buckets :=
    [simple_bucket "registration_compliance"
       "Participant onboarding requests awaiting automated compliance checks.";
     simple_bucket "registration_admin_review"
       "Compliant onboarding requests awaiting administrator approval.";
     simple_bucket "authority_provisioning"
       "Approved onboarding requests ready for authority provisioning.";
     simple_bucket "registration_rejected"
       "Onboarding requests rejected by compliance or administrative review."];
  pp_nodes :=
    [source_node "registration_source" ["registration_submitted"];
     routing_node "registration_compliance_validator" ["compliance_input"]
       ["registration_compliant"; "registration_noncompliant"]
       [("validation_handler", VStr "participant_onboarding_compliance");
        ("valid_exit", VStr "registration_compliant");
        ("invalid_exit", VStr "registration_noncompliant");
        ("accept_exits", VList [VStr "registration_compliant"])];
     routing_node "registration_admin_reviewer" ["admin_review_input"]
       ["registration_approved"; "registration_rejected"]
       [("accept_exits", VList [VStr "registration_approved"])];
     sink_node "authority_provisioner_sink" ["provisioning_input"]
       [("egress_contract", VDict [("type", VStr "authority_provisioning");
                                   ("external_reference_required", VBool false)])]];
  pp_edges :=
    [simple_edge "registration_source" "registration_compliance_validator" "card_created";
     simple_edge "registration_compliance_validator" "registration_admin_reviewer"
       "registration_compliant";
     simple_edge "registration_admin_reviewer" "authority_provisioner_sink"
       "registration_approved"];
  pp_pipe_bindings :=
    [("registration_submitted", output_binding "registration_source" "registration_compliance");
     ("compliance_input", input_binding "registration_compliance_validator" "registration_compliance");
     ("registration_compliant", output_binding "registration_compliance_validator" "registration_admin_review");
     ("registration_noncompliant", output_binding "registration_compliance_validator" "registration_rejected");
     ("admin_review_input", input_binding "registration_admin_reviewer" "registration_admin_review");
     ("registration_approved", output_binding "registration_admin_reviewer" "authority_provisioning");
     ("registration_rejected", output_binding "registration_admin_reviewer" "registration_rejected");
     ("provisioning_input", input_binding "authority_provisioner_sink" "authority_provisioning")];
  pp_acceptance_contracts := [];
  pp_metadata :=
    registry_doc "System Agent Registration"
      "Validates participant onboarding payloads, routes administrative approval, and provisions authorized identities."
      ["system"; "governance"; "participant-onboarding"] ["participant_onboarding_request"]
      ["participant_authority_profile"]
      ["validation:submit"; "sink:execute"; "participant:manage"; "permission:grant"] "high";
|}.

(** A work panel: source, worker, sink, with a cycle-free line of buckets. *)
Definition work_panel : PatchPanel := {|
  pp_id := "work";
  pp_version := "1";
  pp_description := None;
  pp_buckets :=
    [simple_bucket "todo" "Waiting."; mkBucket "done" None [] [] (Some "evidence") false];
  pp_nodes :=
    [source_node "inbox" ["created"];
     mkNode "maker" NT_WORKER None None ["take"] ["made"] None [];
     sink_node "outbox" ["ship"] []];
  pp_edges := [simple_edge "inbox" "maker" "card_created"; simple_edge "maker" "outbox" "made"];
  pp_pipe_bindings :=
    [("created", output_binding "inbox" "todo"); ("take", input_binding "maker" "todo");
     ("made", output_binding "maker" "done"); ("ship", input_binding "outbox" "done")];
  pp_acceptance_contracts :=
    [mkContract "evidence" "One hashed artifact." None
       [[("type", VStr "artifact_reference_structure")];
        [("type", VStr "required_artifacts"); ("min_count", VInt 1);
         ("roles", VList [VStr "report"])]]];
  pp_metadata := [];
|}.

#[local] Existing Instance ListGraph.networkx.

Example system_pp_approval_valid : is_ok (validate system_pp_approval).
Proof. eexists. vm_compute. reflexivity. Qed.

Example system_agent_registration_valid : is_ok (validate system_agent_registration).
Proof. eexists. vm_compute. reflexivity. Qed.

Example work_panel_valid : is_ok (validate work_panel).
Proof. eexists. vm_compute. reflexivity. Qed.
