(* ===== verification/Artifacts.v ===== *)
(** * Artifact acceptance rules ([artifacts/validation.py])

    The rules an acceptance contract imposes on the artifact references a
    worker submits. Rules are free-form documents, so the functions follow
    Python's conversions: [int(...)], iteration and [str(...)] of whatever
    the rule holds. *)
From Stdlib Require Import ZArith QArith Ascii String.
From stdpp Require Import pretty.
From S2P Require Import Prelude Values Authority Models.
Open Scope string_scope.
Open Scope list_scope.

(** ** Conversions of the language *)

Definition digit_value (c : ascii) : option Z :=
  let n := Z.of_N (N_of_ascii c) in
  if Z.leb 48 n && Z.leb n 57 then Some (n - 48)%Z else None.

(** The digits of an [int] literal; a single underscore may separate two. *)
Fixpoint parse_digits (acc : Z) (after_digit : bool) (s : string) : option Z :=
  match s with
  | EmptyString => if after_digit then Some acc else None
  | String c s' =>
      match digit_value c with
      | Some d => parse_digits (acc * 10 + d)%Z true s'
      | None =>
          if bool_decide (c = "_"%char) && after_digit then parse_digits acc false s' else None
      end
  end.

Definition parse_int (s : string) : option Z :=
  match strip s with
  | String "-" s' => Z.opp <$> parse_digits 0 false s'
  | String "+" s' => parse_digits 0 false s'
  | s' => parse_digits 0 false s'
  end.

(** [int(v)]. *)
Definition v_int (v : value) : res Z :=
  match v with
  | VInt z => Ok z
  | VBool b => Ok (if b then 1%Z else 0%Z)
  | VFloat q _ => Ok (Z.quot (Qnum q) (Zpos (Qden q)))
  | VStr s =>
      match parse_int s with
      | Some z => Ok z
      | None => Raise (ValueError ("invalid literal for int() with base 10: " +:+ str_repr s))
      end
  | VNone | VList _ | VDict _ =>
      Raise (TypeError "int() argument must be a string, a bytes-like object or a real number")
  end.

Fixpoint str_chars (s : string) : list string :=
  match s with EmptyString => [] | String c s' => String c "" :: str_chars s' end.

(** Iterating over a document: elements, characters or keys. *)
Definition v_iter (v : value) : res (list value) :=
  match v with
  | VList l => Ok l
  | VStr s => Ok (map VStr (str_chars s))
  | VDict d => Ok (map VStr (dict_keys d))
  | VNone | VBool _ | VInt _ | VFloat _ _ => Raise (TypeError "object is not iterable")
  end.

(** [d.get(k, default)]. *)
Definition vget_default (k : string) (default : value) (d : doc) : value :=
  match dict_get k d with Some v => v | None => default end.

(** ** The rules *)
Definition structure_check (ref : ArtifactReference) : res () :=
  if bool_decide (ar_storage_ref ref = "")
  then Raise (InvalidOperationError "artifact reference is missing storage_ref")
  else if negb (startswith (ar_content_hash ref) "sha256:")
  then Raise (InvalidOperationError
                ("artifact '" +:+ uuid_str (ar_id ref) +:+ "' content_hash must use sha256"))
  else if Z.ltb (ar_size_bytes ref) 0
  then Raise (InvalidOperationError
                ("artifact '" +:+ uuid_str (ar_id ref) +:+ "' has invalid size"))
  else Ok tt.

Fixpoint forM_res {A} (f : A -> res ()) (l : list A) : res () :=
  match l with
  | [] => Ok tt
  | a :: l' => _ ← f a; forM_res f l'
  end.

Definition _validate_structure (refs : list ArtifactReference) : res () :=
  forM_res structure_check refs.

(** [str(ref.metadata.get("role"))]: a reference without a role has the role
    ["None"]. *)
Definition artifact_role (ref : ArtifactReference) : string :=
  v_str (vget "role" (ar_metadata ref)).

Definition _validate_required_artifacts (refs : list ArtifactReference) (rule : doc) : res () :=
  min_count ← v_int (vget_default "min_count" (VInt 1) rule);
  if Z.ltb (Z.of_nat (length refs)) min_count
  then Raise (InvalidOperationError
                ("acceptance contract requires at least " +:+ pretty min_count +:+
                 " artifact reference(s)"))
  else
    roles ← v_iter (vget_default "roles" (VList []) rule);
    let required_roles := remove_dups (map v_str roles) in
    let missing := List.filter (fun r => negb (str_in r (map artifact_role refs))) required_roles in
    match missing with
    | [] => Ok tt
    | _ => Raise (InvalidOperationError
                    ("missing required artifact role(s): " +:+ comma_join (str_sorted missing)))
    end.

Definition validate_rule (refs : list ArtifactReference) (rule : doc) : res () :=
  let rule_type := vget "type" rule in
  if v_eq_str rule_type "artifact_reference_structure" then _validate_structure refs
  else if v_eq_str rule_type "required_artifacts" then _validate_required_artifacts refs rule
  else Ok tt.

Definition validate_artifact_references (refs : list ArtifactReference)
    (acceptance_contract : option AcceptanceContract) : res () :=
  match acceptance_contract with
  | None => Ok tt
  | Some c => forM_res (validate_rule refs) (ac_rules c)
  end.

(** ** Lemmas *)
Lemma forM_res_ok {A} (f : A -> res ()) l : forM_res f l = Ok tt <-> forall a, a ∈ l -> f a = Ok tt.
Proof.
  induction l as [|a l IH]; cbn [forM_res].
  - split; [by intros _ ? ?%elem_of_nil | done].
  - split.
    + unfold mbind, res_bind. destruct (f a) as [[]|] eqn:E; [|done]. intros Hl b.
      intros [->|Hb]%elem_of_cons; [done | by apply IH].
    + intros Hf. rewrite (Hf a) by left. cbn. apply IH. intros b Hb. apply Hf. by right.
Qed.

Lemma structure_check_ok ref :
  structure_check ref = Ok tt <->
  ar_storage_ref ref <> "" /\ startswith (ar_content_hash ref) "sha256:" = true /\
  (0 <= ar_size_bytes ref)%Z.
Proof.
  unfold structure_check. destruct (bool_decide_reflect (ar_storage_ref ref = "")); [naive_solver|].
  destruct (startswith _ _); simpl; [|naive_solver].
  destruct (Z.ltb_spec (ar_size_bytes ref) 0); naive_solver lia.
Qed.

Lemma required_artifacts_ok refs rule :
  _validate_required_artifacts refs rule = Ok tt <->
  exists min_count roles,
    v_int (vget_default "min_count" (VInt 1) rule) = Ok min_count /\
    v_iter (vget_default "roles" (VList []) rule) = Ok roles /\
    (min_count <= Z.of_nat (length refs))%Z /\
    (forall role, role ∈ roles -> exists ref, ref ∈ refs /\ artifact_role ref = v_str role).
Proof.
  unfold _validate_required_artifacts, mbind, res_bind.
  destruct (v_int _) as [m|]; [|naive_solver].
  destruct (Z.ltb_spec (Z.of_nat (length refs)) m) as [Hlt|Hle].
  { split; [done|]. intros (m' & roles & [= <-] & _ & ? & _). lia. }
  destruct (v_iter _) as [roles|]; [|naive_solver].
  destruct (List.filter _ _) as [|r l] eqn:E; (split; [intros Hok|]); try done.
  - exists m, roles. repeat split; try done. intros role Hrole.
    destruct (str_in (v_str role) (map artifact_role refs)) eqn:Hin.
    + apply str_in_true, list_elem_of_fmap in Hin as (ref & ? & ?). eauto.
    + assert (v_str role ∈ py_filter (fun r => negb (str_in r (map artifact_role refs)))
                             (remove_dups (map v_str roles))) as Hm.
      { apply elem_of_py_filter. rewrite Hin. split; [|done].
        apply elem_of_remove_dups, list_elem_of_fmap. eauto. }
      unfold py_filter in Hm. rewrite E in Hm. by apply elem_of_nil in Hm.
  - intros (m' & roles' & [= <-] & [= <-] & _ & Hall). exfalso.
    assert (r ∈ py_filter (fun r => negb (str_in r (map artifact_role refs)))
                  (remove_dups (map v_str roles))) as Hr by (unfold py_filter; rewrite E; left).
    apply elem_of_py_filter in Hr as [Hr Hn]. rewrite negb_true_iff, str_in_false in Hn.
    apply elem_of_remove_dups, list_elem_of_fmap in Hr as (role & -> & Hrole).
    destruct (Hall role Hrole) as (ref & Href & Heq). apply Hn, list_elem_of_fmap. eauto.
Qed.
