(* ===== verification/RuntimeService.v ===== *)
(** * The runtime contract and its shared checks ([runtime/service.py])

    [CardRuntime] is the protocol both runtimes implement, as a class over
    the state of the runtime; the functions are the checks the two share. *)
From Stdlib Require Import ZArith Ascii String.
From S2P Require Import Prelude Values Authority Models Graph PanelValidator Artifacts.
Open Scope string_scope.
Open Scope list_scope.

(** ** The protocol *)
Class CardRuntime (R : Type) : Type := {
  rt_register_patch_panel : PatchPanel -> M R PatchPanel;
  rt_list_patch_panels : M R (list PatchPanel);
  rt_create_card (patch_panel_id : string) (payload : doc) (metadata : option doc)
    (idempotency_key : option string) : M R Card;
  rt_list_cards : M R (list Card);
  rt_get_card (card_id : UUID) : M R Card;
  rt_get_lease (lease_id : UUID) : M R Lease;
  rt_list_leases : M R (list Lease);
  rt_claim_card (input_pipe worker_id : string) (lease_seconds : Z)
    (idempotency_key : option string) : M R Lease;
  rt_submit_artifact (lease_id : UUID) (output_pipe : string)
    (artifact_refs : list ArtifactReference) (idempotency_key : option string) :
    M R (list ArtifactReference);
  rt_renew_lease (lease_id : UUID) (lease_seconds : Z) (idempotency_key : option string) :
    M R Lease;
  rt_release_lease (lease_id : UUID) (actor_id idempotency_key : option string) : M R Lease;
  rt_expire_leases : M R (list Lease);
  rt_validate_card (card_id : UUID) (validator_id : string) (accepted : bool)
    (reason output_pipe : option string) (payload : option doc)
    (idempotency_key : option string) : M R CardEvent;
  rt_move_card (card_id : UUID) (to_bucket : string)
    (actor_id reason idempotency_key : option string) : M R Card;
  rt_card_history (card_id : UUID) : M R (list CardEvent);
  rt_record_event (card_id : UUID) (event_type : string) (actor_id : option string)
    (payload : option doc) (idempotency_key : option string) : M R CardEvent;
}.

(** ** Pure checks *)
Definition resolve_initial_bucket (pp : PatchPanel) : res string :=
  match py_next (of_type SOURCE) (pp_nodes pp) with
  | None => Raise (InvalidOperationError "Patch Panel has no source node")
  | Some source =>
      match nd_output_pipes source with
      | [] => Raise (InvalidOperationError
                       ("source node '" +:+ nd_id source +:+ "' has no output pipe"))
      | pipe :: _ =>
          match dict_get pipe (pp_pipe_bindings pp) with
          | None => Raise (InvalidOperationError ("source pipe '" +:+ pipe +:+ "' is not bound"))
          | Some binding => Ok (pb_bucket binding)
          end
      end
  end.

Definition pipes_in_direction (direction : string) (n : NodeDefinition) : list string :=
  if bool_decide (direction = "input") then nd_input_pipes n else nd_output_pipes n.

Definition _find_node_for_pipe (pp : PatchPanel) (pipe direction : string) : res string :=
  match py_next (fun n => str_in pipe (pipes_in_direction direction n)) (pp_nodes pp) with
  | Some n => Ok (nd_id n)
  | None => Raise (NotFoundError ("pipe '" +:+ pipe +:+ "' is not declared by any node"))
  end.

Definition resolve_pipe_bucket (pp : PatchPanel) (pipe direction : string) :
    res (string * string) :=
  match dict_get pipe (pp_pipe_bindings pp) with
  | None => Raise (InvalidOperationError ("pipe '" +:+ pipe +:+ "' is not bound"))
  | Some binding =>
      if truthy (pb_direction binding) &&
         negb (bool_decide (pb_direction binding = Some direction))
      then Raise (InvalidOperationError
                    ("pipe '" +:+ pipe +:+ "' is configured as '" +:+
                     str_or (pb_direction binding) "" +:+ "', not '" +:+ direction +:+ "'"))
      else
        node_id ← (if truthy (pb_node binding) then Ok (str_or (pb_node binding) "")
                   else _find_node_for_pipe pp pipe direction);
        Ok (pb_bucket binding, node_id)
  end.

Definition ensure_bucket_exists (pp : PatchPanel) (bucket_id : string) : res () :=
  if str_in bucket_id (bucket_ids pp) then Ok tt
  else Raise (InvalidOperationError ("bucket '" +:+ bucket_id +:+ "' is not declared")).

Definition ensure_artifacts_accepted (pp : PatchPanel) (destination_bucket_id : string)
    (artifact_refs : list ArtifactReference) : res () :=
  match py_next (fun b => bool_decide (bk_id b = destination_bucket_id)) (pp_buckets pp) with
  | None => Raise (InvalidOperationError
                     ("bucket '" +:+ destination_bucket_id +:+ "' is not declared"))
  | Some bucket =>
      match bk_acceptance_contract bucket with
      | None => Ok tt
      | Some contract_id =>
          match py_next (fun c => bool_decide (ac_id c = contract_id))
                  (pp_acceptance_contracts pp) with
          | None => Raise (InvalidOperationError
                             ("bucket '" +:+ destination_bucket_id +:+
                              "' references unknown acceptance contract '" +:+
                              contract_id +:+ "'"))
          | Some contract => validate_artifact_references artifact_refs (Some contract)
          end
      end
  end.

Definition ensure_artifact_refs_belong_to_card (card_id : UUID)
    (artifact_refs : list ArtifactReference) : res () :=
  match artifact_refs with
  | [] => Raise (InvalidOperationError "submit requires at least one artifact reference")
  | _ =>
      forM_res (fun ref =>
        if bool_decide (ar_card_id ref = card_id) then Ok tt
        else Raise (InvalidOperationError
                      ("artifact '" +:+ uuid_str (ar_id ref) +:+ "' belongs to card '" +:+
                       uuid_str (ar_card_id ref) +:+ "', not '" +:+ uuid_str card_id +:+ "'")))
        artifact_refs
  end.

(** ** Checks and constructors that read the clock *)
Section clocked.
Context `{Oracle} `{Networkx} {St : Type}.

Definition validate_patch_panel (pp : PatchPanel) : res PatchPanel :=
  _ ← validate pp; Ok pp.

Definition ensure_active_lease (lease : Lease) : M St () :=
  match ls_released_at lease with
  | Some _ => raise (ConflictError
                       ("lease '" +:+ uuid_str (ls_id lease) +:+ "' has already been released"))
  | None =>
      t ← now;
      expired ← lift_res (dt_le (aware (ls_expires_at lease)) t);
      if (expired : bool)
      then raise (ConflictError ("lease '" +:+ uuid_str (ls_id lease) +:+ "' has expired"))
      else mret tt
  end.

Definition new_lease (card : Card) (node_id worker_id input_pipe : string) (seconds : Z) :
    M St Lease :=
  t ← now;
  expires_at ← lift_res (dt_add_seconds t seconds);
  i ← uuid4;
  claimed_at ← now;
  mret (mkLease i (cd_id card) node_id worker_id input_pipe claimed_at expires_at None).
End clocked.

(** ** Lemmas *)
Lemma validate_patch_panel_ok `{Networkx} pp pp' :
  validate_patch_panel pp = Ok pp' -> pp' = pp /\ is_ok (validate pp).
Proof.
  unfold validate_patch_panel, mbind, res_bind. destruct (validate pp) eqn:E; [|done].
  intros [= <-]. split; [done | by eexists].
Qed.

Lemma resolve_pipe_bucket_bound pp pipe dir bucket node :
  resolve_pipe_bucket pp pipe dir = Ok (bucket, node) ->
  exists b, dict_get pipe (pp_pipe_bindings pp) = Some b /\ pb_bucket b = bucket.
Proof.
  unfold resolve_pipe_bucket, mbind, res_bind. destruct (dict_get _ _) as [b|]; [|done].
  destruct (_ && _); [done|]. intros Hr. exists b. split; [done|].
  destruct (if truthy _ then _ else _); [|done]. by simplify_eq.
Qed.

Lemma resolve_initial_bucket_bound pp bucket :
  resolve_initial_bucket pp = Ok bucket ->
  exists n pipe rest b, panel_node pp SOURCE n /\ nd_output_pipes n = pipe :: rest /\
    dict_get pipe (pp_pipe_bindings pp) = Some b /\ pb_bucket b = bucket.
Proof.
  unfold resolve_initial_bucket. destruct (py_next _ _) as [n|] eqn:En; [|done].
  destruct (nd_output_pipes n) as [|pipe rest] eqn:Eo; [done|].
  destruct (dict_get pipe _) as [b|] eqn:Eb; [|done]. intros [= <-].
  apply py_next_some in En as [Hn Ht%bool_decide_eq_true].
  exists n, pipe, rest, b. done.
Qed.

(** Every pipe a validated panel binds leads to a bucket it declares. *)
Lemma validated_pipe_bucket `{NetworkxLaws} pp pipe dir bucket node :
  is_ok (validate pp) -> resolve_pipe_bucket pp pipe dir = Ok (bucket, node) ->
  bucket ∈ bucket_ids pp.
Proof.
  intros Hok (b & Hb & <-)%resolve_pipe_bucket_bound. apply dict_get_elem in Hb.
  by destruct (validated_bindings pp pipe b) as (? & ? & _ & _ & _ & ?).
Qed.

Lemma validated_initial_bucket `{NetworkxLaws} pp bucket :
  is_ok (validate pp) -> resolve_initial_bucket pp = Ok bucket -> bucket ∈ bucket_ids pp.
Proof.
  intros Hok (n & pipe & rest & b & _ & _ & Hb & <-)%resolve_initial_bucket_bound.
  apply dict_get_elem in Hb.
  by destruct (validated_bindings pp pipe b) as (? & ? & _ & _ & _ & ?).
Qed.

Lemma ensure_bucket_exists_ok pp b : ensure_bucket_exists pp b = Ok tt <-> b ∈ bucket_ids pp.
Proof.
  unfold ensure_bucket_exists. rewrite <- str_in_true. destruct (str_in _ _); split; done.
Qed.

Lemma refs_belong_ok card_id refs :
  ensure_artifact_refs_belong_to_card card_id refs = Ok tt <->
  refs <> [] /\ forall ref, ref ∈ refs -> ar_card_id ref = card_id.
Proof.
  unfold ensure_artifact_refs_belong_to_card. destruct refs as [|r refs]; [naive_solver|].
  rewrite forM_res_ok. split.
  - intros Hall. split; [done|]. intros ref Href. specialize (Hall ref Href). cbv beta in Hall.
    by case_bool_decide.
  - intros [_ Hall] ref Href. by rewrite bool_decide_eq_true_2 by auto.
Qed.

(** A lease is active at [t] (microseconds) when it is not released and has
    not expired. *)
Definition lease_active_at (l : Lease) (t : Z) : Prop :=
  ls_released_at l = None /\ exists us, aware (ls_expires_at l) = Aware us /\ (t < us)%Z.

Lemma lease_active_mono l t t' : (t <= t')%Z -> lease_active_at l t' -> lease_active_at l t.
Proof. intros ? [? (us & ? & ?)]. split; [done|]. exists us. split; [done | lia]. Qed.

Lemma wp_ensure_active_lease `{Oracle} {St} (l : Lease) (s : St * Env)
    (Q : res () -> St * Env -> Prop) :
  (forall e s', s'.1 = s.1 -> (now_ctr s.2 <= now_ctr s'.2)%nat -> uuid_ctr s'.2 = uuid_ctr s.2 ->
     Q (Raise e) s') ->
  (lease_active_at l (clock_at (now_ctr s.2)) ->
     Q (Ok tt) (s.1, mkEnv (S (now_ctr s.2)) (uuid_ctr s.2))) ->
  wp (ensure_active_lease l) Q s.
Proof.
  intros Herr Hok. unfold ensure_active_lease.
  destruct (ls_released_at l) eqn:Er; [apply wp_raise, Herr; done|].
  apply wp_bind, wp_now, wp_bind, wp_lift_res. cbn beta iota.
  destruct (aware_is_aware (ls_expires_at l)) as [us Hus]. rewrite Hus. simpl.
  destruct (Z.leb_spec us (clock_at (now_ctr s.2))).
  - apply wp_raise, Herr; simpl; [done | lia | done].
  - apply wp_ret, Hok. split; [done|]. exists us. done.
Qed.
