(* ===== verification/PanelTheorems.v ===== *)
(** * What a validated panel guarantees

    The acceptance condition of the model and graph validators together, the
    errors they can end with, and what a validated panel promises to the
    runtime that resolves its pipes. *)
From Stdlib Require Import ZArith Ascii String.
From S2P Require Import Prelude Values Authority Models Graph PanelValidator SystemPanels Artifacts.
From S2P Require Import RuntimeService.
Open Scope string_scope.
Open Scope list_scope.

Definition unique_ids (pp : PatchPanel) : Prop :=
  NoDup (bucket_ids pp) /\ NoDup (node_ids pp) /\ NoDup (contract_ids pp).

Lemma unique_ids_ok pp : validate_unique_local_ids pp = Ok pp <-> unique_ids pp.
Proof.
  unfold validate_unique_local_ids, unique_ids, bucket_ids, node_ids, contract_ids.
  rewrite <- (ensure_unique_ok "bucket"), <- (ensure_unique_ok "node"),
    <- (ensure_unique_ok "acceptance contract").
  unfold mbind, res_bind.
  destruct (_ensure_unique "bucket" _) as [[]|]; [|naive_solver].
  destruct (_ensure_unique "node" _) as [[]|]; [|naive_solver].
  destruct (_ensure_unique "acceptance contract" _) as [[]|]; naive_solver.
Qed.

(** An [accept_exits] entry that Python cannot hash. *)
Definition unhashable_exit (pp : PatchPanel) : Prop :=
  exists n l v, panel_node pp NT_VALIDATOR n /\ _is_routing_validator n = true /\
    vget "accept_exits" (nd_config n) = VList l /\ v ∈ l /\ hashable v = false.

Lemma concat_res_raise {A} (f : A -> res (list string)) l x :
  concat_res f l = Raise x -> exists a, a ∈ l /\ f a = Raise x.
Proof.
  induction l as [|a l IH]; [done|]. cbn. destruct (f a) eqn:E; cbn.
  - destruct (concat_res f l); cbn; [done|]. intros [= ->].
    destruct IH as (b & ? & ?); [done|]. exists b. split; [by right | done].
  - intros [= ->]. exists a. split; [left | done].
Qed.

Lemma accept_exits_raise pp x :
  _validate_routing_validator_accept_exits pp = Raise x ->
  x = TypeError "unhashable type" /\ unhashable_exit pp.
Proof.
  intros (n & Hn & Hx)%concat_res_raise. unfold routing_node_errors in Hx.
  destruct (of_type NT_VALIDATOR n) eqn:Et; [|done].
  destruct (_is_routing_validator n) eqn:Er; [|done]. simpl in Hx.
  destruct (vget "accept_exits" (nd_config n)) eqn:Ev; try done.
  apply concat_res_raise in Hx as (v & Hv & Hx). unfold accept_exit_errors in Hx.
  destruct (hashable v) eqn:Eh; simpl in Hx; [by destruct (existsb _ _)|].
  injection Hx as <-. split; [done|]. exists n, l, v.
  split; [split; [done | by apply bool_decide_eq_true in Et] | done].
Qed.

Section resolution.
Context `{NetworkxLaws}.

Lemma find_node_for_pipe_declared pp pipe dir n :
  n ∈ pp_nodes pp -> pipe ∈ pipes_in_direction dir n ->
  exists m, m ∈ pp_nodes pp /\ pipe ∈ pipes_in_direction dir m /\
    _find_node_for_pipe pp pipe dir = Ok (nd_id m).
Proof.
  intros Hn Hp. unfold _find_node_for_pipe. destruct (py_next _ _) as [m|] eqn:E.
  - apply py_next_some in E as [Hm Hin%str_in_true]. by exists m.
  - rewrite py_next_none in E. specialize (E n Hn). by apply str_in_false in E.
Qed.

Lemma declared_pipe_node pp pipe node dir :
  dict_get pipe (declared_pipes pp) = Some (node, dir) ->
  exists n, n ∈ pp_nodes pp /\ nd_id n = node /\ pipe ∈ pipes_in_direction dir n.
Proof.
  intros (n & Hn & Hid & Hd)%declared_pipes_sound. exists n. split; [done|]. split; [done|].
  destruct Hd as [[-> ?]|[-> ?]]; done.
Qed.

Lemma resolve_validated pp pipe node dir :
  is_ok (validate pp) -> dict_get pipe (declared_pipes pp) = Some (node, dir) ->
  exists bucket n, resolve_pipe_bucket pp pipe dir = Ok (bucket, nd_id n) /\
    bucket ∈ bucket_ids pp /\ n ∈ pp_nodes pp /\ pipe ∈ pipes_in_direction dir n.
Proof.
  intros [r Hr] Hd. pose proof (validate_ok_split pp r Hr) as (_ & _ & _ & _ & H5 & _).
  apply pipe_bindings_ok in H5 as [Hok Hbound].
  destruct (dict_key_get pipe (pp_pipe_bindings pp)) as [b Hb].
  { apply Hbound. by eapply dict_get_key. }
  destruct (Hok pipe b (dict_get_elem _ _ _ Hb)) as (node' & dir' & Hd' & Hnode & Hdir & Hbk).
  assert (node' = node /\ dir' = dir) as [-> ->] by (split; congruence).
  unfold resolve_pipe_bucket. rewrite Hb.
  assert (truthy (pb_direction b) && negb (bool_decide (pb_direction b = Some dir)) = false) as ->.
  { destruct (truthy (pb_direction b)) eqn:Et; [|done].
    by rewrite (bool_decide_eq_true_2 _ (Hdir eq_refl)). }
  destruct (declared_pipe_node pp pipe node dir Hd) as (n & Hn & Hid & Hp).
  destruct (truthy (pb_node b)) eqn:Et.
  - exists (pb_bucket b), n. rewrite (Hnode eq_refl) in Et |- *. unfold str_or. rewrite Et, <- Hid. done.
  - destruct (find_node_for_pipe_declared pp pipe dir n Hn Hp) as (m & Hm & Hpm & ->).
    exists (pb_bucket b), m. done.
Qed.
End resolution.

(** ** The properties *)
Section properties.
Context `{NetworkxLaws}.

Lemma validate_raises pp x :
  validate pp = Raise x ->
  (exists errors, x = PatchPanelValidationError errors /\ errors <> []) \/
  (x = TypeError "unhashable type" /\ unhashable_exit pp).
Proof.
  unfold validate, mbind, res_bind.
  destruct (_validate_routing_validator_accept_exits pp) eqn:E.
  - match goal with |- match ?l with _ => _ end = _ -> _ => destruct l eqn:El; [done|] end.
    intros [= <-]. left. by eexists.
  - intros [= <-]. right. by apply accept_exits_raise.
Qed.

(** C10. The validators accept exactly the well-formed panels: the model
    validator and [PatchPanelValidator.validate] both pass if and only if
    local ids are unique, every reference resolves, routing validators
    declare the exits they accept, pipes and bindings match, and, in the
    directed graph of the edges, sources have no predecessor, sinks have no
    successor, every node is reachable from a source and no other node is a
    dead end. A panel the graph validator rejects is rejected with
    [PatchPanelValidationError] and at least one message; the one other
    exception is the [TypeError] of an [accept_exits] entry that cannot be
    hashed. *)
Theorem validators_accept_iff pp :
  (validate_unique_local_ids pp = Ok pp /\ is_ok (validate pp) <-> unique_ids pp /\ panel_ok pp) /\
  (forall x, validate pp = Raise x ->
     (exists errors, x = PatchPanelValidationError errors /\ errors <> []) \/
     (x = TypeError "unhashable type" /\ unhashable_exit pp)).
Proof.
  split; [|apply validate_raises]. rewrite unique_ids_ok.
  split; intros [Hu Hok]; (split; [done|]); (apply validate_iff_ok; [apply Hu | done]).
Qed.

(** C11. In a validated panel every declared pipe resolves, in the direction
    of its (last) declaration, to a declared bucket and to a node that
    declares the pipe: the runtime never meets an unbound pipe, an unknown
    bucket or a wrong direction there. *)
Theorem validated_pipes_resolve pp pipe node dir :
  is_ok (validate pp) -> dict_get pipe (declared_pipes pp) = Some (node, dir) ->
  exists bucket n, resolve_pipe_bucket pp pipe dir = Ok (bucket, nd_id n) /\
    bucket ∈ bucket_ids pp /\ n ∈ pp_nodes pp /\ pipe ∈ pipes_in_direction dir n.
Proof. apply resolve_validated. Qed.
End properties.

(** ** Evaluated instances *)
#[local] Existing Instance ListGraph.networkx.
#[local] Existing Instance ListGraph.networkx_laws.

(** A panel with a node nothing reaches and that leads nowhere. *)
Definition island_panel : PatchPanel :=
  mkPatchPanel "island" "1" None (pp_buckets work_panel)
    (pp_nodes work_panel ++ [mkNode "island" NT_WORKER None None [] [] None []])
    (pp_edges work_panel) (pp_pipe_bindings work_panel) (pp_acceptance_contracts work_panel) [].

Lemma validators_accept_iff_witness :
  (unique_ids system_pp_approval /\ panel_ok system_pp_approval) /\
  exists errors, validate island_panel = Raise (PatchPanelValidationError errors) /\ errors <> [].
Proof.
  split; [|destruct (validate island_panel) as [|x] eqn:E; [vm_compute in E; discriminate|];
    destruct (proj2 (validators_accept_iff island_panel) x E) as [(errors & -> & Hne)|[-> _]];
    [by exists errors | vm_compute in E; discriminate]].
  apply (validators_accept_iff system_pp_approval).
  split; [vm_compute; reflexivity | eexists; vm_compute; reflexivity].
Defined.

Lemma validated_pipes_resolve_witness :
  exists bucket n, resolve_pipe_bucket work_panel "made" "output" = Ok (bucket, nd_id n) /\
    bucket ∈ bucket_ids work_panel /\ n ∈ pp_nodes work_panel /\ "made" ∈ pipes_in_direction "output" n.
Proof.
  apply (validated_pipes_resolve work_panel "made" "maker" "output");
    [eexists; vm_compute; reflexivity | vm_compute; reflexivity].
Defined.
