(* ===== verification/MemoryRuntime.v ===== *)
(** * The in-memory runtime ([runtime/memory.py])

    [InMemoryCardRuntime] over a state of six dictionaries. Every method is
    one function of the same name; a method that raises leaves the state it
    had reached. [card_runtime] is the runtime as an instance of the
    protocol. *)
From Stdlib Require Import ZArith Ascii String.
From S2P Require Import Prelude Values Authority Models Graph PanelValidator Artifacts.
From S2P Require Import RuntimeService.
Open Scope string_scope.
Open Scope list_scope.

(** The values the idempotency dictionary holds. *)
Inductive cached : Type :=
  | C_card (c : Card)
  | C_lease (l : Lease)
  | C_artifacts (refs : list ArtifactReference)
  | C_event (e : CardEvent).

Record Runtime : Type := mkRuntime {
  _patch_panels : list (string * PatchPanel);
  _cards : list (UUID * Card);
  _leases : list (UUID * Lease);
  _artifacts : list (UUID * ArtifactReference);
  _events : list (UUID * list CardEvent);
  _idempotency : list (string * cached);
}.

Definition empty_runtime : Runtime := mkRuntime [] [] [] [] [] [].

(** Assignments to the dictionaries. *)
Definition put_panel (pp : PatchPanel) (st : Runtime) : Runtime :=
  mkRuntime (dict_set (pp_id pp) pp (_patch_panels st)) (_cards st) (_leases st) (_artifacts st)
    (_events st) (_idempotency st).
Definition put_card (c : Card) (st : Runtime) : Runtime :=
  mkRuntime (_patch_panels st) (dict_set (cd_id c) c (_cards st)) (_leases st) (_artifacts st)
    (_events st) (_idempotency st).
Definition put_lease (l : Lease) (st : Runtime) : Runtime :=
  mkRuntime (_patch_panels st) (_cards st) (dict_set (ls_id l) l (_leases st)) (_artifacts st)
    (_events st) (_idempotency st).
Definition put_artifacts (refs : list ArtifactReference) (st : Runtime) : Runtime :=
  mkRuntime (_patch_panels st) (_cards st) (_leases st)
    (foldl (fun d r => dict_set (ar_id r) r d) (_artifacts st) refs)
    (_events st) (_idempotency st).
(** [self._events.setdefault(event.card_id, []).append(event)]. *)
Definition history_of (card_id : UUID) (st : Runtime) : list CardEvent :=
  default [] (dict_get card_id (_events st)).
Definition put_event (ev : CardEvent) (st : Runtime) : Runtime :=
  mkRuntime (_patch_panels st) (_cards st) (_leases st) (_artifacts st)
    (dict_set (ev_card_id ev) (history_of (ev_card_id ev) st ++ [ev]) (_events st))
    (_idempotency st).
Definition put_key (key : option string) (v : cached) (st : Runtime) : Runtime :=
  match key with
  | Some k =>
      if truthy key then
        mkRuntime (_patch_panels st) (_cards st) (_leases st) (_artifacts st) (_events st)
          (dict_set k v (_idempotency st))
      else st
  | None => st
  end.

(** [self._idempotency.get(key) if key else None], and the truth value of
    what it finds: every model is true and a list is true when it has an
    element. *)
Definition lookup_key (key : option string) (st : Runtime) : option cached :=
  match key with
  | Some k => if truthy key then dict_get k (_idempotency st) else None
  | None => None
  end.

Definition truthy_cached (c : cached) : bool :=
  match c with C_artifacts [] => false | _ => true end.

Definition idempotency_conflict : exn :=
  ConflictError "idempotency key was already used for a different operation".

Definition _typed_card (c : cached) : res Card :=
  match c with C_card x => Ok x | _ => Raise idempotency_conflict end.
Definition _typed_lease (c : cached) : res Lease :=
  match c with C_lease x => Ok x | _ => Raise idempotency_conflict end.
Definition _typed_event (c : cached) : res CardEvent :=
  match c with C_event x => Ok x | _ => Raise idempotency_conflict end.
Definition _typed_artifacts (c : cached) : res (list ArtifactReference) :=
  match c with C_artifacts x => Ok x | _ => Raise idempotency_conflict end.

(** [lease.card_id == card_id and lease.released_at is None and
    lease.expires_at > now]. *)
Definition lease_blocks (card_id : UUID) (t : datetime) (l : Lease) : res bool :=
  if bool_decide (ls_card_id l = card_id) then
    match ls_released_at l with
    | None => dt_gt (ls_expires_at l) t
    | Some _ => Ok false
    end
  else Ok false.

Section memory.
Context `{Oracle} `{Networkx}.

Definition _get_idempotent (key : option string) : M Runtime (option cached) :=
  st ← get; mret (lookup_key key st).

Definition _store_idempotent (key : option string) (v : cached) : M Runtime () :=
  modify (put_key key v).

(** [if cached := self._get_idempotent(key): return _typed(cached, ...)],
    and the rest of the method otherwise. *)
Definition with_cached {A} (key : option string) (typed : cached -> res A) (body : M Runtime A) :
    M Runtime A :=
  found ← _get_idempotent key;
  match found with
  | Some c => if truthy_cached c then lift_res (typed c) else body
  | None => body
  end.

Definition _record_event (ev : CardEvent) : M Runtime () := modify (put_event ev).

Definition _get_patch_panel (patch_panel_id : string) : M Runtime PatchPanel :=
  st ← get;
  match dict_get patch_panel_id (_patch_panels st) with
  | Some pp => mret pp
  | None => raise (NotFoundError ("Patch Panel '" +:+ patch_panel_id +:+ "' is not registered"))
  end.

(** [card.workflow_version.rsplit(":", 1)[0]]. *)
Definition card_panel_id (c : Card) : string := (split_last ":" (cd_workflow_version c)).1.

Definition _get_patch_panel_for_card (c : Card) : M Runtime PatchPanel :=
  _get_patch_panel (card_panel_id c).

Definition _get_card (card_id : UUID) : M Runtime Card :=
  st ← get;
  match dict_get card_id (_cards st) with
  | Some c => mret c
  | None => raise (NotFoundError ("card '" +:+ uuid_str card_id +:+ "' does not exist"))
  end.

Definition _get_lease (lease_id : UUID) : M Runtime Lease :=
  st ← get;
  match dict_get lease_id (_leases st) with
  | Some l => mret l
  | None => raise (NotFoundError ("lease '" +:+ uuid_str lease_id +:+ "' does not exist"))
  end.

Definition _has_active_lease (card_id : UUID) : M Runtime bool :=
  t ← now; st ← get;
  lift_res (any_res (lease_blocks card_id t) (dict_values (_leases st))).

Definition register_patch_panel (pp : PatchPanel) : M Runtime PatchPanel :=
  _ ← lift_res (validate_patch_panel pp);
  _ ← modify (put_panel pp);
  mret pp.

Definition list_patch_panels : M Runtime (list PatchPanel) :=
  st ← get; mret (dict_values (_patch_panels st)).

Definition create_card (patch_panel_id : string) (payload : doc) (metadata : option doc)
    (idempotency_key : option string) : M Runtime Card :=
  with_cached idempotency_key _typed_card (
    pp ← _get_patch_panel patch_panel_id;
    bucket ← lift_res (resolve_initial_bucket pp);
    card ← new_card (workflow_version_id pp) bucket payload (default [] metadata);
    _ ← modify (put_card card);
    ev ← new_event (cd_id card) "card_created" None
           [("patch_panel_id", VStr (pp_id pp)); ("version", VStr (pp_version pp));
            ("bucket", VStr (cd_current_bucket card))];
    _ ← _record_event ev;
    _ ← _store_idempotent idempotency_key (C_card card);
    mret card).

Definition list_cards : M Runtime (list Card) := st ← get; mret (dict_values (_cards st)).
Definition get_card (card_id : UUID) : M Runtime Card := _get_card card_id.
Definition get_lease (lease_id : UUID) : M Runtime Lease := _get_lease lease_id.
Definition list_leases : M Runtime (list Lease) := st ← get; mret (dict_values (_leases st)).

(** A panel the input pipe resolves in, with the first claimable card. *)
Definition claim_match : Type := PatchPanel * string * string * option Card.

Definition claimable (pp : PatchPanel) (bucket : string) (candidate : Card) : M Runtime bool :=
  if bool_decide (cd_workflow_version candidate = workflow_version_id pp) &&
     bool_decide (cd_current_bucket candidate = bucket)
  then b ← _has_active_lease (cd_id candidate); mret (negb b)
  else mret false.

(** The body of the loop over the panels: an [InvalidOperationError] of
    [resolve_pipe_bucket] skips the panel, any other exception leaves. *)
Definition claim_match_in (input_pipe : string) (pp : PatchPanel) :
    M Runtime (option claim_match) :=
  match resolve_pipe_bucket pp input_pipe "input" with
  | Raise (InvalidOperationError _) => mret None
  | Raise e => raise e
  | Ok (bucket, node_id) =>
      st ← get;
      card ← nextM (claimable pp bucket) (dict_values (_cards st));
      mret (Some (pp, bucket, node_id, card))
  end.

Fixpoint claim_matches (input_pipe : string) (panels : list PatchPanel) :
    M Runtime (list claim_match) :=
  match panels with
  | [] => mret []
  | pp :: panels' =>
      m ← claim_match_in input_pipe pp;
      ms ← claim_matches input_pipe panels';
      mret (match m with Some x => x :: ms | None => ms end)
  end.

Definition has_card (m : claim_match) : bool :=
  match m.2 with Some _ => true | None => false end.

Definition select_match (input_pipe : string) (matches : list claim_match) : res claim_match :=
  match matches with
  | [] => Raise (NotFoundError
                   ("input pipe '" +:+ input_pipe +:+ "' is not bound to a Patch Panel"))
  | first :: others =>
      match py_filter has_card matches, others with
      | [m], _ => Ok m
      | _, [] => Ok first
      | _ :: _, _ => Raise (ConflictError
                              ("input pipe '" +:+ input_pipe +:+
                               "' has claimable cards in multiple workflows"))
      | [], _ => Ok (first.1, None)
      end
  end.

Definition _claim_target (input_pipe : string) : M Runtime claim_match :=
  st ← get;
  matches ← claim_matches input_pipe (dict_values (_patch_panels st));
  lift_res (select_match input_pipe matches).

Definition claim_card (input_pipe worker_id : string) (lease_seconds : Z)
    (idempotency_key : option string) : M Runtime Lease :=
  with_cached idempotency_key _typed_lease (
    target ← _claim_target input_pipe;
    let '(_, bucket, node_id, found) := target in
    match found with
    | None => raise (NotFoundError ("no claimable cards in bucket '" +:+ bucket +:+ "'"))
    | Some card =>
        lease ← new_lease card node_id worker_id input_pipe lease_seconds;
        _ ← modify (put_lease lease);
        ev ← new_event (cd_id card) "card_claimed" (Some worker_id)
               [("lease_id", VStr (uuid_str (ls_id lease))); ("input_pipe", VStr input_pipe)];
        _ ← _record_event ev;
        _ ← _store_idempotent idempotency_key (C_lease lease);
        mret lease
    end).

Definition artifact_summary (ref : ArtifactReference) : value :=
  VDict [("id", VStr (uuid_str (ar_id ref))); ("storage_ref", VStr (ar_storage_ref ref));
         ("content_hash", VStr (ar_content_hash ref));
         ("content_type", VStr (ar_content_type ref));
         ("size_bytes", VInt (ar_size_bytes ref)); ("metadata", VDict (ar_metadata ref))].

Definition submit_artifact (lease_id : UUID) (output_pipe : string)
    (artifact_refs : list ArtifactReference) (idempotency_key : option string) :
    M Runtime (list ArtifactReference) :=
  with_cached idempotency_key _typed_artifacts (
    lease ← _get_lease lease_id;
    _ ← ensure_active_lease lease;
    card ← _get_card (ls_card_id lease);
    pp ← _get_patch_panel_for_card card;
    destination ← lift_res (resolve_pipe_bucket pp output_pipe "output");
    let '(destination_bucket, node_id) := destination in
    _ ← lift_res (ensure_artifact_refs_belong_to_card (cd_id card) artifact_refs);
    _ ← lift_res (ensure_artifacts_accepted pp destination_bucket artifact_refs);
    if negb (bool_decide (node_id = ls_node_id lease))
    then raise (ConflictError
                  ("lease node '" +:+ ls_node_id lease +:+ "' cannot submit through node '" +:+
                   node_id +:+ "'"))
    else
      _ ← modify (put_card (card_with_bucket destination_bucket card));
      released_at ← now;
      _ ← modify (put_lease (lease_with_released released_at lease));
      ev ← new_event (cd_id card) "artifact_submitted" (Some (ls_worker_id lease))
             [("artifact_ids", VList (map (fun r => VStr (uuid_str (ar_id r))) artifact_refs));
              ("artifact_refs", VList (map artifact_summary artifact_refs));
              ("lease_id", VStr (uuid_str (ls_id lease)));
              ("output_pipe", VStr output_pipe);
              ("destination_bucket", VStr destination_bucket)];
      let stored_refs := map (artifact_with_event (cd_id card) (ev_id ev)) artifact_refs in
      _ ← modify (put_artifacts stored_refs);
      _ ← _record_event ev;
      _ ← _store_idempotent idempotency_key (C_artifacts stored_refs);
      mret stored_refs).

Definition renew_lease (lease_id : UUID) (lease_seconds : Z) (idempotency_key : option string) :
    M Runtime Lease :=
  with_cached idempotency_key _typed_lease (
    lease ← _get_lease lease_id;
    _ ← ensure_active_lease lease;
    t ← now;
    expires_at ← lift_res (dt_add_seconds t lease_seconds);
    let renewed := lease_with_expiry expires_at lease in
    _ ← modify (put_lease renewed);
    ev ← new_event (ls_card_id lease) "lease_renewed" (Some (ls_worker_id lease))
           [("lease_id", VStr (uuid_str (ls_id lease)));
            ("expires_at", VStr (isoformat (ls_expires_at renewed)))];
    _ ← _record_event ev;
    _ ← _store_idempotent idempotency_key (C_lease renewed);
    mret renewed).

Definition release_lease (lease_id : UUID) (actor_id idempotency_key : option string) :
    M Runtime Lease :=
  with_cached idempotency_key _typed_lease (
    lease ← _get_lease lease_id;
    match ls_released_at lease with
    | Some _ => mret lease
    | None =>
        t ← now;
        let released := lease_with_released t lease in
        _ ← modify (put_lease released);
        ev ← new_event (ls_card_id lease) "lease_released"
               (opt_or actor_id (Some (ls_worker_id lease)))
               [("lease_id", VStr (uuid_str (ls_id lease)))];
        _ ← _record_event ev;
        _ ← _store_idempotent idempotency_key (C_lease released);
        mret released
    end).

(** The body of the loop of [expire_leases]: the released lease, if any. *)
Definition expire_lease (t : datetime) (lease : Lease) : M Runtime (option Lease) :=
  match ls_released_at lease with
  | Some _ => mret None
  | None =>
      expired ← lift_res (dt_le (aware (ls_expires_at lease)) t);
      if (expired : bool) then
        let released := lease_with_released t lease in
        _ ← modify (put_lease released);
        ev ← new_event (ls_card_id lease) "lease_expired" (Some (ls_worker_id lease))
               [("lease_id", VStr (uuid_str (ls_id lease)))];
        _ ← _record_event ev;
        mret (Some released)
      else mret None
  end.

Fixpoint expire_all (t : datetime) (l : list Lease) : M Runtime (list Lease) :=
  match l with
  | [] => mret []
  | lease :: l' =>
      r ← expire_lease t lease;
      rs ← expire_all t l';
      mret (match r with Some x => x :: rs | None => rs end)
  end.

Definition expire_leases : M Runtime (list Lease) :=
  t ← now; st ← get; expire_all t (dict_values (_leases st)).

(** The payload of a [card_validated] event before routing. *)
Definition validation_payload (accepted : bool) (reason : option string) (payload : option doc) :
    doc :=
  dict_update [("accepted", VBool accepted); ("reason", v_opt_str reason)] (default [] payload).

Definition validate_card (card_id : UUID) (validator_id : string) (accepted : bool)
    (reason output_pipe : option string) (payload : option doc)
    (idempotency_key : option string) : M Runtime CardEvent :=
  with_cached idempotency_key _typed_event (
    card ← _get_card card_id;
    let event_payload := validation_payload accepted reason payload in
    event_payload ←
      (if truthy output_pipe then
         let pipe := str_or output_pipe "" in
         pp ← _get_patch_panel_for_card card;
         destination ← lift_res (resolve_pipe_bucket pp pipe "output");
         _ ← modify (put_card (card_with_bucket destination.1 card));
         mret (dict_set "destination_bucket" (VStr destination.1)
                 (dict_set "output_pipe" (VStr pipe) event_payload))
       else mret event_payload);
    ev ← new_event (cd_id card) "card_validated" (Some validator_id) event_payload;
    _ ← _record_event ev;
    _ ← _store_idempotent idempotency_key (C_event ev);
    mret ev).

Definition move_card (card_id : UUID) (to_bucket : string)
    (actor_id reason idempotency_key : option string) : M Runtime Card :=
  with_cached idempotency_key _typed_card (
    card ← _get_card card_id;
    pp ← _get_patch_panel_for_card card;
    _ ← lift_res (ensure_bucket_exists pp to_bucket);
    let moved := card_with_bucket to_bucket card in
    _ ← modify (put_card moved);
    ev ← new_event (cd_id card) "card_moved" actor_id
           [("from_bucket", VStr (cd_current_bucket card)); ("to_bucket", VStr to_bucket);
            ("reason", v_opt_str reason)];
    _ ← _record_event ev;
    _ ← _store_idempotent idempotency_key (C_card moved);
    mret moved).

Definition card_history (card_id : UUID) : M Runtime (list CardEvent) :=
  _ ← _get_card card_id; st ← get; mret (history_of card_id st).

Definition record_event (card_id : UUID) (event_type : string) (actor_id : option string)
    (payload : option doc) (idempotency_key : option string) : M Runtime CardEvent :=
  with_cached idempotency_key _typed_event (
    _ ← _get_card card_id;
    ev ← new_event card_id event_type actor_id (default [] payload);
    _ ← _record_event ev;
    _ ← _store_idempotent idempotency_key (C_event ev);
    mret ev).

Definition _single_patch_panel : M Runtime PatchPanel :=
  st ← get;
  match dict_values (_patch_panels st) with
  | [] => raise (NotFoundError "no Patch Panels are registered")
  | [pp] => mret pp
  | _ => raise (ConflictError
                  "operation requires an explicit Patch Panel when multiple are registered")
  end.

#[export] Instance card_runtime : CardRuntime Runtime := {|
  rt_register_patch_panel := register_patch_panel;
  rt_list_patch_panels := list_patch_panels;
  rt_create_card := create_card;
  rt_list_cards := list_cards;
  rt_get_card := get_card;
  rt_get_lease := get_lease;
  rt_list_leases := list_leases;
  rt_claim_card := claim_card;
  rt_submit_artifact := submit_artifact;
  rt_renew_lease := renew_lease;
  rt_release_lease := release_lease;
  rt_expire_leases := expire_leases;
  rt_validate_card := validate_card;
  rt_move_card := move_card;
  rt_card_history := card_history;
  rt_record_event := record_event;
|}.
End memory.
