(* ===== verification/MemorySpec.v ===== *)
(** * Abstract specification of the in-memory runtime

    [rt_step] is the specification: the changes of state the runtime may
    make, each with the guard under which it may make it. Every method of
    [InMemoryCardRuntime] performs such steps and nothing else, and a method
    that raises has changed nothing; the invariants of the runtime follow by
    induction on the steps. *)
From Stdlib Require Import ZArith Ascii String.
From S2P Require Import Prelude Values Authority Models Graph PanelValidator Artifacts.
From S2P Require Import RuntimeService MemoryRuntime.
Open Scope string_scope.
Open Scope list_scope.

(** ** Time and fresh identifiers *)
Section spec.
Context `{Oracle} `{Networkx}.

(** An identifier drawn between two positions of the generator, and an
    instant read between two positions of the clock. *)
Definition drawn (e e' : Env) (i : UUID) : Prop :=
  exists k, (uuid_ctr e <= k < uuid_ctr e')%nat /\ i = uuid_at k.
Definition read (e e' : Env) (t : Z) : Prop :=
  exists k, (now_ctr e <= k < now_ctr e')%nat /\ t = clock_at k.

(** [t] is not before any reading of the clock so far. *)
Definition time_reached (e : Env) (t : Z) : Prop :=
  forall n, (n < now_ctr e)%nat -> (clock_at n <= t)%Z.

(** No live answer is stored under the key. *)
Definition cache_miss (key : option string) (st : Runtime) : Prop :=
  forall c, lookup_key key st = Some c -> truthy_cached c = false.

Definition event_at (e e' : Env) (card_id : UUID) (typ : string) (actor : option string)
    (ev : CardEvent) : Prop :=
  ev_card_id ev = card_id /\ ev_event_type ev = typ /\ ev_actor_id ev = actor /\
  drawn e e' (ev_id ev) /\ exists t, read e e' t /\ ev_occurred_at ev = Aware t.

(** No lease of the card is active. *)
Definition unleased (st : Runtime) (card_id : UUID) (t : Z) : Prop :=
  forall l, l ∈ dict_values (_leases st) -> ls_card_id l = card_id -> ~ lease_active_at l t.

(** ** The steps

    [may_register] bounds the panels a step may register. *)
Inductive rt_step (may_register : PatchPanel -> Prop) :
    Runtime * Env -> Runtime * Env -> Prop :=
  | step_register st e pp :
      may_register pp -> is_ok (validate pp) ->
      rt_step may_register (st, e) (put_panel pp st, e)
  | step_create st e e' pid pp bucket card ev key :
      env_le e e' -> cache_miss key st ->
      dict_get pid (_patch_panels st) = Some pp ->
      resolve_initial_bucket pp = Ok bucket ->
      drawn e e' (cd_id card) -> cd_workflow_version card = workflow_version_id pp ->
      cd_current_bucket card = bucket ->
      event_at e e' (cd_id card) "card_created" None ev ->
      rt_step may_register (st, e) (put_key key (C_card card) (put_event ev (put_card card st)), e')
  | step_claim st e e' card lease ev key t us :
      env_le e e' -> cache_miss key st ->
      dict_get (cd_id card) (_cards st) = Some card ->
      read e e' t -> unleased st (cd_id card) t ->
      drawn e e' (ls_id lease) -> ls_card_id lease = cd_id card ->
      ls_released_at lease = None -> ls_expires_at lease = Aware us ->
      event_at e e' (cd_id card) "card_claimed" (Some (ls_worker_id lease)) ev ->
      rt_step may_register (st, e) (put_key key (C_lease lease) (put_event ev (put_lease lease st)), e')
  | step_submit st e e' lease card pp pipe bucket refs stored ev key t u :
      env_le e e' -> cache_miss key st ->
      dict_get (ls_id lease) (_leases st) = Some lease ->
      read e e' t -> lease_active_at lease t ->
      dict_get (ls_card_id lease) (_cards st) = Some card ->
      dict_get (card_panel_id card) (_patch_panels st) = Some pp ->
      resolve_pipe_bucket pp pipe "output" = Ok (bucket, ls_node_id lease) ->
      ensure_artifact_refs_belong_to_card (cd_id card) refs = Ok tt ->
      ensure_artifacts_accepted pp bucket refs = Ok tt ->
      event_at e e' (cd_id card) "artifact_submitted" (Some (ls_worker_id lease)) ev ->
      stored = map (artifact_with_event (cd_id card) (ev_id ev)) refs ->
      rt_step may_register (st, e)
        (put_key key (C_artifacts stored)
           (put_event ev
              (put_artifacts stored
                 (put_lease (lease_with_released u lease)
                    (put_card (card_with_bucket bucket card) st)))), e')
  | step_renew st e e' lease ev key t us :
      env_le e e' -> cache_miss key st ->
      dict_get (ls_id lease) (_leases st) = Some lease ->
      read e e' t -> lease_active_at lease t ->
      event_at e e' (ls_card_id lease) "lease_renewed" (Some (ls_worker_id lease)) ev ->
      rt_step may_register (st, e)
        (put_key key (C_lease (lease_with_expiry (Aware us) lease))
           (put_event ev (put_lease (lease_with_expiry (Aware us) lease) st)), e')
  | step_release st e e' lease ev key u typ actor :
      env_le e e' -> cache_miss key st ->
      dict_get (ls_id lease) (_leases st) = Some lease ->
      ls_released_at lease = None ->
      typ = "lease_released" \/ typ = "lease_expired" ->
      event_at e e' (ls_card_id lease) typ actor ev ->
      rt_step may_register (st, e)
        (put_key key (C_lease (lease_with_released u lease))
           (put_event ev (put_lease (lease_with_released u lease) st)), e')
  | step_event st e e' card ev key typ actor :
      env_le e e' -> cache_miss key st ->
      dict_get (cd_id card) (_cards st) = Some card ->
      event_at e e' (cd_id card) typ actor ev ->
      rt_step may_register (st, e) (put_key key (C_event ev) (put_event ev st), e')
  | step_route st e e' card pp bucket v ev key typ actor :
      env_le e e' -> cache_miss key st ->
      dict_get (cd_id card) (_cards st) = Some card ->
      dict_get (card_panel_id card) (_patch_panels st) = Some pp ->
      bucket ∈ bucket_ids pp ->
      event_at e e' (cd_id card) typ actor ev ->
      v = C_event ev \/ v = C_card (card_with_bucket bucket card) ->
      rt_step may_register (st, e)
        (put_key key v (put_event ev (put_card (card_with_bucket bucket card) st)), e')
  | step_clock st e e' :
      env_le e e' -> rt_step may_register (st, e) (st, e').

(** ** The invariant *)
Record Inv (st : Runtime) (e : Env) : Prop := {
  inv_panel_keys : NoDup (dict_keys (_patch_panels st));
  inv_panel k pp : dict_get k (_patch_panels st) = Some pp ->
    pp_id pp = k /\ is_ok (validate pp);
  inv_card_keys : NoDup (dict_keys (_cards st));
  inv_card k c : dict_get k (_cards st) = Some c ->
    cd_id c = k /\ exists n, (n < uuid_ctr e)%nat /\ k = uuid_at n;
  inv_lease_keys : NoDup (dict_keys (_leases st));
  inv_lease k l : dict_get k (_leases st) = Some l ->
    ls_id l = k /\ (exists n, (n < uuid_ctr e)%nat /\ k = uuid_at n) /\
    is_aware (ls_expires_at l) /\ ls_card_id l ∈ dict_keys (_cards st);
  inv_history k ev : ev ∈ history_of k st -> ev_card_id ev = k /\ k ∈ dict_keys (_cards st);
  inv_created k : k ∈ dict_keys (_cards st) ->
    exists ev rest, history_of k st = ev :: rest /\ ev_event_type ev = "card_created";
  inv_exclusive t l1 l2 : time_reached e t ->
    l1 ∈ dict_values (_leases st) -> l2 ∈ dict_values (_leases st) ->
    ls_card_id l1 = ls_card_id l2 -> lease_active_at l1 t -> lease_active_at l2 t ->
    ls_id l1 = ls_id l2;
}.

(** ** The operations, and the states they reach *)
Inductive op : Type :=
  | Register (pp : PatchPanel)
  | CreateCard (patch_panel_id : string) (payload : doc) (metadata : option doc)
      (key : option string)
  | ClaimCard (input_pipe worker_id : string) (lease_seconds : Z) (key : option string)
  | SubmitArtifact (lease_id : UUID) (output_pipe : string) (refs : list ArtifactReference)
      (key : option string)
  | RenewLease (lease_id : UUID) (lease_seconds : Z) (key : option string)
  | ReleaseLease (lease_id : UUID) (actor_id key : option string)
  | ExpireLeases
  | ValidateCard (card_id : UUID) (validator_id : string) (accepted : bool)
      (reason output_pipe : option string) (payload : option doc) (key : option string)
  | MoveCard (card_id : UUID) (to_bucket : string) (actor_id reason key : option string)
  | RecordEvent (card_id : UUID) (event_type : string) (actor_id : option string)
      (payload : option doc) (key : option string).

(** What an operation answers. *)
Inductive answer : Type :=
  | A_panel (pp : PatchPanel)
  | A_card (c : Card)
  | A_lease (l : Lease)
  | A_leases (ls : list Lease)
  | A_artifacts (refs : list ArtifactReference)
  | A_event (ev : CardEvent).

Definition mapM {S A B} (f : A -> B) (m : M S A) : M S B := a ← m; mret (f a).

Definition run_op (o : op) : M Runtime answer :=
  match o with
  | Register pp => mapM A_panel (register_patch_panel pp)
  | CreateCard pid payload metadata key => mapM A_card (create_card pid payload metadata key)
  | ClaimCard pipe worker seconds key => mapM A_lease (claim_card pipe worker seconds key)
  | SubmitArtifact lid pipe refs key => mapM A_artifacts (submit_artifact lid pipe refs key)
  | RenewLease lid seconds key => mapM A_lease (renew_lease lid seconds key)
  | ReleaseLease lid actor key => mapM A_lease (release_lease lid actor key)
  | ExpireLeases => mapM A_leases expire_leases
  | ValidateCard cid vid acc reason pipe payload key =>
      mapM A_event (validate_card cid vid acc reason pipe payload key)
  | MoveCard cid to actor reason key => mapM A_card (move_card cid to actor reason key)
  | RecordEvent cid typ actor payload key =>
      mapM A_event (record_event cid typ actor payload key)
  end.

Definition start : Runtime * Env := (empty_runtime, mkEnv 0 0).

Inductive reachable : Runtime * Env -> Prop :=
  | reach_start : reachable start
  | reach_op s o : reachable s -> reachable (run_op o s).2.
End spec.
