(* ===== verification/MemoryInvariant.v ===== *)
(** * Invariants of the in-memory runtime

    Every step of the specification preserves [Inv], keeps the history of
    every card, keeps what a card and a lease are, and never overwrites an
    idempotency record. *)
From Stdlib Require Import ZArith Ascii String.
From S2P Require Import Prelude Values Authority Models Graph PanelValidator Artifacts.
From S2P Require Import RuntimeService MemoryRuntime MemorySpec.
Open Scope string_scope.
Open Scope list_scope.

(** ** What an assignment leaves alone *)
Section frame.

Lemma put_key_panels key v st : _patch_panels (put_key key v st) = _patch_panels st.
Proof. unfold put_key. destruct key; [|done]. by destruct (truthy _). Qed.
Lemma put_key_cards key v st : _cards (put_key key v st) = _cards st.
Proof. unfold put_key. destruct key; [|done]. by destruct (truthy _). Qed.
Lemma put_key_leases key v st : _leases (put_key key v st) = _leases st.
Proof. unfold put_key. destruct key; [|done]. by destruct (truthy _). Qed.
Lemma put_key_events key v st : _events (put_key key v st) = _events st.
Proof. unfold put_key. destruct key; [|done]. by destruct (truthy _). Qed.
Lemma put_key_artifacts key v st : _artifacts (put_key key v st) = _artifacts st.
Proof. unfold put_key. destruct key; [|done]. by destruct (truthy _). Qed.

Lemma history_put_key k key v st : history_of k (put_key key v st) = history_of k st.
Proof. unfold history_of. by rewrite put_key_events. Qed.

Lemma history_put_event k ev st :
  history_of k (put_event ev st) =
    if decide (k = ev_card_id ev) then history_of k st ++ [ev] else history_of k st.
Proof.
  unfold history_of, put_event. simpl. rewrite dict_get_set.
  case_decide; [subst; done | done].
Qed.

Lemma lookup_put_key key key' v st :
  lookup_key key (put_key key' v st) =
    if decide (key = key' /\ truthy key = true) then Some v else lookup_key key st.
Proof.
  unfold lookup_key, put_key. case_decide as Hd.
  - destruct Hd as [-> Ht]. destruct key' as [k|]; [|done]. rewrite Ht. apply dict_get_set_eq.
  - destruct key as [k|]; [|done]. destruct (truthy (Some k)) eqn:Ek; [|done].
    destruct key' as [k'|]; [|done]. destruct (truthy (Some k')); [|done].
    apply dict_get_set_ne. naive_solver.
Qed.
End frame.

#[export] Hint Rewrite put_key_panels put_key_cards put_key_leases put_key_events
  put_key_artifacts history_put_key : rt.


Section invariant.
Context `{OracleLaws} `{Networkx}.

Lemma time_reached_le e e' t : env_le e e' -> time_reached e' t -> time_reached e t.
Proof. intros [? _] Ht n Hn. apply Ht. lia. Qed.

Lemma drawn_old e e' i : drawn e e' i -> exists n, (n < uuid_ctr e')%nat /\ i = uuid_at n.
Proof. intros (k & ? & ?). exists k. split; [lia | done]. Qed.

(** A freshly drawn identifier is none of the ones drawn before. *)
Lemma drawn_fresh e e' i n : drawn e e' i -> (n < uuid_ctr e)%nat -> i <> uuid_at n.
Proof. intros (k & ? & ->) ? Heq%uuid_inj. lia. Qed.

Lemma Inv_env st e e' : env_le e e' -> Inv st e -> Inv st e'.
Proof.
  intros Hle Hi. destruct Hi as [IPk IP ICk IC ILk IL IHs ICr IEx]. destruct Hle as [? Hu]. constructor; try done.
  - intros k c Hk. destruct (IC k c Hk) as (? & n & ? & ?). split; [done|].
    exists n. split; [lia | done].
  - intros k l Hk. destruct (IL k l Hk) as (? & (n & ? & ?) & ? & ?).
    repeat split; try done. exists n. split; [lia | done].
  - intros t l1 l2 Ht. apply IEx. by eapply time_reached_le.
Qed.

Lemma Inv_ext st st' e :
  _patch_panels st' = _patch_panels st -> _cards st' = _cards st -> _leases st' = _leases st ->
  _events st' = _events st -> Inv st e -> Inv st' e.
Proof.
  intros Hp Hc Hl He [IPk IP ICk IC ILk IL IHs ICr IEx]. assert (Hh : forall k, history_of k st' = history_of k st).
  { intros k. unfold history_of. by rewrite He. }
  constructor; rewrite ?Hp, ?Hc, ?Hl; try done.
  - intros k ev. rewrite Hh. auto.
  - intros k. rewrite Hh. auto.
Qed.

Lemma Inv_put_key st e key v : Inv st e -> Inv (put_key key v st) e.
Proof. apply Inv_ext; by autorewrite with rt. Qed.

Lemma Inv_put_artifacts st e refs : Inv st e -> Inv (put_artifacts refs st) e.
Proof. by apply Inv_ext. Qed.

Lemma Inv_put_event st e ev :
  ev_card_id ev ∈ dict_keys (_cards st) -> Inv st e -> Inv (put_event ev st) e.
Proof.
  intros Hk [IPk IP ICk IC ILk IL IHs ICr IEx]. constructor; try done.
  - intros k ev'. rewrite history_put_event. case_decide; [|auto].
    rewrite elem_of_app, list_elem_of_singleton. intros [?| ->]; [auto | by subst].
  - intros k Hin. rewrite history_put_event.
    destruct (ICr k Hin) as (ev0 & rest & -> & ?).
    case_decide; [exists ev0, (rest ++ [ev]) | exists ev0, rest]; done.
Qed.

Lemma Inv_put_panel st e pp : is_ok (validate pp) -> Inv st e -> Inv (put_panel pp st) e.
Proof.
  intros Hv [IPk IP ICk IC ILk IL IHs ICr IEx]. constructor; try done; simpl.
  - by apply dict_set_NoDup.
  - intros k pp'. rewrite dict_get_set. case_decide; [|auto]. intros [= <-]. by subst.
Qed.

(** Replacing a card by one with the same identifier. *)
Lemma Inv_put_card st e c c' :
  dict_get (cd_id c) (_cards st) = Some c -> cd_id c' = cd_id c -> Inv st e ->
  Inv (put_card c' st) e.
Proof.
  intros Hc Hid [IPk IP ICk IC ILk IL IHs ICr IEx]. assert (Hkeys : dict_keys (_cards (put_card c' st)) = dict_keys (_cards st)).
  { simpl. apply dict_set_keys_same. rewrite Hid. by eapply dict_get_key. }
  constructor; try done.
  - by rewrite Hkeys.
  - intros k x. simpl. rewrite dict_get_set. case_decide; [|auto].
    intros [= <-]. subst. split; [done|]. rewrite Hid. by destruct (IC _ _ Hc).
  - intros k l Hl. rewrite Hkeys. exact (IL k l Hl).
  - intros k ev Hev. rewrite Hkeys. exact (IHs k ev Hev).
  - intros k. rewrite Hkeys. exact (ICr k).
Qed.

(** A lease value of the updated dictionary is the new one, or an old one
    with another identifier. *)
Lemma put_lease_values st e l' l :
  Inv st e -> l ∈ dict_values (_leases (put_lease l' st)) ->
  l = l' \/ (l ∈ dict_values (_leases st) /\ ls_id l <> ls_id l').
Proof.
  intros Hi Hl. simpl in Hl. apply dict_value_get in Hl as [k Hk].
  - rewrite dict_get_set in Hk. case_decide; [left; congruence|right].
    split; [by eapply dict_get_value|]. destruct (inv_lease _ _ Hi k l Hk) as [-> _]. done.
  - apply dict_set_NoDup, Hi.
Qed.

Lemma Inv_put_lease st e l' :
  Inv st e -> (exists n, (n < uuid_ctr e)%nat /\ ls_id l' = uuid_at n) ->
  is_aware (ls_expires_at l') -> ls_card_id l' ∈ dict_keys (_cards st) ->
  (forall t l, time_reached e t -> lease_active_at l' t -> l ∈ dict_values (_leases st) ->
     ls_id l <> ls_id l' -> ls_card_id l = ls_card_id l' -> ~ lease_active_at l t) ->
  Inv (put_lease l' st) e.
Proof.
  intros Hi Hid Haw Hcard Hex. pose proof (put_lease_values st e l') as Hv.
  destruct Hi as [IPk IP ICk IC ILk IL IHs ICr IEx] eqn:Ei. constructor; try done; simpl.
  - by apply dict_set_NoDup.
  - intros k l. rewrite dict_get_set. case_decide; [|auto].
    intros [= <-]. subst. done.
  - intros t l1 l2 Ht Hl1 Hl2 Heq Ha1 Ha2.
    destruct (Hv l1 Hi Hl1) as [->|[? ?]], (Hv l2 Hi Hl2) as [->|[? ?]]; try done.
    + by destruct (Hex t l2).
    + by destruct (Hex t l1).
    + eauto.
Qed.

Lemma Inv_new_card st e e' c ev :
  env_le e e' -> drawn e e' (cd_id c) -> ev_card_id ev = cd_id c ->
  ev_event_type ev = "card_created" -> Inv st e ->
  Inv (put_event ev (put_card c st)) e'.
Proof.
  intros Hle Hdr Hevc Htyp Hi.
  assert (Hnew : dict_get (cd_id c) (_cards st) = None).
  { destruct (dict_get _ _) eqn:E; [|done].
    destruct (inv_card _ _ Hi _ _ E) as (_ & n & ? & ?). by eapply drawn_fresh in Hdr. }
  assert (Hnil : history_of (cd_id c) st = []).
  { destruct (history_of (cd_id c) st) as [|x l] eqn:E; [done|].
    destruct (inv_history _ _ Hi (cd_id c) x) as [_ Hk]; [rewrite E; left|].
    apply dict_key_get in Hk as [? ?]. congruence. }
  apply (Inv_env st e e') in Hi; [|done]. destruct Hi as [IPk IP ICk IC ILk IL IHs ICr IEx]. constructor; try done; simpl.
  - by apply dict_set_NoDup.
  - intros k x. rewrite dict_get_set. case_decide; [|auto].
    intros [= <-]. subst. split; [done | by eapply drawn_old].
  - intros k l Hl. destruct (IL k l Hl) as (? & ? & ? & ?). repeat split; try done.
    apply dict_set_keys_elem. auto.
  - intros k x. rewrite (history_put_event k ev (put_card c st)), dict_set_keys_elem.
    change (history_of k (put_card c st)) with (history_of k st). rewrite Hevc.
    case_decide; subst.
    + rewrite Hnil. simpl. rewrite list_elem_of_singleton. intros ->. auto.
    + intros Hx. destruct (IHs k x Hx). auto.
  - intros k. rewrite (history_put_event k ev (put_card c st)), dict_set_keys_elem.
    change (history_of k (put_card c st)) with (history_of k st). rewrite Hevc.
    case_decide; subst; [rewrite Hnil; eauto|]. intros [?|?]; [done | auto].
Qed.

(** A released lease is never active. *)
Lemma released_inactive u l t : ~ lease_active_at (lease_with_released u l) t.
Proof. by intros [? _]. Qed.

Lemma Inv_release st e l u :
  dict_get (ls_id l) (_leases st) = Some l -> Inv st e ->
  Inv (put_lease (lease_with_released u l) st) e.
Proof.
  intros Hl Hi. destruct (inv_lease _ _ Hi _ _ Hl) as (_ & ? & ? & ?).
  apply Inv_put_lease; try done.
  intros t l2 _ Ha. by apply released_inactive in Ha.
Qed.

Lemma Inv_claim st e e' lease t us :
  env_le e e' -> read e e' t -> unleased st (ls_card_id lease) t -> drawn e e' (ls_id lease) ->
  ls_card_id lease ∈ dict_keys (_cards st) -> ls_expires_at lease = Aware us ->
  Inv st e -> Inv (put_lease lease st) e'.
Proof.
  intros Hle (k & Hk & ->) Hun Hdr Hcard Hexp Hi. apply Inv_put_lease.
  - by eapply Inv_env.
  - by eapply drawn_old.
  - rewrite Hexp. by eexists.
  - done.
  - intros t l Ht _ Hl _ Hc Ha. apply (Hun l Hl Hc).
    eapply lease_active_mono; [|exact Ha]. apply Ht. lia.
Qed.

Lemma Inv_renew st e e' lease t us :
  env_le e e' -> read e e' t -> lease_active_at lease t ->
  dict_get (ls_id lease) (_leases st) = Some lease ->
  Inv st e -> Inv (put_lease (lease_with_expiry (Aware us) lease) st) e'.
Proof.
  intros Hle (k & Hk & ->) Hact Hl Hi.
  destruct (inv_lease _ _ Hi _ _ Hl) as (_ & (n & ? & ?) & _ & Hcard).
  apply Inv_put_lease; simpl.
  - by eapply Inv_env.
  - exists n. destruct Hle. split; [lia | done].
  - by eexists.
  - done.
  - intros t l2 Ht _ Hl2 Hne Hc Ha2. apply Hne.
    apply (inv_exclusive _ _ Hi (clock_at k)); try done.
    + intros m Hm. apply clock_mono. lia.
    + by eapply dict_get_value.
    + eapply lease_active_mono; [|exact Ha2]. apply Ht. lia.
Qed.

Ltac by_card :=
  simpl;
  repeat match goal with
    | E : ev_card_id ?x = _ |- context [ev_card_id ?x] => rewrite E
    | E : ls_card_id ?x = cd_id _ |- context [ls_card_id ?x] => rewrite E
    end; try done.

(** Every step preserves the invariant. *)
Lemma rt_step_Inv P s s' : rt_step P s s' -> Inv s.1 s.2 -> Inv s'.1 s'.2.
Proof.
  intros Hstep Hi. destruct Hstep; simpl in *;
    repeat match goal with He : event_at _ _ _ _ _ _ |- _ => destruct He as (? & ? & _ & _ & _) end.
  - by apply Inv_put_panel.
  - apply Inv_put_key. by apply (Inv_new_card st e).
  - assert (cd_id card ∈ dict_keys (_cards st)) by by eapply dict_get_key.
    apply Inv_put_key, Inv_put_event; [by by_card|].
    apply (Inv_claim st e e' lease t us); by by_card.
  - assert (Hcid : cd_id card = ls_card_id lease) by by eapply inv_card.
    apply Inv_put_key, Inv_put_event, Inv_put_artifacts, Inv_release; [|done|].
    + by_card. apply dict_set_keys_elem. by left.
    + apply (Inv_put_card st e' card); [congruence | done | by eapply Inv_env].
  - apply Inv_put_key, Inv_put_event; [|by eapply (Inv_renew st e e')].
    by_card. by eapply (inv_lease _ _ Hi).
  - apply Inv_put_key, Inv_put_event; [|apply Inv_release; [done | by eapply Inv_env]].
    by_card. by eapply (inv_lease _ _ Hi).
  - apply Inv_put_key, Inv_put_event; [|by eapply Inv_env].
    by_card. by eapply dict_get_key.
  - apply Inv_put_key, Inv_put_event.
    + by_card. apply dict_set_keys_elem. by left.
    + apply (Inv_put_card st e' card); try done. by eapply Inv_env.
  - by eapply Inv_env.
Qed.

Lemma rt_steps_Inv P s s' : rtc (rt_step P) s s' -> Inv s.1 s.2 -> Inv s'.1 s'.2.
Proof. induction 1 as [|s1 s2 s3 Hs _ IH]; [done|]. intros Hi. by apply IH, (rt_step_Inv P s1). Qed.

Lemma Inv_start : Inv (start.1) (start.2).
Proof.
  constructor; simpl; try apply NoDup_nil_2; try done.
  - by intros k ev ?%elem_of_nil.
  - by intros k ?%elem_of_nil.
  - by intros t l1 l2 _ ?%elem_of_nil.
Qed.
End invariant.

(** ** What a step keeps *)
Section monotone.
Context `{Oracle} `{Networkx}.

(** The identity of a card: everything but the bucket it is in. *)
Definition same_card (c c' : Card) : Prop :=
  cd_id c' = cd_id c /\ cd_workflow_version c' = cd_workflow_version c /\
  cd_payload c' = cd_payload c /\ cd_metadata c' = cd_metadata c /\
  cd_created_at c' = cd_created_at c.

(** The identity of a lease; a release is final. *)
Definition lease_evolves (l l' : Lease) : Prop :=
  ls_id l' = ls_id l /\ ls_card_id l' = ls_card_id l /\ ls_node_id l' = ls_node_id l /\
  ls_worker_id l' = ls_worker_id l /\ ls_input_pipe l' = ls_input_pipe l /\
  ls_claimed_at l' = ls_claimed_at l /\ (ls_released_at l <> None -> l' = l).

(** What of a lease never changes: everything but its expiry and its release. *)
Definition lease_core (l : Lease) : Lease := lease_with_released (Aware 0) (lease_with_expiry (Aware 0) l).

Lemma lease_evolves_core l l' : lease_evolves l l' -> lease_core l' = lease_core l.
Proof. unfold lease_core, lease_with_released, lease_with_expiry. cbn. by intros (-> & -> & -> & -> & -> & -> & _). Qed.

#[export] Instance lease_evolves_po : PreOrder lease_evolves.
Proof.
  split; [by repeat split|].
  intros l1 l2 l3 (?&?&?&?&?&?&H12) (?&?&?&?&?&?&H23). repeat split; try congruence.
  intros Hr. rewrite (H12 Hr) in *. auto.
Qed.

#[export] Instance same_card_po : PreOrder same_card.
Proof.
  split; [by repeat split|].
  intros c1 c2 c3 (?&?&?&?&?) (?&?&?&?&?). repeat split; congruence.
Qed.

(** What is never lost on the way from one state to a later one. *)
Record grows (st st' : Runtime) : Prop := {
  grow_history k : history_of k st `prefix_of` history_of k st';
  grow_cards k c : dict_get k (_cards st) = Some c ->
    exists c', dict_get k (_cards st') = Some c' /\ same_card c c';
  grow_leases k l : dict_get k (_leases st) = Some l ->
    exists l', dict_get k (_leases st') = Some l' /\ lease_evolves l l';
  grow_keys key c : lookup_key key st = Some c -> truthy_cached c = true ->
    lookup_key key st' = Some c;
}.

#[export] Instance grows_po : PreOrder grows.
Proof.
  split.
  - intros st. constructor; eauto; try done.
    + intros k c Hc. exists c. done.
    + intros k l Hl. exists l. done.
  - intros s1 s2 s3 [H1 C1 L1 K1] [H2 C2 L2 K2]. constructor; eauto.
    + intros k. etransitivity; [apply H1 | apply H2].
    + intros k c (c2 & Hc2 & ?)%C1. destruct (C2 k c2 Hc2) as (c3 & ? & ?).
      exists c3. split; [done | etransitivity; eassumption].
    + intros k l (l2 & Hl2 & ?)%L1. destruct (L2 k l2 Hl2) as (l3 & ? & ?).
      exists l3. split; [done | etransitivity; eassumption].
Qed.

Lemma grows_put_key st key v : cache_miss key st -> grows st (put_key key v st).
Proof.
  intros Hmiss. constructor.
  - intros k. by autorewrite with rt.
  - intros k c Hc. exists c. by autorewrite with rt.
  - intros k l Hl. exists l. by autorewrite with rt.
  - intros key' c Hk Ht. rewrite lookup_put_key. case_decide as Hd; [|done].
    destruct Hd as [-> _]. rewrite (Hmiss c Hk) in Ht. done.
Qed.

Lemma grows_put_event st ev : grows st (put_event ev st).
Proof.
  constructor.
  - intros k. rewrite history_put_event. case_decide; [by eexists | done].
  - intros k c Hc. by exists c.
  - intros k l Hl. by exists l.
  - done.
Qed.

Lemma grows_put_card st c :
  (forall c0, dict_get (cd_id c) (_cards st) = Some c0 -> same_card c0 c) ->
  grows st (put_card c st).
Proof.
  intros Hc. constructor; simpl; try done.
  - intros k c0 Hk. rewrite dict_get_set. case_decide; [subst | by exists c0].
    exists c. auto.
  - intros k l Hl. by exists l.
Qed.

Lemma grows_put_lease st l :
  (forall l0, dict_get (ls_id l) (_leases st) = Some l0 -> lease_evolves l0 l) ->
  grows st (put_lease l st).
Proof.
  intros Hl. constructor; simpl; try done.
  - intros k c Hc. by exists c.
  - intros k l0 Hk. rewrite dict_get_set. case_decide; [subst | by exists l0].
    exists l. auto.
Qed.

Lemma grows_same st st' :
  _cards st' = _cards st -> _leases st' = _leases st -> _events st' = _events st ->
  _idempotency st' = _idempotency st -> grows st st'.
Proof.
  intros Hc Hl He Hk. constructor; rewrite ?Hc, ?Hl; eauto.
  - intros k. unfold history_of. by rewrite He.
  - intros k c ?. exists c. done.
  - intros k l ?. exists l. done.
  - intros key c. unfold lookup_key. by rewrite Hk.
Qed.

Lemma cache_miss_ext key st st' :
  _idempotency st' = _idempotency st -> cache_miss key st -> cache_miss key st'.
Proof. unfold cache_miss, lookup_key. by intros ->. Qed.
End monotone.

Section steps.
Context `{OracleLaws} `{Networkx}.

Lemma fresh_card st e e' i c :
  Inv st e -> drawn e e' i -> dict_get i (_cards st) = Some c -> False.
Proof.
  intros Hi Hd Hc. destruct (inv_card _ _ Hi _ _ Hc) as (_ & n & ? & ?).
  by eapply drawn_fresh in Hd.
Qed.

Lemma fresh_lease st e e' i l :
  Inv st e -> drawn e e' i -> dict_get i (_leases st) = Some l -> False.
Proof.
  intros Hi Hd Hc. destruct (inv_lease _ _ Hi _ _ Hc) as (_ & (n & ? & ?) & _).
  by eapply drawn_fresh in Hd.
Qed.

Lemma evolves_released l0 l u :
  ls_released_at l = None -> Some l = Some l0 -> lease_evolves l0 (lease_with_released u l).
Proof. intros Hr [= <-]. repeat split. by rewrite Hr. Qed.

Lemma evolves_expiry l0 l t us :
  lease_active_at l t -> Some l = Some l0 -> lease_evolves l0 (lease_with_expiry us l).
Proof. intros [Hr _] [= <-]. repeat split. by rewrite Hr. Qed.

Lemma grows_rerouted st c c0 b :
  dict_get (cd_id c) (_cards st) = Some c ->
  dict_get (cd_id (card_with_bucket b c)) (_cards st) = Some c0 ->
  same_card c0 (card_with_bucket b c).
Proof. simpl. intros -> [= <-]. repeat split. Qed.

(** Every step grows the state. *)
Lemma rt_step_grows P s s' : rt_step P s s' -> Inv s.1 s.2 -> grows s.1 s'.1.
Proof.
  intros Hstep Hi. destruct Hstep; simpl in *; try reflexivity.
  - by apply grows_same.
  - etransitivity; [|apply grows_put_key; by eapply cache_miss_ext].
    etransitivity; [|apply grows_put_event]. apply grows_put_card.
    intros c0 Hc0. exfalso. by eapply fresh_card.
  - etransitivity; [|apply grows_put_key; by eapply cache_miss_ext].
    etransitivity; [|apply grows_put_event]. apply grows_put_lease.
    intros l0 Hl0. exfalso. by eapply fresh_lease.
  - etransitivity; [|apply grows_put_key; by eapply cache_miss_ext].
    etransitivity; [|apply grows_put_event].
    assert (cd_id card = ls_card_id lease) as Hcid by by eapply inv_card.
    transitivity (put_card (card_with_bucket bucket card) st);
      [apply grows_put_card | etransitivity; [apply grows_put_lease | by apply grows_same]].
    + intros c0. apply grows_rerouted. congruence.
    + intros l0. simpl. intros Hl0. apply evolves_released; [by destruct H6 | congruence].
  - etransitivity; [|apply grows_put_key; by eapply cache_miss_ext].
    etransitivity; [|apply grows_put_event]. apply grows_put_lease.
    intros l0. simpl. intros Hl0. eapply evolves_expiry; [eassumption | congruence].
  - etransitivity; [|apply grows_put_key; by eapply cache_miss_ext].
    etransitivity; [|apply grows_put_event]. apply grows_put_lease.
    intros l0. simpl. intros Hl0. apply evolves_released; [done | congruence].
  - etransitivity; [|apply grows_put_key; by eapply cache_miss_ext]. apply grows_put_event.
  - etransitivity; [|apply grows_put_key; by eapply cache_miss_ext].
    etransitivity; [|apply grows_put_event]. apply grows_put_card.
    intros c0. by apply grows_rerouted.
Qed.

Lemma rt_steps_grows P s s' : rtc (rt_step P) s s' -> Inv s.1 s.2 -> grows s.1 s'.1.
Proof.
  induction 1 as [|s1 s2 s3 Hs _ IH]; [done|]. intros Hi.
  etransitivity; [by eapply rt_step_grows | by apply IH, (rt_step_Inv P s1)].
Qed.
End steps.
