(* ===== verification/MemoryRefine.v ===== *)
(** * The in-memory runtime refines its specification

    One lemma per method of [InMemoryCardRuntime]: started in a state that
    satisfies the invariant, the method either raises without changing the
    state or performs steps of [rt_step], and answers as the lemma says. *)
From Stdlib Require Import ZArith Ascii String.
From S2P Require Import Prelude Values Authority Models Graph PanelValidator Artifacts.
From S2P Require Import RuntimeService MemoryRuntime MemorySpec MemoryInvariant.
Open Scope string_scope.
Open Scope list_scope.

(** Time may pass; the state does not change. *)
Definition idle {S} (s s' : S * Env) : Prop := s'.1 = s.1 /\ env_le s.2 s'.2.

Lemma idle_refl {S} (s : S * Env) : idle s s.
Proof. by split. Qed.
Lemma idle_trans {S} (s1 s2 s3 : S * Env) : idle s1 s2 -> idle s2 s3 -> idle s1 s3.
Proof. intros [? ?] [? ?]. split; [congruence | by eapply env_le_trans]. Qed.
#[export] Hint Resolve idle_refl : ghost.

(** ** Rules for the shared pieces *)
Section rules.
Context `{Oracle} `{Networkx}.

Lemma read_le e e1 e2 t : env_le e1 e2 -> read e e1 t -> read e e2 t.
Proof. intros [? _] (k & ? & ?). exists k. split; [lia | done]. Qed.
Lemma read_ge e e0 e2 t : env_le e e0 -> read e0 e2 t -> read e e2 t.
Proof. intros [? _] (k & ? & ?). exists k. split; [lia | done]. Qed.
Lemma drawn_ge e e0 e2 i : env_le e e0 -> drawn e0 e2 i -> drawn e e2 i.
Proof. intros [_ ?] (k & ? & ?). exists k. split; [lia | done]. Qed.
Lemma event_at_ge e e0 e2 cid typ a ev :
  env_le e e0 -> event_at e0 e2 cid typ a ev -> event_at e e2 cid typ a ev.
Proof.
  intros Hle (? & ? & ? & ? & t & ? & ?). repeat split; try done; [by eapply drawn_ge|].
  exists t. split; [by eapply read_ge | done].
Qed.

Lemma wp_with_cached {A} key (typed : cached -> res A) (body : M Runtime A) Q s :
  (forall c, lookup_key key s.1 = Some c -> truthy_cached c = true -> Q (typed c) s) ->
  (cache_miss key s.1 -> wp body Q s) ->
  wp (with_cached key typed body) Q s.
Proof.
  intros Hhit Hmiss. unfold with_cached. apply wp_bind. unfold _get_idempotent.
  apply wp_bind, wp_get, wp_ret. unfold cache_miss in Hmiss.
  destruct (lookup_key key s.1) as [c|]; [|by apply Hmiss].
  destruct (truthy_cached c) eqn:Et; [apply wp_lift_res; auto|].
  apply Hmiss. by intros c' [= <-].
Qed.

Lemma wp_get_card cid Q s :
  (forall c, dict_get cid (_cards s.1) = Some c -> Q (Ok c) s) ->
  (forall x, dict_get cid (_cards s.1) = None -> Q (Raise x) s) ->
  wp (_get_card cid) Q s.
Proof.
  intros Hok Herr. apply wp_bind, wp_get. destruct (dict_get cid _) eqn:E; [|by apply wp_raise, Herr].
  by apply wp_ret, Hok.
Qed.

Lemma wp_get_lease lid Q s :
  (forall l, dict_get lid (_leases s.1) = Some l -> Q (Ok l) s) ->
  (forall x, dict_get lid (_leases s.1) = None -> Q (Raise x) s) ->
  wp (_get_lease lid) Q s.
Proof.
  intros Hok Herr. apply wp_bind, wp_get. destruct (dict_get lid _) eqn:E; [|by apply wp_raise, Herr].
  by apply wp_ret, Hok.
Qed.

Lemma wp_get_patch_panel pid Q s :
  (forall pp, dict_get pid (_patch_panels s.1) = Some pp -> Q (Ok pp) s) ->
  (forall x, dict_get pid (_patch_panels s.1) = None -> Q (Raise x) s) ->
  wp (_get_patch_panel pid) Q s.
Proof.
  intros Hok Herr. apply wp_bind, wp_get. destruct (dict_get pid _) eqn:E; [|by apply wp_raise, Herr].
  by apply wp_ret, Hok.
Qed.

Lemma wp_lift {S A} (r : res A) (Q : res A -> S * Env -> Prop) s :
  (forall a, r = Ok a -> Q (Ok a) s) -> (forall x, r = Raise x -> Q (Raise x) s) ->
  wp (lift_res r) Q s.
Proof. intros Hok Herr. apply wp_lift_res. destruct r; auto. Qed.

Lemma wp_new_event {S} cid typ actor payload (Q : res CardEvent -> S * Env -> Prop) s :
  (forall ev e', env_le s.2 e' -> event_at s.2 e' cid typ actor ev -> ev_payload ev = payload ->
     Q (Ok ev) (s.1, e')) ->
  wp (new_event cid typ actor payload) Q s.
Proof.
  intros HQ. unfold new_event. apply wp_bind, wp_uuid4, wp_bind, wp_now, wp_ret. simpl.
  apply HQ; [split; simpl; lia | | done]. repeat split.
  - exists (uuid_ctr s.2). simpl. split; [lia | done].
  - exists (clock_at (now_ctr s.2)). split; [|done]. exists (now_ctr s.2). simpl. split; [lia | done].
Qed.

Lemma wp_new_card {S} wv bucket payload metadata (Q : res Card -> S * Env -> Prop) s :
  (forall c e', env_le s.2 e' -> drawn s.2 e' (cd_id c) -> cd_workflow_version c = wv ->
     cd_current_bucket c = bucket -> cd_payload c = payload -> cd_metadata c = metadata ->
     Q (Ok c) (s.1, e')) ->
  wp (new_card wv bucket payload metadata) Q s.
Proof.
  intros HQ. unfold new_card. apply wp_bind, wp_uuid4, wp_bind, wp_now, wp_ret. simpl.
  apply HQ; try done; [split; simpl; lia|].
  exists (uuid_ctr s.2). simpl. split; [lia | done].
Qed.

Lemma dt_add_seconds_aware us secs t' :
  dt_add_seconds (Aware us) secs = Ok t' ->
  t' = Aware (us + secs * 1000000) /\ (dt_min <= us + secs * 1000000 <= dt_max)%Z.
Proof.
  unfold dt_add_seconds. destruct (_ && _) eqn:E; [|done]. intros [= <-].
  apply andb_true_iff in E as [?%Z.leb_le ?%Z.leb_le]. done.
Qed.

Lemma wp_new_lease card node worker pipe secs (Q : res Lease -> Runtime * Env -> Prop) s :
  (forall x s', idle s s' -> Q (Raise x) s') ->
  (forall l e' us t, env_le s.2 e' -> drawn s.2 e' (ls_id l) -> ls_card_id l = cd_id card ->
     ls_node_id l = node -> ls_worker_id l = worker -> ls_input_pipe l = pipe ->
     ls_released_at l = None -> ls_expires_at l = Aware us -> read s.2 e' t ->
     us = (t + secs * 1000000)%Z -> Q (Ok l) (s.1, e')) ->
  wp (new_lease card node worker pipe secs) Q s.
Proof.
  intros Herr HQ. unfold new_lease. apply wp_bind, wp_now, wp_bind, wp_lift; cbn beta iota.
  - intros t' [-> _]%dt_add_seconds_aware. apply wp_bind, wp_uuid4, wp_bind, wp_now, wp_ret. simpl.
    eapply (HQ _ _ _ (clock_at (now_ctr s.2))); try done; [split; simpl; lia| |].
    + exists (uuid_ctr s.2). simpl. split; [lia | done].
    + exists (now_ctr s.2). simpl. split; [lia | done].
  - intros x _. apply Herr. split; [done|]. split; simpl; lia.
Qed.
End rules.

(** ** Registration, creation and evidence *)
Section simple_ops.
Context `{OracleLaws} `{NetworkxLaws}.

(** A method raises without a change, or answers after one step. *)
Definition one_step {A} (P : PatchPanel -> Prop) (s : Runtime * Env) (r : res A) (s' : Runtime * Env) : Prop :=
  match r with Ok _ => rt_step P s s' | Raise _ => idle s s' end.

Lemma one_step_hit {A} P (s : Runtime * Env) (r : res A) : one_step P s r s.
Proof. destruct r; [|apply idle_refl]. destruct s. by apply step_clock. Qed.

Lemma rt_step_env P s s' : rt_step P s s' -> env_le s.2 s'.2.
Proof. intros []; try done; apply env_le_refl. Qed.

(** What a method keeps, whether it answers or raises. *)
Lemma one_step_Inv {A} P (s : Runtime * Env) (r : res A) s' :
  Inv s.1 s.2 -> one_step P s r s' -> Inv s'.1 s'.2 /\ grows s.1 s'.1 /\ env_le s.2 s'.2.
Proof.
  intros Hi. destruct r; cbn.
  - intros Hs. split; [by eapply rt_step_Inv|]. split; [by eapply rt_step_grows | by eapply rt_step_env].
  - intros [Hst Hle]. rewrite Hst. split; [by eapply Inv_env|]. by split; [reflexivity|].
Qed.

Lemma register_refines pp s : wp (register_patch_panel pp) (one_step (eq pp) s) s.
Proof.
  apply wp_bind, wp_lift; simpl; [|intros; apply idle_refl].
  intros pp' [-> Hok]%validate_patch_panel_ok. apply wp_bind, wp_modify, wp_ret. simpl.
  destruct s as [st e]. by apply step_register.
Qed.

Lemma create_card_refines P pid payload metadata key s :
  wp (create_card pid payload metadata key) (one_step P s) s.
Proof.
  apply wp_with_cached; [intros; apply one_step_hit|]. intros Hmiss.
  apply wp_bind, wp_get_patch_panel; [|intros; apply idle_refl]. intros pp Hpp.
  apply wp_bind, wp_lift; [|intros; apply idle_refl]. intros bucket Hb.
  apply wp_bind, wp_new_card. intros c e1 Hle1 Hd Hwv Hbk _ _.
  apply wp_bind, wp_modify, wp_bind, wp_new_event. simpl. intros ev e2 Hle2 Hev _.
  do 2 apply wp_bind, wp_modify. apply wp_ret. simpl. destruct s as [st e]. simpl in *.
  eapply step_create; try done.
  - by eapply env_le_trans.
  - destruct Hd as (k & ? & ?). exists k. destruct Hle2. split; [lia | done].
  - by eapply event_at_ge.
Qed.

Lemma record_event_refines P cid typ actor payload key s :
  Inv s.1 s.2 -> wp (record_event cid typ actor payload key) (one_step P s) s.
Proof.
  intros Hi. apply wp_with_cached; [intros; apply one_step_hit|]. intros Hmiss.
  apply wp_bind, wp_get_card; [|intros; apply idle_refl]. intros c Hc.
  apply wp_bind, wp_new_event. intros ev e' Hle Hev _.
  do 2 apply wp_bind, wp_modify. apply wp_ret. simpl. destruct s as [st e]. simpl in *.
  destruct (inv_card _ _ Hi _ _ Hc) as [<- _].
  by eapply (step_event P st e e' c).
Qed.

Lemma move_card_refines P cid to actor reason key s :
  Inv s.1 s.2 -> wp (move_card cid to actor reason key) (one_step P s) s.
Proof.
  intros Hi. apply wp_with_cached; [intros; apply one_step_hit|]. intros Hmiss.
  apply wp_bind, wp_get_card; [|intros; apply idle_refl]. intros c Hc.
  apply wp_bind, wp_get_patch_panel; [|intros; apply idle_refl]. intros pp Hpp.
  apply wp_bind, wp_lift; [|intros; apply idle_refl]. intros [] Hb%ensure_bucket_exists_ok.
  apply wp_bind, wp_modify, wp_bind, wp_new_event. simpl. intros ev e' Hle Hev _.
  do 2 apply wp_bind, wp_modify. apply wp_ret. simpl. destruct s as [st e]. simpl in *.
  destruct (inv_card _ _ Hi _ _ Hc) as [<- _].
  eapply (step_route P st e e' c pp to); eauto.
Qed.

Lemma validate_card_refines P cid vid accepted reason pipe payload key s :
  Inv s.1 s.2 -> wp (validate_card cid vid accepted reason pipe payload key) (one_step P s) s.
Proof.
  intros Hi. apply wp_with_cached; [intros; apply one_step_hit|]. intros Hmiss.
  apply wp_bind, wp_get_card; [|intros; apply idle_refl]. intros c Hc.
  destruct (inv_card _ _ Hi _ _ Hc) as [Hid _]. apply wp_bind.
  destruct (truthy pipe).
  - apply wp_bind, wp_get_patch_panel; [|intros; apply idle_refl]. intros pp Hpp.
    apply wp_bind, wp_lift; [|intros; apply idle_refl]. intros [bucket node] Hb.
    apply wp_bind, wp_modify, wp_ret, wp_bind, wp_new_event. simpl. intros ev e' Hle Hev _.
    do 2 apply wp_bind, wp_modify. apply wp_ret. simpl. destruct s as [st e]. simpl in *.
    eapply (step_route P st e e' c pp bucket); eauto; [congruence|].
    eapply validated_pipe_bucket; [|done]. by eapply (inv_panel _ _ Hi).
  - apply wp_ret, wp_bind, wp_new_event. intros ev e' Hle Hev _.
    do 2 apply wp_bind, wp_modify. apply wp_ret. simpl. destruct s as [st e]. simpl in *.
    eapply (step_event P st e e' c); eauto. congruence.
Qed.

Lemma release_lease_refines P lid actor key s :
  Inv s.1 s.2 -> wp (release_lease lid actor key) (one_step P s) s.
Proof.
  intros Hi. apply wp_with_cached; [intros; apply one_step_hit|]. intros Hmiss.
  apply wp_bind, wp_get_lease; [|intros; apply idle_refl]. intros l Hl.
  destruct (inv_lease _ _ Hi _ _ Hl) as [Hid _].
  destruct (ls_released_at l) eqn:Hr.
  { apply wp_ret. destruct s. by apply step_clock. }
  apply wp_bind, wp_now, wp_bind, wp_modify, wp_bind, wp_new_event. simpl. intros ev e' Hle Hev _.
  do 2 apply wp_bind, wp_modify. apply wp_ret. simpl. destruct s as [st e]. simpl in *.
  assert (env_le e {| now_ctr := S (now_ctr e); uuid_ctr := uuid_ctr e |}) by (split; simpl; lia).
  eapply (step_release P st e e' l).
  - by eapply env_le_trans.
  - done.
  - congruence.
  - done.
  - by left.
  - by eapply event_at_ge.
Qed.

Lemma renew_lease_refines P lid secs key s :
  Inv s.1 s.2 -> wp (renew_lease lid secs key) (one_step P s) s.
Proof.
  intros Hi. apply wp_with_cached; [intros; apply one_step_hit|]. intros Hmiss.
  apply wp_bind, wp_get_lease; [|intros; apply idle_refl]. intros l Hl.
  destruct (inv_lease _ _ Hi _ _ Hl) as [Hid _].
  apply wp_bind, wp_ensure_active_lease.
  { intros x s' ? ? Hu. split; [done|]. split; [done | by rewrite Hu]. }
  intros Hact. apply wp_bind, wp_now, wp_bind, wp_lift; simpl.
  - intros t' [-> _]%dt_add_seconds_aware.
    apply wp_bind, wp_modify, wp_bind, wp_new_event. simpl. intros ev e' Hle Hev _.
    do 2 apply wp_bind, wp_modify. apply wp_ret. simpl. destruct s as [st e]. simpl in *.
    assert (Hle0 : env_le e (mkEnv (S (S (now_ctr e))) (uuid_ctr e))) by (split; simpl; lia).
    eapply (step_renew P st e e' l); eauto.
    + by eapply env_le_trans.
    + congruence.
    + eapply read_le; [exact Hle|]. exists (now_ctr e). simpl. split; [lia | done].
    + by eapply event_at_ge.
  - intros x _. split; [done|]. split; simpl; lia.
Qed.

Lemma submit_artifact_refines P lid pipe refs key s :
  Inv s.1 s.2 -> wp (submit_artifact lid pipe refs key) (one_step P s) s.
Proof.
  intros Hi. apply wp_with_cached; [intros; apply one_step_hit|]. intros Hmiss.
  apply wp_bind, wp_get_lease; [|intros; apply idle_refl]. intros l Hl.
  destruct (inv_lease _ _ Hi _ _ Hl) as [Hid _].
  apply wp_bind, wp_ensure_active_lease.
  { intros x s' ? ? Hu. split; [done|]. split; [done | by rewrite Hu]. }
  intros Hact. set (s1 := (s.1, mkEnv (S (now_ctr s.2)) (uuid_ctr s.2))).
  assert (Hidle : forall x : exn, one_step (A := list ArtifactReference) P s (Raise x) s1).
  { intros x. split; [done|]. split; simpl; lia. }
  apply wp_bind, wp_get_card; [|intros; apply Hidle]. intros c Hc.
  apply wp_bind, wp_get_patch_panel; [|intros; apply Hidle]. intros pp Hpp.
  apply wp_bind, wp_lift; [|intros; apply Hidle]. intros [bucket node] Hb.
  apply wp_bind, wp_lift; [|intros; apply Hidle]. intros [] Hbel.
  apply wp_bind, wp_lift; [|intros; apply Hidle]. intros [] Hacc.
  case_bool_decide as Hnode; cbn [negb]; [|apply wp_raise, Hidle]. subst node.
  apply wp_bind, wp_modify, wp_bind, wp_now, wp_bind, wp_modify, wp_bind, wp_new_event.
  simpl. intros ev e' Hle Hev _. do 3 apply wp_bind, wp_modify. apply wp_ret. simpl.
  destruct s as [st e]. simpl in *.
  assert (Hle0 : env_le e (mkEnv (S (S (now_ctr e))) (uuid_ctr e))) by (split; simpl; lia).
  eapply (step_submit P st e e' l c pp pipe bucket refs); eauto.
  - by eapply env_le_trans.
  - congruence.
  - eapply read_le; [exact Hle|]. exists (now_ctr e). simpl. split; [lia | done].
  - by eapply event_at_ge.
Qed.
End simple_ops.

(** ** Claiming *)
Section claim.
Context `{OracleLaws} `{NetworkxLaws}.

Definition blocksb (cid : UUID) (t : Z) (l : Lease) : bool :=
  match lease_blocks cid (Aware t) l with Ok b => b | Raise _ => false end.

Lemma lease_blocks_aware cid t l :
  is_aware (ls_expires_at l) ->
  lease_blocks cid (Aware t) l = Ok (blocksb cid t l) /\
  (blocksb cid t l = true <-> ls_card_id l = cid /\ lease_active_at l t).
Proof.
  intros [us Hus]. unfold blocksb, lease_blocks, lease_active_at.
  rewrite Hus. simpl. case_bool_decide; [|naive_solver].
  destruct (ls_released_at l); [naive_solver|]. simpl. split; [done|].
  rewrite Z.ltb_lt. naive_solver.
Qed.

Lemma has_active_lease_spec st e cid :
  Inv st e ->
  exists b, _has_active_lease cid (st, e) = (Ok b, (st, mkEnv (S (now_ctr e)) (uuid_ctr e))) /\
    (b = false <-> unleased st cid (clock_at (now_ctr e))).
Proof.
  intros Hi. set (t := clock_at (now_ctr e)).
  assert (Hl : forall l, l ∈ dict_values (_leases st) -> is_aware (ls_expires_at l)).
  { intros l Hin. apply dict_value_get in Hin as [k Hk]; [|apply Hi].
    by eapply inv_lease. }
  exists (existsb (blocksb cid t) (dict_values (_leases st))). split.
  - unfold _has_active_lease, mbind, M_bind, now, get, lift_res. simpl.
    rewrite (any_res_total _ (blocksb cid t)); [done|].
    intros l Hin. by apply lease_blocks_aware, Hl.
  - rewrite existsb_false. unfold unleased. split.
    + intros Hall l Hin Hc Ha. specialize (Hall l Hin).
      apply not_true_iff_false in Hall. apply Hall, lease_blocks_aware; auto.
    + intros Hall l Hin. apply not_true_iff_false. intros Hb.
      apply lease_blocks_aware in Hb as [Hc Ha]; [|auto]. by eapply Hall.
Qed.

(** What the scan of the cards for a panel finds. *)
Definition good_card (s s' : Runtime * Env) (pp : PatchPanel) (bucket : string) (c : Card) :
    Prop :=
  c ∈ dict_values (_cards s.1) /\ cd_workflow_version c = workflow_version_id pp /\
  cd_current_bucket c = bucket /\
  exists t, read s.2 s'.2 t /\ unleased s.1 (cd_id c) t.

Lemma good_card_later s s1 s2 pp bucket c :
  env_le s1.2 s2.2 -> good_card s s1 pp bucket c -> good_card s s2 pp bucket c.
Proof.
  intros Hle (? & ? & ? & t & ? & ?). repeat split; try done. exists t.
  split; [by eapply read_le | done].
Qed.

Lemma good_card_earlier s s1 s2 pp bucket c :
  idle s s1 -> good_card s1 s2 pp bucket c -> good_card s s2 pp bucket c.
Proof.
  intros [Hst Hle] (? & ? & ? & t & ? & ?). rewrite Hst in *. repeat split; try done.
  exists t. split; [by eapply read_ge | done].
Qed.

Lemma claimable_spec pp bucket c s :
  Inv s.1 s.2 -> c ∈ dict_values (_cards s.1) ->
  wp (claimable pp bucket c) (fun r s' => idle s s' /\
    exists b, r = Ok b /\ (b = true -> good_card s s' pp bucket c)) s.
Proof.
  intros Hi Hc. unfold claimable.
  assert (Hno : wp (mret (M := M Runtime) false) (fun r s' => idle s s' /\
            exists b, r = Ok b /\ (b = true -> good_card s s' pp bucket c)) s).
  { apply wp_ret. split; [apply idle_refl|]. by exists false. }
  case_bool_decide; [|exact Hno]. case_bool_decide; [|exact Hno]. simpl.
  destruct s as [st e]. destruct (has_active_lease_spec st e (cd_id c) Hi) as (b & Hb & Hun).
  apply wp_bind. unfold wp. rewrite Hb. simpl. split; [split; [done | split; simpl; lia]|].
  exists (negb b). split; [done|]. intros Hnb. repeat split; try done.
  exists (clock_at (now_ctr e)). split.
  - exists (now_ctr e). simpl. split; [lia | done].
  - apply Hun. by destruct b.
Qed.

Lemma next_claimable pp bucket l s :
  Inv s.1 s.2 -> (forall c, c ∈ l -> c ∈ dict_values (_cards s.1)) ->
  wp (nextM (claimable pp bucket) l) (fun r s' => idle s s' /\
    exists o, r = Ok o /\ forall c, o = Some c -> good_card s s' pp bucket c) s.
Proof.
  revert s. induction l as [|c l IH]; intros s Hi Hl; cbn [nextM].
  { apply wp_ret. split; [apply idle_refl|]. by exists None. }
  apply wp_bind. eapply wp_mono; [apply claimable_spec; [done | apply Hl; left]|].
  intros r s1 (Hidle & b & -> & Hb). destruct b.
  - apply wp_ret. split; [done|]. eexists. split; [done|]. intros ? [= <-]. auto.
  - destruct Hidle as [Hst Hle]. eapply wp_mono; [apply IH|].
    + rewrite Hst. by eapply Inv_env.
    + intros x Hx. rewrite Hst. apply Hl. by right.
    + intros r s2 (Hidle2 & o & -> & Ho). split; [by eapply idle_trans|].
      exists o. split; [done|]. intros x Hx. eapply good_card_earlier; [by split | auto].
Qed.

(** A match of the loop over the panels. *)
Definition good_match (s s' : Runtime * Env) (pipe : string) (m : claim_match) : Prop :=
  let '(pp, bucket, node, found) := m in
  pp ∈ dict_values (_patch_panels s.1) /\
  resolve_pipe_bucket pp pipe "input" = Ok (bucket, node) /\
  forall c, found = Some c -> good_card s s' pp bucket c.

Lemma good_match_shift s s1 s2 s3 pipe m :
  idle s s1 -> env_le s2.2 s3.2 -> good_match s1 s2 pipe m -> good_match s s3 pipe m.
Proof.
  destruct m as [[[pp bucket] node] found]. intros Hidle Hle (Hpp & Hr & Hc).
  split; [by rewrite <- (proj1 Hidle)|]. split; [done|]. intros c Hf.
  eapply good_card_earlier, good_card_later; eauto.
Qed.

Lemma claim_match_spec pipe pp s :
  Inv s.1 s.2 -> pp ∈ dict_values (_patch_panels s.1) ->
  wp (claim_match_in pipe pp) (fun r s' => idle s s' /\
    forall m, r = Ok (Some m) -> good_match s s' pipe m) s.
Proof.
  intros Hi Hpp. unfold claim_match_in.
  destruct (resolve_pipe_bucket pp pipe "input") as [[bucket node]|x] eqn:Hr.
  - apply wp_bind, wp_get, wp_bind. eapply wp_mono; [by apply next_claimable|].
    intros r s' (Hidle & o & -> & Ho). apply wp_ret. split; [done|]. by intros m [= <-].
  - destruct x; first [apply wp_ret | apply wp_raise]; split; auto with ghost; done.
Qed.

Lemma claim_matches_spec pipe panels s :
  Inv s.1 s.2 -> (forall pp, pp ∈ panels -> pp ∈ dict_values (_patch_panels s.1)) ->
  wp (claim_matches pipe panels) (fun r s' => idle s s' /\
    forall ms, r = Ok ms -> forall m, m ∈ ms -> good_match s s' pipe m) s.
Proof.
  revert s. induction panels as [|pp panels IH]; intros s Hi Hps; cbn [claim_matches].
  { apply wp_ret. split; [apply idle_refl|]. by intros ? [= <-] m ?%elem_of_nil. }
  apply wp_bind. eapply wp_mono; [apply claim_match_spec; [done | apply Hps; left]|].
  intros [o|x] s1 (Hidle & Hm); [|split; [done | by intros]].
  destruct Hidle as [Hst Hle] eqn:Hid. apply wp_bind. eapply wp_mono; [apply IH|].
  - rewrite Hst. by eapply Inv_env.
  - intros q Hq. rewrite Hst. apply Hps. by right.
  - intros [ms|x] s2 (Hidle2 & Hms); [|split; [by eapply idle_trans | by intros]].
    apply wp_ret. split; [by eapply idle_trans|]. intros ? [= <-] m Hin.
    assert (m ∈ ms -> good_match s s2 pipe m).
    { intros ?. eapply good_match_shift; [exact Hidle | apply env_le_refl | by apply (Hms ms)]. }
    destruct o as [x|]; [apply elem_of_cons in Hin as [->|?]|]; auto.
    eapply good_match_shift; [apply idle_refl | apply Hidle2 | by apply Hm].
Qed.

Lemma select_match_spec pipe ms m :
  select_match pipe ms = Ok m -> m.2 <> None -> m ∈ ms.
Proof.
  unfold select_match. destruct ms as [|m0 others]; [done|].
  destruct (py_filter has_card (m0 :: others)) as [|x [|y l]] eqn:E.
  - destruct others; intros [= <-] ?; [left | done].
  - intros [= <-] _. assert (x ∈ py_filter has_card (m0 :: others)) as Hx by (rewrite E; left).
    apply elem_of_py_filter in Hx. tauto.
  - destruct others; [|done]. intros [= <-] _. left.
Qed.

Lemma claim_target_spec pipe s :
  Inv s.1 s.2 ->
  wp (_claim_target pipe) (fun r s' => idle s s' /\
    forall pp bucket node c, r = Ok (pp, bucket, node, Some c) ->
      pp ∈ dict_values (_patch_panels s.1) /\
      resolve_pipe_bucket pp pipe "input" = Ok (bucket, node) /\
      good_card s s' pp bucket c) s.
Proof.
  intros Hi. apply wp_bind, wp_get, wp_bind. eapply wp_mono; [by apply claim_matches_spec|].
  intros [ms|x] s' (Hidle & Hms); [|split; [done | by intros]].
  apply wp_lift_res. split; [done|]. intros pp bucket node c Hsel.
  apply select_match_spec in Hsel; [|done].
  destruct (Hms ms eq_refl _ Hsel) as (? & ? & Hc). auto.
Qed.

(** What a claim that is not a replay answers. *)
Definition claimed (s : Runtime * Env) (pipe worker : string) (secs : Z) (s' : Runtime * Env)
    (l : Lease) : Prop :=
  exists pp bucket card t,
    pp ∈ dict_values (_patch_panels s.1) /\
    resolve_pipe_bucket pp pipe "input" = Ok (bucket, ls_node_id l) /\
    good_card s s' pp bucket card /\ ls_card_id l = cd_id card /\
    ls_worker_id l = worker /\ ls_input_pipe l = pipe /\ ls_released_at l = None /\
    read s.2 s'.2 t /\ ls_expires_at l = Aware (t + secs * 1000000) /\
    dict_get (ls_id l) (_leases s.1) = None /\
    dict_get (ls_id l) (_leases s'.1) = Some l /\ _cards s'.1 = _cards s.1.

Lemma claim_card_spec P pipe worker secs key s :
  Inv s.1 s.2 ->
  wp (claim_card pipe worker secs key) (fun r s' =>
    one_step P s r s' /\
    (cache_miss key s.1 -> forall l, r = Ok l -> claimed s pipe worker secs s' l)) s.
Proof.
  intros Hi. apply wp_with_cached.
  { intros c Hk Ht. split; [apply one_step_hit|]. intros Hm. rewrite (Hm c Hk) in Ht. done. }
  intros Hmiss. apply wp_bind. eapply wp_mono; [by apply claim_target_spec|].
  intros [[[[pp bucket] node] [c|]]|x] s1 (Hidle & Hgood).
  2, 3: first [apply wp_raise | idtac]; (split; [exact Hidle | by intros]).
  destruct (Hgood pp bucket node c eq_refl) as (Hpp & Hres & Hcard).
  apply wp_bind, wp_new_lease.
  { intros x s2 Hidle2. split; [by eapply idle_trans | by intros]. }
  intros l e2 us t Hle2 Hd Hlc Hln Hlw Hlp Hlr Hle Hrd Hus.
  apply wp_bind, wp_modify, wp_bind, wp_new_event. simpl. intros ev e3 Hle3 Hev _.
  do 2 apply wp_bind, wp_modify. apply wp_ret. simpl.
  destruct s as [st e], s1 as [st1 e1], Hidle as [Hst Hle1]. simpl in *. subst st1.
  assert (Hg3 : good_card (st, e) (put_key key (C_lease l) (put_event ev (put_lease l st)), e3)
                  pp bucket c).
  { eapply good_card_later; [|exact Hcard]. simpl. by eapply env_le_trans. }
  assert (Hd3 : drawn e e3 (ls_id l)).
  { eapply drawn_ge; [done|]. destruct Hd as (k & ? & ?). exists k.
    destruct Hle3. split; [lia | done]. }
  assert (Hnew : dict_get (ls_id l) (_leases st) = None).
  { destruct (dict_get _ _) eqn:El; [|done]. exfalso. by eapply (fresh_lease st e e3). }
  destruct Hg3 as (Hcin & Hwv & Hbk & tu & Hru & Hun) eqn:Hg.
  assert (Hcd : dict_get (cd_id c) (_cards st) = Some c).
  { destruct (dict_value_get c _ (inv_card_keys _ _ Hi) Hcin) as [k Hk].
    by destruct (inv_card _ _ Hi _ _ Hk) as [-> _]. }
  split.
  - eapply (step_claim P st e e3 c l ev key tu us); try done.
    + eapply env_le_trans; [|done]. by eapply env_le_trans.
    + rewrite Hlw. eapply event_at_ge; [|exact Hev]. by eapply env_le_trans.
  - intros _ ? [= <-]. exists pp, bucket, c, t. rewrite Hln. repeat split; try done.
    + by exists tu.
    + eapply read_ge; [done|]. by eapply read_le.
    + by rewrite Hle, Hus.
    + simpl. autorewrite with rt. simpl. apply dict_get_set_eq.
    + simpl. by autorewrite with rt.
Qed.
End claim.

(** ** Expiry *)
Section expiry.
Context `{OracleLaws} `{NetworkxLaws}.

(** An unreleased lease whose expiry is not after [t]. *)
Definition expiredb (t : Z) (l : Lease) : bool :=
  match ls_released_at l with
  | Some _ => false
  | None => match aware (ls_expires_at l) with Aware us => Z.leb us t | Naive _ => false end
  end.

Definition expired_lease (t : Z) (l : Lease) : Lease :=
  if expiredb t l then lease_with_released (Aware t) l else l.

Lemma expire_lease_spec P t l s :
  Inv s.1 s.2 -> dict_get (ls_id l) (_leases s.1) = Some l ->
  wp (expire_lease (Aware t) l) (fun r s' =>
    rt_step P s s' /\
    r = Ok (if expiredb t l then Some (lease_with_released (Aware t) l) else None) /\
    forall k, dict_get k (_leases s'.1)
      = if decide (k = ls_id l) then Some (expired_lease t l) else dict_get k (_leases s.1)) s.
Proof.
  intros Hi Hl. unfold expire_lease, expired_lease, expiredb.
  assert (Hsame : forall k, dict_get k (_leases s.1)
            = if decide (k = ls_id l) then Some l else dict_get k (_leases s.1)).
  { intros k. by case_decide; subst. }
  assert (Hstay : rt_step P s s) by (destruct s; by apply step_clock).
  destruct (ls_released_at l) eqn:Hr; [by apply wp_ret|].
  destruct (aware_is_aware (ls_expires_at l)) as [us Hus]. rewrite Hus.
  apply wp_bind, wp_lift_res. simpl. destruct (Z.leb us t); [|by apply wp_ret].
  apply wp_bind, wp_modify, wp_bind, wp_new_event. intros ev e' Hle Hev _.
  apply wp_bind, wp_modify, wp_ret. destruct s as [st e]. simpl in *.
  split; [|split; [done|]].
  - by apply (step_release P st e e' l ev None (Aware t) "lease_expired" (Some (ls_worker_id l)));
      try done; right.
  - intros k. rewrite dict_get_set. done.
Qed.

Lemma expire_all_spec P t l s :
  Inv s.1 s.2 -> NoDup (map ls_id l) ->
  (forall x, x ∈ l -> dict_get (ls_id x) (_leases s.1) = Some x) ->
  wp (expire_all (Aware t) l) (fun r s' =>
    rtc (rt_step P) s s' /\
    r = Ok (map (lease_with_released (Aware t)) (py_filter (expiredb t) l)) /\
    (forall x, x ∈ l -> dict_get (ls_id x) (_leases s'.1) = Some (expired_lease t x)) /\
    (forall k, k ∉ map ls_id l -> dict_get k (_leases s'.1) = dict_get k (_leases s.1))) s.
Proof.
  revert s. induction l as [|x l IH]; intros s Hi Hnd Hl; cbn [expire_all].
  { apply wp_ret. split; [apply rtc_refl|]. split; [done|]. split; [by intros ? ?%elem_of_nil | done]. }
  cbn [map] in Hnd. apply NoDup_cons in Hnd as [Hx Hnd].
  apply wp_bind. eapply wp_mono; [apply expire_lease_spec; [done | apply Hl; left]|].
  intros r s1 (Hstep & -> & Hs1). apply wp_bind. eapply wp_mono; [apply IH|].
  - by eapply rt_step_Inv.
  - done.
  - intros y Hy. rewrite Hs1. case_decide as Heq; [|apply Hl; by right].
    exfalso. apply Hx. rewrite <- Heq. by apply list_elem_of_fmap_2.
  - intros r s2 (Hsteps & -> & Hin & Hout). apply wp_ret. split; [by eapply rtc_l|].
    split; [cbn [py_filter List.filter]; by destruct (expiredb t x)|]. split.
    + intros y [->|Hy]%elem_of_cons; [|by apply Hin].
      rewrite Hout by done. rewrite Hs1. by rewrite decide_True.
    + intros k Hk. cbn [map] in Hk. apply not_elem_of_cons in Hk as [Hk1 Hk2].
      rewrite Hout by done. rewrite Hs1. by rewrite decide_False.
Qed.

Lemma leases_by_id st e :
  Inv st e ->
  NoDup (map ls_id (dict_values (_leases st))) /\
  (forall x, x ∈ dict_values (_leases st) -> dict_get (ls_id x) (_leases st) = Some x) /\
  dict_keys (_leases st) = map ls_id (dict_values (_leases st)).
Proof.
  intros Hi. pose proof (inv_lease_keys _ _ Hi) as Hnd. pose proof (inv_lease _ _ Hi) as Hid.
  assert (Hkeys : dict_keys (_leases st) = map ls_id (dict_values (_leases st))).
  { assert (Hin : forall k l, (k, l) ∈ _leases st -> ls_id l = k).
    { intros k l Hkl. by destruct (Hid k l (dict_elem_get _ _ _ Hnd Hkl)). }
    clear -Hin. unfold dict_keys, dict_values. induction (_leases st) as [|[k l] d IH]; [done|].
    cbn. rewrite <- (Hin k l) by left. f_equal. apply IH. intros k' l' ?. apply Hin. by right. }
  split; [by rewrite <- Hkeys|]. split; [|done].
  intros x Hx. destruct (dict_value_get x _ Hnd Hx) as [k Hk].
  by destruct (Hid k x Hk) as [-> _].
Qed.

Lemma expire_leases_spec P s :
  Inv s.1 s.2 ->
  wp expire_leases (fun r s' =>
    let t := clock_at (now_ctr s.2) in
    rtc (rt_step P) s s' /\
    r = Ok (map (lease_with_released (Aware t))
              (py_filter (expiredb t) (dict_values (_leases s.1)))) /\
    forall k, dict_get k (_leases s'.1) = expired_lease t <$> dict_get k (_leases s.1)) s.
Proof.
  intros Hi. destruct s as [st e]. apply wp_bind, wp_now, wp_bind, wp_get. simpl.
  set (t := clock_at (now_ctr e)). set (e1 := mkEnv (S (now_ctr e)) (uuid_ctr e)).
  assert (Hi1 : Inv st e1) by (eapply Inv_env; [|exact Hi]; split; simpl; lia).
  destruct (leases_by_id st e Hi) as (Hnd & Hget & Hkeys).
  eapply wp_mono; [by apply (expire_all_spec P t _ (st, e1))|].
  intros r s' (Hsteps & -> & Hin & Hout). split; [|split; [done|]].
  - eapply rtc_l; [|exact Hsteps]. apply step_clock. split; simpl; lia.
  - intros k. destruct (dict_get k (_leases st)) as [l|] eqn:E; simpl in *.
    + assert (l ∈ dict_values (_leases st)) as Hl by by eapply dict_get_value.
      destruct (inv_lease _ _ Hi k l E) as [<- _]. by apply Hin.
    + rewrite Hout, E; [done|]. rewrite <- Hkeys. intros Hk%dict_key_get.
      rewrite E in Hk. by destruct Hk.
Qed.
End expiry.

(** ** The refinement *)
Section refinement.
Context `{OracleLaws} `{NetworkxLaws}.

Lemma wp_mapM {S A B} (f : A -> B) (m : M S A) (Q : res B -> S * Env -> Prop) s :
  wp m (fun r s' => Q (match r with Ok a => Ok (f a) | Raise x => Raise x end) s') s ->
  wp (mapM f m) Q s.
Proof. intros Hm. apply wp_bind. eapply wp_mono; [exact Hm|]. by intros [a|x] s'. Qed.

(** The panels an operation may register. *)
Definition registers (o : op) (pp : PatchPanel) : Prop := o = Register pp.

Lemma rt_step_mono (P P' : PatchPanel -> Prop) s s' :
  (forall pp, P pp -> P' pp) -> rt_step P s s' -> rt_step P' s s'.
Proof. 
  intros HP Hs. destruct Hs;
    [eapply step_register | eapply step_create | eapply step_claim | eapply step_submit
    | eapply step_renew | eapply step_release | eapply step_event | eapply step_route
    | eapply step_clock]; eauto.
Qed.

(** What every operation does: it raises and changes nothing, or answers
    after zero or more steps. *)
Definition refines_spec (P : PatchPanel -> Prop) (s : Runtime * Env) (r : res answer) (s' : Runtime * Env) : Prop :=
  rtc (rt_step P) s s' /\ (forall x, r = Raise x -> s'.1 = s.1).

Lemma one_step_refines {A} P (f : A -> answer) (m : M Runtime A) s :
  wp m (one_step P s) s -> wp (mapM f m) (refines_spec P s) s.
Proof.
  intros Hm. apply wp_mapM. eapply wp_mono; [exact Hm|].
  intros [a|x] [st' e']; simpl; unfold refines_spec.
  - intros Hs. split; [by apply rtc_once | done].
  - intros [Hst Hle]. destruct s as [st e]. simpl in *. subst.
    split; [by apply rtc_once, step_clock | done].
Qed.

Lemma run_op_refines o s : Inv s.1 s.2 -> wp (run_op o) (refines_spec (registers o) s) s.
Proof.
  intros Hi. destruct o; cbn [run_op].
  - apply one_step_refines. eapply wp_mono; [apply register_refines|].
    intros [a|x] s'; simpl; [|done]. apply rt_step_mono. by intros ? <-.
  - apply one_step_refines, create_card_refines.
  - apply one_step_refines. eapply wp_mono; [by eapply claim_card_spec|]. by intros ? ? [? _].
  - by apply one_step_refines, submit_artifact_refines.
  - by apply one_step_refines, renew_lease_refines.
  - by apply one_step_refines, release_lease_refines.
  - apply wp_mapM. eapply wp_mono; [by apply (expire_leases_spec (registers ExpireLeases))|].
    intros r s' (Hs & -> & _). split; done.
  - by apply one_step_refines, validate_card_refines.
  - by apply one_step_refines, move_card_refines.
  - by apply one_step_refines, record_event_refines.
Qed.

Lemma run_op_steps o s : Inv s.1 s.2 -> rtc (rt_step (registers o)) s (run_op o s).2.
Proof. intros Hi. exact (proj1 (run_op_refines o s Hi)). Qed.

Lemma run_op_Inv o s : Inv s.1 s.2 -> Inv (run_op o s).2.1 (run_op o s).2.2.
Proof. intros Hi. eapply rt_steps_Inv; [by apply run_op_steps | done]. Qed.

Lemma reachable_Inv s : reachable s -> Inv s.1 s.2.
Proof. induction 1; [apply Inv_start | by apply run_op_Inv]. Qed.

Lemma run_op_env o s : Inv s.1 s.2 -> env_le s.2 (run_op o s).2.2.
Proof.
  intros Hi. induction (run_op_steps o s Hi) as [s1|s1 s2 s3 Hst _ IH]; [apply env_le_refl|].
  eapply env_le_trans; [by eapply rt_step_env|]. apply IH. by eapply rt_step_Inv.
Qed.

Lemma run_op_grows o s : Inv s.1 s.2 -> grows s.1 (run_op o s).2.1.
Proof. intros Hi. eapply rt_steps_grows; [by apply run_op_steps | done]. Qed.

(** Running a list of operations, answers and exceptions ignored. *)
Fixpoint run_ops (os : list op) (s : Runtime * Env) : Runtime * Env :=
  match os with [] => s | o :: os' => run_ops os' (run_op o s).2 end.

Lemma run_ops_Inv os s : Inv s.1 s.2 -> Inv (run_ops os s).1 (run_ops os s).2.
Proof.
  revert s. induction os as [|o os IH]; intros s Hi; [done|].
  apply IH. by apply run_op_Inv.
Qed.

Lemma run_ops_grows os s : Inv s.1 s.2 -> grows s.1 (run_ops os s).1.
Proof.
  revert s. induction os as [|o os IH]; intros s Hi; simpl; [done|].
  etransitivity; [by apply run_op_grows | by apply IH, run_op_Inv].
Qed.
End refinement.
