(* ===== verification/MemorySubmit.v ===== *)
(** * Submission of artifacts, exactly

    When [submit_artifact] accepts and what it then leaves behind. *)
From Stdlib Require Import ZArith Ascii String.
From S2P Require Import Prelude Values Authority Models Graph PanelValidator Artifacts.
From S2P Require Import RuntimeService MemoryRuntime MemorySpec MemoryInvariant MemoryRefine.
Open Scope string_scope.
Open Scope list_scope.

(** The conditions of an accepted submission: the lease is active, its card
    and the card's panel exist, the output pipe leads from the lease's node
    to [bucket], the references are the card's, and they meet the bucket's
    acceptance contract. *)
Record accepts (st : Runtime) (t : Z) (lid : UUID) (pipe : string)
    (refs : list ArtifactReference) (lease : Lease) (card : Card) (pp : PatchPanel)
    (bucket : string) : Prop := {
  acc_lease : dict_get lid (_leases st) = Some lease;
  acc_active : lease_active_at lease t;
  acc_card : dict_get (ls_card_id lease) (_cards st) = Some card;
  acc_panel : dict_get (card_panel_id card) (_patch_panels st) = Some pp;
  acc_pipe : resolve_pipe_bucket pp pipe "output" = Ok (bucket, ls_node_id lease);
  acc_nonempty : refs <> [];
  acc_belong : forall r, r ∈ refs -> ar_card_id r = cd_id card;
  acc_contract : ensure_artifacts_accepted pp bucket refs = Ok tt;
}.

(** The state after it: the card moved, the lease released, the references
    stored under the event, the event appended, the key stored. *)
Definition submitted_state (st : Runtime) (lease : Lease) (card : Card) (bucket : string)
    (released_at : datetime) (stored : list ArtifactReference) (ev : CardEvent)
    (key : option string) : Runtime :=
  put_key key (C_artifacts stored)
    (put_event ev
       (put_artifacts stored
          (put_lease (lease_with_released released_at lease)
             (put_card (card_with_bucket bucket card) st)))).

Section submit.
Context `{Oracle} `{Networkx}.

Lemma ensure_active_lease_run {St} (l : Lease) (s : St * Env) :
  lease_active_at l (clock_at (now_ctr s.2)) ->
  ensure_active_lease l s = (Ok tt, (s.1, mkEnv (S (now_ctr s.2)) (uuid_ctr s.2))).
Proof.
  intros [Hr (us & Hus & Hlt)]. unfold ensure_active_lease. rewrite Hr.
  unfold mbind, M_bind, now, lift_res. cbn [fst snd]. rewrite Hus. cbn [dt_le].
  rewrite (proj2 (Z.leb_gt _ _) Hlt). done.
Qed.

Lemma submit_accepted lid pipe refs key s lease card pp bucket :
  cache_miss key s.1 ->
  accepts s.1 (clock_at (now_ctr s.2)) lid pipe refs lease card pp bucket ->
  wp (submit_artifact lid pipe refs key) (fun r s' =>
    exists ev released_at,
      let stored := map (artifact_with_event (cd_id card) (ev_id ev)) refs in
      r = Ok stored /\ event_at s.2 s'.2 (cd_id card) "artifact_submitted" (Some (ls_worker_id lease)) ev /\
      s'.1 = submitted_state s.1 lease card bucket released_at stored ev key) s.
Proof.
  intros Hm []. apply wp_with_cached.
  { intros c Hk Ht. by rewrite (Hm c Hk) in Ht. }
  intros _. apply wp_bind, wp_get_lease; [|intros; congruence]. intros l0 Hl.
  assert (l0 = lease) as -> by congruence. apply wp_bind. unfold wp at 1.
  rewrite ensure_active_lease_run by done. cbn [fst snd].
  apply wp_bind, wp_get_card; [|simpl; intros; congruence]. intros c Hc. simpl in Hc.
  assert (c = card) as -> by congruence.
  apply wp_bind, wp_get_patch_panel; [|simpl; intros; congruence]. intros p Hp. simpl in Hp.
  assert (p = pp) as -> by congruence.
  apply wp_bind, wp_lift_res. rewrite acc_pipe0. cbn beta iota.
  apply wp_bind, wp_lift_res. rewrite (proj2 (refs_belong_ok _ _)) by done. cbn beta iota.
  apply wp_bind, wp_lift_res. rewrite acc_contract0. cbn beta iota.
  rewrite bool_decide_eq_true_2 by done. cbn [negb].
  apply wp_bind, wp_modify, wp_bind, wp_now, wp_bind, wp_modify, wp_bind, wp_new_event.
  simpl. intros ev e' Hle Hev _. do 3 apply wp_bind, wp_modify. apply wp_ret.
  eexists ev, _. split; [done|]. split; [|done]. eapply event_at_ge; [|exact Hev].
  split; simpl; lia.
Qed.

Lemma submit_only_accepted lid pipe refs key s :
  cache_miss key s.1 ->
  wp (submit_artifact lid pipe refs key) (fun r _ => forall a, r = Ok a ->
    exists lease card pp bucket,
      accepts s.1 (clock_at (now_ctr s.2)) lid pipe refs lease card pp bucket) s.
Proof.
  intros Hm. apply wp_with_cached.
  { intros c Hk Ht. by rewrite (Hm c Hk) in Ht. }
  intros _. apply wp_bind, wp_get_lease; [|done]. intros l Hl.
  apply wp_bind, wp_ensure_active_lease; [done|]. intros Hact.
  apply wp_bind, wp_get_card; [|done]. intros c Hc.
  apply wp_bind, wp_get_patch_panel; [|done]. intros pp Hpp.
  apply wp_bind, wp_lift; [|done]. intros [bucket node] Hb.
  apply wp_bind, wp_lift; [|done]. intros [] [Hne Hbel]%refs_belong_ok.
  apply wp_bind, wp_lift; [|done]. intros [] Hacc.
  case_bool_decide as Hnode; cbn [negb]; [|by apply wp_raise].
  assert (Hgoal : exists lease card pp bucket,
            accepts s.1 (clock_at (now_ctr s.2)) lid pipe refs lease card pp bucket).
  { exists l, c, pp, bucket. subst node. by constructor. }
  by unfold wp.
Qed.

(** The stored references are found under their ids. *)
Lemma put_artifacts_get refs st r :
  NoDup (map ar_id refs) -> r ∈ refs ->
  dict_get (ar_id r) (_artifacts (put_artifacts refs st)) = Some r.
Proof.
  intros Hnd Hr. simpl.
  assert (Hupd : forall d, foldl (fun d r => dict_set (ar_id r) r d) d refs
            = dict_update d (map (fun r => (ar_id r, r)) refs)).
  { unfold dict_update. intros d. revert d. clear. induction refs as [|x l IH]; intros d; simpl; [done | by rewrite IH]. }
  rewrite Hupd, dict_update_get, (dict_elem_get (ar_id r) r); [done| |].
  - unfold dict_keys. rewrite fmap_reverse, reverse_Permutation.
    rewrite <- list_fmap_compose. exact Hnd.
  - apply elem_of_reverse, list_elem_of_fmap. by exists r.
Qed.
End submit.
