(* ===== verification/MemoryReplay.v ===== *)
(** * Idempotent replay

    An operation that answers under an idempotency key stores its answer, and
    the stored answer is what every later call under the key gets, without
    any further change. *)
From Stdlib Require Import ZArith Ascii String.
From S2P Require Import Prelude Values Authority Models Graph PanelValidator Artifacts.
From S2P Require Import RuntimeService MemoryRuntime MemorySpec MemoryInvariant MemoryRefine.
Open Scope string_scope.
Open Scope list_scope.

(** ** What a call under a key finds *)
Definition op_key (o : op) : option string :=
  match o with
  | Register _ | ExpireLeases => None
  | CreateCard _ _ _ key | ClaimCard _ _ _ key | SubmitArtifact _ _ _ key
  | RenewLease _ _ key | ReleaseLease _ _ key | ValidateCard _ _ _ _ _ _ key
  | MoveCard _ _ _ _ key | RecordEvent _ _ _ _ key => key
  end.

Definition res_map {A B} (f : A -> B) (r : res A) : res B := a ← r; Ok (f a).

(** The answer of a call that finds [c]. *)
Definition cached_answer (o : op) (c : cached) : res answer :=
  match o with
  | Register _ | ExpireLeases => Raise idempotency_conflict
  | CreateCard _ _ _ _ | MoveCard _ _ _ _ _ => res_map A_card (_typed_card c)
  | ClaimCard _ _ _ _ | RenewLease _ _ _ | ReleaseLease _ _ _ =>
      res_map A_lease (_typed_lease c)
  | SubmitArtifact _ _ _ _ => res_map A_artifacts (_typed_artifacts c)
  | ValidateCard _ _ _ _ _ _ _ | RecordEvent _ _ _ _ _ => res_map A_event (_typed_event c)
  end.

(** Releasing a released lease answers it again without storing the key. *)
Definition releases_again (o : op) (st : Runtime) : Prop :=
  exists lid actor key l, o = ReleaseLease lid actor key /\
    dict_get lid (_leases st) = Some l /\ ls_released_at l <> None.

Section replay.
Context `{Oracle} `{Networkx}.

Lemma with_cached_miss {A} key (typed : cached -> res A) body s :
  cache_miss key s.1 -> with_cached key typed body s = body s.
Proof.
  intros Hm. unfold with_cached, mbind, M_bind, _get_idempotent, get, mbind. simpl.
  destruct (lookup_key key s.1) eqn:E; [|by destruct s]. rewrite (Hm _ E). by destruct s.
Qed.

Lemma with_cached_hit {A} key (typed : cached -> res A) body s c :
  lookup_key key s.1 = Some c -> truthy_cached c = true ->
  with_cached key typed body s = (typed c, s).
Proof.
  intros Hk Ht. unfold with_cached, mbind, M_bind, _get_idempotent, get, mbind, mret, M_ret. simpl.
  rewrite Hk, Ht. done.
Qed.

Lemma mapM_run {A B} (f : A -> B) (m : M Runtime A) s r :
  m s = (r, s) -> mapM f m s = (res_map f r, s).
Proof. intros Hm. unfold mapM, mbind, M_bind. rewrite Hm. by destruct r. Qed.

Lemma run_op_hit o s c :
  lookup_key (op_key o) s.1 = Some c -> truthy_cached c = true ->
  run_op o s = (cached_answer o c, s).
Proof.
  intros Hk Ht. destruct o; try done; cbn [run_op op_key cached_answer] in *;
    apply mapM_run; by apply with_cached_hit.
Qed.

(** ** What a call stores *)
Definition stored {A} (key : option string) (typed : cached -> res A) (r : res A)
    (s' : Runtime * Env) : Prop :=
  forall a, r = Ok a -> exists c, lookup_key key s'.1 = Some c /\ truthy_cached c = true /\
    typed c = Ok a.

Lemma stored_raise {A} key (typed : cached -> res A) e s' : stored key typed (Raise e) s'.
Proof. by intros a ?. Qed.

Lemma wp_skip {S A B} (m : M S A) (f : A -> M S B) Q s :
  (forall e s', Q (Raise e) s') -> (forall a s', wp (f a) Q s') -> wp (m ≫= f) Q s.
Proof. intros He Hf. apply wp_bind. unfold wp. destruct (m s) as [[a|e] s']; simpl; auto. apply Hf. Qed.

Lemma wp_store {A} key (typed : cached -> res A) v a s :
  truthy key = true -> truthy_cached v = true -> typed v = Ok a ->
  wp (_ ← _store_idempotent key v; mret a) (stored key typed) s.
Proof.
  intros Hk Ht Hv. apply wp_bind, wp_modify, wp_ret. intros ? [= <-]. exists v.
  split; [|done]. simpl. rewrite lookup_put_key. by rewrite decide_True.
Qed.

Lemma wp_stored_cached {A} key (typed : cached -> res A) body s :
  wp body (stored key typed) s -> wp (with_cached key typed body) (stored key typed) s.
Proof. intros Hb. apply wp_with_cached; [|done]. intros c ? ? a ?. by exists c. Qed.

Lemma wp_stored_mapM {A} key (typed : cached -> res A) (f : A -> answer) m s :
  wp m (stored key typed) s ->
  wp (mapM f m) (stored key (fun c => res_map f (typed c))) s.
Proof.
  intros Hm. apply wp_mapM. eapply wp_mono; [exact Hm|].
  intros [x|e] s' Hs a Ha; [|done]. injection Ha as <-.
  destruct (Hs x eq_refl) as (c & ? & ? & Hc). exists c. by rewrite Hc.
Qed.
End replay.

(** Walks to the end of a body, where the answer is stored. *)
Ltac stored_walk :=
  first [ apply stored_raise
        | apply wp_raise, stored_raise
        | apply wp_store; done
        | apply wp_skip; [intros; apply stored_raise | intros ? ?; stored_walk]
        | match goal with
          | |- wp (match ?x with _ => _ end) _ _ => destruct x; stored_walk
          end ].

Section store_ops.
Context `{Oracle} `{Networkx}.

Lemma submit_stores lid pipe refs key s :
  truthy key = true -> wp (submit_artifact lid pipe refs key) (stored key _typed_artifacts) s.
Proof.
  intros Hk. apply wp_stored_cached.
  do 4 (apply wp_skip; [intros; apply stored_raise | intros ? ?]).
  apply wp_bind, wp_lift; [intros [bucket node] _ | intros; apply stored_raise].
  apply wp_bind, wp_lift; [intros [] Hrefs | intros; apply stored_raise].
  apply refs_belong_ok in Hrefs as [Hne _]. destruct refs as [|r refs]; [done|].
  stored_walk.
Qed.

Lemma create_stores pid payload metadata key s :
  truthy key = true -> wp (create_card pid payload metadata key) (stored key _typed_card) s.
Proof. intros Hk. apply wp_stored_cached. stored_walk. Qed.

Lemma release_stores lid actor key s :
  truthy key = true -> ~ releases_again (ReleaseLease lid actor key) s.1 ->
  wp (release_lease lid actor key) (stored key _typed_lease) s.
Proof.
  intros Hk Hagain. apply wp_stored_cached, wp_bind, wp_get_lease; [|intros; apply stored_raise].
  intros l Hl. destruct (ls_released_at l) eqn:Er; [|stored_walk].
  destruct Hagain. exists lid, actor, key, l. rewrite Er. done.
Qed.

Lemma run_op_stores o s :
  truthy (op_key o) = true -> ~ releases_again o s.1 ->
  wp (run_op o) (stored (op_key o) (cached_answer o)) s.
Proof.
  intros Hk Ha. destruct o; try done; cbn [run_op op_key cached_answer] in *; apply wp_stored_mapM;
    try (apply wp_stored_cached; stored_walk);
    [by apply submit_stores | by apply release_stores].
Qed.
End store_ops.
