(* ===== verification/MemoryProgress.v ===== *)
(** * Where cards are, and that claims succeed

    [placed]: every card is in a bucket that a validated registration of its
    own panel declares. The second half shows that [claim_card] answers when
    there is a card to claim. *)
From Stdlib Require Import ZArith Ascii String.
From S2P Require Import Prelude Values Authority Models Graph PanelValidator Artifacts.
From S2P Require Import RuntimeService MemoryRuntime MemorySpec MemoryInvariant MemoryRefine.
Open Scope string_scope.
Open Scope list_scope.

(** A version the [rsplit(":", 1)] of [_get_patch_panel_for_card] can undo. *)
Definition version_plain (pp : PatchPanel) : Prop :=
  (split_last ":"%char (pp_version pp)).2 = None.

Lemma panel_id_of_version pp c :
  version_plain pp -> cd_workflow_version c = workflow_version_id pp ->
  card_panel_id c = pp_id pp.
Proof.
  intros Hv Hc. unfold card_panel_id. rewrite Hc. unfold workflow_version_id.
  change (":" +:+ pp_version pp) with (String ":" (pp_version pp)).
  by rewrite split_last_join.
Qed.

Section placed.
Context `{OracleLaws} `{NetworkxLaws}.

Definition placed_by (P : PatchPanel -> Prop) (c : Card) : Prop :=
  exists pp, P pp /\ is_ok (validate pp) /\ pp_id pp = card_panel_id c /\
    cd_current_bucket c ∈ bucket_ids pp.

Definition placed (P : PatchPanel -> Prop) (st : Runtime) : Prop :=
  (forall k pp, dict_get k (_patch_panels st) = Some pp -> P pp) /\
  (forall k c, dict_get k (_cards st) = Some c -> placed_by P c).

Lemma placed_ext P st st' :
  _patch_panels st' = _patch_panels st -> _cards st' = _cards st -> placed P st -> placed P st'.
Proof. intros Hp Hc [? ?]. split; rewrite ?Hp, ?Hc; auto. Qed.

Lemma placed_put_card P st st' c :
  placed P st -> placed_by P c -> _patch_panels st' = _patch_panels st ->
  _cards st' = dict_set (cd_id c) c (_cards st) -> placed P st'.
Proof.
  intros [Hp Hc] Hin E1 E2. split; [by rewrite E1|]. intros k c'. rewrite E2, dict_get_set.
  case_decide; [by intros [= <-] | apply Hc].
Qed.

Lemma rerouted_panel_id b c : card_panel_id (card_with_bucket b c) = card_panel_id c.
Proof. done. Qed.

(** Where a step leaves every card. *)
Lemma rt_step_placed P s s' :
  (forall pp, P pp -> version_plain pp) ->
  rt_step P s s' -> Inv s.1 s.2 -> placed P s.1 -> placed P s'.1.
Proof.
  intros Hplain Hstep Hi Hpl. destruct Hpl as [Hpan Hcards] eqn:E. clear E.
  destruct Hstep; simpl in *;
    lazymatch goal with
    | |- placed _ (put_panel _ _) =>
        split; [|done]; intros k pp'; simpl; rewrite dict_get_set;
        case_decide; [by intros [= <-] | apply Hpan]
    | |- placed _ (put_key _ (C_card ?c) (put_event _ (put_card ?c _))) =>
        eapply placed_put_card; [exact Hpl | | by autorewrite with rt | by autorewrite with rt];
        exists pp
    | |- context [put_card (card_with_bucket ?b ?c) _] =>
        eapply (placed_put_card P _ _ (card_with_bucket b c));
          [exact Hpl | | by autorewrite with rt | by autorewrite with rt];
        exists pp; rewrite rerouted_panel_id
    | |- _ => eapply placed_ext; [| | exact Hpl]; by autorewrite with rt
    end.
  all: match goal with Hp : dict_get _ (_patch_panels _) = Some _ |- _ =>
         pose proof (Hpan _ _ Hp); destruct (inv_panel _ _ Hi _ _ Hp) as [Hk Hok]
       end.
  all: split; [done|]; split; [done|].
  - split; [symmetry; apply panel_id_of_version; auto|].
    eapply validated_initial_bucket; [done | congruence].
  - split; [done|]. by eapply validated_pipe_bucket.
  - by split.
Qed.

Lemma rt_steps_placed P s s' :
  (forall pp, P pp -> version_plain pp) ->
  rtc (rt_step P) s s' -> Inv s.1 s.2 -> placed P s.1 -> placed P s'.1.
Proof.
  intros Hplain Hs. induction Hs as [|s1 s2 s3 Hs _ IH]; intros Hi Hpl; [done|].
  apply IH; [by eapply rt_step_Inv | by eapply rt_step_placed].
Qed.

Lemma run_ops_placed (P : PatchPanel -> Prop) os s :
  (forall pp, P pp -> version_plain pp) -> (forall pp, Register pp ∈ os -> P pp) ->
  Inv s.1 s.2 -> placed P s.1 -> placed P (run_ops os s).1.
Proof.
  intros Hplain. revert s. induction os as [|o os IH]; intros s Hreg Hi Hpl; [done|].
  apply IH.
  - intros pp ?. apply Hreg. by right.
  - by apply run_op_Inv.
  - eapply rt_steps_placed; [done | | exact Hi | done].
    eapply rtc_subrel; [|by apply run_op_steps].
    intros x y. apply rt_step_mono. intros pp ->. apply Hreg. left.
Qed.
End placed.

(** ** A claim succeeds *)
Section progress.
Context `{OracleLaws} `{NetworkxLaws}.

(** A card waiting in the bucket for a worker, at the reading of the clock. *)
Definition waiting (st : Runtime) (pp : PatchPanel) (bucket : string) (t : Z) (c : Card) : Prop :=
  c ∈ dict_values (_cards st) /\ cd_workflow_version c = workflow_version_id pp /\
  cd_current_bucket c = bucket /\ unleased st (cd_id c) t.

Lemma unleased_later st cid t t' : (t <= t')%Z -> unleased st cid t -> unleased st cid t'.
Proof. intros Ht Hu l Hl Hc Ha. apply (Hu l Hl Hc). by eapply lease_active_mono. Qed.

Lemma claimable_total pp bucket c s :
  Inv s.1 s.2 ->
  wp (claimable pp bucket c) (fun r s' => idle s s' /\ exists b, r = Ok b /\
    (waiting s.1 pp bucket (clock_at (now_ctr s.2)) c -> b = true)) s.
Proof.
  intros Hi. unfold claimable.
  case_bool_decide as Hwv; simpl;
    [|apply wp_ret; split; [apply idle_refl|]; exists false; split; [done | by intros (_ & ? & _)]].
  case_bool_decide as Hbk; simpl;
    [|apply wp_ret; split; [apply idle_refl|]; exists false; split; [done | by intros (_ & _ & ? & _)]].
  destruct s as [st e].
  destruct (has_active_lease_spec st e (cd_id c) Hi) as (b & Hrun & Hb).
  apply wp_bind. unfold wp at 1. rewrite Hrun. simpl. apply wp_ret. split; [split; simpl; [done | split; simpl; lia]|].
  exists (negb b). split; [done|]. intros (_ & _ & _ & Hu). simpl in Hu. apply Hb in Hu. by subst.
Qed.

Lemma next_claimable_total pp bucket l c s :
  Inv s.1 s.2 -> c ∈ l -> waiting s.1 pp bucket (clock_at (now_ctr s.2)) c ->
  wp (nextM (claimable pp bucket) l) (fun r s' => idle s s' /\ exists c', r = Ok (Some c')) s.
Proof.
  revert s. induction l as [|x l IH]; intros s Hi Hc Hw; [by apply elem_of_nil in Hc|].
  cbn [nextM]. apply wp_bind. eapply wp_mono; [by apply claimable_total|].
  intros r s1 ([Hst Hle] & b & -> & Hb). destruct b; [apply wp_ret; split; [done | by eexists]|].
  apply elem_of_cons in Hc as [<-|Hc]; [by specialize (Hb Hw)|].
  eapply wp_mono; [apply IH; try done|].
  - rewrite Hst. by eapply Inv_env.
  - destruct Hw as (? & ? & ? & Hu). rewrite Hst. repeat split; try done.
    eapply unleased_later; [|exact Hu]. apply clock_mono, Hle.
  - intros r s2 [? ?]. split; [by eapply idle_trans | done].
Qed.

(** The input pipe belongs to other panels. *)
Definition skips (pipe : string) (pp : PatchPanel) : Prop :=
  exists msg, resolve_pipe_bucket pp pipe "input" = Raise (InvalidOperationError msg).

(** The panel has no card for the pipe, now or later in the call. *)
Definition no_rival (s : Runtime * Env) (pipe : string) (q : PatchPanel) : Prop :=
  skips pipe q \/
  exists bucket node, resolve_pipe_bucket q pipe "input" = Ok (bucket, node) /\
    forall c n, now_ctr s.2 <= n -> ~ waiting s.1 q bucket (clock_at n) c.

Lemma no_rival_later s s1 pipe q : idle s s1 -> no_rival s pipe q -> no_rival s1 pipe q.
Proof.
  intros [Hst [Hle _]] [Hs|(bucket & node & Hr & Hno)]; [by left|]. right. exists bucket, node.
  split; [done|]. intros c n Hn. rewrite Hst. apply Hno. lia.
Qed.

Lemma claim_match_none pipe q s :
  Inv s.1 s.2 -> no_rival s pipe q ->
  wp (claim_match_in pipe q) (fun r s' => idle s s' /\
    exists m, r = Ok m /\ forall x, m = Some x -> has_card x = false) s.
Proof.
  intros Hi Hno. unfold claim_match_in. destruct Hno as [[msg ->]|(bucket & node & -> & Hno)].
  { apply wp_ret. split; [apply idle_refl|]. by exists None. }
  apply wp_bind, wp_get, wp_bind. eapply wp_mono; [by apply next_claimable|].
  intros r s1 (Hidle & o & -> & Ho). apply wp_ret. split; [done|]. eexists. split; [done|].
  intros x [= <-]. destruct o as [c|]; [|done]. exfalso.
  destruct (Ho c eq_refl) as (Hin & Hwv & Hb & t & (n & Hn & ->) & Hu).
  apply (Hno c n); [lia | done].
Qed.

Lemma claim_matches_none pipe l s :
  Inv s.1 s.2 -> (forall q, q ∈ l -> no_rival s pipe q) ->
  wp (claim_matches pipe l) (fun r s' => idle s s' /\
    exists ms, r = Ok ms /\ py_filter has_card ms = []) s.
Proof.
  revert s. induction l as [|q l IH]; intros s Hi Hno; cbn [claim_matches].
  { apply wp_ret. split; [apply idle_refl|]. by exists []. }
  apply wp_bind. eapply wp_mono; [apply claim_match_none; [done | apply Hno; left]|].
  intros r s1 (Hidle & m & -> & Hm). apply wp_bind. pose proof Hidle as [Hst Hle].
  eapply wp_mono; [apply IH|].
  - rewrite Hst. by eapply Inv_env.
  - intros x Hx. eapply no_rival_later; [done|]. apply Hno. by right.
  - intros r s2 (Hidle2 & ms & -> & Hms). apply wp_ret. split; [by eapply idle_trans|].
    eexists. split; [done|]. destruct m as [x|]; [|done]. cbn. by rewrite (Hm x eq_refl).
Qed.

(** Of all panels, one has a card. *)
Lemma claim_matches_one pipe pre pp post bucket node c s :
  Inv s.1 s.2 -> (forall q, q ∈ pre ++ post -> no_rival s pipe q) ->
  resolve_pipe_bucket pp pipe "input" = Ok (bucket, node) ->
  waiting s.1 pp bucket (clock_at (now_ctr s.2)) c ->
  wp (claim_matches pipe (pre ++ pp :: post)) (fun r s' => idle s s' /\
    exists ms c', r = Ok ms /\ py_filter has_card ms = [(pp, bucket, node, Some c')]) s.
Proof.
  revert s. induction pre as [|q pre IH]; intros s Hi Hs Hres Hw; cbn [app claim_matches]; apply wp_bind.
  - unfold claim_match_in. rewrite Hres. apply wp_bind, wp_get, wp_bind.
    eapply wp_mono; [eapply next_claimable_total; [exact Hi | apply Hw | exact Hw]|].
    intros r s1 (Hidle & c' & ->). pose proof Hidle as [Hst Hle]. apply wp_ret, wp_bind.
    eapply wp_mono; [apply claim_matches_none; [rewrite Hst; by eapply Inv_env|]|].
    { intros x Hx. eapply no_rival_later; [done | by apply Hs]. }
    intros r s2 (Hidle2 & ms & -> & Hms). apply wp_ret. split; [by eapply idle_trans|].
    eexists _, c'. split; [done|]. unfold py_filter in *. cbn. by rewrite Hms.
  - eapply wp_mono; [apply claim_match_none; [done | apply Hs; left]|].
    intros r s1 (Hidle & m & -> & Hm). pose proof Hidle as [Hst Hle]. apply wp_bind.
    eapply wp_mono; [apply IH; try done|].
    + rewrite Hst. by eapply Inv_env.
    + intros x Hx. eapply no_rival_later; [done|]. apply Hs. by right.
    + destruct Hw as (? & ? & ? & Hu). rewrite Hst. repeat split; try done.
      eapply unleased_later; [|exact Hu]. apply clock_mono, Hle.
    + intros r s2 (Hidle2 & ms & c' & -> & Hms). apply wp_ret. split; [by eapply idle_trans|].
      eexists _, c'. split; [done|]. destruct m as [x|]; [|done]. cbn. by rewrite (Hm x eq_refl).
Qed.

Lemma select_match_one pipe ms m : py_filter has_card ms = [m] -> select_match pipe ms = Ok m.
Proof. unfold select_match. destruct ms as [|x ms]; [done|]. by intros ->. Qed.

(** A panel that binds the pipe to no node stops the search. *)
Definition unowned (pipe : string) (q : PatchPanel) : Prop :=
  exists msg, resolve_pipe_bucket q pipe "input" = Raise (NotFoundError msg).

Lemma resolve_outcomes q pipe :
  skips pipe q \/ unowned pipe q \/ exists bn, resolve_pipe_bucket q pipe "input" = Ok bn.
Proof.
  unfold skips, unowned, resolve_pipe_bucket. destruct (dict_get pipe _) as [b|]; [|eauto].
  destruct (_ && _); [eauto|]. unfold mbind, res_bind. destruct (truthy (pb_node b)); [eauto|].
  unfold _find_node_for_pipe. destruct (py_next _ _); eauto.
Qed.

Lemma claim_matches_unowned pipe l q s :
  Inv s.1 s.2 -> q ∈ l -> unowned pipe q ->
  wp (claim_matches pipe l) (fun r s' => idle s s' /\ exists msg, r = Raise (NotFoundError msg)) s.
Proof.
  revert s. induction l as [|x l IH]; intros s Hi Hq Hu; [by apply elem_of_nil in Hq|].
  cbn [claim_matches]. apply wp_bind. unfold claim_match_in.
  destruct (resolve_outcomes x pipe) as [[msg Hx]|[[msg Hx]|[[bucket node] Hx]]]; rewrite Hx.
  - apply elem_of_cons in Hq as [->|Hq]; [by destruct Hu as [m Hm]; rewrite Hm in Hx|]. apply wp_ret, wp_bind.
    eapply wp_mono; [by apply IH|]. intros r s1 (Hidle & m & ->). split; [done | by eexists].
  - apply wp_raise. split; [apply idle_refl | by eexists].
  - apply elem_of_cons in Hq as [->|Hq]; [by destruct Hu as [m Hm]; rewrite Hm in Hx|].
    apply wp_bind, wp_get, wp_bind. eapply wp_mono; [by apply next_claimable|].
    intros r s1 (Hidle & o & -> & _). pose proof Hidle as [Hst Hle]. apply wp_ret, wp_bind.
    eapply wp_mono; [apply IH; [rewrite Hst; by eapply Inv_env | done | done]|].
    intros r s2 (Hidle2 & m & ->). split; [by eapply idle_trans | by eexists].
Qed.

Lemma new_lease_total {St} card node worker pipe secs (s : St * Env) :
  (dt_min <= clock_at (now_ctr s.2) + secs * 1000000 <= dt_max)%Z ->
  wp (new_lease card node worker pipe secs) (fun r _ => is_ok r) s.
Proof.
  intros Hb. unfold new_lease. apply wp_bind, wp_now, wp_bind, wp_lift_res. unfold dt_add_seconds.
  rewrite (proj2 (andb_true_iff _ _)) by (split; apply Z.leb_le; lia). simpl.
  apply wp_bind, wp_uuid4, wp_bind, wp_now, wp_ret. by eexists.
Qed.

Lemma claim_card_total pipe worker secs key pre pp post bucket node c s :
  Inv s.1 s.2 -> cache_miss key s.1 ->
  dict_values (_patch_panels s.1) = pre ++ pp :: post ->
  (forall q, q ∈ pre ++ post -> no_rival s pipe q) ->
  resolve_pipe_bucket pp pipe "input" = Ok (bucket, node) ->
  waiting s.1 pp bucket (clock_at (now_ctr s.2)) c ->
  (forall n, now_ctr s.2 <= n -> (dt_min <= clock_at n + secs * 1000000 <= dt_max)%Z) ->
  wp (claim_card pipe worker secs key) (fun r _ => is_ok r) s.
Proof.
  intros Hi Hmiss Hpan Hskip Hres Hw Hrange. apply wp_with_cached.
  { intros x Hk Ht. by rewrite (Hmiss x Hk) in Ht. }
  intros _. apply wp_bind. unfold _claim_target. apply wp_bind, wp_get, wp_bind. rewrite Hpan.
  eapply wp_mono; [by eapply claim_matches_one|].
  intros r s1 ([Hst Hle] & ms & c' & -> & Hms). apply wp_lift_res. rewrite (select_match_one _ _ _ Hms).
  apply wp_bind.
  eapply wp_mono; [apply new_lease_total, Hrange, Hle|].
  intros r s2 [l ->]. apply wp_bind, wp_modify, wp_bind, wp_new_event. intros ev e' _ _ _.
  do 2 apply wp_bind, wp_modify. apply wp_ret. by eexists.
Qed.

(** ... or none does. *)
Lemma claim_card_unowned pipe worker secs key q s :
  Inv s.1 s.2 -> cache_miss key s.1 -> q ∈ dict_values (_patch_panels s.1) -> unowned pipe q ->
  wp (claim_card pipe worker secs key) (fun r s' => s'.1 = s.1 /\ exists msg, r = Raise (NotFoundError msg)) s.
Proof.
  intros Hi Hmiss Hq Hu. apply wp_with_cached.
  { intros x Hk Ht. by rewrite (Hmiss x Hk) in Ht. }
  intros _. apply wp_bind. unfold _claim_target. apply wp_bind, wp_get, wp_bind.
  eapply wp_mono; [by eapply claim_matches_unowned|]. intros r s1 ([Hst _] & m & ->). split; [done | by eexists].
Qed.
End progress.
