(* ===== verification/MemoryTheorems.v ===== *)
(** * What the in-memory runtime guarantees

    The properties of [InMemoryCardRuntime] in every reachable state, each
    with an evaluated instance on the [work] panel. *)
From Stdlib Require Import ZArith Ascii String.
From S2P Require Import Prelude Values Authority Models Graph PanelValidator SystemPanels Artifacts.
From S2P Require Import RuntimeService MemoryRuntime MemorySpec MemoryInvariant MemoryRefine.
From S2P Require Import MemorySubmit MemoryReplay MemoryProgress.
Open Scope string_scope.
Open Scope list_scope.

(** ** A run on the [work] panel *)
Module Demo.
#[local] Existing Instance tick_oracle.
#[local] Existing Instance ListGraph.networkx.

(** The clock of the run starts a million seconds after the epoch ticks; the
    generator counts from 0, so the card is 0 and its lease 2. *)
Definition report (card_id : UUID) : ArtifactReference :=
  mkArtifact 77 card_id None "file:///r" "sha256:00" "text/plain" 4 [("role", VStr "report")]
    (Aware 0).

Definition created : list op := [Register work_panel; CreateCard "work" [] None (Some "k1")].
Definition leased : list op := created ++ [ClaimCard "take" "w1" 3600 None].
Definition submitted : list op := leased ++ [SubmitArtifact 2 "made" [report 0] (Some "k2")].

Definition after (os : list op) : Runtime * Env := run_ops os start.
End Demo.

Section guarantees.
Context `{OracleLaws} `{NetworkxLaws}.

Lemma reachable_run_ops os s : reachable s -> reachable (run_ops os s).
Proof. revert s. induction os as [|o os IH]; intros s Hs; [done|]. by apply IH, reach_op. Qed.

(** C1. Every operation of the runtime refines the specification [rt_step]:
    run in any reachable state it performs zero or more specified steps
    (registering no panel but its own argument), and an operation that
    raises has left the panels, cards, leases, artifacts, events and
    idempotency keys as they were. *)
Theorem operations_refine_spec o s :
  reachable s ->
  rtc (rt_step (registers o)) s (run_op o s).2 /\
  (forall x, (run_op o s).1 = Raise x -> (run_op o s).2.1 = s.1).
Proof. intros Hr. exact (run_op_refines o s (reachable_Inv s Hr)). Qed.

(** C2. Mutual exclusion: in every reachable state, at no instant that the
    clock has reached are two leases of one card active. *)
Theorem one_active_lease_per_card s t l1 l2 :
  reachable s -> time_reached s.2 t ->
  l1 ∈ dict_values (_leases s.1) -> l2 ∈ dict_values (_leases s.1) ->
  ls_card_id l1 = ls_card_id l2 -> lease_active_at l1 t -> lease_active_at l2 t ->
  l1 = l2.
Proof.
  intros Hr Ht Hl1 Hl2 Hc A1 A2. pose proof (reachable_Inv s Hr) as Hi.
  destruct (leases_by_id _ _ Hi) as (_ & Hget & _).
  pose proof (inv_exclusive _ _ Hi t l1 l2 Ht Hl1 Hl2 Hc A1 A2) as Hid.
  pose proof (Hget l1 Hl1) as G1. rewrite Hid, (Hget l2 Hl2) in G1. congruence.
Qed.

(** C3. Idempotent replay: once an operation has answered under an
    idempotency key, the same call answers the same after any further
    operations, and changes nothing (not even the clock is read). The one
    exception in the code is releasing a lease that is already released. *)
Theorem replay_answers_again o os s a s1 :
  reachable s -> run_op o s = (Ok a, s1) ->
  truthy (op_key o) = true -> ~ releases_again o s.1 ->
  run_op o (run_ops os s1) = (Ok a, run_ops os s1).
Proof.
  intros Hr Hrun Hk Hn. pose proof (run_op_Inv o s (reachable_Inv s Hr)) as Hi.
  pose proof (run_op_stores o s Hk Hn) as Hst. unfold wp in Hst. rewrite Hrun in Hst, Hi.
  destruct (Hst a eq_refl) as (c & Hc & Ht & Ha). simpl in *.
  pose proof (grow_keys _ _ (run_ops_grows os s1 Hi) _ _ Hc Ht) as Hk2.
  by rewrite (run_op_hit o _ c Hk2 Ht), Ha.
Qed.

(** C4. A claim that is not a replay answers only with a new, unreleased
    lease for a card that waits in the bucket of the input pipe and that no
    lease held, in the name of the worker, which expires [lease_seconds]
    after an instant of the call; the lease is stored and no card changes.
    It succeeds when one registered panel has work for the pipe: the panel
    resolves the pipe, a card of it waits in the bucket without an active
    lease, every other registered panel either does not bind the pipe for
    input or has no such card, now or when leases have expired, and the
    expiry is a representable date. But a
    registered panel that binds the pipe to no node (the binding names no node
    and no other direction, and no node lists the pipe as an input) makes
    every claim on that pipe that is not a replay raise [NotFoundError],
    whatever cards wait in the other panels. *)
Theorem claim_card_correct pipe worker secs key s :
  reachable s -> cache_miss key s.1 ->
  (forall l s', claim_card pipe worker secs key s = (Ok l, s') -> claimed s pipe worker secs s' l) /\
  (forall pre pp post bucket node c,
     dict_values (_patch_panels s.1) = pre ++ pp :: post ->
     (forall q, q ∈ pre ++ post -> no_rival s pipe q) ->
     resolve_pipe_bucket pp pipe "input" = Ok (bucket, node) ->
     waiting s.1 pp bucket (clock_at (now_ctr s.2)) c ->
     (forall n, now_ctr s.2 <= n -> (dt_min <= clock_at n + secs * 1000000 <= dt_max)%Z) ->
     is_ok (claim_card pipe worker secs key s).1) /\
  (forall q, q ∈ dict_values (_patch_panels s.1) -> unowned pipe q ->
     (claim_card pipe worker secs key s).2.1 = s.1 /\
     exists msg, (claim_card pipe worker secs key s).1 = Raise (NotFoundError msg)).
Proof.
  intros Hr Hm. pose proof (reachable_Inv s Hr) as Hi. split; [|split].
  - intros l s' Hrun.
    destruct (claim_card_spec (fun _ => True) pipe worker secs key s Hi) as [_ Hc].
    rewrite Hrun in Hc. by apply Hc.
  - intros. by eapply claim_card_total.
  - intros q Hq Hu. exact (claim_card_unowned pipe worker secs key q s Hi Hm Hq Hu).
Qed.

(** C5. A submission that is not a replay is accepted exactly under the
    conditions [accepts] (active lease, known card and panel, the output
    pipe of the lease's own node, references of this card, the acceptance
    contract of the destination bucket); it then answers the references
    stamped with the event, moves the card to the bucket of the pipe,
    releases the lease, appends one [artifact_submitted] event and stores
    every reference under its id. *)
Theorem submit_artifact_exact lid pipe refs key s :
  reachable s -> cache_miss key s.1 ->
  let run := submit_artifact lid pipe refs key s in
  let t := clock_at (now_ctr s.2) in
  (is_ok run.1 <-> exists lease card pp bucket, accepts s.1 t lid pipe refs lease card pp bucket) /\
  (forall lease card pp bucket, accepts s.1 t lid pipe refs lease card pp bucket ->
    exists ev released_at,
      let stored := map (artifact_with_event (cd_id card) (ev_id ev)) refs in
      run.1 = Ok stored /\
      event_at s.2 run.2.2 (cd_id card) "artifact_submitted" (Some (ls_worker_id lease)) ev /\
      run.2.1 = submitted_state s.1 lease card bucket released_at stored ev key /\
      dict_get (cd_id card) (_cards run.2.1) = Some (card_with_bucket bucket card) /\
      dict_get lid (_leases run.2.1) = Some (lease_with_released released_at lease) /\
      history_of (cd_id card) run.2.1 = history_of (cd_id card) s.1 ++ [ev] /\
      (NoDup (map ar_id refs) -> forall r, r ∈ stored ->
         dict_get (ar_id r) (_artifacts run.2.1) = Some r)).
Proof.
  intros Hr Hm run t.
  assert (Hacc : forall lease card pp bucket, accepts s.1 t lid pipe refs lease card pp bucket -> _)
    by (intros; eapply submit_accepted; eassumption).
  pose proof (submit_only_accepted lid pipe refs key s Hm) as Honly.
  unfold wp in Hacc, Honly. fold run t in Hacc, Honly. split; [split|].
  - intros [a Ha]. by eapply Honly.
  - intros (l & c & pp & b & Ha). destruct (Hacc l c pp b Ha) as (? & ? & -> & _). by eexists.
  - intros l c pp b Ha. destruct (Hacc l c pp b Ha) as (ev & rel & Hres & Hev & Hst).
    exists ev, rel. cbv zeta. rewrite Hst. unfold submitted_state.
    destruct (inv_lease _ _ (reachable_Inv s Hr) _ _ (acc_lease _ _ _ _ _ _ _ _ _ Ha)) as [<- _].
    split; [done|]. split; [done|]. split; [done|].
    split; [autorewrite with rt; simpl; apply dict_get_set_eq|].
    split; [autorewrite with rt; simpl; apply dict_get_set_eq|].
    split.
    + rewrite history_put_key, history_put_event. destruct Hev as [-> _].
      by rewrite decide_True.
    + intros Hnd r Hin. autorewrite with rt. apply put_artifacts_get; [|done].
      by rewrite map_map.
Qed.

(** C6. The history of a card is append-only: whatever operations run, what
    it held stays its beginning; and it starts with [card_created] and holds
    events of that card only. *)
Theorem history_append_only os s cid c :
  reachable s -> dict_get cid (_cards s.1) = Some c ->
  history_of cid s.1 `prefix_of` history_of cid (run_ops os s).1 /\
  (exists ev rest, history_of cid s.1 = ev :: rest /\ ev_event_type ev = "card_created") /\
  (forall ev, ev ∈ history_of cid s.1 -> ev_card_id ev = cid).
Proof.
  intros Hr Hc. pose proof (reachable_Inv s Hr) as Hi. split; [|split].
  - apply grow_history. by apply run_ops_grows.
  - apply (inv_created _ _ Hi). by eapply dict_get_key.
  - intros ev Hev. by apply (inv_history _ _ Hi).
Qed.

(** C7. A lease keeps its identifier, card, node, worker, pipe and claim time
    for ever: whatever operations run, only its expiry and its release change.
    And a release is final: a released lease is exactly as it was after any
    operations, and neither [renew_lease] nor [submit_artifact] accepts it any
    more, unless the call repeats an idempotency key and so answers what was
    stored under it. *)
Theorem release_is_final os s lid l :
  reachable s -> dict_get lid (_leases s.1) = Some l ->
  let s' := run_ops os s in
  exists l', dict_get lid (_leases s'.1) = Some l' /\ lease_core l' = lease_core l /\
    (ls_released_at l <> None -> l' = l /\ forall secs pipe refs key, cache_miss key s'.1 ->
       renew_lease lid secs key s' =
         (Raise (ConflictError ("lease '" +:+ uuid_str lid +:+ "' has already been released")), s') /\
       submit_artifact lid pipe refs key s' =
         (Raise (ConflictError ("lease '" +:+ uuid_str lid +:+ "' has already been released")), s')).
Proof.
  intros Hr Hl s'. pose proof (reachable_Inv s Hr) as Hi.
  destruct (grow_leases _ _ (run_ops_grows os s Hi) lid l Hl) as (l' & Hl' & Hev). fold s' in Hl'.
  exists l'. split; [done|]. split; [by apply lease_evolves_core|]. intros Hrel.
  destruct Hev as (_ & _ & _ & _ & _ & _ & Hsame). rewrite (Hsame Hrel) in Hl'. split; [auto|].
  intros secs pipe refs key Hm. destruct (inv_lease _ _ Hi _ _ Hl) as [Hid _].
  destruct (ls_released_at l) eqn:Er; [|done].
  unfold renew_lease, submit_artifact. rewrite !with_cached_miss by done.
  unfold _get_lease, ensure_active_lease, mbind, M_bind, get. simpl. rewrite Hl'. simpl. rewrite Er, Hid. done.
Qed.

(** C8. After [expire_leases] no unreleased lease is overdue: the call
    answers the leases it released, each released at the instant of the call,
    leaves every other lease as it was, and never raises. *)
Theorem expire_leases_correct s :
  reachable s ->
  let t := clock_at (now_ctr s.2) in
  let s' := (expire_leases s).2 in
  (expire_leases s).1 = Ok (map (lease_with_released (Aware t))
                             (py_filter (expiredb t) (dict_values (_leases s.1)))) /\
  (forall k, dict_get k (_leases s'.1) = expired_lease t <$> dict_get k (_leases s.1)) /\
  (forall l, l ∈ dict_values (_leases s'.1) -> expiredb t l = false).
Proof.
  intros Hr t s'. pose proof (reachable_Inv s Hr) as Hi.
  destruct (expire_leases_spec (fun _ => True) s Hi) as (Hsteps & Hres & Hget).
  fold t s' in Hres, Hget, Hsteps. split; [done|]. split; [done|].
  intros l Hl. pose proof (rt_steps_Inv _ _ _ Hsteps Hi) as Hi'.
  apply dict_value_get in Hl as [k Hk]; [|apply Hi']. rewrite Hget in Hk.
  destruct (dict_get k (_leases s.1)) as [l0|]; [|done]. simpl in Hk. injection Hk as <-.
  unfold expired_lease. destruct (expiredb t l0) eqn:E; [|done].
  by unfold expiredb, lease_with_released.
Qed.

(** C9. Every card is in its place: however the runtime is driven, as long
    as the registered versions hold no [:], the bucket of every card is a
    declared bucket of a validated registration of the card's own panel. *)
Theorem cards_stay_in_declared_buckets os cid c :
  (forall pp, Register pp ∈ os -> version_plain pp) ->
  dict_get cid (_cards (run_ops os start).1) = Some c ->
  exists pp, Register pp ∈ os /\ is_ok (validate pp) /\ pp_id pp = card_panel_id c /\
    cd_current_bucket c ∈ bucket_ids pp.
Proof.
  intros Hp Hc.
  destruct (run_ops_placed (fun pp => Register pp ∈ os) os start) as [_ Hpl]; auto.
  - apply Inv_start.
  - split; intros ? ? ?; done.
  - destruct (Hpl _ _ Hc) as (pp & ?). by exists pp.
Qed.
End guarantees.

(** [workflow_version.rsplit(":", 1)[0]] recovers the id of the panel a
    card was created in exactly when the version has no [:]. *)
Lemma card_panel_id_correct pp c :
  cd_workflow_version c = workflow_version_id pp ->
  card_panel_id c = pp_id pp <-> version_plain pp.
Proof.
  intros Hc. split; [|by intros ?; apply panel_id_of_version].
  unfold card_panel_id, version_plain. rewrite Hc. unfold workflow_version_id.
  change (":" +:+ pp_version pp) with (String ":" (pp_version pp)).
  assert (Hlast : forall sep a v x y, split_last sep v = (x, Some y) ->
            split_last sep (a +:+ String sep v) = (a +:+ String sep x, Some y)).
  { intros sep a v x y Hv. induction a as [|ch a IH]; simpl; [by rewrite Hv | by rewrite IH]. }
  destruct (split_last ":" (pp_version pp)) as [x [y|]] eqn:E; [|done].
  rewrite (Hlast _ _ _ _ _ E). simpl. intros Hbad. exfalso.
  assert (Hlen : forall a b, String.length (a +:+ String ":" b) <> String.length a).
  { intros a b. induction a; simpl; lia. }
  by apply (Hlen (pp_id pp) x); rewrite Hbad.
Qed.

(** ** Evaluated instances *)
#[local] Existing Instance tick_oracle.
#[local] Existing Instance tick_oracle_laws.
#[local] Existing Instance ListGraph.networkx.
#[local] Existing Instance ListGraph.networkx_laws.
Import Demo.

Lemma after_reachable os : reachable (after os).
Proof. apply reachable_run_ops, reach_start. Qed.

Lemma operations_refine_spec_witness :
  rtc (rt_step (registers (Register work_panel))) start (run_op (Register work_panel) start).2 /\
  (exists x, (run_op (ClaimCard "nowhere" "w" 60 None) (after created)).1 = Raise x /\
     (run_op (ClaimCard "nowhere" "w" 60 None) (after created)).2.1 = (after created).1).
Proof.
  split; [apply (operations_refine_spec (Register work_panel) start), reach_start|].
  eexists. split; [vm_compute; reflexivity|].
  eapply (operations_refine_spec (ClaimCard "nowhere" "w" 60 None) (after created));
    [apply after_reachable | vm_compute; reflexivity].
Defined.

Definition demo_lease : Lease :=
  mkLease 2 0 "maker" "w1" "take" (Aware 4000000) (Aware 3603000000) None.

Lemma demo_lease_active : demo_lease ∈ dict_values (_leases (after leased).1) /\
  time_reached (after leased).2 6000000 /\ lease_active_at demo_lease 6000000.
Proof.
  split; [vm_compute; left|]. split; [|split; [done|]; exists 3603000000%Z; done].
  intros n Hn. change (now_ctr (after leased).2) with 6%nat in Hn. simpl. lia.
Qed.

Lemma one_active_lease_per_card_witness :
  lease_active_at demo_lease 6000000 /\ demo_lease = demo_lease.
Proof.
  destruct demo_lease_active as (Hin & Ht & Ha). split; [done|].
  by apply (one_active_lease_per_card (after leased) 6000000); [apply after_reachable|..].
Defined.

Definition create_again : op := CreateCard "work" [("other", VNone)] None (Some "k1").

Lemma replay_answers_again_witness :
  let first := run_op create_again (after [Register work_panel]) in
  exists a, first.1 = Ok a /\
    run_op create_again (run_ops [ClaimCard "take" "w1" 3600 None] first.2)
      = (Ok a, run_ops [ClaimCard "take" "w1" 3600 None] first.2).
Proof.
  eexists. split; [vm_compute; reflexivity|].
  apply (replay_answers_again create_again [ClaimCard "take" "w1" 3600 None]
           (after [Register work_panel])).
  - apply after_reachable.
  - vm_compute. reflexivity.
  - reflexivity.
  - intros (? & ? & ? & ? & ? & _). discriminate.
Defined.

Definition demo_card : Card := mkCard 0 "work:1" "todo" [] [] (Aware 0).

(** An oracle whose clock stands still, so that no expiry overflows. *)
Definition still_oracle : Oracle := {|
  clock_at _ := 0%Z; uuid_at n := N.of_nat n; isoformat _ := "" |}.

Lemma still_oracle_laws : @OracleLaws still_oracle.
Proof. split; simpl; intros; lia. Qed.

(** A validated panel whose output pipe is also called [take], bound to a
    bucket and to no node. *)
Definition press_panel : PatchPanel :=
  mkPatchPanel "press" "1" None
    [simple_bucket "raw" "Raw."; simple_bucket "sheets" "Pressed."]
    [source_node "feed" ["fed"]; mkNode "press" NT_WORKER None None ["press_in"] ["take"] None [];
     sink_node "stack" ["stacked"] []]
    [simple_edge "feed" "press" "card_created"; simple_edge "press" "stack" "take"]
    [("fed", output_binding "feed" "raw"); ("press_in", input_binding "press" "raw");
     ("take", mkBinding "sheets" None None); ("stacked", input_binding "stack" "sheets")] [] [].

Definition beside_press : list op := created ++ [Register press_panel].

Lemma press_registered :
  press_panel ∈ dict_values (_patch_panels (after beside_press).1) /\ unowned "take" press_panel.
Proof. split; [vm_compute; right; left | by eexists]. Qed.

Lemma claim_card_correct_witness :
  (exists s', claim_card "take" "w1" 3600 None (after created) = (Ok demo_lease, s') /\
     claimed (after created) "take" "w1" 3600 s' demo_lease) /\
  is_ok (@claim_card still_oracle "take" "w1" 3600 None
           (@run_ops still_oracle ListGraph.networkx created start)).1 /\
  exists msg, (claim_card "take" "w1" 3600 None (after beside_press)).1 = Raise (NotFoundError msg).
Proof.
  split; [|split].
  - eexists. split; [vm_compute; reflexivity|].
    apply (claim_card_correct "take" "w1" 3600 None (after created));
      [apply after_reachable | intros c; discriminate | vm_compute; reflexivity].
  - apply (@claim_card_correct still_oracle still_oracle_laws ListGraph.networkx
           ListGraph.networkx_laws "take" "w1" 3600 None
           (@run_ops still_oracle ListGraph.networkx created start)
           (@reachable_run_ops still_oracle ListGraph.networkx created start
              (@reach_start still_oracle ListGraph.networkx))
           (fun c H => match H with eq_refl => I end)) with
      (pre := []) (pp := work_panel) (post := []) (bucket := "todo") (node := "maker") (c := demo_card).
    + vm_compute. reflexivity.
    + intros q Hq. by apply elem_of_nil in Hq.
    + vm_compute. reflexivity.
    + split; [vm_compute; left|]. split; [reflexivity|]. split; [reflexivity|].
      intros l Hl. vm_compute in Hl. by apply elem_of_nil in Hl.
    + intros n _. simpl. unfold dt_min, dt_max. lia.
  - apply (claim_card_correct "take" "w1" 3600 None (after beside_press)) with (q := press_panel);
      [apply after_reachable | intros c; discriminate | apply press_registered | apply press_registered].
Defined.

Lemma submit_artifact_exact_witness :
  accepts (after leased).1 (clock_at (now_ctr (after leased).2)) 2 "made" [report 0]
    demo_lease demo_card work_panel "done" /\
  is_ok (submit_artifact 2 "made" [report 0] (Some "k2") (after leased)).1.
Proof.
  assert (Ha : accepts (after leased).1 (clock_at (now_ctr (after leased).2)) 2 "made" [report 0]
                 demo_lease demo_card work_panel "done").
  { constructor; try (vm_compute; reflexivity); [| done |].
    - split; [done|]. exists 3603000000%Z. split; [done | vm_compute; reflexivity].
    - intros r Hr. apply list_elem_of_singleton in Hr as ->. done. }
  split; [exact Ha|].
  apply (submit_artifact_exact 2 "made" [report 0] (Some "k2") (after leased)).
  - apply after_reachable.
  - intros c Hc. vm_compute in Hc. discriminate.
  - by exists demo_lease, demo_card, work_panel, "done".
Defined.

Lemma history_append_only_witness :
  exists c, dict_get 0%N (_cards (after created).1) = Some c /\
    history_of 0 (after created).1 `prefix_of`
      history_of 0 (run_ops [ClaimCard "take" "w1" 3600 None] (after created)).1.
Proof.
  eexists. split; [vm_compute; reflexivity|].
  eapply (history_append_only [ClaimCard "take" "w1" 3600 None] (after created) 0);
    [apply after_reachable | vm_compute; reflexivity].
Defined.

Lemma release_is_final_witness :
  exists l, dict_get 2%N (_leases (after submitted).1) = Some l /\ ls_released_at l <> None /\
    dict_get 2%N (_leases (run_ops [ExpireLeases] (after submitted)).1) = Some l.
Proof.
  assert (Hl : exists l, dict_get 2%N (_leases (after submitted).1) = Some l /\ ls_released_at l <> None)
    by (eexists; split; [vm_compute; reflexivity | discriminate]).
  destruct Hl as (l & Hl & Hrel). exists l. split; [exact Hl|]. split; [exact Hrel|].
  destruct (release_is_final [ExpireLeases] (after submitted) 2 l (after_reachable submitted) Hl)
    as (l' & Hl' & _ & Hsame).
  rewrite (proj1 (Hsame Hrel)) in Hl'. exact Hl'.
Defined.

(** A lease of one second has run out three readings later. *)
Definition overdue : list op := created ++ [ClaimCard "take" "w1" 1 None; RecordEvent 0 "note" None None None].

Lemma expire_leases_correct_witness :
  exists l, (expire_leases (after overdue)).1 = Ok [l] /\
    (forall x, x ∈ dict_values (_leases (expire_leases (after overdue)).2.1) ->
       expiredb (clock_at (now_ctr (after overdue).2)) x = false).
Proof.
  eexists. split; [vm_compute; reflexivity|].
  apply (expire_leases_correct (after overdue)), after_reachable.
Defined.

Lemma cards_stay_in_declared_buckets_witness :
  exists c pp, dict_get 0%N (_cards (run_ops submitted start).1) = Some c /\
    Register pp ∈ submitted /\ is_ok (validate pp) /\ pp_id pp = card_panel_id c /\
    cd_current_bucket c ∈ bucket_ids pp.
Proof.
  assert (Hp : forall pp, Register pp ∈ submitted -> version_plain pp).
  { intros pp Hin. unfold submitted, leased, created in Hin.
    repeat (apply elem_of_cons in Hin as [Heq|Hin]; [first [discriminate | by injection Heq as ->]|]).
    by apply elem_of_nil in Hin. }
  assert (Hc : exists c, dict_get 0%N (_cards (run_ops submitted start).1) = Some c)
    by (eexists; vm_compute; reflexivity).
  destruct Hc as [c Hc]. exists c.
  destruct (cards_stay_in_declared_buckets submitted 0 c Hp Hc) as (pp & Hpp). exists pp.
  split; [exact Hc | exact Hpp].
Defined.

