(* ===== verification/Auth.v ===== *)
(** * Authorization ([auth/scopes.py], [auth/repositories.py], [auth/service.py])

    [AuthorizationRepository] is the protocol of the repositories, with
    [RepositorySpec] as what a repository promises in terms of an abstract
    state; [InMemoryAuthorizationRepository] is an instance of both.
    [AuthorizationService] is written against the protocol. *)
From Stdlib Require Import ZArith Ascii String.
From S2P Require Import Prelude Values Authority.
Open Scope string_scope.
Open Scope list_scope.

(** ** Scopes *)
Definition id_in_context (grant_scope : Scope) (key : string) (context : doc) : bool :=
  match scope_id grant_scope with
  | Some i => v_eq_str (vget key context) i
  | None => false
  end.

Definition scope_matches (grant_scope target_scope : Scope) (context : option doc) : bool :=
  let context := default [] context in
  if bool_decide (scope_type grant_scope = ST_GLOBAL) ||
     bool_decide (scope_type grant_scope = ST_DEVELOPMENT_GLOBAL) then true
  else if bool_decide (scope_type grant_scope = scope_type target_scope) &&
          bool_decide (scope_id grant_scope = scope_id target_scope) then true
  else if bool_decide (scope_type grant_scope = ST_WORKFLOW) then
    id_in_context grant_scope "workflow_id" context
  else if bool_decide (scope_type grant_scope = ST_PATCH_PANEL) then
    if bool_decide (scope_type target_scope = ST_VERSION)
    then id_in_context grant_scope "patch_panel_id" context
    else id_in_context grant_scope "patch_panel_id" context
  else false.

(** ** The protocol *)
Class AuthorizationRepository (R : Type) : Type := {
  ar_get_participant (participant_id : string) : M R (option Participant);
  ar_list_participants : M R (list Participant);
  ar_upsert_participant (participant : Participant) : M R ();
  ar_add_role_assignment (assignment : RoleAssignment) : M R ();
  ar_list_role_assignments (participant_id : string) : M R (list RoleAssignment);
  ar_add_permission_grant (grant : PermissionGrant) : M R ();
  ar_list_permission_grants (participant_id : string) : M R (list PermissionGrant);
  ar_record_audit_event (event : AuthorizationAuditEvent) : M R ();
}.

(** ** The in-memory repository *)
Record AuthState : Type := mkAuthState {
  participants : list (string * Participant);
  role_assignments : list RoleAssignment;
  permission_grants : list PermissionGrant;
  audit_events : list AuthorizationAuditEvent;
}.

(** The constructor; the code calls it without arguments. *)
Definition new_auth_state (ps : list Participant) (assignments : list RoleAssignment)
    (grants : list PermissionGrant) : AuthState :=
  mkAuthState (dict_of_list (map (fun p => (part_id p, p)) ps)) assignments grants [].

Definition with_participant (p : Participant) (st : AuthState) : AuthState :=
  mkAuthState (dict_set (part_id p) p (participants st)) (role_assignments st)
    (permission_grants st) (audit_events st).
Definition with_assignment (a : RoleAssignment) (st : AuthState) : AuthState :=
  mkAuthState (participants st) (role_assignments st ++ [a]) (permission_grants st)
    (audit_events st).
Definition with_grant (g : PermissionGrant) (st : AuthState) : AuthState :=
  mkAuthState (participants st) (role_assignments st) (permission_grants st ++ [g])
    (audit_events st).
Definition with_audit (ev : AuthorizationAuditEvent) (st : AuthState) : AuthState :=
  mkAuthState (participants st) (role_assignments st) (permission_grants st)
    (audit_events st ++ [ev]).

(** [assignment.participant_id == participant_id and assignment.is_active(now)]. *)
Definition assigned (participant_id : string) (t : datetime) (a : RoleAssignment) : res bool :=
  if bool_decide (ra_participant_id a = participant_id) then assignment_is_active a t
  else Ok false.

Definition role_in (r : option string) (role_ids : list string) : bool :=
  match r with Some i => str_in i role_ids | None => false end.

(** [grant.is_active(now) and (grant.participant_id == participant_id or
    grant.role_id in role_ids)]. *)
Definition granted (participant_id : string) (role_ids : list string) (t : datetime)
    (g : PermissionGrant) : res bool :=
  active ← grant_is_active g t;
  Ok (active && (bool_decide (pg_participant_id g = Some participant_id)
                 || role_in (pg_role_id g) role_ids)).

Definition active_assignments (participant_id : string) (t : datetime) (st : AuthState) :
    res (list RoleAssignment) :=
  filter_res (assigned participant_id t) (role_assignments st).

Definition active_grants (participant_id : string) (t : datetime) (st : AuthState) :
    res (list PermissionGrant) :=
  assignments ← active_assignments participant_id t st;
  filter_res (granted participant_id (map ra_role_id assignments) t) (permission_grants st).

Section repository.
Context `{Oracle}.

Definition get_participant (participant_id : string) : M AuthState (option Participant) :=
  st ← get; mret (dict_get participant_id (participants st)).
Definition list_participants : M AuthState (list Participant) :=
  st ← get; mret (dict_values (participants st)).
Definition upsert_participant (p : Participant) : M AuthState () := modify (with_participant p).
Definition add_role_assignment (a : RoleAssignment) : M AuthState () :=
  modify (with_assignment a).
Definition list_role_assignments (participant_id : string) : M AuthState (list RoleAssignment) :=
  t ← now; st ← get; lift_res (active_assignments participant_id t st).
Definition add_permission_grant (g : PermissionGrant) : M AuthState () := modify (with_grant g).
Definition list_permission_grants (participant_id : string) : M AuthState (list PermissionGrant) :=
  t ← now; st ← get; lift_res (active_grants participant_id t st).
Definition record_audit_event (ev : AuthorizationAuditEvent) : M AuthState () :=
  modify (with_audit ev).

#[export] Instance in_memory_repository : AuthorizationRepository AuthState := {|
  ar_get_participant := get_participant;
  ar_list_participants := list_participants;
  ar_upsert_participant := upsert_participant;
  ar_add_role_assignment := add_role_assignment;
  ar_list_role_assignments := list_role_assignments;
  ar_add_permission_grant := add_permission_grant;
  ar_list_permission_grants := list_permission_grants;
  ar_record_audit_event := record_audit_event;
|}.
End repository.

(** ** The service *)
Section service.
Context `{Oracle} {R : Type} `{AuthorizationRepository R}.

Definition new_decision (participant_id : string) (permission : PermissionName) (scope : Scope)
    (allowed : bool) (reason : string) (matched_grant_ids : list UUID) (metadata : doc) :
    M R AuthorizationDecision :=
  i ← uuid4; t ← now;
  mret (mkDecision i participant_id permission scope allowed reason t matched_grant_ids metadata).

Definition _record (decision : AuthorizationDecision) : M R AuthorizationDecision :=
  ev ← from_decision decision None None;
  _ ← ar_record_audit_event ev;
  mret decision.

Definition grant_matches (permission : PermissionName) (scope : Scope) (context : option doc)
    (g : PermissionGrant) : bool :=
  bool_decide (pg_permission g = permission) && scope_matches (pg_scope g) scope context.

Definition authorize (participant_id : string) (permission : PermissionName) (scope : Scope)
    (context : option doc) : M R AuthorizationDecision :=
  let decide_as allowed reason ids :=
    d ← new_decision participant_id permission scope allowed reason ids (default [] context);
    _record d in
  participant ← ar_get_participant participant_id;
  match participant with
  | None => decide_as false "participant not found" []
  | Some p =>
      if negb (bool_decide (part_status p = PS_ACTIVE))
      then decide_as false ("participant is " +:+ ParticipantStatus_value (part_status p)) []
      else
        grants ← ar_list_permission_grants participant_id;
        match py_filter (grant_matches permission scope context) grants with
        | [] => decide_as false "no matching permission grant" []
        | matched => decide_as true "matched explicit permission grant" (map pg_id matched)
        end
  end.

(** [AuthorizationService.record_event]. *)
Definition record_event (action : AuditAction) (participant_id : option string)
    (permission : option PermissionName) (scope : option Scope) (allowed : option bool)
    (reason request_ref target_ref : option string) (metadata : option doc) :
    M R AuthorizationAuditEvent :=
  i ← uuid4; t ← now;
  let ev := mkAuditEvent i action participant_id permission scope allowed reason request_ref
              target_ref (default [] metadata) t in
  _ ← ar_record_audit_event ev;
  mret ev.

(** [authorize_request] ([auth/dependencies.py]): what the request carries is
    [header] (the [X-Ghostmesh-Participant] header) and the participant the
    caller names; [enabled] is [app.state.authorization_enabled]. *)
Definition authorize_request (enabled : bool) (header : option string)
    (permission : PermissionName) (scope : Scope) (context : option doc)
    (participant_id : option string) : M R (option string) :=
  if negb enabled then mret participant_id
  else
    let resolved := opt_or header participant_id in
    if negb (truthy resolved)
    then raise (HTTPException 403 "missing Ghost Mesh participant")
    else
      decision ← authorize (str_or resolved "") permission scope (Some (default [] context));
      if negb (dec_allowed decision) then raise (HTTPException 403 (dec_reason decision))
      else mret resolved.
End service.

(** ** What a repository promises

    [auth_view] is the abstract state of a repository: the in-memory one. *)
Class RepositorySpec (R : Type) `{Oracle} `{AuthorizationRepository R} : Type := {
  auth_view : R -> AuthState;
  get_participant_spec pid (s : R * Env) :
    wp (ar_get_participant pid) (fun r s' =>
      r = Ok (dict_get pid (participants (auth_view s.1))) /\ s' = s) s;
  upsert_participant_spec p (s : R * Env) :
    wp (ar_upsert_participant p) (fun r s' =>
      r = Ok tt /\ auth_view s'.1 = with_participant p (auth_view s.1) /\ s'.2 = s.2) s;
  add_role_assignment_spec a (s : R * Env) :
    wp (ar_add_role_assignment a) (fun r s' =>
      r = Ok tt /\ auth_view s'.1 = with_assignment a (auth_view s.1) /\ s'.2 = s.2) s;
  add_permission_grant_spec g (s : R * Env) :
    wp (ar_add_permission_grant g) (fun r s' =>
      r = Ok tt /\ auth_view s'.1 = with_grant g (auth_view s.1) /\ s'.2 = s.2) s;
  list_role_assignments_spec pid (s : R * Env) :
    wp (ar_list_role_assignments pid) (fun r s' =>
      r = active_assignments pid (Aware (clock_at (now_ctr s.2))) (auth_view s.1) /\
      auth_view s'.1 = auth_view s.1 /\ s'.2 = mkEnv (S (now_ctr s.2)) (uuid_ctr s.2)) s;
  list_permission_grants_spec pid (s : R * Env) :
    wp (ar_list_permission_grants pid) (fun r s' =>
      r = active_grants pid (Aware (clock_at (now_ctr s.2))) (auth_view s.1) /\
      auth_view s'.1 = auth_view s.1 /\ s'.2 = mkEnv (S (now_ctr s.2)) (uuid_ctr s.2)) s;
  record_audit_event_spec ev (s : R * Env) :
    wp (ar_record_audit_event ev) (fun r s' =>
      r = Ok tt /\ auth_view s'.1 = with_audit ev (auth_view s.1) /\ s'.2 = s.2) s;
}.

#[export] Instance in_memory_spec `{Oracle} : RepositorySpec AuthState.
Proof. refine {| auth_view := id |}; by intros. Defined.

(** ** Entitlement, declaratively *)

(** Not revoked, and not expired at [t]. *)
Definition live (revoked_at expires_at : option datetime) (t : Z) : Prop :=
  revoked_at = None /\ forall e, expires_at = Some e -> exists us, e = Aware us /\ (t < us)%Z.

Definition holds_role (st : AuthState) (t : Z) (participant_id role_id : string) : Prop :=
  exists a, a ∈ role_assignments st /\ ra_participant_id a = participant_id /\
    ra_role_id a = role_id /\ live (ra_revoked_at a) (ra_expires_at a) t.

(** The grant is one of the participant: given to it, or to a role it holds. *)
Definition grant_of (st : AuthState) (t : Z) (participant_id : string) (g : PermissionGrant) :
    Prop :=
  g ∈ permission_grants st /\ live (pg_revoked_at g) (pg_expires_at g) t /\
  (pg_participant_id g = Some participant_id \/
   exists r, pg_role_id g = Some r /\ holds_role st t participant_id r).

Definition entitled (st : AuthState) (t : Z) (participant_id : string)
    (permission : PermissionName) (scope : Scope) (context : option doc) : Prop :=
  exists p g, dict_get participant_id (participants st) = Some p /\ part_status p = PS_ACTIVE /\
    grant_of st t participant_id g /\ pg_permission g = permission /\
    scope_matches (pg_scope g) scope context = true.

(** Expiry dates carry their time zone. *)
Record auth_wf (st : AuthState) : Prop := {
  wf_assignments a e : a ∈ role_assignments st -> ra_expires_at a = Some e -> is_aware e;
  wf_grants g e : g ∈ permission_grants st -> pg_expires_at g = Some e -> is_aware e;
}.

Definition liveb (revoked_at expires_at : option datetime) (t : Z) : bool :=
  match revoked_at, expires_at with
  | Some _, _ => false
  | None, None => true
  | None, Some (Aware us) => Z.ltb t us
  | None, Some (Naive _) => false
  end.

Lemma liveb_true r e t : liveb r e t = true <-> live r e t.
Proof.
  unfold live. destruct r, e as [[us|us]|]; simpl; rewrite ?Z.ltb_lt; naive_solver.
Qed.

Lemma active_at_live r e t :
  (forall x, e = Some x -> is_aware x) -> active_at r e (Aware t) = Ok (liveb r e t).
Proof.
  intros Ha. unfold active_at, liveb. destruct r; [done|]. destruct e as [x|]; [|done].
  by destruct (Ha x eq_refl) as [us ->].
Qed.

(** The lists a repository computes, on a well-formed state. *)
Lemma active_assignments_spec st pid t :
  auth_wf st -> exists l, active_assignments pid (Aware t) st = Ok l /\
    (forall a, a ∈ l <-> a ∈ role_assignments st /\ ra_participant_id a = pid /\
                        live (ra_revoked_at a) (ra_expires_at a) t).
Proof.
  intros Hwf.
  set (q := fun a => bool_decide (ra_participant_id a = pid)
                     && liveb (ra_revoked_at a) (ra_expires_at a) t).
  exists (py_filter q (role_assignments st)). split.
  - apply filter_res_total. intros a Ha. unfold assigned, q.
    case_bool_decide; [|done]. apply active_at_live. intros e. by apply (wf_assignments st).
  - intros a. rewrite elem_of_py_filter. unfold q.
    rewrite andb_true_iff, bool_decide_eq_true, liveb_true. done.
Qed.

Lemma active_grants_spec st pid t :
  auth_wf st -> exists l, active_grants pid (Aware t) st = Ok l /\
    (forall g, g ∈ l <-> grant_of st t pid g).
Proof.
  intros Hwf. destruct (active_assignments_spec st pid t Hwf) as (asg & Hasg & Hin).
  unfold active_grants. rewrite Hasg. cbn [mbind res_bind].
  set (q := fun g => liveb (pg_revoked_at g) (pg_expires_at g) t
              && (bool_decide (pg_participant_id g = Some pid)
                  || role_in (pg_role_id g) (map ra_role_id asg))).
  exists (py_filter q (permission_grants st)). split.
  - apply filter_res_total. intros g Hg. unfold granted, q.
    unfold grant_is_active. rewrite active_at_live; [done|]. intros e. by apply (wf_grants st).
  - intros g. rewrite elem_of_py_filter. unfold q, grant_of.
    rewrite andb_true_iff, liveb_true, orb_true_iff, bool_decide_eq_true.
    assert (role_in (pg_role_id g) (map ra_role_id asg) = true <->
            exists r, pg_role_id g = Some r /\ holds_role st t pid r) as ->; [|tauto].
    unfold role_in, holds_role. destruct (pg_role_id g) as [r|]; [|naive_solver].
    rewrite str_in_true, list_elem_of_fmap. setoid_rewrite Hin. naive_solver.
Qed.
