(* ===== verification/Catalog.v ===== *)
(** * Built-in roles and root authority ([auth/catalog.py], [bootstrap.py])

    The built-in role templates, their assignment to participants, and the
    idempotent seeding of the root operator. Both assignment functions are
    written against the repository protocol. *)
From Stdlib Require Import ZArith Ascii String.
From S2P Require Import Prelude Values Authority Auth.
Open Scope string_scope.
Open Scope list_scope.

(** ** Role templates *)
Record RoleTemplate : Type := mkTemplate {
  tpl_name : RoleName;
  tpl_description : string;
  tpl_permissions : list PermissionName;
  tpl_metadata : list (string * string);
}.

(** [RoleTemplate.id]. *)
Definition template_id (t : RoleTemplate) : string := "builtin:" +:+ RoleName_value (tpl_name t).

Definition template (name : RoleName) (description : string) (permissions : list PermissionName) :
    RoleName * RoleTemplate :=
  (name, mkTemplate name description permissions []).

Definition BUILT_IN_ROLE_TEMPLATES : list (RoleName * RoleTemplate) :=
  [
   template WORKFLOW_OWNER "Owns workflow design, publishing, mutation promotion, and scoped grants."
     [PATCH_PANEL_CREATE; PATCH_PANEL_EDIT_DRAFT; PATCH_PANEL_PUBLISH_VERSION;
      PATCH_PANEL_ARCHIVE; PATCH_PANEL_DISCOVER; BUCKET_CREATE; NODE_CREATE; EDGE_CREATE;
      PIPE_BINDING_CREATE; MUTATION_VALIDATE; MUTATION_PROMOTE; SHADOW_CREATE; PERMISSION_GRANT];
   template WORKFLOW_DESIGNER "Designs draft workflow topology and proposes mutations."
     [PATCH_PANEL_CREATE; PATCH_PANEL_EDIT_DRAFT; PATCH_PANEL_DISCOVER; BUCKET_CREATE;
      NODE_CREATE; EDGE_CREATE; PIPE_BINDING_CREATE; MUTATION_PROPOSE];
   template WORKER "Claims cards, views work context, submits artifacts, and releases cards."
     [CARD_VIEW; CARD_CLAIM; CARD_SUBMIT_ARTIFACT; CARD_RELEASE];
   template VALIDATOR "Views card context and submits validation decisions."
     [CARD_VIEW; VALIDATION_SUBMIT];
   template ROUTING_VALIDATOR "Reviews routing-sensitive card state and submits validation decisions."
     [CARD_VIEW; VALIDATION_SUBMIT];
   template SOURCE_OPERATOR "Admits work through governed source ingress boundaries."
     [BOUNDARY_SOURCE_INGRESS; CARD_CREATE];
   template SINK_OPERATOR "Executes governed sink and egress operations."
     [SINK_EXECUTE; BOUNDARY_SINK_EGRESS];
   template REVIEWER_APPROVER "Reviews cards and validates or promotes governed proposals."
     [CARD_VIEW; VALIDATION_SUBMIT; MUTATION_VALIDATE; MUTATION_PROMOTE;
      PATCH_PANEL_PUBLISH_VERSION];
   template SHADOW_PARTICIPANT "Runs isolated shadow work and proposes improvements."
     [CARD_VIEW; CARD_CLAIM; CARD_SUBMIT_ARTIFACT; SHADOW_COMPLETE; MUTATION_PROPOSE];
   template LEARNING_OPTIMIZER "Observes workflow evidence and proposes optimization mutations."
     [CARD_VIEW; PATCH_PANEL_DISCOVER; MUTATION_PROPOSE; SHADOW_CREATE];
   template OBSERVER "Reads workflow context and audit surfaces without mutation authority."
     [CARD_VIEW; PATCH_PANEL_DISCOVER; AUDIT_VIEW];
   template ADMIN "Receives every current permission through explicit grants."
     all_permissions;
   template INTENT_OPERATOR "Admits structured intent and discovers reusable workflows."
     [CARD_CREATE; PATCH_PANEL_DISCOVER];
   template WORKFLOW_ARCHITECT "Designs and proposes workflow topology without production promotion."
     [PATCH_PANEL_DISCOVER; PATCH_PANEL_CREATE; PATCH_PANEL_EDIT_DRAFT; BUCKET_CREATE;
      NODE_CREATE; EDGE_CREATE; PIPE_BINDING_CREATE; CARD_CREATE; MUTATION_PROPOSE;
      SHADOW_CREATE]].

Definition get_role_template (role_name : RoleName) : res RoleTemplate :=
  match dict_get role_name BUILT_IN_ROLE_TEMPLATES with
  | Some t => Ok t
  | None => Raise (KeyError (RoleName_value role_name))
  end.

Section templates.
Context `{Oracle} {S : Type}.

(** [RoleTemplate.to_role]. *)
Definition to_role (t : RoleTemplate) : M S Role :=
  created_at ← now;
  mret (mkRole (template_id t) (RoleName_value (tpl_name t)) (Some (tpl_description t))
          (tpl_permissions t)
          (dict_update [("builtin", VBool true)]
             (map (fun kv => (kv.1, VStr kv.2)) (tpl_metadata t)))
          created_at).

(** [RoleTemplate.permission_grants]. *)
Definition template_grants (t : RoleTemplate) (scope : Scope) (granted_by : option string)
    (created_at : option datetime) : M S (list PermissionGrant) :=
  grant_time ← (match created_at with Some x => mret x | None => now end);
  mapE (fun permission =>
    i ← uuid4;
    lift_res (validate_grant_target
      (mkPermissionGrant i permission scope None (Some (template_id t)) granted_by None grant_time
         None [("builtin_role", VStr (RoleName_value (tpl_name t)))])))
    (tpl_permissions t).

Definition built_in_roles : M S (list Role) := mapE to_role (dict_values BUILT_IN_ROLE_TEMPLATES).

Definition new_role_assignment (participant_id role_id : string) (scope : Scope)
    (assigned_by : option string) (metadata : doc) : M S RoleAssignment :=
  i ← uuid4; t ← now;
  mret (mkRoleAssignment i participant_id role_id scope assigned_by None t None metadata).

Definition new_participant (id : string) (type : ParticipantType)
    (display_name auth_method : option string) (metadata : doc) : M S Participant :=
  t ← now;
  mret (mkParticipant id type display_name PS_ACTIVE None auth_method metadata t None).
End templates.

(** ** Assignment *)
Section assignment.
Context `{Oracle} {R : Type} `{AuthorizationRepository R}.

Definition assign_role_to_participant (participant_id : string) (role_name : RoleName)
    (scope : Scope) (assigned_by : option string) : M R RoleAssignment :=
  template ← lift_res (get_role_template role_name);
  assignment ← new_role_assignment participant_id (template_id template) scope assigned_by
                 [("builtin_role", VStr (RoleName_value role_name))];
  _ ← ar_add_role_assignment assignment;
  grants ← template_grants template scope assigned_by None;
  _ ← forM grants ar_add_permission_grant;
  mret assignment.

Definition same_grant (candidate grant : PermissionGrant) : bool :=
  bool_decide (pg_role_id grant = pg_role_id candidate) &&
  bool_decide (pg_participant_id grant = pg_participant_id candidate) &&
  bool_decide (pg_permission grant = pg_permission candidate) &&
  bool_decide (pg_scope grant = pg_scope candidate).

Definition _has_matching_grant (grants : list PermissionGrant) (candidate : PermissionGrant) :
    bool :=
  existsb (same_grant candidate) grants.

Definition ensure_builtin_role_assignment (participant_id : string) (role_name : RoleName)
    (scope : Scope) (assigned_by : option string) : M R RoleAssignment :=
  template ← lift_res (get_role_template role_name);
  assignments ← ar_list_role_assignments participant_id;
  existing ←
    (match py_next (fun a => bool_decide (ra_role_id a = template_id template) &&
                             bool_decide (ra_scope a = scope)) assignments with
     | Some a => mret a
     | None =>
         a ← new_role_assignment participant_id (template_id template) scope assigned_by
               [("builtin_role", VStr (RoleName_value role_name))];
         _ ← ar_add_role_assignment a;
         mret a
     end);
  active_grants ← ar_list_permission_grants participant_id;
  grants ← template_grants template scope assigned_by None;
  _ ← forM grants (fun grant =>
        if _has_matching_grant active_grants grant then mret tt
        else ar_add_permission_grant grant);
  mret existing.

Definition seed_root_operator (participant_id : string) : M R () :=
  participant ← new_participant participant_id PT_SYSTEM_SERVICE (Some "Root Operator")
                  (Some "local_bootstrap")
                  [("system_bootstrap", VBool true); ("root_operator", VBool true)];
  _ ← ar_upsert_participant participant;
  _ ← ensure_builtin_role_assignment (part_id participant) ADMIN global_scope
        (Some (part_id participant));
  mret tt.
End assignment.

(** [seed_development_authority] builds its repository. *)
Definition empty_auth_state : AuthState := new_auth_state [] [] [].

Definition seed_development_authority `{Oracle} {S : Type} (participant_id : string)
    (scope : option Scope) : M S AuthState :=
  zoom (fun _ => empty_auth_state) (fun _ s => s) (
    participant ← new_participant participant_id PT_SYSTEM_SERVICE (Some "Development Admin")
                    (Some "development_header") [("development_seed", VBool true)];
    _ ← upsert_participant participant;
    _ ← assign_role_to_participant (part_id participant) ADMIN
          (default development_global scope) (Some (part_id participant));
    get).
