(* ===== verification/AuthSpec.v ===== *)
(** * Lemmas on authorization and role assignment

    What the service and the assignment functions do to the abstract state
    of any repository that meets [RepositorySpec]. *)
From Stdlib Require Import ZArith Ascii String.
From S2P Require Import Prelude Values Authority Auth Catalog.
Open Scope string_scope.
Open Scope list_scope.

(** ** Decisions *)

(** A live grant of an active participant for the permission, on a scope that
    matches: what entitles. *)
Definition entitling (st : AuthState) (t : Z) (pid : string) (perm : PermissionName) (scope : Scope)
    (ctx : option doc) (g : PermissionGrant) : Prop :=
  (exists p, dict_get pid (participants st) = Some p /\ part_status p = PS_ACTIVE) /\
  grant_of st t pid g /\ pg_permission g = perm /\ scope_matches (pg_scope g) scope ctx = true.

(** What [authorize] decides on a state: it allows the entitled, and names
    exactly the grants that entitle. *)
Definition decided (st : AuthState) (t : Z) (pid : string) (perm : PermissionName) (scope : Scope)
    (ctx : option doc) (d : AuthorizationDecision) : Prop :=
  dec_participant_id d = pid /\ dec_permission d = perm /\ dec_scope d = scope /\
  dec_metadata d = default [] ctx /\
  (dec_allowed d = true <-> entitled st t pid perm scope ctx) /\
  (forall i, i ∈ dec_matched_grant_ids d <-> exists g, entitling st t pid perm scope ctx g /\ pg_id g = i).

(** Decisions that find no grant, and some. *)
Lemma decided_denied a t pid perm scope ctx d :
  dec_participant_id d = pid /\ dec_permission d = perm /\ dec_scope d = scope /\
    dec_metadata d = default [] ctx /\ dec_allowed d = false /\ dec_matched_grant_ids d = [] ->
  ~ entitled a t pid perm scope ctx -> decided a t pid perm scope ctx d.
Proof.
  intros (? & ? & ? & ? & Ha & Hids) Hn. do 4 (split; [done|]). split.
  - rewrite Ha. by split.
  - rewrite Hids. intros i. split; [by intros ?%elem_of_nil|].
    intros (g & ((p & ? & ?) & ? & ? & ?) & _). destruct Hn. by exists p, g.
Qed.

Lemma decided_allowed a t pid perm scope ctx d p gs :
  dec_participant_id d = pid /\ dec_permission d = perm /\ dec_scope d = scope /\
    dec_metadata d = default [] ctx /\ dec_allowed d = true /\ dec_matched_grant_ids d = map pg_id gs ->
  dict_get pid (participants a) = Some p -> part_status p = PS_ACTIVE -> gs <> [] ->
  (forall g, g ∈ gs <-> grant_of a t pid g /\ pg_permission g = perm /\ scope_matches (pg_scope g) scope ctx = true) ->
  decided a t pid perm scope ctx d.
Proof.
  intros (? & ? & ? & ? & Ha & Hids) Hp Hact Hne Hgs. do 4 (split; [done|]). split.
  - split; [|by rewrite Ha]. intros _. destruct gs as [|g gs]; [done|]. exists p, g.
    destruct (proj1 (Hgs g)) as (? & ? & ?); [by left|]. done.
  - rewrite Hids. intros i. rewrite list_elem_of_fmap. split.
    + intros (g & -> & Hg%Hgs). exists g. split; [|done]. split; [by exists p | done].
    + intros (g & (_ & Hg) & <-). exists g. split; [done|]. by apply Hgs.
Qed.

Section authorize.
Context {R : Type} `{RepositorySpec R}.

Lemma wp_new_decision pid perm scope allowed reason ids meta (Q : res AuthorizationDecision -> R * Env -> Prop) s :
  (forall d e', dec_participant_id d = pid -> dec_permission d = perm -> dec_scope d = scope ->
     dec_allowed d = allowed -> dec_reason d = reason -> dec_matched_grant_ids d = ids ->
     dec_metadata d = meta -> Q (Ok d) (s.1, e')) ->
  wp (new_decision pid perm scope allowed reason ids meta) Q s.
Proof. intros HQ. apply wp_bind, wp_uuid4, wp_bind, wp_now, wp_ret. by apply HQ. Qed.

(** The audit event mirrors the decision. *)
Definition audits (d : AuthorizationDecision) (ev : AuthorizationAuditEvent) : Prop :=
  aud_action ev = audit_action d /\ aud_participant_id ev = Some (dec_participant_id d) /\
  aud_permission ev = Some (dec_permission d) /\ aud_scope ev = Some (dec_scope d) /\
  aud_allowed ev = Some (dec_allowed d) /\ aud_reason ev = Some (dec_reason d) /\
  aud_metadata ev = dec_metadata d.

Lemma record_spec d (Q : res AuthorizationDecision -> R * Env -> Prop) s :
  (forall ev s', audits d ev -> auth_view s'.1 = with_audit ev (auth_view s.1) -> Q (Ok d) s') ->
  wp (_record d) Q s.
Proof.
  intros HQ. apply wp_bind. unfold from_decision. apply wp_bind, wp_uuid4, wp_bind, wp_now, wp_ret.
  apply wp_bind. eapply wp_mono; [apply record_audit_event_spec|].
  intros r s' (-> & Hv & _). apply wp_ret. eapply HQ; [|exact Hv]. done.
Qed.

Lemma authorize_spec pid perm scope ctx s :
  auth_wf (auth_view s.1) ->
  wp (authorize pid perm scope ctx) (fun r s' => exists d ev, r = Ok d /\
    decided (auth_view s.1) (clock_at (now_ctr s.2)) pid perm scope ctx d /\ audits d ev /\
    auth_view s'.1 = with_audit ev (auth_view s.1)) s.
Proof.
  intros Hwf. set (t := clock_at (now_ctr s.2)). unfold authorize.
  apply wp_bind. eapply wp_mono; [apply get_participant_spec|]. intros r s0 (-> & ->).
  destruct (dict_get pid _) as [p|] eqn:Ep.
  2: { apply wp_bind, wp_new_decision. intros d e' Hp Hperm Hsc Hal _ Hids Hm. apply record_spec.
       intros ev s' Hau Hv. exists d, ev. split; [done|]. split; [|done].
       apply decided_denied; [done|]. intros (p & g & Hpp & _). congruence. }
  destruct (decide (part_status p = PS_ACTIVE)) as [Hact|Hna].
  2: { rewrite bool_decide_eq_false_2 by done. cbn [negb].
       apply wp_bind, wp_new_decision. intros d e' Hp Hperm Hsc Hal _ Hids Hm. apply record_spec.
       intros ev s' Hau Hv. exists d, ev. split; [done|]. split; [|done].
       apply decided_denied; [done|]. intros (p' & g & Hpp & Hst & _). congruence. }
  rewrite bool_decide_eq_true_2 by done. cbn [negb].
  destruct (active_grants_spec (auth_view s.1) pid t Hwf) as (gs & Hgs & Hin).
  apply wp_bind. eapply wp_mono; [apply list_permission_grants_spec|].
  intros r s1 (-> & Hv1 & _). fold t. rewrite Hgs.
  assert (Hmatch : forall g, g ∈ py_filter (grant_matches perm scope ctx) gs <->
            grant_of (auth_view s.1) t pid g /\ pg_permission g = perm /\
            scope_matches (pg_scope g) scope ctx = true).
  { intros g. rewrite elem_of_py_filter, Hin. unfold grant_matches.
    by rewrite andb_true_iff, bool_decide_eq_true. }
  destruct (py_filter _ gs) as [|g0 l] eqn:El;
    apply wp_bind, wp_new_decision; intros d e' Hp Hperm Hsc Hal _ Hids Hm; apply record_spec;
    intros ev s' Hau Hv; exists d, ev; (split; [done|]); simpl in Hv; rewrite Hv1 in Hv; (split; [|done]).
  - apply decided_denied; [done|]. intros (p' & g & _ & _ & Hg & Hgp & Hgs').
    assert (g ∈ []) as ?%elem_of_nil by by apply Hmatch. done.
  - by eapply decided_allowed.
Qed.
End authorize.

(** ** Grants of a template *)
Definition role_grant (tid : string) (scope : Scope) (perm : PermissionName) (g : PermissionGrant) :
    Prop :=
  pg_participant_id g = None /\ pg_role_id g = Some tid /\ pg_permission g = perm /\
  pg_scope g = scope /\ pg_revoked_at g = None /\ pg_expires_at g = None.

Definition role_assignment (pid tid : string) (scope : Scope) (a : RoleAssignment) : Prop :=
  ra_participant_id a = pid /\ ra_role_id a = tid /\ ra_scope a = scope /\
  ra_revoked_at a = None /\ ra_expires_at a = None.

(** No expiry date is set: the API sets none. *)
Record perpetual (st : AuthState) : Prop := {
  perp_assignments a : a ∈ role_assignments st -> ra_expires_at a = None;
  perp_grants g : g ∈ permission_grants st -> pg_expires_at g = None;
}.

Lemma perpetual_wf st : perpetual st -> auth_wf st.
Proof.
  intros [Ha Hg]. split.
  - intros a e Hin He. by rewrite (Ha a Hin) in He.
  - intros g e Hin He. by rewrite (Hg g Hin) in He.
Qed.

Lemma live_perpetual r t : live r None t <-> r = None.
Proof. unfold live. naive_solver. Qed.

Lemma role_grant_live tid scope perm g t :
  role_grant tid scope perm g -> live (pg_revoked_at g) (pg_expires_at g) t.
Proof. intros (_ & _ & _ & _ & -> & ->). by apply live_perpetual. Qed.

Lemma role_assignment_live pid tid scope a t :
  role_assignment pid tid scope a -> live (ra_revoked_at a) (ra_expires_at a) t.
Proof. intros (_ & _ & _ & -> & ->). by apply live_perpetual. Qed.

Definition add_grants (gs : list PermissionGrant) (st : AuthState) : AuthState :=
  mkAuthState (participants st) (role_assignments st) (permission_grants st ++ gs) (audit_events st).

Section templates.
Context {R : Type} `{RepositorySpec R}.

Lemma template_grants_spec tpl scope by_ (s : R * Env) :
  wp (template_grants tpl scope by_ None) (fun r s' => exists gs, r = Ok gs /\
    Forall2 (role_grant (template_id tpl) scope) (tpl_permissions tpl) gs /\ s'.1 = s.1) s.
Proof.
  apply wp_bind, wp_now.
  eapply (wp_mapE _ _ (fun s' => s'.1 = s.1)); [done|].
  intros perm s' Hs'. apply wp_bind, wp_uuid4, wp_lift_res. eexists. split; [done|].
  split; [done | exact Hs'].
Qed.

Lemma new_role_assignment_spec pid tid scope by_ meta (Q : res RoleAssignment -> R * Env -> Prop) s :
  (forall a e', role_assignment pid tid scope a -> Q (Ok a) (s.1, e')) ->
  wp (new_role_assignment pid tid scope by_ meta) Q s.
Proof. intros HQ. apply wp_bind, wp_uuid4, wp_bind, wp_now, wp_ret. by apply HQ. Qed.

Lemma add_grants_spec gs (s : R * Env) :
  wp (forM gs ar_add_permission_grant) (fun r s' =>
    r = Ok tt /\ auth_view s'.1 = add_grants gs (auth_view s.1)) s.
Proof.
  revert s. induction gs as [|g gs IH]; intros s; cbn [forM].
  { apply wp_ret. split; [done|]. unfold add_grants. rewrite app_nil_r. by destruct (auth_view s.1). }
  apply wp_bind. eapply wp_mono; [apply add_permission_grant_spec|]. intros r s1 (-> & Hv & _).
  eapply wp_mono; [apply IH|]. intros r s2 (-> & Hv2). split; [done|].
  rewrite Hv2, Hv. unfold add_grants, with_grant. simpl. by rewrite <- app_assoc.
Qed.

Lemma add_missing_spec (active gs : list PermissionGrant) (s : R * Env) :
  wp (forM gs (fun g => if _has_matching_grant active g then mret tt else ar_add_permission_grant g))
    (fun r s' => r = Ok tt /\ auth_view s'.1
       = add_grants (py_filter (fun g => negb (_has_matching_grant active g)) gs) (auth_view s.1)) s.
Proof.
  revert s. induction gs as [|g gs IH]; intros s; cbn [forM py_filter List.filter].
  { apply wp_ret. split; [done|]. unfold add_grants. rewrite app_nil_r. by destruct (auth_view s.1). }
  apply wp_bind. destruct (_has_matching_grant active g); cbn [negb].
  - apply wp_ret, IH.
  - eapply wp_mono; [apply add_permission_grant_spec|]. intros r s1 (-> & Hv & _).
    eapply wp_mono; [apply IH|]. intros r s2 (-> & Hv2). split; [done|].
    rewrite Hv2, Hv. unfold add_grants, with_grant. simpl. by rewrite <- app_assoc.
Qed.
End templates.
