(* ===== verification/AuthTheorems.v ===== *)
(** * What authorization guarantees *)
From Stdlib Require Import ZArith Ascii String.
From S2P Require Import Prelude Values Authority Auth Catalog AuthSpec.
Open Scope string_scope.
Open Scope list_scope.

Lemma get_role_template_ok r : exists tpl, get_role_template r = Ok tpl /\ tpl_name tpl = r.
Proof. destruct r; eexists; split; reflexivity. Qed.

Lemma template_of_name r tpl :
  get_role_template r = Ok tpl -> template_id tpl = "builtin:" +:+ RoleName_value r.
Proof.
  intros Ht. destruct (get_role_template_ok r) as (tpl' & Ht' & Hn).
  rewrite Ht in Ht'. injection Ht' as ->. unfold template_id. by rewrite Hn.
Qed.

(** The participant has the role on the scope, and the role every permission
    of the template there. *)
Definition provisioned (st : AuthState) (pid : string) (tpl : RoleTemplate) (scope : Scope) : Prop :=
  (exists a, a ∈ role_assignments st /\ role_assignment pid (template_id tpl) scope a) /\
  (forall perm, perm ∈ tpl_permissions tpl ->
     exists g, g ∈ permission_grants st /\ role_grant (template_id tpl) scope perm g).

Lemma same_grant_role tid scope perm g g' :
  role_grant tid scope perm g -> same_grant g g' = true <->
  pg_role_id g' = Some tid /\ pg_participant_id g' = None /\ pg_permission g' = perm /\
  pg_scope g' = scope.
Proof.
  intros (E1 & E2 & E3 & E4 & _). unfold same_grant. rewrite E1, E2, E3, E4.
  rewrite !andb_true_iff, !bool_decide_eq_true. naive_solver.
Qed.

Lemma Forall2_in_l {A B} (P : A -> B -> Prop) l l' a :
  Forall2 P l l' -> a ∈ l -> exists b, b ∈ l' /\ P a b.
Proof.
  induction 1 as [|x y l l' Hxy _ IH]; [by intros ?%elem_of_nil|].
  intros [->|Ha]%elem_of_cons; [exists y; split; [left | done]|].
  destruct (IH Ha) as (b & ? & ?). exists b. split; [by right | done].
Qed.

Lemma Forall2_in_r {A B} (P : A -> B -> Prop) l l' b :
  Forall2 P l l' -> b ∈ l' -> exists a, a ∈ l /\ P a b.
Proof.
  induction 1 as [|x y l l' Hxy _ IH]; [by intros ?%elem_of_nil|].
  intros [->|Hb]%elem_of_cons; [exists x; split; [left | done]|].
  destruct (IH Hb) as (a & ? & ?). exists a. split; [by right | done].
Qed.

Section ensure.
(** The effect of [ensure_builtin_role_assignment]. *)
Definition ensured (st : AuthState) (pid : string) (tpl : RoleTemplate) (scope : Scope)
    (st' : AuthState) : Prop :=
  exists assignments grants,
    st' = mkAuthState (participants st) (role_assignments st ++ assignments)
            (permission_grants st ++ grants) (audit_events st) /\
    perpetual st' /\ provisioned st' pid tpl scope /\
    (provisioned st pid tpl scope -> assignments = [] /\ grants = []).

(** The grants that are missing, once there is an assignment. *)
Lemma missing_grants st pid tpl scope t active gs :
  perpetual st ->
  (exists a, a ∈ role_assignments st /\ role_assignment pid (template_id tpl) scope a) ->
  (forall g, g ∈ active <-> grant_of st t pid g) ->
  Forall2 (role_grant (template_id tpl) scope) (tpl_permissions tpl) gs ->
  let extra := py_filter (fun g => negb (_has_matching_grant active g)) gs in
  perpetual (add_grants extra st) /\ provisioned (add_grants extra st) pid tpl scope /\
  (provisioned st pid tpl scope -> extra = []).
Proof.
  intros Hp Hasg Hact Hgs extra.
  assert (Hextra : forall g, g ∈ extra <-> g ∈ gs /\ _has_matching_grant active g = false).
  { intros g. unfold extra. by rewrite elem_of_py_filter, negb_true_iff. }
  split; [|split].
  - split; [apply Hp|]. intros g [Hg|[Hg _]%Hextra]%elem_of_app; [by apply Hp|].
    destruct (Forall2_in_r _ _ _ _ Hgs Hg) as (perm & _ & Hrg). apply Hrg.
  - split; [exact Hasg|]. intros perm Hperm.
    destruct (Forall2_in_l _ _ _ _ Hgs Hperm) as (g & Hg & Hrg). simpl.
    destruct (_has_matching_grant active g) eqn:E.
    + apply existsb_true in E as (g' & Hg' & Hs).
      apply (same_grant_role _ _ _ _ _ Hrg) in Hs as (? & ? & ? & ?).
      apply Hact in Hg' as (Hin & Hlive & _). exists g'. split; [apply elem_of_app; by left|].
      pose proof (perp_grants _ Hp g' Hin) as He. rewrite He in Hlive.
      apply live_perpetual in Hlive. done.
    + exists g. split; [|done]. apply elem_of_app. right. by apply Hextra.
  - intros [(a & Ha & Hra) Hall]. apply elem_of_nil_inv. intros g [Hg Hno]%Hextra.
    destruct (Forall2_in_r _ _ _ _ Hgs Hg) as (perm & Hperm & Hrg).
    destruct (Hall perm Hperm) as (g' & Hg' & Hrg').
    assert (_has_matching_grant active g = true); [|congruence].
    apply existsb_true. exists g'. split.
    + apply Hact. split; [done|]. split; [by eapply role_grant_live|].
      right. exists (template_id tpl). split; [apply Hrg'|].
      exists a. split; [done|]. split; [apply Hra|]. split; [apply Hra|].
      by eapply role_assignment_live.
    + apply (same_grant_role _ _ _ _ _ Hrg). destruct Hrg' as (? & ? & ? & ? & _). done.
Qed.

End ensure.

(** ** Assigning a role *)
Section assign.
Context {R : Type} `{RepositorySpec R}.

Lemma assign_role_spec pid name scope by_ tpl s :
  get_role_template name = Ok tpl ->
  wp (assign_role_to_participant pid name scope by_) (fun r s' => exists a gs, r = Ok a /\
    role_assignment pid (template_id tpl) scope a /\
    Forall2 (role_grant (template_id tpl) scope) (tpl_permissions tpl) gs /\
    auth_view s'.1 = add_grants gs (with_assignment a (auth_view s.1))) s.
Proof.
  intros Htpl. apply wp_bind, wp_lift_res. rewrite Htpl. cbn beta iota.
  apply wp_bind, new_role_assignment_spec. intros a e Ha. apply wp_bind.
  eapply wp_mono; [apply add_role_assignment_spec|]. intros r s1 (-> & Hv1 & _). simpl in Hv1.
  apply wp_bind. eapply wp_mono; [apply template_grants_spec|].
  intros r s2 (gs & -> & Hgs & Hv2). apply wp_bind.
  eapply wp_mono; [apply add_grants_spec|]. intros r s3 (-> & Hv3). apply wp_ret.
  exists a, gs. rewrite Hv3, Hv2, Hv1. done.
Qed.

Lemma holds_role_with st a gs t q r pid tid scope :
  role_assignment pid tid scope a ->
  holds_role (add_grants gs (with_assignment a st)) t q r <->
  holds_role st t q r \/ (q = pid /\ r = tid).
Proof.
  intros Ha. unfold holds_role. simpl. setoid_rewrite elem_of_app.
  setoid_rewrite list_elem_of_singleton. split.
  - intros (x & [Hx| ->] & ? & ? & ?); [left; eauto 10|].
    destruct Ha as (? & ? & _). right. split; congruence.
  - intros [(x & ? & ?)|[-> ->]]; [exists x; tauto|]. exists a.
    split; [by right|]. pose proof (role_assignment_live _ _ _ _ t Ha).
    destruct Ha as (? & ? & _). done.
Qed.

(** What an assignment of [tpl] on [scope] to [pid] adds to the rights of
    [q]. *)
Definition gained (st : AuthState) (t : Z) (pid : string) (tpl : RoleTemplate) (scope : Scope)
    (q : string) (perm : PermissionName) (target : Scope) (ctx : option doc) : Prop :=
  exists p, dict_get q (participants st) = Some p /\ part_status p = PS_ACTIVE /\
    ((q = pid \/ holds_role st t q (template_id tpl)) /\
     perm ∈ tpl_permissions tpl /\ scope_matches scope target ctx = true \/
     q = pid /\ exists g, g ∈ permission_grants st /\
       live (pg_revoked_at g) (pg_expires_at g) t /\ pg_role_id g = Some (template_id tpl) /\
       pg_permission g = perm /\ scope_matches (pg_scope g) target ctx = true).

Lemma entitled_after_assignment st a gs t pid tpl scope q perm target ctx :
  role_assignment pid (template_id tpl) scope a ->
  Forall2 (role_grant (template_id tpl) scope) (tpl_permissions tpl) gs ->
  entitled (add_grants gs (with_assignment a st)) t q perm target ctx <->
  entitled st t q perm target ctx \/ gained st t pid tpl scope q perm target ctx.
Proof.
  intros Ha Hgs. unfold entitled, gained, grant_of.
  setoid_rewrite (holds_role_with _ _ _ _ _ _ _ _ _ Ha). simpl. setoid_rewrite elem_of_app.
  split.
  - intros (p & g & Hp & Hact & ([Hg|Hg] & Hlive & Hwho) & Hperm & Hsc).
    + destruct Hwho as [Hwho|(r & Hr & [Hh|[-> ->]])];
        [left; exists p, g; tauto | left; exists p, g; eauto 10|].
      right. exists p. split; [done|]. split; [done|]. right. split; [done|]. by exists g.
    + destruct (Forall2_in_r _ _ _ _ Hgs Hg) as (x & Hx & Hrg).
      destruct Hrg as (Hgp & Hgr & Hgx & Hgs' & _). right. exists p.
      split; [done|]. split; [done|]. left.
      split; [|split; [congruence | by rewrite <- Hgs']].
      destruct Hwho as [Hwho|(r & Hr & Hh)]; [congruence|]. assert (r = template_id tpl) as -> by congruence.
      destruct Hh as [?|[? _]]; auto.
  - intros [(p & g & Hp & Hact & (Hg & Hlive & Hwho) & Hperm & Hsc)
           |(p & Hp & Hact & [(Hq & Hin & Hsc)|(-> & g & Hg & Hlive & Hr & Hperm & Hsc)])].
    + exists p, g. split; [done|]. split; [done|]. split; [|done]. split; [tauto|]. split; [done|].
      destruct Hwho as [?|(r & ? & ?)]; [tauto|]. right. exists r. tauto.
    + destruct (Forall2_in_l _ _ _ _ Hgs Hin) as (g & Hg & Hrg). exists p, g.
      pose proof (role_grant_live _ _ _ _ t Hrg). destruct Hrg as (_ & Hgr & Hgx & -> & _).
      split; [done|]. split; [done|]. split; [|done]. split; [tauto|]. split; [done|].
      right. exists (template_id tpl). split; [done|]. tauto.
    + exists p, g. split; [done|]. split; [done|]. split; [|done]. split; [tauto|]. split; [done|].
      right. exists (template_id tpl). tauto.
Qed.
End assign.

(** ** The properties *)
Section properties.
Context {R : Type} `{RepositorySpec R}.

(** C12. On every repository that keeps the promise [RepositorySpec] (the
    in-memory one; C33 says what changes on PostgreSQL), with expiry dates
    that carry a time zone, [authorize] always answers, and allows exactly
    the entitled: an active participant with a live grant, its own or of a
    role it holds, for the permission, on a scope that matches. The answer
    names the grants that entitle, all of them and no others; one audit event
    that mirrors the decision is recorded, and nothing else changes. *)
Theorem authorize_iff_entitled pid perm scope ctx s :
  auth_wf (auth_view s.1) ->
  let t := clock_at (now_ctr s.2) in
  exists d ev s', authorize pid perm scope ctx s = (Ok d, s') /\
    (dec_allowed d = true <-> entitled (auth_view s.1) t pid perm scope ctx) /\
    (forall i, i ∈ dec_matched_grant_ids d <->
       exists g, entitling (auth_view s.1) t pid perm scope ctx g /\ pg_id g = i) /\
    audits d ev /\ auth_view s'.1 = with_audit ev (auth_view s.1).
Proof.
  intros Hwf t. pose proof (authorize_spec pid perm scope ctx s Hwf) as Ha. unfold wp in Ha.
  destruct (authorize pid perm scope ctx s) as [r s']. simpl in Ha.
  destruct Ha as (d & ev & -> & (_ & _ & _ & _ & Hal & Hids) & Hau & Hv). by exists d, ev, s'.
Qed.


(** C14. The exact effect of assigning a built-in role: after
    [assign_role_to_participant] a participant [q] is entitled to what it
    was before and to what [gained] says. The assignee gets the template's
    permissions on the scope, and every grant the role already had; but so
    does everyone who already holds the role on another scope, for the
    grants are attached to the role and not to the assignment. *)
Theorem assign_role_exact pid name scope by_ tpl q perm target ctx t s :
  get_role_template name = Ok tpl ->
  let s' := (assign_role_to_participant pid name scope by_ s).2 in
  is_ok (assign_role_to_participant pid name scope by_ s).1 /\
  (entitled (auth_view s'.1) t q perm target ctx <->
   entitled (auth_view s.1) t q perm target ctx \/
   gained (auth_view s.1) t pid tpl scope q perm target ctx).
Proof.
  intros Htpl s'. destruct (assign_role_spec pid name scope by_ tpl s Htpl)
    as (a & gs & Hr & Ha & Hgs & Hv). split; [by exists a|].
  fold s' in Hv. rewrite Hv. by apply entitled_after_assignment.
Qed.
End properties.

(** ** Evaluated instances *)
#[local] Existing Instance tick_oracle.


Lemma empty_perpetual : perpetual empty_auth_state.
Proof. by split; intros ? ?%elem_of_nil. Qed.

Lemma authorize_iff_entitled_witness :
  exists d ev s', authorize (R := AuthState) "nobody" CARD_VIEW global_scope None
      (empty_auth_state, mkEnv 0 0) = (Ok d, s') /\ dec_allowed d = false /\
    auth_view s'.1 = with_audit ev empty_auth_state.
Proof.
  assert (Hwf : auth_wf (auth_view empty_auth_state)) by exact (perpetual_wf _ empty_perpetual).
  destruct (authorize_iff_entitled (R := AuthState) "nobody" CARD_VIEW global_scope None
              (empty_auth_state, mkEnv 0 0) Hwf)
    as (d & ev & s' & Hrun & _ & _ & _ & Hv).
  exists d, ev, s'. split; [exact Hrun|]. split; [|exact Hv].
  vm_compute in Hrun. injection Hrun as <- _. reflexivity.
Defined.



(** Alice works on card [a]; assigning the worker role to Bob on card [b]
    entitles her there too. *)
Definition alice_works : AuthState * Env :=
  (assign_role_to_participant "alice" WORKER (mkScope ST_CARD (Some "a")) None
     (upsert_participant (mkParticipant "alice" PT_HUMAN None PS_ACTIVE None None [] (Aware 0) None)
        (empty_auth_state, mkEnv 0 0)).2).2.

Definition alice : Participant :=
  mkParticipant "alice" PT_HUMAN None PS_ACTIVE None None [] (Aware 0) None.
Definition alice_assignment : RoleAssignment :=
  mkRoleAssignment 0 "alice" "builtin:worker" (mkScope ST_CARD (Some "a")) None None
    (Aware 0) None [("builtin_role", VStr "worker")].

Lemma alice_gains tpl :
  get_role_template WORKER = Ok tpl ->
  gained (auth_view alice_works.1) 0 "bob" tpl (mkScope ST_CARD (Some "b")) "alice" CARD_CLAIM
    (mkScope ST_CARD (Some "b")) None.
Proof.
  intros Htpl. vm_compute in Htpl. injection Htpl as <-.
  exists alice. split; [vm_compute; reflexivity|]. split; [reflexivity|]. left.
  split; [|split; [right; left | vm_compute; reflexivity]]. right. exists alice_assignment.
  split; [vm_compute; left|]. split; [reflexivity|]. split; [reflexivity|].
  split; [reflexivity | discriminate].
Qed.

Lemma assign_role_exact_witness :
  entitled (auth_view (assign_role_to_participant "bob" WORKER (mkScope ST_CARD (Some "b")) None
                         alice_works).2.1)
    0 "alice" CARD_CLAIM (mkScope ST_CARD (Some "b")) None.
Proof.
  destruct (get_role_template_ok WORKER) as (tpl & Htpl & _).
  exact (proj2 (proj2 (assign_role_exact (R := AuthState) "bob" WORKER (mkScope ST_CARD (Some "b"))
           None tpl "alice" CARD_CLAIM (mkScope ST_CARD (Some "b")) None 0 alice_works Htpl))
           (or_intror (alice_gains tpl Htpl))).
Defined.
