(* ===== verification/Registry.v ===== *)
(** * The Patch Panel registry ([registry/service.py])

    [PatchPanelRegistry] is the protocol, [RegistrySpec] what a registry
    promises over an abstract finite map of entries;
    [InMemoryPatchPanelRegistry] is an instance of both. *)
From Stdlib Require Import ZArith Ascii String.
From stdpp Require Import gmap.
From S2P Require Import Prelude Values Authority Models.
Open Scope string_scope.
Open Scope list_scope.

Record PatchPanelRegistrySearch : Type := mkSearch {
  sr_tag : option string;
  sr_input_type : option string;
  sr_output_type : option string;
  sr_required_tool : option string;
  sr_risk_level : option string;
  sr_owner_participant_id : option string;
  sr_include_archived : bool;
  sr_include_superseded : bool;
}.

Definition no_filter : PatchPanelRegistrySearch := mkSearch None None None None None None false false.

(** [f and f not in values]. *)
Definition lacks (f : option string) (values : list string) : bool :=
  truthy f && negb (str_in (str_or f "") values).
(** [f and f != value]. *)
Definition differs (f value : option string) : bool :=
  truthy f && negb (bool_decide (f = value)).

Definition _entry_matches (entry : PatchPanelRegistryEntry) (filters : PatchPanelRegistrySearch) :
    bool :=
  if negb (sr_include_archived filters) && bool_decide (re_status entry = ARCHIVED) then false
  else if negb (sr_include_superseded filters) && bool_decide (re_status entry = SUPERSEDED)
  then false
  else if lacks (sr_tag filters) (re_tags entry) then false
  else if lacks (sr_input_type filters) (re_input_types entry) then false
  else if lacks (sr_output_type filters) (re_output_types entry) then false
  else if lacks (sr_required_tool filters) (re_required_tools entry) then false
  else if differs (sr_risk_level filters) (re_risk_level entry) then false
  else if differs (sr_owner_participant_id filters) (re_owner_participant_id entry) then false
  else true.

(** ** Copies with updated fields *)
Definition entry_with_metadata_at (t : datetime) (m : PatchPanelRegistryMetadata)
    (e : PatchPanelRegistryEntry) : PatchPanelRegistryEntry :=
  mkRegistryEntry (re_id e) (re_patch_panel_id e) (re_version e) (rm_name m) (rm_description m)
    (rm_tags m) (rm_input_types m) (rm_output_types m) (rm_required_tools m)
    (rm_required_permissions m) (rm_risk_level m) (rm_estimated_cost m) (rm_estimated_latency m)
    (rm_owner_participant_id m) (rm_status m) (re_supersedes_entry_id e) (re_metadata e)
    (re_created_at e) t (re_archived_at e).

Definition archived_entry (archived_at updated_at : datetime) (e : PatchPanelRegistryEntry) :
    PatchPanelRegistryEntry :=
  mkRegistryEntry (re_id e) (re_patch_panel_id e) (re_version e) (re_name e) (re_description e)
    (re_tags e) (re_input_types e) (re_output_types e) (re_required_tools e)
    (re_required_permissions e) (re_risk_level e) (re_estimated_cost e) (re_estimated_latency e)
    (re_owner_participant_id e) ARCHIVED (re_supersedes_entry_id e) (re_metadata e)
    (re_created_at e) updated_at (Some archived_at).

Definition superseded_entry (by_ : UUID) (updated_at : datetime) (e : PatchPanelRegistryEntry) :
    PatchPanelRegistryEntry :=
  mkRegistryEntry (re_id e) (re_patch_panel_id e) (re_version e) (re_name e) (re_description e)
    (re_tags e) (re_input_types e) (re_output_types e) (re_required_tools e)
    (re_required_permissions e) (re_risk_level e) (re_estimated_cost e) (re_estimated_latency e)
    (re_owner_participant_id e) SUPERSEDED (Some by_) (re_metadata e) (re_created_at e)
    updated_at (re_archived_at e).

Definition entry_not_found (entry_id : UUID) : exn :=
  NotFoundError ("Patch Panel registry entry '" +:+ uuid_str entry_id +:+ "' does not exist").
Definition not_a_draft : exn := ConflictError "only draft registry entries can be edited".

Section entry.
Context `{Oracle} {S : Type}.

Definition _entry_with_metadata (entry : PatchPanelRegistryEntry)
    (metadata : PatchPanelRegistryMetadata) : M S PatchPanelRegistryEntry :=
  t ← now; mret (entry_with_metadata_at t metadata entry).
End entry.

(** ** The protocol *)
Class PatchPanelRegistry (R : Type) : Type := {
  rg_register (entry : PatchPanelRegistryEntry) : M R PatchPanelRegistryEntry;
  rg_get (entry_id : UUID) : M R PatchPanelRegistryEntry;
  rg_search (filters : PatchPanelRegistrySearch) : M R (list PatchPanelRegistryEntry);
  rg_update_metadata (entry_id : UUID) (metadata : PatchPanelRegistryMetadata) :
    M R PatchPanelRegistryEntry;
  rg_archive (entry_id : UUID) : M R PatchPanelRegistryEntry;
  rg_supersede (entry_id superseded_by_entry_id : UUID) : M R PatchPanelRegistryEntry;
}.

(** ** The in-memory registry *)
Abbreviation RegistryState := (list (UUID * PatchPanelRegistryEntry)).

Section memory.
Context `{Oracle}.

Definition store_entry (entry : PatchPanelRegistryEntry) : M RegistryState () :=
  modify (dict_set (re_id entry) entry).

Definition register (entry : PatchPanelRegistryEntry) : M RegistryState PatchPanelRegistryEntry :=
  _ ← store_entry entry; mret entry.

Definition get_entry (entry_id : UUID) : M RegistryState PatchPanelRegistryEntry :=
  st ← get;
  match dict_get entry_id st with
  | Some e => mret e
  | None => raise (entry_not_found entry_id)
  end.

Definition search (filters : PatchPanelRegistrySearch) :
    M RegistryState (list PatchPanelRegistryEntry) :=
  st ← get; mret (py_filter (fun e => _entry_matches e filters) (dict_values st)).

Definition update_metadata (entry_id : UUID) (metadata : PatchPanelRegistryMetadata) :
    M RegistryState PatchPanelRegistryEntry :=
  entry ← get_entry entry_id;
  if negb (bool_decide (re_status entry = DRAFT)) then raise not_a_draft
  else
    updated ← _entry_with_metadata entry metadata;
    _ ← store_entry updated;
    mret updated.

Definition archive (entry_id : UUID) : M RegistryState PatchPanelRegistryEntry :=
  entry ← get_entry entry_id;
  archived_at ← now; updated_at ← now;
  let entry := archived_entry archived_at updated_at entry in
  _ ← store_entry entry;
  mret entry.

Definition supersede (entry_id superseded_by_entry_id : UUID) :
    M RegistryState PatchPanelRegistryEntry :=
  entry ← get_entry entry_id;
  updated_at ← now;
  let entry := superseded_entry superseded_by_entry_id updated_at entry in
  _ ← store_entry entry;
  mret entry.

#[export] Instance in_memory_registry : PatchPanelRegistry RegistryState := {|
  rg_register := register;
  rg_get := get_entry;
  rg_search := search;
  rg_update_metadata := update_metadata;
  rg_archive := archive;
  rg_supersede := supersede;
|}.
End memory.

(** ** What a registry promises

    [reg_view] is the abstract state and [reg_admits] the entries the store
    can hold. An operation on an unknown entry
    raises [NotFoundError], editing a published one [ConflictError], and a
    registry that raises has changed nothing. *)
Abbreviation entry_map := (gmap UUID PatchPanelRegistryEntry).

(** [r] is what a lookup answers, and nothing changed. *)
Definition lookup_or_raise {A} (found : option A) (x : exn) (r : res A) : Prop :=
  r = match found with Some a => Ok a | None => Raise x end.

Section spec.
Context {R : Type} (view : R -> entry_map).

(** The stored entry is replaced by a copy made at some instants. *)
Definition replaces (entry_id : UUID) (copy : datetime -> datetime -> PatchPanelRegistryEntry ->
    PatchPanelRegistryEntry) (ok : PatchPanelRegistryEntry -> bool)
    (s : R * Env) (r : res PatchPanelRegistryEntry) (s' : R * Env) : Prop :=
  match view s.1 !! entry_id with
  | None => r = Raise (entry_not_found entry_id) /\ view s'.1 = view s.1
  | Some e =>
      if ok e then exists t1 t2, r = Ok (copy t1 t2 e) /\
        view s'.1 = <[entry_id := copy t1 t2 e]> (view s.1)
      else r = Raise not_a_draft /\ view s'.1 = view s.1
  end.
End spec.

Class RegistrySpec (R : Type) `{Oracle} `{PatchPanelRegistry R} : Type := {
  reg_view : R -> entry_map;
  reg_inv : R -> Prop;
  reg_admits : R -> PatchPanelRegistryEntry -> Prop;
  register_spec e (s : R * Env) :
    reg_inv s.1 -> reg_admits s.1 e -> reg_view s.1 !! re_id e = None ->
    wp (rg_register e) (fun r s' => r = Ok e /\ reg_inv s'.1 /\
      reg_view s'.1 = <[re_id e := e]> (reg_view s.1)) s;
  get_spec i (s : R * Env) :
    reg_inv s.1 ->
    wp (rg_get i) (fun r s' => s' = s /\
      lookup_or_raise (reg_view s.1 !! i) (entry_not_found i) r) s;
  search_spec f (s : R * Env) :
    reg_inv s.1 ->
    wp (rg_search f) (fun r s' => s' = s /\ exists l, r = Ok l /\ NoDup (map re_id l) /\
      forall e, e ∈ l <-> reg_view s.1 !! re_id e = Some e /\ _entry_matches e f = true) s;
  update_spec i m (s : R * Env) :
    reg_inv s.1 ->
    (forall e us, reg_view s.1 !! i = Some e -> reg_admits s.1 (entry_with_metadata_at (Aware us) m e)) ->
    wp (rg_update_metadata i m) (fun r s' => reg_inv s'.1 /\
      replaces reg_view i (fun t _ => entry_with_metadata_at t m)
        (fun e => bool_decide (re_status e = DRAFT)) s r s') s;
  archive_spec i (s : R * Env) :
    reg_inv s.1 ->
    wp (rg_archive i) (fun r s' => reg_inv s'.1 /\
      replaces reg_view i archived_entry (fun _ => true) s r s') s;
  supersede_spec i j (s : R * Env) :
    reg_inv s.1 ->
    (forall e us, reg_view s.1 !! i = Some e -> reg_admits s.1 (superseded_entry j (Aware us) e)) ->
    wp (rg_supersede i j) (fun r s' => reg_inv s'.1 /\
      replaces reg_view i (fun t _ => superseded_entry j t) (fun _ => true) s r s') s;
}.

(** ** The in-memory registry keeps the promise *)
Definition dict_map {V} (d : list (UUID * V)) : gmap UUID V := list_to_map d.

Lemma dict_map_lookup {V} (d : list (UUID * V)) k : dict_map d !! k = dict_get k d.
Proof.
  unfold dict_map. induction d as [|[k' v] d IH]; simpl; [apply lookup_empty|].
  case_decide as Hk; [subst; apply lookup_insert_eq|]. rewrite lookup_insert_ne by done. exact IH.
Qed.

Lemma dict_map_set {V} (d : list (UUID * V)) k v : dict_map (dict_set k v d) = <[k := v]> (dict_map d).
Proof.
  apply map_eq. intros j. rewrite dict_map_lookup, dict_get_set.
  case_decide as Hj; [subst; by rewrite lookup_insert_eq|].
  by rewrite lookup_insert_ne, dict_map_lookup.
Qed.

(** Every entry is stored under its id, once. *)
Record registry_inv (st : RegistryState) : Prop := {
  reg_keys : NoDup (dict_keys st);
  reg_ids k e : dict_get k st = Some e -> re_id e = k;
}.

Lemma registry_inv_set st e : registry_inv st -> registry_inv (dict_set (re_id e) e st).
Proof.
  intros [Hk Hi]. split; [by apply dict_set_NoDup|]. intros k e'. rewrite dict_get_set.
  case_decide; [by intros [= <-] | apply Hi].
Qed.

Lemma registry_values st e :
  registry_inv st -> e ∈ dict_values st <-> dict_get (re_id e) st = Some e.
Proof.
  intros [Hk Hi]. split; [|apply dict_get_value].
  intros He. destruct (dict_value_get e st Hk He) as [k Hg]. by rewrite (Hi k e Hg).
Qed.

Lemma registry_values_ids st : registry_inv st -> map re_id (dict_values st) = dict_keys st.
Proof.
  intros [Hk Hi]. assert (Hin : forall k e, (k, e) ∈ st -> re_id e = k).
  { intros k e Hke. apply Hi. by apply dict_elem_get. }
  clear Hk Hi. unfold dict_values, dict_keys. induction st as [|[k e] st IH]; [done|].
  cbn. rewrite (Hin k e) by left. f_equal. apply IH. intros k' e' ?. apply Hin. by right.
Qed.

Section memory_spec.
Context `{Oracle}.

Lemma wp_get_entry i Q (s : RegistryState * Env) :
  (forall e, dict_get i s.1 = Some e -> Q (Ok e) s) ->
  (dict_get i s.1 = None -> Q (Raise (entry_not_found i)) s) -> wp (get_entry i) Q s.
Proof.
  intros Hok Hno. apply wp_bind, wp_get. destruct (dict_get i s.1) eqn:E; [by apply wp_ret, Hok|].
  by apply wp_raise, Hno.
Qed.

(** A guarded copy of a stored entry. *)
Lemma wp_replace i copy ok (m : PatchPanelRegistryEntry -> M RegistryState PatchPanelRegistryEntry)
    (s : RegistryState * Env) :
  registry_inv s.1 -> (forall t1 t2 e, re_id (copy t1 t2 e) = re_id e) ->
  (forall e, dict_get i s.1 = Some e -> ok e = true ->
     wp (m e) (fun r s' => exists t1 t2, r = Ok (copy t1 t2 e) /\
       s'.1 = dict_set (re_id (copy t1 t2 e)) (copy t1 t2 e) s.1) s) ->
  (forall e, dict_get i s.1 = Some e -> ok e = false ->
     wp (m e) (fun r s' => r = Raise not_a_draft /\ s' = s) s) ->
  wp (e ← get_entry i; m e) (fun r s' => registry_inv s'.1 /\
     replaces dict_map i copy ok s r s') s.
Proof.
  intros Hi Hid Hok Hno. apply wp_bind, wp_get_entry.
  - intros e He. unfold replaces. rewrite dict_map_lookup, He.
    pose proof (reg_ids _ Hi _ _ He) as Hei. destruct (ok e) eqn:E.
    + eapply wp_mono; [by apply Hok|]. intros r s' (t1 & t2 & -> & Hs).
      rewrite Hs. split; [by apply registry_inv_set|]. exists t1, t2. split; [done|].
      by rewrite dict_map_set, Hid, Hei.
    + eapply wp_mono; [by apply Hno|]. intros r s' (-> & ->). done.
  - intros He. unfold replaces. rewrite dict_map_lookup, He. done.
Qed.

#[export] Instance in_memory_registry_spec : RegistrySpec RegistryState.
Proof.
  refine {| reg_view := dict_map; reg_inv := registry_inv; reg_admits := fun _ _ => True |}.
  - intros e s Hi _ _. apply wp_bind, wp_modify, wp_ret. simpl.
    split; [done|]. split; [by apply registry_inv_set | apply dict_map_set].
  - intros i s Hi. apply wp_get_entry.
    + intros e He. split; [done|]. unfold lookup_or_raise. by rewrite dict_map_lookup, He.
    + intros He. split; [done|]. unfold lookup_or_raise. by rewrite dict_map_lookup, He.
  - intros f s Hi. apply wp_bind, wp_get, wp_ret. split; [done|].
    eexists. split; [done|]. split.
    + apply filter_NoDup_map. rewrite registry_values_ids by done. apply Hi.
    + intros e. rewrite elem_of_py_filter, dict_map_lookup, registry_values by done. done.
  - intros i m s Hi _. apply (wp_replace i (fun t _ => entry_with_metadata_at t m)); [done | done | |];
      intros e He Hs; rewrite Hs; cbn [negb].
    + apply wp_bind, wp_bind, wp_now, wp_ret, wp_bind, wp_modify, wp_ret.
      eexists _, (Aware 0). done.
    + by apply wp_raise.
  - intros i s Hi. apply (wp_replace i archived_entry); [done | done | | done].
    intros e He _. apply wp_bind, wp_now, wp_bind, wp_now, wp_bind, wp_modify, wp_ret. by eexists _, _.
  - intros i j s Hi _. apply (wp_replace i (fun t _ => superseded_entry j t)); [done | done | | done].
    intros e He _. apply wp_bind, wp_now, wp_bind, wp_modify, wp_ret. by eexists _, (Aware 0).
Defined.
End memory_spec.
