(* ===== verification/Sql.v ===== *)
(** * Relational tables

    The stores on PostgreSQL go through SQLAlchemy Core: [insert], [update
    ... where] and [select ... where] on one table at a time. The engine is
    not part of the program: it is the interface [Sql], with the documented
    behaviour of the three statements as [SqlLaws]. The order of the rows of
    a [select] is unspecified, so the laws speak of permutations. [ListSql]
    is an executable instance. *)
From Stdlib Require Import ZArith Ascii String.
From S2P Require Import Prelude.
Open Scope string_scope.
Open Scope list_scope.

Class Sql : Type := {
  table : Type -> Type;
  sql_create {Row} : table Row;
  sql_select {Row} (where_ : Row -> bool) (t : table Row) : list Row;
  (** [None]: the primary key of the row is already there. *)
  sql_insert {Row} (same_key : Row -> Row -> bool) (r : Row) (t : table Row) : option (table Row);
  (** The table and the [rowcount]. *)
  sql_update {Row} (where_ : Row -> bool) (set_ : Row -> Row) (t : table Row) : table Row * nat;
}.

Definition sql_rows `{Sql} {Row} (t : table Row) : list Row := sql_select (fun _ => true) t.

Class SqlLaws `{Sql} : Prop := {
  sql_rows_create {Row} : sql_rows (sql_create (Row := Row)) = [];
  sql_select_perm {Row} p (t : table Row) : sql_select p t ≡ₚ py_filter p (sql_rows t);
  sql_insert_conflict {Row} same_key (r : Row) t :
    sql_insert same_key r t = None <-> exists x, x ∈ sql_rows t /\ same_key r x = true;
  sql_insert_rows {Row} same_key (r : Row) t t' :
    sql_insert same_key r t = Some t' -> sql_rows t' ≡ₚ r :: sql_rows t;
  sql_update_rows {Row} p f (t : table Row) :
    sql_rows (sql_update p f t).1 ≡ₚ map (fun r => if p r then f r else r) (sql_rows t);
  sql_update_count {Row} p f (t : table Row) :
    (sql_update p f t).2 = length (py_filter p (sql_rows t));
}.

(** ** Consequences shared by the stores *)
Section laws.
Context `{SqlLaws} {Row : Type}.
Implicit Types (t : table Row) (p : Row -> bool).

Lemma elem_of_select p t r : r ∈ sql_select p t <-> r ∈ sql_rows t /\ p r = true.
Proof. by rewrite sql_select_perm, elem_of_py_filter. Qed.

Lemma select_none p t : sql_select p t = [] <-> forall r, r ∈ sql_rows t -> p r = false.
Proof.
  split.
  - intros Hs r Hr. destruct (p r) eqn:E; [|done].
    assert (r ∈ sql_select p t) as Hin by by apply elem_of_select.
    rewrite Hs in Hin. by apply elem_of_nil in Hin.
  - intros Hall. apply elem_of_nil_inv. intros r [Hr Hp]%elem_of_select.
    by rewrite Hall in Hp.
Qed.

Lemma update_count_zero p f t :
  (sql_update p f t).2 = 0 <-> forall r, r ∈ sql_rows t -> p r = false.
Proof.
  rewrite sql_update_count, length_zero_iff_nil. split.
  - intros Hs r Hr. destruct (p r) eqn:E; [|done].
    assert (r ∈ py_filter p (sql_rows t)) as Hin by by apply elem_of_py_filter.
    rewrite Hs in Hin. by apply elem_of_nil in Hin.
  - intros Hall. apply elem_of_nil_inv. intros r [Hr Hp]%elem_of_py_filter.
    by rewrite Hall in Hp.
Qed.
End laws.

(** ** An executable instance *)
Module ListSql.

#[export] Instance sql : Sql := {|
  table := list;
  sql_create _ := [];
  sql_select _ p t := py_filter p t;
  sql_insert _ same_key r t := if existsb (same_key r) t then None else Some (t ++ [r]);
  sql_update _ p f t := (map (fun r => if p r then f r else r) t, length (py_filter p t));
|}.

Lemma rows_list {Row} (t : list Row) : sql_rows (t : table Row) = t.
Proof.
  unfold sql_rows. cbn. induction t as [|r t IH]; cbn; [done|]. f_equal. exact IH.
Qed.

#[export] Instance sql_laws : SqlLaws.
Proof.
  split.
  - done.
  - intros Row p t. by rewrite rows_list.
  - intros Row same_key r t. rewrite rows_list. cbn. rewrite <- existsb_true.
    destruct (existsb _ t); split; congruence.
  - intros Row same_key r t t'. rewrite !rows_list. cbn. destruct (existsb _ t); [done|].
    intros [= <-]. by rewrite Permutation_app_comm.
  - intros Row p f t. by rewrite !rows_list.
  - intros Row p f t. by rewrite rows_list.
Qed.
End ListSql.
