(* ===== verification/PostgresRegistry.v ===== *)
(** * The registry on PostgreSQL ([registry/service.py], [PostgresPatchPanelRegistry])

    Rows, their encoding and decoding, the statements of every method, and
    the proof that the store keeps the promise [RegistrySpec] of the
    in-memory registry. *)
From Stdlib Require Import ZArith Ascii String.
From stdpp Require Import gmap.
From S2P Require Import Prelude Values Authority Models Registry Sql.
Open Scope string_scope.
Open Scope list_scope.

(** A row of [patch_panel_registry_entries] ([persistence/tables.py]). *)
Record RegistryRow : Type := mkRegistryRow {
  row_id : UUID;
  row_patch_panel_id : string;
  row_version : string;
  row_name : string;
  row_description : option string;
  row_tags : list string;
  row_input_types : list string;
  row_output_types : list string;
  row_required_tools : list string;
  row_required_permissions : list string;
  row_risk_level : option string;
  row_estimated_cost : option string;
  row_estimated_latency : option string;
  row_owner_participant_id : option string;
  row_status : string;
  row_supersedes_entry_id : option UUID;
  row_registry_metadata : doc;
  row_created_at : datetime;
  row_updated_at : datetime;
  row_archived_at : option datetime;
}.

(** The columns of instants are [TIMESTAMP WITH TIME ZONE]: the engine reads
    a value without a zone in that of the session, UTC, and returns values
    with a zone. *)
Definition _entry_values (e : PatchPanelRegistryEntry) : RegistryRow :=
  mkRegistryRow (re_id e) (re_patch_panel_id e) (re_version e) (re_name e) (re_description e)
    (re_tags e) (re_input_types e) (re_output_types e) (re_required_tools e)
    (map PermissionName_value (re_required_permissions e)) (re_risk_level e)
    (re_estimated_cost e) (re_estimated_latency e) (re_owner_participant_id e)
    (RegistryStatus_value (re_status e)) (re_supersedes_entry_id e) (re_metadata e)
    (aware (re_created_at e)) (aware (re_updated_at e)) (aware <$> re_archived_at e).

Definition _entry_from_row (r : RegistryRow) : res PatchPanelRegistryEntry :=
  permissions ← map_res PermissionName_of_value (row_required_permissions r);
  status ← RegistryStatus_of_value (row_status r);
  Ok (mkRegistryEntry (row_id r) (row_patch_panel_id r) (row_version r) (row_name r)
        (row_description r) (row_tags r) (row_input_types r) (row_output_types r)
        (row_required_tools r) permissions (row_risk_level r) (row_estimated_cost r)
        (row_estimated_latency r) (row_owner_participant_id r) status
        (row_supersedes_entry_id r) (row_registry_metadata r) (row_created_at r)
        (row_updated_at r) (row_archived_at r)).

(** [.values(status=..., archived_at=..., updated_at=...)]. *)
Definition set_archived (t : datetime) (r : RegistryRow) : RegistryRow :=
  mkRegistryRow (row_id r) (row_patch_panel_id r) (row_version r) (row_name r)
    (row_description r) (row_tags r) (row_input_types r) (row_output_types r)
    (row_required_tools r) (row_required_permissions r) (row_risk_level r)
    (row_estimated_cost r) (row_estimated_latency r) (row_owner_participant_id r)
    (RegistryStatus_value ARCHIVED) (row_supersedes_entry_id r) (row_registry_metadata r)
    (row_created_at r) t (Some t).

(** [.values(status=..., supersedes_entry_id=..., updated_at=...)]. *)
Definition set_superseded (by_ : UUID) (t : datetime) (r : RegistryRow) : RegistryRow :=
  mkRegistryRow (row_id r) (row_patch_panel_id r) (row_version r) (row_name r)
    (row_description r) (row_tags r) (row_input_types r) (row_output_types r)
    (row_required_tools r) (row_required_permissions r) (row_risk_level r)
    (row_estimated_cost r) (row_estimated_latency r) (row_owner_participant_id r)
    (RegistryStatus_value SUPERSEDED) (Some by_) (row_registry_metadata r)
    (row_created_at r) t (row_archived_at r).

(** The entry with its instants in UTC. *)
Definition entry_in_utc (e : PatchPanelRegistryEntry) : PatchPanelRegistryEntry :=
  mkRegistryEntry (re_id e) (re_patch_panel_id e) (re_version e) (re_name e) (re_description e)
    (re_tags e) (re_input_types e) (re_output_types e) (re_required_tools e)
    (re_required_permissions e) (re_risk_level e) (re_estimated_cost e) (re_estimated_latency e)
    (re_owner_participant_id e) (re_status e) (re_supersedes_entry_id e) (re_metadata e)
    (aware (re_created_at e)) (aware (re_updated_at e)) (aware <$> re_archived_at e).

(** Its instants have a zone already. *)
Definition zoned (e : PatchPanelRegistryEntry) : Prop := entry_in_utc e = e.

Lemma aware_aware t : aware (aware t) = aware t.
Proof. by destruct t. Qed.
Lemma entry_in_utc_zoned e : zoned (entry_in_utc e).
Proof. unfold zoned, entry_in_utc. cbn. rewrite !aware_aware. by destruct (re_archived_at e) as [[]|]. Qed.
Lemma entry_in_utc_values e : _entry_values (entry_in_utc e) = _entry_values e.
Proof. unfold _entry_values. cbn. rewrite !aware_aware. by destruct (re_archived_at e) as [[]|]. Qed.
Lemma zoned_fields e : zoned e <->
  aware (re_created_at e) = re_created_at e /\ aware (re_updated_at e) = re_updated_at e /\
  aware <$> re_archived_at e = re_archived_at e.
Proof.
  unfold zoned. destruct e. unfold entry_in_utc. cbn. split; [by intros [=]|]. by intros (-> & -> & ->).
Qed.

Lemma entry_roundtrip e : _entry_from_row (_entry_values e) = Ok (entry_in_utc e).
Proof.
  unfold _entry_from_row, _entry_values. cbn [row_required_permissions row_status].
  assert (map_res PermissionName_of_value (map PermissionName_value (re_required_permissions e))
          = Ok (re_required_permissions e)) as ->.
  { induction (re_required_permissions e) as [|p l IH]; [done|]. cbn [map map_res].
    rewrite PermissionName_roundtrip. cbn. by rewrite IH. }
  cbn [mbind res_bind]. rewrite RegistryStatus_roundtrip. done.
Qed.

Lemma zoned_roundtrip e : zoned e -> _entry_from_row (_entry_values e) = Ok e.
Proof. intros Hz. by rewrite entry_roundtrip, Hz. Qed.

(** ** The store

    Besides its own table, the foreign key on [participants.id]. *)
Section store.
Context `{Oracle} `{Sql}.

Record PgRegistry : Type := mkPgRegistry {
  pg_entries : table RegistryRow;
  pg_participants : list string;
}.

Definition has_row (i : UUID) (t : table RegistryRow) : bool :=
  existsb (fun r => bool_decide (row_id r = i)) (sql_rows t).

(** The foreign keys of a row: the owner, and the superseded entry (a row
    may refer to itself). *)
Definition foreign_keys_ok (st : PgRegistry) (r : RegistryRow) : bool :=
  match row_owner_participant_id r with
  | Some p => str_in p (pg_participants st)
  | None => true
  end &&
  match row_supersedes_entry_id r with
  | Some i => bool_decide (i = row_id r) || has_row i (pg_entries st)
  | None => true
  end.

Definition foreign_key_violation : exn := IntegrityError "violates foreign key constraint".
Definition unique_violation : exn := IntegrityError "duplicate key value violates unique constraint".

(** [session.execute(table.insert().values(...))] in a transaction of its
    own: an exception leaves the tables as they were. *)
Definition execute_insert (r : RegistryRow) : M PgRegistry () :=
  st ← get;
  if negb (foreign_keys_ok st r) then raise foreign_key_violation
  else match sql_insert (fun a b => bool_decide (row_id a = row_id b)) r (pg_entries st) with
       | None => raise unique_violation
       | Some t => put (mkPgRegistry t (pg_participants st))
       end.

(** [session.execute(table.update().where(id == i).values(...))]. *)
Definition execute_update (i : UUID) (set_ : RegistryRow -> RegistryRow) : M PgRegistry nat :=
  st ← get;
  let hit r := bool_decide (row_id r = i) in
  if existsb (fun r => negb (foreign_keys_ok st (set_ r))) (sql_select hit (pg_entries st))
  then raise foreign_key_violation
  else
    let '(t, n) := sql_update hit set_ (pg_entries st) in
    _ ← put (mkPgRegistry t (pg_participants st));
    mret n.

Definition pg_register (entry : PatchPanelRegistryEntry) : M PgRegistry PatchPanelRegistryEntry :=
  _ ← execute_insert (_entry_values entry); mret entry.

Definition pg_get (entry_id : UUID) : M PgRegistry PatchPanelRegistryEntry :=
  st ← get;
  match sql_select (fun r => bool_decide (row_id r = entry_id)) (pg_entries st) with
  | [] => raise (entry_not_found entry_id)
  | r :: _ => lift_res (_entry_from_row r)
  end.

Definition pg_search (filters : PatchPanelRegistrySearch) :
    M PgRegistry (list PatchPanelRegistryEntry) :=
  st ← get;
  entries ← lift_res (map_res _entry_from_row (sql_rows (pg_entries st)));
  mret (py_filter (fun e => _entry_matches e filters) entries).

Definition pg_update_metadata (entry_id : UUID) (metadata : PatchPanelRegistryMetadata) :
    M PgRegistry PatchPanelRegistryEntry :=
  entry ← pg_get entry_id;
  if negb (bool_decide (re_status entry = DRAFT)) then raise not_a_draft
  else
    updated ← _entry_with_metadata entry metadata;
    _ ← execute_update entry_id (fun _ => _entry_values updated);
    mret updated.

Definition pg_archive (entry_id : UUID) : M PgRegistry PatchPanelRegistryEntry :=
  archived_at ← now;
  rowcount ← execute_update entry_id (set_archived archived_at);
  if Nat.eqb rowcount 0 then raise (entry_not_found entry_id) else pg_get entry_id.

Definition pg_supersede (entry_id superseded_by_entry_id : UUID) :
    M PgRegistry PatchPanelRegistryEntry :=
  updated_at ← now;
  rowcount ← execute_update entry_id (set_superseded superseded_by_entry_id updated_at);
  if Nat.eqb rowcount 0 then raise (entry_not_found entry_id) else pg_get entry_id.

#[export] Instance postgres_registry : PatchPanelRegistry PgRegistry := {|
  rg_register := pg_register;
  rg_get := pg_get;
  rg_search := pg_search;
  rg_update_metadata := pg_update_metadata;
  rg_archive := pg_archive;
  rg_supersede := pg_supersede;
|}.
End store.

(** ** The promise *)
Section refinement.
Context `{Oracle} `{SqlLaws}.

(** The table holds exactly the rows of [es]. *)
Record stored (st : PgRegistry) (es : list PatchPanelRegistryEntry) : Prop := {
  st_rows : sql_rows (pg_entries st) ≡ₚ map _entry_values es;
  st_ids : NoDup (map re_id es);
  st_keys e : e ∈ es -> foreign_keys_ok st (_entry_values e) = true;
  st_zoned e : e ∈ es -> zoned e;
}.

Definition decoded (r : RegistryRow) : option (UUID * PatchPanelRegistryEntry) :=
  match _entry_from_row r with Ok e => Some (re_id e, e) | Raise _ => None end.

Definition pg_view (st : PgRegistry) : entry_map :=
  list_to_map (omap decoded (sql_rows (pg_entries st))).

Definition pg_inv (st : PgRegistry) : Prop := exists es, stored st es.

Lemma decode_rows es : (forall e, e ∈ es -> zoned e) ->
  omap decoded (map _entry_values es) = map (fun e => (re_id e, e)) es.
Proof.
  induction es as [|e es IH]; intros Hz; [done|]. cbn. unfold decoded at 1.
  rewrite zoned_roundtrip by (apply Hz; by left). cbn. f_equal. apply IH. intros x Hx. apply Hz. by right.
Qed.

Lemma view_lookup st es i e : stored st es -> pg_view st !! i = Some e <-> e ∈ es /\ re_id e = i.
Proof.
  intros Hs. unfold pg_view.
  assert (Hkeys : NoDup ((map (fun e => (re_id e, e)) es).*1)).
  { pose proof (st_ids _ _ Hs) as Hnd. clear -Hnd.
    assert ((map (fun e => (re_id e, e)) es).*1 = map re_id es) as ->; [|done].
    clear Hnd. induction es as [|e es IH]; [done|]. cbn. f_equal. exact IH. }
  assert (Hperm : map (fun e => (re_id e, e)) es ≡ₚ omap decoded (sql_rows (pg_entries st))).
  { rewrite <- decode_rows by apply Hs. by rewrite (st_rows _ _ Hs). }
  rewrite <- (list_to_map_proper _ _ Hkeys Hperm).
  rewrite <- elem_of_list_to_map by done. rewrite list_elem_of_fmap. naive_solver.
Qed.

Lemma view_none st es i : stored st es -> pg_view st !! i = None <-> forall e, e ∈ es -> re_id e <> i.
Proof.
  intros Hs. rewrite eq_None_not_Some. unfold is_Some. setoid_rewrite (view_lookup st es i _ Hs).
  naive_solver.
Qed.

Lemma view_ext st es m :
  stored st es -> (forall i e, m !! i = Some e <-> e ∈ es /\ re_id e = i) -> pg_view st = m.
Proof.
  intros Hs Hm. apply map_eq. intros i. apply option_eq. intros e.
  by rewrite Hm, (view_lookup st es i e Hs).
Qed.

Lemma stored_unique st es e e' :
  stored st es -> e ∈ es -> e' ∈ es -> re_id e = re_id e' -> e = e'.
Proof.
  intros Hs He He' Hid. pose proof (proj2 (view_lookup st es (re_id e) e Hs) (conj He eq_refl)) as G1.
  pose proof (proj2 (view_lookup st es (re_id e) e' Hs) (conj He' (eq_sym Hid))) as G2. congruence.
Qed.

Lemma elem_of_rows st es r :
  stored st es -> r ∈ sql_rows (pg_entries st) <-> exists e, e ∈ es /\ r = _entry_values e.
Proof. intros Hs. rewrite (st_rows _ _ Hs), list_elem_of_fmap. naive_solver. Qed.

(** Selecting by primary key. *)
Lemma select_id st es i :
  stored st es ->
  match pg_view st !! i with
  | Some e => exists l, sql_select (fun r => bool_decide (row_id r = i)) (pg_entries st)
                = _entry_values e :: l
  | None => sql_select (fun r => bool_decide (row_id r = i)) (pg_entries st) = []
  end.
Proof.
  intros Hs. set (p := fun r => _).
  destruct (pg_view st !! i) as [e|] eqn:E.
  - apply (view_lookup _ _ _ _ Hs) in E as [He Hid].
    assert (_entry_values e ∈ sql_select p (pg_entries st)) as Hin.
    { apply elem_of_select. split; [apply (elem_of_rows _ _ _ Hs); eauto|].
      apply bool_decide_eq_true. exact Hid. }
    destruct (sql_select p (pg_entries st)) as [|r l] eqn:El; [by apply elem_of_nil in Hin|].
    assert (r ∈ sql_select p (pg_entries st)) as Hr by (rewrite El; left).
    apply elem_of_select in Hr as [Hr Hp%bool_decide_eq_true].
    apply (elem_of_rows _ _ _ Hs) in Hr as (e' & He' & ->).
    cbn in Hp. assert (e' = e) as -> by (apply (stored_unique st es); [done..|congruence]). by exists l.
  - apply select_none. intros r (e & He & ->)%(elem_of_rows _ _ _ Hs).
    apply bool_decide_eq_false. by apply (proj1 (view_none _ _ _ Hs) E).
Qed.

Lemma wp_pg_get i (Q : res PatchPanelRegistryEntry -> PgRegistry * Env -> Prop) s :
  pg_inv s.1 ->
  Q (match pg_view s.1 !! i with Some e => Ok e | None => Raise (entry_not_found i) end) s ->
  wp (pg_get i) Q s.
Proof.
  intros [es Hs] HQ. apply wp_bind, wp_get. pose proof (select_id _ _ i Hs) as Hsel.
  destruct (pg_view s.1 !! i) as [e|] eqn:Ev.
  - destruct Hsel as [l ->]. apply wp_lift_res. rewrite zoned_roundtrip; [done|].
    apply (st_zoned _ _ Hs). by apply (proj1 (view_lookup _ _ _ _ Hs) Ev).
  - rewrite Hsel. by apply wp_raise.
Qed.

(** Replacing the entry under [i] by a copy with the same id. *)
Definition replace_in (i : UUID) (c : PatchPanelRegistryEntry) (es : list PatchPanelRegistryEntry) :=
  map (fun e => if bool_decide (re_id e = i) then c else e) es.

Lemma replace_ids i c es : re_id c = i -> map re_id (replace_in i c es) = map re_id es.
Proof.
  intros Hc. unfold replace_in. rewrite map_map. apply map_ext. intros e.
  case_bool_decide; congruence.
Qed.

(** The keys of a table that holds [es]. *)
Lemma has_row_ids k t es : sql_rows t ≡ₚ map _entry_values es -> has_row k t = bool_decide (k ∈ map re_id es).
Proof.
  intros Hrows. apply eq_true_iff_eq. unfold has_row. rewrite existsb_true, bool_decide_eq_true.
  setoid_rewrite Hrows. rewrite list_elem_of_fmap. setoid_rewrite list_elem_of_fmap.
  setoid_rewrite bool_decide_eq_true. naive_solver.
Qed.

Lemma foreign_keys_ext st t r :
  (forall k, has_row k t = has_row k (pg_entries st)) ->
  foreign_keys_ok (mkPgRegistry t (pg_participants st)) r = foreign_keys_ok st r.
Proof.
  intros Hk. unfold foreign_keys_ok. cbn. by destruct (row_supersedes_entry_id r); rewrite ?Hk.
Qed.

Lemma update_stored st es i e c set_ :
  stored st es -> pg_view st !! i = Some e -> re_id c = i -> set_ (_entry_values e) = _entry_values c ->
  foreign_keys_ok st (_entry_values c) = true -> zoned c ->
  let t := (sql_update (fun r => bool_decide (row_id r = i)) set_ (pg_entries st)).1 in
  let st' := mkPgRegistry t (pg_participants st) in
  stored st' (replace_in i c es) /\ pg_view st' = <[i := c]> (pg_view st).
Proof.
  intros Hs He Hc Hset Hfk Hz t st'. apply (view_lookup _ _ _ _ Hs) in He as [He Hid].
  assert (Hrows : sql_rows t ≡ₚ map _entry_values (replace_in i c es)).
  { unfold t. rewrite sql_update_rows, (st_rows _ _ Hs). unfold replace_in. rewrite !map_map.
    assert (forall x, x ∈ es -> (if bool_decide (row_id (_entry_values x) = i)
                then set_ (_entry_values x) else _entry_values x)
              = _entry_values (if bool_decide (re_id x = i) then c else x)) as Hx.
    { intros x Hx. cbn [row_id _entry_values]. case_bool_decide as Hi; [|done].
      rewrite <- Hset. f_equal. f_equal. apply (stored_unique st es); [done..|congruence]. }
    clear -Hx. induction es as [|x es IH]; [done|]. cbn [map]. rewrite Hx by left.
    constructor. apply IH. intros y Hy. apply Hx. by right. }
  assert (Hfks : forall r, foreign_keys_ok st' r = foreign_keys_ok st r).
  { intros r. apply foreign_keys_ext. intros k.
    by rewrite (has_row_ids k t _ Hrows), (has_row_ids k _ es (st_rows _ _ Hs)), replace_ids. }
  assert (Hs' : stored st' (replace_in i c es)).
  { split; [done | rewrite replace_ids by done; apply Hs | |];
      intros x (y & -> & Hy)%list_elem_of_fmap; rewrite ?Hfks;
      (case_bool_decide; [done | by apply Hs]). }
  split; [done|]. apply (view_ext _ _ _ Hs'). intros j x.
  rewrite lookup_insert_Some, (view_lookup _ _ _ _ Hs). unfold replace_in.
  rewrite list_elem_of_fmap. split.
  - intros [[<- <-]|(Hne & Hx & Hj)].
    + split; [|done]. exists e. by rewrite bool_decide_eq_true_2.
    + split; [|done]. exists x. rewrite bool_decide_eq_false_2 by congruence. done.
  - intros [(y & -> & Hy) Hj]. case_bool_decide; [left | right]; naive_solver.
Qed.

(** The update statement, on a stored entry or on none. *)
Lemma wp_update i set_ c (Q : res nat -> PgRegistry * Env -> Prop) s :
  pg_inv s.1 ->
  (forall e, pg_view s.1 !! i = Some e -> set_ (_entry_values e) = _entry_values (c e) /\
     re_id (c e) = i /\ foreign_keys_ok s.1 (_entry_values (c e)) = true /\ zoned (c e)) ->
  (pg_view s.1 !! i = None -> forall s', pg_inv s'.1 -> pg_view s'.1 = pg_view s.1 -> Q (Ok 0) s') ->
  (forall e n s', pg_view s.1 !! i = Some e -> n <> 0 -> pg_inv s'.1 ->
     pg_view s'.1 = <[i := c e]> (pg_view s.1) -> Q (Ok n) s') ->
  wp (execute_update i set_) Q s.
Proof.
  intros [es Hs] Hc Hnone Hsome. unfold execute_update. apply wp_bind, wp_get.
  set (hit := fun r => bool_decide (row_id r = i)).
  assert (existsb (fun r => negb (foreign_keys_ok s.1 (set_ r)))
                   (sql_select hit (pg_entries s.1)) = false) as ->.
  { apply existsb_false. intros r [Hr Hh%bool_decide_eq_true]%elem_of_select.
    apply (elem_of_rows _ _ _ Hs) in Hr as (e & He & ->). cbn in Hh.
    destruct (Hc e) as (-> & _ & -> & _); [by apply (view_lookup _ _ _ _ Hs) | done]. }
  destruct (sql_update hit set_ (pg_entries s.1)) as [t n] eqn:Eu.
  apply wp_bind, wp_put, wp_ret. destruct (pg_view s.1 !! i) as [e|] eqn:Ev.
  - pose proof (proj1 (view_lookup _ _ _ _ Hs) Ev) as [He Hei].
    destruct (Hc e eq_refl) as (Hset & Hid & Hfk & Hzone).
    destruct (update_stored s.1 es i e (c e) set_ Hs Ev Hid Hset Hfk Hzone) as [Hs' Hv].
    fold hit in Hs', Hv. rewrite Eu in Hs', Hv. apply (Hsome e); [done | | by eexists | exact Hv].
    intros ->. assert (Hz : (sql_update hit set_ (pg_entries s.1)).2 = 0) by by rewrite Eu.
    rewrite update_count_zero in Hz. specialize (Hz (_entry_values e)). unfold hit in Hz.
    rewrite bool_decide_eq_true_2 in Hz by exact Hei. discriminate Hz.
    apply (elem_of_rows _ _ _ Hs). eauto.
  - assert (Hmiss : forall r, r ∈ sql_rows (pg_entries s.1) -> hit r = false).
    { intros r (e & He & ->)%(elem_of_rows _ _ _ Hs). apply bool_decide_eq_false.
      by apply (proj1 (view_none _ _ _ Hs) Ev). }
    assert (n = 0) as ->.
    { pose proof (proj2 (update_count_zero hit set_ (pg_entries s.1)) Hmiss) as Hz. by rewrite Eu in Hz. }
    assert (Hrows : sql_rows t ≡ₚ map _entry_values es).
    { pose proof (sql_update_rows hit set_ (pg_entries s.1)) as Hr. rewrite Eu in Hr. rewrite Hr.
      rewrite <- (st_rows _ _ Hs). assert (forall l, (forall r, r ∈ l -> hit r = false) ->
        map (fun r => if hit r then set_ r else r) l = l) as Hmap.
      { induction l as [|r l IH]; intros Hl; [done|]. cbn. rewrite Hl by left. f_equal.
        apply IH. intros x Hx. apply Hl. by right. }
      by rewrite (Hmap _ Hmiss). }
    assert (Hs' : stored (mkPgRegistry t (pg_participants s.1)) es).
    { split; [done | apply Hs | | apply Hs]. intros e He. rewrite foreign_keys_ext; [by apply Hs|].
      intros k. by rewrite (has_row_ids k t es Hrows), (has_row_ids k _ es (st_rows _ _ Hs)). }
    apply Hnone; [done | by eexists|]. cbn. apply (view_ext _ _ _ Hs').
    intros j e. by apply view_lookup.
Qed.

(** What a row needs of the other rows survives an insertion. *)
Lemma foreign_keys_insert st t e r :
  sql_rows t ≡ₚ _entry_values e :: sql_rows (pg_entries st) ->
  foreign_keys_ok st r = true -> foreign_keys_ok (mkPgRegistry t (pg_participants st)) r = true.
Proof.
  intros Ht. unfold foreign_keys_ok. cbn. rewrite !andb_true_iff. intros [-> Hk]. split; [done|].
  destruct (row_supersedes_entry_id r) as [k|]; [|done]. revert Hk. unfold has_row.
  rewrite !orb_true_iff, !existsb_true. intros [?|(x & Hx & Hxk)]; [by left|]. right.
  exists x. split; [|done]. rewrite Ht. by right.
Qed.

Lemma insert_stored st es e t :
  stored st es -> zoned e -> foreign_keys_ok st (_entry_values e) = true -> pg_view st !! re_id e = None ->
  sql_rows t ≡ₚ _entry_values e :: sql_rows (pg_entries st) ->
  let st' := mkPgRegistry t (pg_participants st) in
  stored st' (e :: es) /\ pg_view st' = <[re_id e := e]> (pg_view st).
Proof.
  intros Hs Hz Hfk Hnew Ht st'.
  assert (Hfresh : forall x, x ∈ es -> re_id x <> re_id e) by by apply (view_none _ _ _ Hs).
  assert (Hs' : stored st' (e :: es)).
  { split.
    - cbn. rewrite Ht. by rewrite (st_rows _ _ Hs).
    - cbn. apply NoDup_cons. split; [|apply Hs].
      intros (x & Hx & Hin)%list_elem_of_fmap. by apply (Hfresh x).
    - intros x [->|Hx]%elem_of_cons; eapply foreign_keys_insert; eauto. by apply Hs.
    - intros x [->|Hx]%elem_of_cons; [done | by apply Hs]. }
  split; [done|]. apply (view_ext _ _ _ Hs'). intros j x.
  rewrite lookup_insert_Some, (view_lookup _ _ _ _ Hs), elem_of_cons. split.
  - intros [[<- <-]|(Hne & Hx & Hj)]; auto.
  - intros [[->|Hx] Hj]; [by left|]. right. split; [|done].
    intros He. apply (Hfresh x Hx). congruence.
Qed.

(** Registering stores the entry with its instants in UTC. *)
Lemma register_stores e s :
  pg_inv s.1 -> foreign_keys_ok s.1 (_entry_values e) = true -> pg_view s.1 !! re_id e = None ->
  wp (pg_register e) (fun r s' => r = Ok e /\ pg_inv s'.1 /\
    pg_view s'.1 = <[re_id e := entry_in_utc e]> (pg_view s.1)) s.
Proof.
  intros [es Hs] Hfk Hnew. apply wp_bind. unfold execute_insert. apply wp_bind, wp_get.
  rewrite Hfk. cbn [negb]. destruct (sql_insert _ _ _) as [t|] eqn:Ei.
  - apply wp_put, wp_ret. apply sql_insert_rows in Ei. rewrite <- entry_in_utc_values in Ei, Hfk.
    destruct (insert_stored s.1 es (entry_in_utc e) t Hs (entry_in_utc_zoned e) Hfk Hnew Ei) as [Hs' Hv].
    split; [done|]. split; [by eexists | done].
  - apply sql_insert_conflict in Ei as (r & Hr & Hid%bool_decide_eq_true). exfalso.
    apply (elem_of_rows _ _ _ Hs) in Hr as (x & Hx & ->).
    by apply (proj1 (view_none _ _ _ Hs) Hnew x).
Qed.

#[export] Instance postgres_registry_spec : RegistrySpec PgRegistry.
Proof.
  refine {| reg_view := pg_view; reg_inv := pg_inv;
            reg_admits := fun st e => foreign_keys_ok st (_entry_values e) = true /\ zoned e |}.
  - intros e s Hi [Hfk Hz] Hnew. eapply wp_mono; [by apply register_stores|].
    intros r s' (-> & Hi' & Hv). by rewrite Hz in Hv.
  - intros i s Hi. by apply wp_pg_get.
  - intros f s [es Hs]. apply wp_bind, wp_get, wp_bind, wp_lift_res.
    pose proof (st_rows _ _ Hs) as Hrows. apply Permutation_map_inv in Hrows as (es' & Hrows & Hp).
    assert (map_res _entry_from_row (sql_rows (pg_entries s.1)) = Ok es') as ->.
    { assert (Hz : forall e, e ∈ es' -> zoned e) by (intros e He; apply (st_zoned _ _ Hs); by rewrite Hp).
      rewrite Hrows. clear -Hz. induction es' as [|e l IH]; [done|]. cbn [map map_res].
      rewrite zoned_roundtrip by (apply Hz; left). cbn. rewrite IH; [done|]. intros x Hx. apply Hz. by right. }
    apply wp_ret. split; [done|]. eexists. split; [done|]. split.
    + apply filter_NoDup_map. rewrite <- Hp. apply Hs.
    + intros e. rewrite elem_of_py_filter, <- Hp, (view_lookup _ _ _ _ Hs). naive_solver.
  - intros i m s Hi Hadm. unfold replaces. apply wp_bind, wp_pg_get; [done|].
    destruct (pg_view s.1 !! i) as [e|] eqn:Ev; [|done].
    case_bool_decide as Hd; cbn [negb]; [|by apply wp_raise].
    apply wp_bind, wp_bind, wp_now, wp_ret, wp_bind. set (t := Aware _).
    pose proof Hi as [es Hs]. pose proof (proj1 (view_lookup _ _ _ _ Hs) Ev) as [_ Hid].
    eapply (wp_update i _ (fun _ => entry_with_metadata_at t m e)); [done | | |]; cbn [fst].
    + intros e' He'. split; [done|]. split; [done | by apply Hadm].
    + congruence.
    + intros e' n s' He' _ Hi' Hv'. apply wp_ret. split; [done|]. eexists t, t. done.
  - intros i s Hi. unfold replaces. apply wp_bind, wp_now, wp_bind. set (t := Aware _).
    eapply (wp_update i _ (archived_entry t t)); [done | | |]; cbn [fst].
    + intros e Hv. pose proof Hi as [es Hs].
      destruct (proj1 (view_lookup _ _ _ _ Hs) Hv) as [He Hid].
      split; [done|]. split; [done|]. split; [exact (st_keys _ _ Hs e He)|].
      apply zoned_fields. by destruct (proj1 (zoned_fields e) (st_zoned _ _ Hs e He)) as [? _].
    + intros Hn s' Hi' Hv. rewrite Hn. by apply wp_raise.
    + intros e n s' He Hn Hi' Hv. rewrite He. rewrite (proj2 (Nat.eqb_neq n 0) Hn).
      apply wp_pg_get; [done|]. rewrite Hv, lookup_insert_eq. split; [done|]. by exists t, t.
  - intros i j s Hi Hadm. unfold replaces. apply wp_bind, wp_now, wp_bind. set (t := Aware _).
    eapply (wp_update i _ (superseded_entry j t)); [done | | |]; cbn [fst].
    + intros e He. pose proof Hi as [es Hs]. split; [done|].
      split; [by destruct (proj1 (view_lookup _ _ _ _ Hs) He) | by apply Hadm].
    + intros Hn s' Hi' Hv. rewrite Hn. by apply wp_raise.
    + intros e n s' He Hn Hi' Hv. rewrite He. rewrite (proj2 (Nat.eqb_neq n 0) Hn).
      apply wp_pg_get; [done|]. rewrite Hv, lookup_insert_eq. split; [done|]. by exists t, t.
Defined.
End refinement.
