(* ===== verification/RegistryTheorems.v ===== *)
(** * What a registry guarantees

    Stated for every registry that meets [RegistrySpec], so for the in-memory
    and the PostgreSQL one alike. *)
From Stdlib Require Import ZArith Ascii String.
From stdpp Require Import gmap.
From S2P Require Import Prelude Values Authority Models Registry Sql PostgresRegistry.
Open Scope string_scope.
Open Scope list_scope.

(** What [_entry_matches] asks, declaratively. *)
Definition wants (f : option string) (P : string -> Prop) : Prop :=
  forall x, f = Some x -> x <> "" -> P x.

Record matches_filters (e : PatchPanelRegistryEntry) (f : PatchPanelRegistrySearch) : Prop := {
  mf_archived : re_status e = ARCHIVED -> sr_include_archived f = true;
  mf_superseded : re_status e = SUPERSEDED -> sr_include_superseded f = true;
  mf_tag : wants (sr_tag f) (fun x => x ∈ re_tags e);
  mf_input : wants (sr_input_type f) (fun x => x ∈ re_input_types e);
  mf_output : wants (sr_output_type f) (fun x => x ∈ re_output_types e);
  mf_tool : wants (sr_required_tool f) (fun x => x ∈ re_required_tools e);
  mf_risk : wants (sr_risk_level f) (fun x => re_risk_level e = Some x);
  mf_owner : wants (sr_owner_participant_id f) (fun x => re_owner_participant_id e = Some x);
}.

Lemma lacks_false f l : lacks f l = false <-> wants f (fun x => x ∈ l).
Proof.
  unfold lacks, wants, truthy, str_or. destruct f as [x|]; [|naive_solver]. cbn.
  case_bool_decide; cbn; [naive_solver|]. rewrite negb_false_iff, str_in_true. naive_solver.
Qed.

Lemma differs_false f v : differs f v = false <-> wants f (fun x => v = Some x).
Proof.
  unfold differs, wants, truthy. destruct f as [x|]; [|naive_solver].
  case_bool_decide; cbn; [naive_solver|].
  rewrite negb_false_iff, bool_decide_eq_true. naive_solver.
Qed.

Lemma if_false_true (b c : bool) : (if b then false else c) = true <-> b = false /\ c = true.
Proof. destruct b; naive_solver. Qed.

Lemma entry_matches_iff e f : _entry_matches e f = true <-> matches_filters e f.
Proof.
  unfold _entry_matches. rewrite !if_false_true, !lacks_false, !differs_false.
  assert (Hst : forall b s, negb b && bool_decide (re_status e = s) = false <-> (re_status e = s -> b = true)).
  { intros [] s; cbn; [naive_solver|]. rewrite bool_decide_eq_false. naive_solver. }
  rewrite !Hst. split.
  - intros (? & ? & ? & ? & ? & ? & ? & ? & _). by constructor; try assumption.
  - intros []. repeat split; assumption.
Qed.

Section registry.
Context {R : Type} `{RegistrySpec R}.

(** C15. [search] answers exactly the stored entries that match, each once:
    archived and superseded entries only on request, and every non-empty
    filter met; and an entry that has just been registered is found by
    exactly the searches it matches, while every other answer stays. *)
Theorem search_correct e f s :
  reg_inv s.1 -> reg_admits s.1 e -> reg_view s.1 !! re_id e = None ->
  exists l l',
    (rg_search f s).1 = Ok l /\ (rg_search f (rg_register e s).2).1 = Ok l' /\
    NoDup (map re_id l') /\
    (forall x, x ∈ l <-> reg_view s.1 !! re_id x = Some x /\ matches_filters x f) /\
    (forall x, x ∈ l' <-> x ∈ l \/ (x = e /\ matches_filters e f)).
Proof.
  intros Hi Ha Hn.
  destruct (search_spec f s Hi) as (_ & l & Hl & _ & Hin).
  destruct (register_spec e s Hi Ha Hn) as (_ & Hi' & Hv).
  destruct (search_spec f (rg_register e s).2 Hi') as (_ & l' & Hl' & Hnd & Hin').
  setoid_rewrite entry_matches_iff in Hin. setoid_rewrite entry_matches_iff in Hin'.
  exists l, l'. split; [done|]. split; [done|]. split; [done|]. split; [done|].
  intros x. rewrite Hin', Hin, Hv, lookup_insert_Some. split.
  - intros [[[_ <-]|[Hne Hx]] Hm]; auto.
  - intros [[Hx Hm]|[-> Hm]]; (split; [|done]); [|by left].
    right. split; [|done]. intros Heq. rewrite Heq in Hn. congruence.
Qed.

(** C16. The life cycle of an entry: only drafts can be edited (editing any
    other raises [ConflictError] and changes nothing), and archiving a
    stored entry succeeds, keeps its identity and hides it from every search
    that does not ask for archived entries, without touching the others. *)
Theorem entry_lifecycle i e m f s :
  reg_inv s.1 -> reg_view s.1 !! i = Some e -> re_id e = i -> sr_include_archived f = false ->
  (re_status e <> DRAFT ->
     (forall e us, reg_view s.1 !! i = Some e -> reg_admits s.1 (entry_with_metadata_at (Aware us) m e)) ->
     (rg_update_metadata i m s).1 = Raise not_a_draft /\
     reg_view (rg_update_metadata i m s).2.1 = reg_view s.1) /\
  exists t1 t2 l,
    let s' := (rg_archive i s).2 in
    (rg_archive i s).1 = Ok (archived_entry t1 t2 e) /\
    (rg_search f s').1 = Ok l /\ i ∉ map re_id l /\
    (forall j, j <> i -> reg_view s'.1 !! j = reg_view s.1 !! j).
Proof.
  intros Hi He Hid Hf. split.
  - intros Hd Ha. destruct (update_spec i m s Hi Ha) as [_ Hr]. unfold replaces in Hr.
    rewrite He in Hr. by rewrite bool_decide_eq_false_2 in Hr.
  - destruct (archive_spec i s Hi) as [Hi' Hr]. unfold replaces in Hr. rewrite He in Hr.
    destruct Hr as (t1 & t2 & Hok & Hv).
    destruct (search_spec f (rg_archive i s).2 Hi') as (_ & l & Hl & _ & Hin).
    exists t1, t2, l. split; [done|]. split; [done|]. split.
    + intros (x & Hx & [Hxv Hm]%Hin)%list_elem_of_fmap.
      rewrite Hv, <- Hx, lookup_insert_eq in Hxv. injection Hxv as <-.
      apply entry_matches_iff in Hm. pose proof (mf_archived _ _ Hm eq_refl). congruence.
    + intros j Hj. rewrite Hv. by rewrite lookup_insert_ne.
Qed.
End registry.

(** C17. The PostgreSQL registry keeps what it is given, whatever the order
    the engine returns rows in: a registered entry (fresh id, foreign keys
    satisfied) is read back field for field, through the encoding of its
    permissions and status, with its instants in UTC: an instant without a
    time zone comes back as the same instant of UTC, and an entry whose
    instants have a zone comes back as it is. Every other entry is read as
    before. *)
Theorem postgres_register_get `{Oracle} `{SqlLaws} e s i :
  pg_inv s.1 -> foreign_keys_ok s.1 (_entry_values e) = true -> pg_view s.1 !! re_id e = None ->
  let s' := (pg_register e s).2 in
  (pg_register e s).1 = Ok e /\ (pg_get (re_id e) s').1 = Ok (entry_in_utc e) /\
  (zoned e -> (pg_get (re_id e) s').1 = Ok e) /\
  (i <> re_id e -> (pg_get i s').1 = (pg_get i s).1).
Proof.
  intros Hi Hfk Hn s'. destruct (register_stores e s Hi Hfk Hn) as (Hok & Hi' & Hv). fold s' in Hi', Hv.
  assert (Hget : forall j t, pg_inv t.1 ->
    (pg_get j t).1 = match pg_view t.1 !! j with Some x => Ok x | None => Raise (entry_not_found j) end)
    by (intros j t Ht; by apply (wp_pg_get j (fun r _ => r = _) t)).
  rewrite !Hget, Hv, lookup_insert_eq by done. split; [done|]. split; [done|].
  split; [by intros ->|]. intros Hne. by rewrite lookup_insert_ne.
Qed.

(** ** Evaluated instances *)
#[local] Existing Instance tick_oracle.
#[local] Existing Instance ListSql.sql.
#[local] Existing Instance ListSql.sql_laws.

Definition demo_entry : PatchPanelRegistryEntry :=
  mkRegistryEntry 7 "pp" "1" "A panel" None ["tag"] ["in"] ["out"] [] [CARD_VIEW; CARD_CLAIM]
    (Some "low") None None None PUBLISHED None [] (Aware 1) (Aware 1) None.

Lemma empty_registry_inv : reg_inv (R := RegistryState) [].
Proof. split; [apply NoDup_nil_2 | done]. Qed.
Lemma empty_registry_admits : reg_admits (R := RegistryState) [] demo_entry.
Proof. exact I. Qed.

Lemma search_correct_witness :
  exists l l',
    (search no_filter ([], mkEnv 0 0)).1 = Ok l /\
    (search no_filter (register demo_entry ([], mkEnv 0 0)).2).1 = Ok l' /\
    l' = [demo_entry] /\ (demo_entry ∈ l' <-> demo_entry ∈ l \/ (demo_entry = demo_entry /\ matches_filters demo_entry no_filter)).
Proof.
  destruct (search_correct (R := RegistryState) demo_entry no_filter ([], mkEnv 0 0)
              empty_registry_inv empty_registry_admits eq_refl) as (l & l' & Hl & Hl' & _ & _ & Hin).
  exists l, l'. split; [exact Hl|]. split; [exact Hl'|]. split; [|apply Hin].
  vm_compute in Hl'. injection Hl' as <-. reflexivity.
Defined.

Definition one_entry : RegistryState := [(7%N, demo_entry)].

Lemma one_entry_inv : reg_inv one_entry.
Proof.
  split; [apply NoDup_singleton|]. intros k e. cbn. case_decide; [|done]. by intros [= <-].
Qed.

Lemma entry_lifecycle_witness :
  exists t1 t2 l,
    (archive 7 (one_entry, mkEnv 0 0)).1 = Ok (archived_entry t1 t2 demo_entry) /\
    (search no_filter (archive 7 (one_entry, mkEnv 0 0)).2).1 = Ok l /\ 7%N ∉ map re_id l.
Proof.
  destruct (entry_lifecycle (R := RegistryState) 7 demo_entry
              (mkRegistryMetadata "n" None [] [] [] [] [] None None None None DRAFT) no_filter
              (one_entry, mkEnv 0 0) one_entry_inv eq_refl eq_refl eq_refl)
    as (_ & t1 & t2 & l & Ha & Hs & Hl & _).
  exists t1, t2, l. split; [exact Ha|]. split; [exact Hs | exact Hl].
Defined.

Definition empty_pg : PgRegistry := mkPgRegistry (sql_create (Row := RegistryRow)) [].

Lemma empty_pg_inv : pg_inv empty_pg.
Proof. exists []. split; [done | apply NoDup_nil_2 | |]; by intros e ?%elem_of_nil. Qed.

(** An entry from elsewhere, its creation without a zone. *)
Definition unzoned_entry : PatchPanelRegistryEntry :=
  mkRegistryEntry 7 "pp" "1" "A panel" None ["tag"] ["in"] ["out"] [] [CARD_VIEW; CARD_CLAIM]
    (Some "low") None None None PUBLISHED None [] (Naive 1) (Aware 1) None.

Lemma postgres_register_get_witness :
  (pg_get 7 (pg_register unzoned_entry (empty_pg, mkEnv 0 0)).2).1 = Ok demo_entry.
Proof.
  exact (proj1 (proj2 (postgres_register_get unzoned_entry (empty_pg, mkEnv 0 0) 0
    empty_pg_inv eq_refl eq_refl))).
Defined.
