(* ===== verification/Pydantic.v ===== *)
(** * Schema validation of stored documents

    Card payloads hold documents that the program later parses with
    pydantic's [model_validate] and writes with [model_dump(mode="json")].
    Field parsing is pydantic's: it is the interface [Pydantic]. The
    validators the models declare are the program's ([domain/models.py],
    [domain/authority.py]) and run after it; a [ValueError] they raise
    becomes a [ValidationError]. *)
From Stdlib Require Import ZArith Ascii String.
From S2P Require Import Prelude Values Authority Models.
Open Scope string_scope.
Open Scope list_scope.

(** [nodes/executor.py] *)
Record OnboardingRoleAssignmentPayload : Type := mkOnboardingRole {
  or_role_name : RoleName;
  or_scope : Scope;
  or_assigned_by : option string;
}.

Record ParticipantOnboardingPayload : Type := mkOnboarding {
  on_participant : Participant;
  on_role_assignments : list OnboardingRoleAssignmentPayload;
}.

Class Pydantic : Type := {
  patch_panel_fields : value -> res PatchPanel;
  registry_metadata_fields : value -> res PatchPanelRegistryMetadata;
  onboarding_fields : value -> res ParticipantOnboardingPayload;
  patch_panel_dump : PatchPanel -> value;
  (** [model_dump(mode="json", by_alias=True)]. *)
  patch_panel_dump_by_alias : PatchPanel -> value;
  bucket_dump : BucketDefinition -> value;
  registry_metadata_dump : PatchPanelRegistryMetadata -> value;
  constraints_dump : GenesisIntentConstraints -> value;
}.

(** A [ValueError] raised by a model validator. *)
Definition as_validation_error {A} (r : res A) : res A :=
  match r with Raise (ValueError m) => Raise (ValidationError m) | _ => r end.

Section model_validate.
Context `{Pydantic}.

(** [PatchPanel.model_validate]. *)
Definition patch_panel_model_validate (v : value) : res PatchPanel :=
  pp ← patch_panel_fields v; as_validation_error (validate_unique_local_ids pp).

(** [PatchPanelRegistryMetadata.model_validate]. *)
Definition registry_metadata_model_validate (v : value) : res PatchPanelRegistryMetadata :=
  registry_metadata_fields v.

(** [ParticipantOnboardingPayload.model_validate]: [min_length=1] and the
    validator of every [Scope]. *)
Definition onboarding_model_validate (v : value) : res ParticipantOnboardingPayload :=
  p ← onboarding_fields v;
  match on_role_assignments p with
  | [] => Raise (ValidationError "role_assignments: List should have at least 1 item")
  | assignments =>
      _ ← map_res (fun a => as_validation_error (validate_scope_id (or_scope a))) assignments;
      Ok p
  end.
End model_validate.

(** [str(exc)] of the exceptions the code prints. *)
Definition exn_str (x : exn) : string :=
  match x with
  | NotFoundError m | ConflictError m | InvalidOperationError m | ValueError m
  | PatchPanelLoadError m | PermissionError m | LookupError m | RuntimeError m | SystemExit m
  | ValidationError m | TypeError m | IntegrityError m | DataError m | ProgrammingError m | StatementError m | OSError m | IndexError m => m
  | PatchPanelValidationError errors => str_concat (String "010" "") errors
  | KeyError k => str_repr k
  | OverflowError => "date value out of range"
  | HTTPException _ detail => detail
  | HTTPStatusError _ m => m
  end.

(** [except (PatchPanelValidationError, ValueError)]: the classes of errors
    that derive from [ValueError], pydantic's [ValidationError] among them. *)
Definition is_value_error (x : exn) : bool :=
  match x with
  | ValueError _ | ValidationError _ | PatchPanelValidationError _ | PatchPanelLoadError _
  | NotFoundError _ | ConflictError _ | InvalidOperationError _ => true
  | _ => false
  end.

(** ** Lemmas *)
Lemma patch_panel_model_validate_unique `{Pydantic} v pp :
  patch_panel_model_validate v = Ok pp -> validate_unique_local_ids pp = Ok pp.
Proof.
  unfold patch_panel_model_validate, mbind, res_bind.
  destruct (patch_panel_fields v) as [p|]; [|done]. intros Hv.
  destruct (validate_unique_local_ids p) as [q|x] eqn:E; simpl in Hv; [|by destruct x].
  injection Hv as <-. by pose proof (validate_unique_local_ids_same _ _ E) as ->.
Qed.
