(* ===== verification/Executor.v ===== *)
(** * Node execution ([nodes/executor.py])

    [NodeExecutor] drives the runtime, the registry and the authorization
    repository through their protocols; its state is the three of them. *)
From Stdlib Require Import ZArith Ascii String.
From stdpp Require Import pretty.
From S2P Require Import Prelude Values Authority Models Graph PanelValidator Artifacts.
From S2P Require Import RuntimeService Auth Catalog Registry Pydantic.
Open Scope string_scope.
Open Scope list_scope.

Record WorkerExecutionInput : Type := mkWorkerInput {
  wi_input_pipe : string;
  wi_output_pipe : string;
  wi_worker_id : string;
  wi_artifact_refs : list ArtifactReference;
  wi_lease_seconds : Z;
  wi_idempotency_key : option string;
}.

Record ValidatorExecutionInput : Type := mkValidatorInput {
  vi_card_id : UUID;
  vi_validator_id : string;
  vi_selected_exit : option string;
  vi_accepted : option bool;
  vi_score : option Z;
  vi_reason : option string;
  vi_payload : doc;
  vi_idempotency_key : option string;
}.

Record SinkResult : Type := mkSinkResult {
  sink_event : CardEvent;
  sink_external_reference : option string;
}.

(** [request.model_copy(update={"accepted": ..., "selected_exit": ...,
    "reason": ..., "payload": ...})]. *)
Definition decide_request (accepted : bool) (selected_exit : string) (reason : string)
    (payload : doc) (r : ValidatorExecutionInput) : ValidatorExecutionInput :=
  mkValidatorInput (vi_card_id r) (vi_validator_id r) (Some selected_exit) (Some accepted)
    (vi_score r) (Some reason) payload (vi_idempotency_key r).

(** [f"{key}:suffix" if key else None]. *)
Definition key_suffix (key : option string) (suffix : string) : option string :=
  if truthy key then Some (str_or key "" +:+ ":" +:+ suffix) else None.

(** ** Reading node configurations and payloads *)
Definition _configured_exit (node : NodeDefinition) (key : string) : res string :=
  match vget key (nd_config node) with
  | VStr s => Ok s
  | _ => Raise (InvalidOperationError
                  ("validator '" +:+ nd_id node +:+ "' requires config." +:+ key))
  end.

(** [str(value) if value is not None else None] of a key of a mapping. *)
Definition dict_str (key : string) (v : value) : option string :=
  match v with
  | VDict d => match vget key d with VNone => None | x => Some (v_str x) end
  | _ => None
  end.

Definition _candidate_id (payload : doc) : option string :=
  dict_str "id" (vget "candidate_definition" payload).

Definition _validation_errors (x : exn) : list string :=
  match x with PatchPanelValidationError errors => errors | _ => [exn_str x] end.

Definition _egress_contract_type (node : NodeDefinition) : option string :=
  dict_str "type" (vget "egress_contract" (nd_config node)).

(** An event of a card that records a decision. *)
Definition decision_recorded (validator output_pipe : string) (ev : CardEvent) : bool :=
  bool_decide (ev_event_type ev = "card_validated") &&
  bool_decide (ev_actor_id ev = Some validator) &&
  v_is_true (vget "accepted" (ev_payload ev)) &&
  v_eq_str (vget "output_pipe" (ev_payload ev)) output_pipe.

(** ** Checks on the panel of the executor *)
Section panel.
Context (patch_panel : PatchPanel).

Definition _node (node_id : string) (expected_type : NodeType) : res NodeDefinition :=
  match py_next (fun n => bool_decide (nd_id n = node_id)) (pp_nodes patch_panel) with
  | Some node =>
      if negb (bool_decide (nd_type node = expected_type))
      then Raise (InvalidOperationError
                    ("node '" +:+ node_id +:+ "' is '" +:+ NodeType_value (nd_type node) +:+
                     "', not '" +:+ NodeType_value expected_type +:+ "'"))
      else Ok node
  | None => Raise (NotFoundError ("node '" +:+ node_id +:+ "' does not exist"))
  end.

Definition _node_for_pipe (pipe : string) (expected_type : NodeType) : res NodeDefinition :=
  let unbound := Raise (NotFoundError ("pipe '" +:+ pipe +:+ "' is not bound to a node")) in
  match dict_get pipe (pp_pipe_bindings patch_panel) with
  | None => unbound
  | Some binding =>
      match pb_node binding with None => unbound | Some n => _node n expected_type end
  end.

Definition _ensure_validator_exit (node : NodeDefinition) (selected_exit : string) : res () :=
  if negb (str_in selected_exit (nd_output_pipes node))
  then Raise (InvalidOperationError
                ("exit pipe '" +:+ selected_exit +:+ "' is not declared by validator '" +:+
                 nd_id node +:+ "'"))
  else
    match dict_get selected_exit (pp_pipe_bindings patch_panel) with
    | None => Raise (InvalidOperationError
                       ("selected exit pipe '" +:+ selected_exit +:+
                        "' is missing a Patch Panel binding"))
    | Some binding =>
        if negb (bool_decide (pb_node binding = Some (nd_id node))) ||
           negb (bool_decide (pb_direction binding = Some "output"))
        then Raise (InvalidOperationError
                      ("selected exit pipe '" +:+ selected_exit +:+
                       "' is not an output binding for validator '" +:+ nd_id node +:+ "'"))
        else Ok tt
    end.

Definition _requires_selected_exit (node : NodeDefinition) : bool :=
  bool_decide (nd_validator_kind node = Some "routing") ||
  Nat.ltb 1 (length (nd_output_pipes node)).

Definition _validator_accepted (node : NodeDefinition) (request : ValidatorExecutionInput) :
    res bool :=
  match vi_accepted request with
  | Some b => Ok b
  | None =>
      match vi_selected_exit request with
      | None => Raise (InvalidOperationError
                         ("validator '" +:+ nd_id node +:+
                          "' requires either accepted or selected_exit"))
      | Some exit =>
          match vget "accept_exits" (nd_config node) with
          | VList accept_exits => Ok (existsb (fun v => v_eq_str v exit) accept_exits)
          | _ => Raise (InvalidOperationError
                          ("routing validator '" +:+ nd_id node +:+
                           "' requires config.accept_exits when accepted is not provided"))
          end
      end
  end.

(** The buckets of the sink's bound input pipes. *)
Definition sink_input_buckets (node : NodeDefinition) : list string :=
  flat_map (fun pipe => match dict_get pipe (pp_pipe_bindings patch_panel) with
                        | Some b => [pb_bucket b]
                        | None => []
                        end) (nd_input_pipes node).

Definition _ensure_card_at_sink (node : NodeDefinition) (card : Card) : res () :=
  let input_buckets := remove_dups (sink_input_buckets node) in
  match input_buckets with
  | [] => Ok tt
  | _ =>
      if str_in (cd_current_bucket card) input_buckets then Ok tt
      else Raise (ConflictError
                    ("card '" +:+ uuid_str (cd_id card) +:+ "' is in bucket '" +:+
                     cd_current_bucket card +:+ "', not sink input bucket(s): " +:+
                     comma_join (str_sorted input_buckets)))
  end.
End panel.

(** ** The state *)
Record World (R G A : Type) : Type := mkWorld {
  w_runtime : R;
  w_registry : option G;
  w_auth : option A;
}.
Arguments mkWorld {R G A}.
Arguments w_runtime {R G A}.
Arguments w_registry {R G A}.
Arguments w_auth {R G A}.

Section executor.
Context `{Oracle} `{Networkx} `{Pydantic}.
Context {R G A : Type} `{CardRuntime R} `{PatchPanelRegistry G} `{AuthorizationRepository A}.
Notation W := (World R G A).

Definition on_runtime {B} (m : M R B) : M W B :=
  zoom w_runtime (fun r w => mkWorld r (w_registry w) (w_auth w)) m.

(** An optional collaborator: the code raises when it is [None]. *)
Definition on_registry {B} (missing : exn) (m : M G B) : M W B := fun s =>
  match w_registry s.1 with
  | None => (Raise missing, s)
  | Some g => zoom (fun _ => g) (fun g' w => mkWorld (w_runtime w) (Some g') (w_auth w)) m s
  end.

Definition on_auth {B} (missing : exn) (m : M A B) : M W B := fun s =>
  match w_auth s.1 with
  | None => (Raise missing, s)
  | Some a => zoom (fun _ => a) (fun a' w => mkWorld (w_runtime w) (w_registry w) (Some a')) m s
  end.

Context (patch_panel : PatchPanel).

Definition execute_source (source_id : string) (payload : doc) (metadata : option doc)
    (idempotency_key : option string) : M W Card :=
  node ← lift_res (_node patch_panel source_id SOURCE);
  card ← on_runtime (rt_create_card (pp_id patch_panel) payload (Some (default [] metadata))
                       idempotency_key);
  _ ← on_runtime (rt_record_event (cd_id card) "source_executed" (Some (nd_id node))
        (Some [("source_id", VStr (nd_id node))]) (key_suffix idempotency_key "source"));
  mret card.

Definition execute_worker (request : WorkerExecutionInput) : M W (list ArtifactReference) :=
  node ← lift_res (_node_for_pipe patch_panel (wi_input_pipe request) NT_WORKER);
  lease ← on_runtime (rt_claim_card (wi_input_pipe request) (wi_worker_id request)
            (wi_lease_seconds request) (key_suffix (wi_idempotency_key request) "claim"));
  artifact_refs ← on_runtime (rt_submit_artifact (ls_id lease) (wi_output_pipe request)
            (wi_artifact_refs request) (key_suffix (wi_idempotency_key request) "submit"));
  match artifact_refs with
  | [] => raise (InvalidOperationError "worker execution produced no artifact references")
  | _ =>
      history ← on_runtime (rt_card_history (ls_card_id lease));
      event ← (match last history with
               | Some ev => mret ev
               | None => raise (IndexError "list index out of range")
               end);
      match dict_get (wi_output_pipe request) (pp_pipe_bindings patch_panel) with
      | None => raise (KeyError (wi_output_pipe request))
      | Some binding =>
          if negb (bool_decide (pb_node binding = Some (nd_id node)))
          then raise (InvalidOperationError
                        ("worker pipe '" +:+ wi_input_pipe request +:+ "' resolved to '" +:+
                         nd_id node +:+ "' but output pipe was bound to '" +:+
                         v_str (v_opt_str (pb_node binding)) +:+ "'"))
          else if negb (bool_decide (ev_event_type event = "artifact_submitted"))
          then raise (InvalidOperationError "worker execution did not submit artifacts")
          else mret artifact_refs
      end
  end.

(** The [try] block of [_topology_validation_request]. *)
Definition validate_candidate (card : Card) : res (PatchPanel * GraphValidationReport) :=
  candidate ← patch_panel_model_validate (vget "candidate_definition" (cd_payload card));
  report ← validate candidate;
  Ok (candidate, report).

(** [{**payload, **fields}]. *)
Definition extend (payload fields : doc) : doc := dict_update payload fields.

Definition _topology_validation_request (node : NodeDefinition)
    (request : ValidatorExecutionInput) : M W ValidatorExecutionInput :=
  match vi_accepted request, vi_selected_exit request with
  | None, None =>
      card ← on_runtime (rt_get_card (vi_card_id request));
      valid_exit ← lift_res (_configured_exit node "valid_exit");
      invalid_exit ← lift_res (_configured_exit node "invalid_exit");
      match validate_candidate card with
      | Raise x =>
          if is_value_error x then
            mret (decide_request false invalid_exit (exn_str x)
                    (extend (vi_payload request)
                       [("validation_handler", VStr "patch_panel_topology");
                        ("candidate_patch_panel_id", v_opt_str (_candidate_id (cd_payload card)));
                        ("errors", VList (map VStr (_validation_errors x)))]) request)
          else raise x
      | Ok (candidate, report) =>
          mret (decide_request true valid_exit
                  (str_or (vi_reason request) "Patch Panel topology validation passed")
                  (extend (vi_payload request)
                     [("validation_handler", VStr "patch_panel_topology");
                      ("candidate_patch_panel_id", VStr (pp_id candidate));
                      ("node_count", VInt (Z.of_nat (node_count report)));
                      ("edge_count", VInt (Z.of_nat (edge_count report)));
                      ("cycles", VList (map (fun c => VList (map VStr c)) (cycles report)))])
                  request)
      end
  | _, _ => mret request
  end.

Definition _participant_onboarding_request (node : NodeDefinition)
    (request : ValidatorExecutionInput) : M W ValidatorExecutionInput :=
  match vi_accepted request, vi_selected_exit request with
  | None, None =>
      card ← on_runtime (rt_get_card (vi_card_id request));
      valid_exit ← lift_res (_configured_exit node "valid_exit");
      invalid_exit ← lift_res (_configured_exit node "invalid_exit");
      match onboarding_model_validate (VDict (cd_payload card)) with
      | Raise x =>
          if is_value_error x then
            mret (decide_request false invalid_exit (exn_str x)
                    (extend (vi_payload request)
                       [("validation_handler", VStr "participant_onboarding_compliance");
                        ("errors", VList [VStr (exn_str x)])]) request)
          else raise x
      | Ok payload =>
          mret (decide_request true valid_exit
                  (str_or (vi_reason request) "Participant onboarding payload is compliant")
                  (extend (vi_payload request)
                     [("validation_handler", VStr "participant_onboarding_compliance");
                      ("participant_id", VStr (part_id (on_participant payload)));
                      ("role_assignment_count",
                        VInt (Z.of_nat (length (on_role_assignments payload))))])
                  request)
      end
  | _, _ => mret request
  end.

Definition execute_validator (request : ValidatorExecutionInput) : M W CardEvent :=
  node ← lift_res (_node patch_panel (vi_validator_id request) NT_VALIDATOR);
  request ← (if v_eq_str (vget "validation_handler" (nd_config node)) "patch_panel_topology"
             then _topology_validation_request node request else mret request);
  request ← (if v_eq_str (vget "validation_handler" (nd_config node))
                   "participant_onboarding_compliance"
             then _participant_onboarding_request node request else mret request);
  let selected_exit := vi_selected_exit request in
  match selected_exit with
  | None =>
      if _requires_selected_exit node
      then raise (InvalidOperationError
                    ("routing validator '" +:+ nd_id node +:+ "' requires selected_exit"))
      else mret tt
  | Some exit => lift_res (_ensure_validator_exit patch_panel node exit)
  end ≫= fun _ =>
  accepted ← lift_res (_validator_accepted node request);
  on_runtime (rt_validate_card (vi_card_id request) (nd_id node) accepted (vi_reason request)
    selected_exit (Some (vi_payload request)) (vi_idempotency_key request)).

(** ** Sinks *)
Definition _ensure_registry_publication_history (card : Card) : M W () :=
  history ← on_runtime (rt_card_history (cd_id card));
  let topology_validated :=
    existsb (decision_recorded "topological_validator" "topology_valid") history in
  let governance_approved :=
    existsb (decision_recorded "governance_reviewer" "proposal_approved") history in
  if negb topology_validated || negb governance_approved
  then raise (ConflictError
    "registry publication requires topology validation and governance approval history")
  else mret tt.

Definition _ensure_authority_provisioning_history (card : Card) : M W () :=
  history ← on_runtime (rt_card_history (cd_id card));
  let compliance_validated :=
    existsb (decision_recorded "registration_compliance_validator" "registration_compliant")
      history in
  let admin_approved :=
    existsb (decision_recorded "registration_admin_reviewer" "registration_approved") history in
  if negb compliance_validated || negb admin_approved
  then raise (ConflictError
    "authority provisioning requires compliance validation and admin approval history")
  else mret tt.

Definition no_auth : exn :=
  InvalidOperationError "Authorization repository unavailable for system provisioning".
Definition no_registry : exn :=
  InvalidOperationError "registry publication sink requires a registry".

Definition _execute_authority_provisioning_sink (node : NodeDefinition) (card : Card)
    (external_reference : option string) : M W (option string) :=
  _ ← on_auth no_auth (mret tt);
  _ ← _ensure_authority_provisioning_history card;
  payload ← lift_res (onboarding_model_validate (VDict (cd_payload card)));
  let participant_id := part_id (on_participant payload) in
  _ ← on_auth no_auth (ar_upsert_participant (on_participant payload));
  _ ← forM (on_role_assignments payload) (fun assignment =>
        _ ← on_auth no_auth (ensure_builtin_role_assignment participant_id
              (or_role_name assignment) (or_scope assignment) (or_assigned_by assignment));
        mret tt);
  mret (Some (str_or external_reference participant_id)).

(** The rest of [_execute_configured_sink], for a publication. *)
Definition publish_candidate (node : NodeDefinition) (card : Card)
    (external_reference : option string) : M W (option string) :=
  _ ← on_registry no_registry (mret tt);
  _ ← _ensure_registry_publication_history card;
  candidate ← lift_res (patch_panel_model_validate (vget "candidate_definition" (cd_payload card)));
  metadata ← lift_res (registry_metadata_model_validate (vget "registry_metadata" (cd_payload card)));
  let published_metadata := metadata_with_status PUBLISHED metadata in
  _ ← on_runtime (rt_register_patch_panel candidate);
  entries ← on_registry no_registry
    (rg_search (mkSearch None None None None None None true true));
  entry ←
    (match py_next (fun e => bool_decide (re_patch_panel_id e = pp_id candidate) &&
                             bool_decide (re_version e = pp_version candidate)) entries with
     | Some entry => mret entry
     | None =>
         entry ← from_patch_panel candidate published_metadata None
           [("proposal_card_id", VStr (uuid_str (cd_id card)));
            ("published_by_sink", VStr (nd_id node));
            ("genesis_intent_id", vget "genesis_intent_id" (cd_payload card))];
         on_registry no_registry (rg_register entry)
     end);
  mret (Some (str_or external_reference (uuid_str (re_id entry)))).

Definition is_publication (node : NodeDefinition) : bool :=
  match vget "egress_contract" (nd_config node) with
  | VDict contract => v_eq_str (vget "type" contract) "registry_publication"
  | _ => false
  end.

Definition _execute_configured_sink (node : NodeDefinition) (card : Card)
    (external_reference : option string) : M W (option string) :=
  if bool_decide (nd_id node = "authority_provisioner_sink")
  then _execute_authority_provisioning_sink node card external_reference
  else if negb (is_publication node) then mret external_reference
  else publish_candidate node card external_reference.

Definition execute_sink (card_id : UUID) (sink_id : string) (external_reference : option string)
    (idempotency_key : option string) : M W SinkResult :=
  node ← lift_res (_node patch_panel sink_id SINK);
  card ← on_runtime (rt_get_card card_id);
  if v_truthy (vget "shadow" (cd_metadata card)) &&
     negb (v_truthy (vget_default "allow_shadow_egress" (VBool false) (nd_config node)))
  then raise (InvalidOperationError "shadow cards cannot execute production sinks")
  else
    _ ← lift_res (_ensure_card_at_sink patch_panel node card);
    external_reference ← _execute_configured_sink node card external_reference;
    event ← on_runtime (rt_record_event card_id "sink_executed" (Some (nd_id node))
      (Some [("sink_id", VStr (nd_id node));
             ("external_reference", v_opt_str external_reference);
             ("registry_entry_id",
                if bool_decide (_egress_contract_type node = Some "registry_publication")
                then v_opt_str external_reference else VNone);
             ("egress_contract", vget "egress_contract" (nd_config node));
             ("egress_idempotency", vget "egress_idempotency" (nd_config node))])
      idempotency_key);
    mret (mkSinkResult event external_reference).
End executor.
