(* ===== verification/ExecutorSpec.v ===== *)
(** * Lemmas on node execution over the in-memory runtime *)
From Stdlib Require Import ZArith Ascii String.
From stdpp Require Import gmap.
From S2P Require Import Prelude Values Authority Models Graph PanelValidator Artifacts.
From S2P Require Import RuntimeService MemoryRuntime MemorySpec MemoryInvariant MemoryRefine.
From S2P Require Import Auth Catalog Registry Pydantic Executor.
Open Scope string_scope.
Open Scope list_scope.

(** ** Running a part of the world *)
Section zooms.
Context {R G A B : Type}.
Notation W := (World R G A).

Lemma wp_on_runtime (m : M R B) (Q : res B -> W * Env -> Prop) (s : W * Env) :
  wp m (fun r t => Q r (mkWorld t.1 (w_registry s.1) (w_auth s.1), t.2)) (w_runtime s.1, s.2) ->
  wp (on_runtime m) Q s.
Proof. intros Hm. unfold on_runtime. by apply wp_zoom. Qed.

Lemma wp_on_registry x (m : M G B) (Q : res B -> W * Env -> Prop) (s : W * Env) :
  (w_registry s.1 = None -> Q (Raise x) s) ->
  (forall g, w_registry s.1 = Some g ->
     wp m (fun r t => Q r (mkWorld (w_runtime s.1) (Some t.1) (w_auth s.1), t.2)) (g, s.2)) ->
  wp (on_registry x m) Q s.
Proof.
  intros Hno Hyes. unfold wp, on_registry. destruct (w_registry s.1) as [g|]; [|by apply Hno].
  apply (wp_zoom (fun _ => _)). by apply Hyes.
Qed.

Lemma wp_on_auth x (m : M A B) (Q : res B -> W * Env -> Prop) (s : W * Env) :
  (w_auth s.1 = None -> Q (Raise x) s) ->
  (forall a, w_auth s.1 = Some a ->
     wp m (fun r t => Q r (mkWorld (w_runtime s.1) (w_registry s.1) (Some t.1), t.2)) (a, s.2)) ->
  wp (on_auth x m) Q s.
Proof.
  intros Hno Hyes. unfold wp, on_auth. destruct (w_auth s.1) as [g|]; [|by apply Hno].
  apply (wp_zoom (fun _ => _)). by apply Hyes.
Qed.
End zooms.

(** A computation on another part of the world keeps the runtime. *)
Lemma on_auth_runtime {R G A B} x (m : M A B) (s : World R G A * Env) :
  w_runtime (on_auth x m s).2.1 = w_runtime s.1 /\ w_registry (on_auth x m s).2.1 = w_registry s.1.
Proof.
  unfold on_auth. destruct (w_auth s.1) as [a|]; [|done]. unfold zoom. by destruct (m (a, s.2)) as [? [? ?]].
Qed.

Definition has_decision (history : list CardEvent) (validator pipe : string) : Prop :=
  exists ev, ev ∈ history /\ ev_event_type ev = "card_validated" /\ ev_actor_id ev = Some validator /\
    vget "accepted" (ev_payload ev) = VBool true /\ vget "output_pipe" (ev_payload ev) = VStr pipe.

Lemma decision_recorded_true v p ev :
  decision_recorded v p ev = true <->
  ev_event_type ev = "card_validated" /\ ev_actor_id ev = Some v /\
  vget "accepted" (ev_payload ev) = VBool true /\ vget "output_pipe" (ev_payload ev) = VStr p.
Proof.
  unfold decision_recorded. rewrite !andb_true_iff, !bool_decide_eq_true, v_eq_str_true.
  assert (forall x, v_is_true x = true <-> x = VBool true) as -> by (intros [| [] | | | | |]; naive_solver).
  tauto.
Qed.

Lemma has_decision_true h v p : existsb (decision_recorded v p) h = true <-> has_decision h v p.
Proof. rewrite existsb_true. unfold has_decision. by setoid_rewrite decision_recorded_true. Qed.

Section memory.
Context `{Oracle} `{Networkx}.

Lemma wp_card_history cid c (Q : res (list CardEvent) -> Runtime * Env -> Prop) s :
  dict_get cid (_cards s.1) = Some c -> Q (Ok (history_of cid s.1)) s -> wp (card_history cid) Q s.
Proof.
  intros Hc HQ. apply wp_bind, wp_get_card; [|intros; congruence]. intros c' _.
  by apply wp_bind, wp_get, wp_ret.
Qed.

(** A record of an event leaves panels, cards and leases alone. *)
Lemma record_event_frame cid typ actor payload key s :
  wp (MemoryRuntime.record_event cid typ actor payload key) (fun r s' =>
    _patch_panels s'.1 = _patch_panels s.1 /\ _cards s'.1 = _cards s.1) s.
Proof.
  apply wp_with_cached; [done|]. intros _. apply wp_bind, wp_get_card; [|done]. intros c _.
  apply wp_bind, wp_new_event. intros ev e' _ _ _. do 2 apply wp_bind, wp_modify. apply wp_ret.
  simpl. by autorewrite with rt.
Qed.

Lemma register_panel_spec pp s :
  wp (register_patch_panel pp) (fun r s' => forall a, r = Ok a ->
    is_ok (validate pp) /\ s' = (put_panel pp s.1, s.2)) s.
Proof.
  apply wp_bind, wp_lift; [|done]. intros pp' [-> Hok]%validate_patch_panel_ok.
  apply wp_bind, wp_modify, wp_ret. by intros a _.
Qed.
End memory.

Lemma dict_get_reverse_none {V} k (d : list (string * V)) :
  dict_get k d = None -> dict_get k (reverse d) = None.
Proof.
  intros Hd. destruct (dict_get k (reverse d)) eqn:E; [|done]. exfalso.
  apply dict_get_key in E. unfold dict_keys in E. rewrite fmap_reverse in E.
  rewrite elem_of_reverse in E. apply dict_key_get in E as [w E]. congruence.
Qed.

Lemma validation_payload_accepted accepted reason payload :
  dict_get "accepted" payload = None ->
  vget "accepted" (validation_payload accepted reason (Some payload)) = VBool accepted.
Proof.
  intros Hp. unfold vget, validation_payload. change (default [] (Some payload)) with payload.
  by rewrite dict_update_get, dict_get_reverse_none.
Qed.

(** What the payload of a validation says: the caller's entries first. *)
Lemma validation_payload_get accepted reason payload k : NoDup (dict_keys payload) ->
  dict_get k (validation_payload accepted reason (Some payload)) =
    match dict_get k payload with
    | Some v => Some v
    | None => dict_get k [("accepted", VBool accepted); ("reason", v_opt_str reason)]
    end.
Proof.
  intros Hnd. unfold validation_payload. change (default [] (Some payload)) with payload.
  rewrite dict_update_get. destruct (dict_get k payload) as [v|] eqn:E.
  - rewrite (dict_elem_get k v (reverse payload)); [done | |].
    + unfold dict_keys. rewrite fmap_reverse. by rewrite reverse_Permutation.
    + rewrite elem_of_reverse. by apply dict_get_elem.
  - by rewrite dict_get_reverse_none.
Qed.

(** ** Checks *)
Lemma node_ok pp id t n : _node pp id t = Ok n -> n ∈ pp_nodes pp /\ nd_id n = id /\ nd_type n = t.
Proof.
  unfold _node. destruct (py_next _ _) as [m|] eqn:E; [|done].
  apply py_next_some in E as [Hm Hid%bool_decide_eq_true].
  case_bool_decide; cbn; [|done]. by intros [= <-].
Qed.

Lemma at_sink_ok pp node card :
  _ensure_card_at_sink pp node card = Ok tt <->
  sink_input_buckets pp node = [] \/ cd_current_bucket card ∈ sink_input_buckets pp node.
Proof.
  unfold _ensure_card_at_sink. destruct (sink_input_buckets pp node) as [|b l] eqn:E.
  - cbn. tauto.
  - assert (Hin : forall x, x ∈ remove_dups (b :: l) <-> x ∈ b :: l) by apply elem_of_remove_dups.
    destruct (remove_dups (b :: l)) as [|b' l'] eqn:Er.
    + exfalso. assert (b ∈ []) as Hb by (apply Hin; left). by apply elem_of_nil in Hb.
    + destruct (str_in _ _) eqn:Es.
      * apply str_in_true, Hin in Es. tauto.
      * apply str_in_false in Es. rewrite Hin in Es. split; [done | intros [?|?]; done].
Qed.

Lemma validator_exit_ok pp node exit :
  _ensure_validator_exit pp node exit = Ok tt <->
  exit ∈ nd_output_pipes node /\ exists b, dict_get exit (pp_pipe_bindings pp) = Some b /\
    pb_node b = Some (nd_id node) /\ pb_direction b = Some "output".
Proof.
  unfold _ensure_validator_exit. destruct (str_in exit _) eqn:E; cbn [negb].
  - apply str_in_true in E. destruct (dict_get exit _) as [b|]; [|naive_solver].
    case_bool_decide; cbn; [|naive_solver]. case_bool_decide; cbn; naive_solver.
  - apply str_in_false in E. naive_solver.
Qed.
