(* ===== verification/ExecutorTheorems.v ===== *)
(** * What node execution guarantees, over the in-memory runtime and registry *)
From Stdlib Require Import ZArith Ascii String.
From stdpp Require Import gmap.
From S2P Require Import Prelude Values Authority Models Graph PanelValidator SystemPanels Artifacts.
From S2P Require Import RuntimeService MemoryRuntime MemorySpec MemoryInvariant MemoryRefine.
From S2P Require Import Auth Catalog Registry Pydantic Executor ExecutorSpec.
Open Scope string_scope.
Open Scope list_scope.

Section sinks.
Context `{Oracle} `{Networkx} `{Pydantic} {A : Type} `{AuthorizationRepository A}.
Notation W := (World Runtime RegistryState A).

(** A candidate is in force: valid, registered in the runtime, and in the
    registry under its id and version. *)
Definition in_force (w : W) (candidate : PatchPanel) (entry : PatchPanelRegistryEntry) : Prop :=
  is_ok (validate candidate) /\
  dict_get (pp_id candidate) (_patch_panels (w_runtime w)) = Some candidate /\
  exists reg, w_registry w = Some reg /\ entry ∈ dict_values reg /\
    re_patch_panel_id entry = pp_id candidate /\ re_version entry = pp_version candidate.

Lemma publication_history_spec card (Q : res () -> W * Env -> Prop) s :
  dict_get (cd_id card) (_cards (w_runtime s.1)) = Some card ->
  (forall x, Q (Raise x) s) ->
  (has_decision (history_of (cd_id card) (w_runtime s.1)) "topological_validator" "topology_valid" ->
   has_decision (history_of (cd_id card) (w_runtime s.1)) "governance_reviewer" "proposal_approved" ->
   Q (Ok tt) s) ->
  wp (_ensure_registry_publication_history card) Q s.
Proof.
  intros Hc Herr Hok. apply wp_bind, wp_on_runtime. eapply wp_card_history; [exact Hc|].
  cbn [fst snd]. assert (Hs : (mkWorld (w_runtime s.1) (w_registry s.1) (w_auth s.1), s.2) = s)
    by (destruct s as [[? ? ?] ?]; done). rewrite Hs.
  destruct (existsb (decision_recorded "topological_validator" _) _) eqn:E1; [|by apply wp_raise].
  destruct (existsb (decision_recorded "governance_reviewer" _) _) eqn:E2; [|by apply wp_raise].
  apply wp_ret, Hok; by apply has_decision_true.
Qed.

Lemma provisioning_history_spec card (Q : res () -> W * Env -> Prop) s :
  dict_get (cd_id card) (_cards (w_runtime s.1)) = Some card ->
  (forall x, Q (Raise x) s) ->
  (has_decision (history_of (cd_id card) (w_runtime s.1)) "registration_compliance_validator" "registration_compliant" ->
   has_decision (history_of (cd_id card) (w_runtime s.1)) "registration_admin_reviewer" "registration_approved" ->
   Q (Ok tt) s) ->
  wp (_ensure_authority_provisioning_history card) Q s.
Proof.
  intros Hc Herr Hok. apply wp_bind, wp_on_runtime. eapply wp_card_history; [exact Hc|].
  cbn [fst snd]. assert (Hs : (mkWorld (w_runtime s.1) (w_registry s.1) (w_auth s.1), s.2) = s)
    by (destruct s as [[? ? ?] ?]; done). rewrite Hs.
  destruct (existsb (decision_recorded "registration_compliance_validator" _) _) eqn:E1; [|by apply wp_raise].
  destruct (existsb (decision_recorded "registration_admin_reviewer" _) _) eqn:E2; [|by apply wp_raise].
  apply wp_ret, Hok; by apply has_decision_true.
Qed.

Lemma wp_from_patch_panel {St} pp m sup meta (Q : res PatchPanelRegistryEntry -> St * Env -> Prop) s :
  (forall e env', re_patch_panel_id e = pp_id pp -> re_version e = pp_version pp ->
     re_status e = rm_status m -> Q (Ok e) (s.1, env')) ->
  wp (from_patch_panel pp m sup meta) Q s.
Proof.
  intros HQ. apply wp_bind, wp_uuid4, wp_bind, wp_now, wp_bind, wp_now, wp_ret. by apply HQ.
Qed.

(** What a publication that answers has checked and left behind. *)
Definition published (w w' : W) (card : Card) (ext answer : option string) : Prop :=
  has_decision (history_of (cd_id card) (w_runtime w)) "topological_validator" "topology_valid" /\
  has_decision (history_of (cd_id card) (w_runtime w)) "governance_reviewer" "proposal_approved" /\
  exists candidate entry,
    patch_panel_model_validate (vget "candidate_definition" (cd_payload card)) = Ok candidate /\
    in_force w' candidate entry /\ answer = Some (str_or ext (uuid_str (re_id entry))).

Lemma publish_spec node card ext s :
  dict_get (cd_id card) (_cards (w_runtime s.1)) = Some card ->
  wp (publish_candidate node card ext) (fun r s' => forall answer, r = Ok answer ->
    published s.1 s'.1 card ext answer /\
    _cards (w_runtime s'.1) = _cards (w_runtime s.1)) s.
Proof.
  intros Hc. apply wp_bind, wp_on_registry; [done|]. intros g Hg. apply wp_ret. cbn [fst snd].
  set (s0 := (mkWorld _ _ _, _)). assert (s0 = s) as ->.
  { unfold s0. rewrite <- Hg. by destruct s as [[? ? ?] ?]. }
  apply wp_bind, publication_history_spec; [done | done|]. intros Htopo Hgov.
  apply wp_bind, wp_lift; [|done]. intros candidate Hcand.
  apply wp_bind, wp_lift; [|done]. intros metadata _.
  apply wp_bind, wp_on_runtime. eapply wp_mono; [apply register_panel_spec|].
  intros [pp|x] s1 Hreg; [|done]. destruct (Hreg pp eq_refl) as [Hval ->]. cbn [fst snd].
  apply wp_bind, wp_on_registry; [cbn; congruence|]. cbn [fst snd w_registry w_runtime].
  intros g' Hg'. assert (g' = g) as -> by congruence.
  apply wp_bind, wp_get, wp_ret. cbn [fst snd w_auth].
  apply wp_bind. destruct (py_next _ _) as [e|] eqn:En.
  - apply py_next_some in En as [Hin [Hid Hv]%andb_true_iff].
    apply bool_decide_eq_true in Hid. apply bool_decide_eq_true in Hv.
    apply elem_of_py_filter in Hin as [Hin _].
    apply wp_ret, wp_ret. intros answer [= <-]. split; [|done].
    split; [done|]. split; [done|]. exists candidate, e. split; [done|]. split; [|done].
    split; [done|]. split; [apply dict_get_set_eq|]. exists g. done.
  - apply wp_bind, wp_from_patch_panel. intros e env' Hid Hv _.
    cbn [fst snd]. apply wp_on_registry; [done|]. cbn [fst snd w_registry w_runtime w_auth].
    intros g2 Hg2. assert (g2 = g) as -> by congruence.
    apply wp_bind, wp_modify, wp_ret, wp_ret. cbn [fst snd]. intros answer [= <-]. split; [|done].
    split; [done|]. split; [done|]. exists candidate, e. split; [done|]. split; [|done].
    split; [done|]. split; [apply dict_get_set_eq|]. exists (dict_set (re_id e) e g). split; [done|].
    split; [|done]. eapply dict_get_value, dict_get_set_eq.
Qed.

Lemma provision_frame node card ext (s : W * Env) :
  dict_get (cd_id card) (_cards (w_runtime s.1)) = Some card ->
  wp (_execute_authority_provisioning_sink node card ext) (fun r s' => forall answer, r = Ok answer ->
    has_decision (history_of (cd_id card) (w_runtime s.1)) "registration_compliance_validator" "registration_compliant" /\
    has_decision (history_of (cd_id card) (w_runtime s.1)) "registration_admin_reviewer" "registration_approved" /\
    exists payload, onboarding_model_validate (VDict (cd_payload card)) = Ok payload) s.
Proof.
  intros Hc. apply wp_bind, wp_on_auth; [done|]. intros a Ha. apply wp_ret. cbn [fst snd].
  set (s0 := (mkWorld _ _ _, _)). assert (s0 = s) as ->.
  { unfold s0. rewrite <- Ha. by destruct s as [[? ? ?] ?]. }
  apply wp_bind, provisioning_history_spec; [done | done|]. intros H1' H2'.
  apply wp_bind, wp_lift; [|done]. intros payload Hp. unfold wp. intros. eauto.
Qed.
End sinks.

(** ** The validator node *)
Section validators.
Context `{OracleLaws} `{Networkx} `{Pydantic} {A : Type} `{AuthorizationRepository A}.
Notation W := (World Runtime RegistryState A).

Lemma world_eta (s : W * Env) : (mkWorld (w_runtime s.1) (w_registry s.1) (w_auth s.1), s.2) = s.
Proof. by destruct s as [[? ? ?] ?]. Qed.

(** The bucket a validation leaves a card in, and what its event records. *)
Definition routed (pp : PatchPanel) (card : Card) (exit : option string) (accepted : bool)
    (reason : option string) (payload : doc) (card' : Card) (ev_payload : doc) : Prop :=
  if truthy exit then
    exists bucket node, resolve_pipe_bucket pp (str_or exit "") "output" = Ok (bucket, node) /\
      card' = card_with_bucket bucket card /\
      ev_payload = dict_set "destination_bucket" (VStr bucket)
                     (dict_set "output_pipe" (VStr (str_or exit ""))
                        (validation_payload accepted reason (Some payload)))
  else card' = card /\ ev_payload = validation_payload accepted reason (Some payload).

Lemma typed_event_ok c ev : _typed_event c = Ok ev -> c = C_event ev.
Proof. destruct c; cbn; by intros [= ->]. Qed.

(** A call whose key is recorded answers the recorded event and changes
    nothing. *)
Definition replays_event (key : option string) (s : Runtime * Env) (ev : CardEvent) (s' : Runtime * Env) : Prop :=
  forall x, lookup_key key s.1 = Some x -> truthy_cached x = true -> x = C_event ev /\ s' = s.

(** What a validation that is not a replay leaves. *)
Definition validation_recorded (cid : UUID) (vid : string) (accepted : bool) (reason exit : option string)
    (payload : doc) (c : Card) (s : Runtime * Env) (ev : CardEvent) (s' : Runtime * Env) : Prop :=
  exists pp c', (truthy exit = true -> dict_get (card_panel_id c) (_patch_panels s.1) = Some pp) /\
    routed pp c exit accepted reason payload c' (ev_payload ev) /\
    event_at s.2 s'.2 cid "card_validated" (Some vid) ev /\
    dict_get cid (_cards s'.1) = Some c' /\
    history_of cid s'.1 = history_of cid s.1 ++ [ev].

Lemma validate_card_spec cid vid accepted reason exit payload key s c :
  Inv s.1 s.2 -> dict_get cid (_cards s.1) = Some c ->
  wp (validate_card cid vid accepted reason exit (Some payload) key) (fun r s' => forall ev, r = Ok ev ->
    (cache_miss key s.1 -> validation_recorded cid vid accepted reason exit payload c s ev s') /\
    replays_event key s ev s') s.
Proof.
  intros Hi Hc. apply wp_with_cached.
  { intros x Hk Ht ev Hev%typed_event_ok. split; [intros Hm; by rewrite (Hm x Hk) in Ht|].
    intros x' Hx' _. split; [congruence | done]. }
  intros Hm. apply (wp_mono _ (fun r s' => forall ev, r = Ok ev ->
    validation_recorded cid vid accepted reason exit payload c s ev s')).
  2: { intros r s' Hr ev Hev. split; [intros _; by apply Hr|]. intros x Hk Ht. by rewrite (Hm x Hk) in Ht. }
  apply wp_bind, wp_get_card; [|done]. intros c0 Hc0. assert (c0 = c) as -> by congruence.
  destruct (inv_card _ _ Hi _ _ Hc) as [Hid _]. apply wp_bind. unfold validation_recorded, routed.
  destruct (truthy exit).
  - apply wp_bind, wp_get_patch_panel; [|done]. intros pp Hpp.
    apply wp_bind, wp_lift; [|done]. intros [bucket node] Hb.
    apply wp_bind, wp_modify, wp_ret, wp_bind, wp_new_event. simpl. intros ev e' Hle Hev Hp.
    do 2 apply wp_bind, wp_modify. apply wp_ret. intros ? [= <-]. simpl. subst cid.
    exists pp, (card_with_bucket bucket c). autorewrite with rt. simpl.
    split; [done|]. split; [by exists bucket, node|]. split; [done|].
    split; [apply dict_get_set_eq|]. rewrite history_put_event. destruct Hev as [-> _].
    by rewrite decide_True.
  - apply wp_ret, wp_bind, wp_new_event. simpl. intros ev e' Hle Hev Hp.
    do 2 apply wp_bind, wp_modify. apply wp_ret. intros ? [= <-]. simpl. subst cid.
    exists (mkPatchPanel "" "" None [] [] [] [] [] []), c. autorewrite with rt. simpl.
    split; [done|]. split; [done|]. split; [done|]. split; [done|].
    rewrite history_put_event. destruct Hev as [-> _]. by rewrite decide_True.
Qed.

(** The outcome of the topology handler, on the documents it decides. *)
Definition topology_outcome (node : NodeDefinition) (card : Card) (request request' : ValidatorExecutionInput) : Prop :=
  exists valid_exit invalid_exit,
    vget "valid_exit" (nd_config node) = VStr valid_exit /\
    vget "invalid_exit" (nd_config node) = VStr invalid_exit /\
    vi_card_id request' = vi_card_id request /\ vi_idempotency_key request' = vi_idempotency_key request /\
    (is_ok (validate_candidate card) /\ vi_accepted request' = Some true /\
     vi_selected_exit request' = Some valid_exit \/
     ~ is_ok (validate_candidate card) /\ vi_accepted request' = Some false /\
     vi_selected_exit request' = Some invalid_exit) /\
    (forall k, k ∉ ["validation_handler"; "candidate_patch_panel_id"; "node_count"; "edge_count"; "cycles"; "errors"] ->
       dict_get k (vi_payload request') = dict_get k (vi_payload request)).

Lemma configured_exit_ok node key s : _configured_exit node key = Ok s -> vget key (nd_config node) = VStr s.
Proof. unfold _configured_exit. destruct (vget key _); try done. by intros [= ->]. Qed.

Lemma extend_get k payload fields :
  k ∉ fields.*1 -> dict_get k (extend payload fields) = dict_get k payload.
Proof.
  intros Hk. unfold extend. rewrite dict_update_get. destruct (dict_get k (reverse fields)) eqn:E; [|done].
  exfalso. apply Hk. apply dict_get_key in E. unfold dict_keys in E. rewrite fmap_reverse in E.
  by apply elem_of_reverse.
Qed.

Lemma topology_request_spec node request (Q : res ValidatorExecutionInput -> W * Env -> Prop) s :
  vi_accepted request = None -> vi_selected_exit request = None ->
  (forall x, Q (Raise x) s) ->
  (forall card r', dict_get (vi_card_id request) (_cards (w_runtime s.1)) = Some card ->
     topology_outcome node card request r' -> Q (Ok r') s) ->
  wp (_topology_validation_request node request) Q s.
Proof.
  intros Ha He Herr Hok. unfold _topology_validation_request. rewrite Ha, He.
  apply wp_bind, wp_on_runtime. apply wp_get_card; cbn [fst snd]; rewrite world_eta; [|intros; apply Herr].
  intros card Hc. apply wp_bind, wp_lift; [|intros; apply Herr]. intros v Hv%configured_exit_ok.
  apply wp_bind, wp_lift; [|intros; apply Herr]. intros w Hw%configured_exit_ok.
  destruct (validate_candidate card) as [[cand report]|x] eqn:Ec.
  - apply wp_ret, (Hok card); [done|]. exists v, w. repeat (split; [done|]). split.
    + left. split; [by eexists | done].
    + intros k Hk. apply extend_get. cbn. set_solver.
  - destruct (is_value_error x); [|by apply wp_raise]. apply wp_ret, (Hok card); [done|].
    exists v, w. repeat (split; [done|]). split.
    + right. split; [|done]. intros [? Hv']. congruence.
    + intros k Hk. apply extend_get. cbn. set_solver.
Qed.
End validators.

(** ** The properties *)
Section properties.
Context `{OracleLaws} `{Networkx} `{Pydantic} {A : Type} `{AuthorizationRepository A}.
Notation W := (World Runtime RegistryState A).

Lemma publish_runtime_event (s : W * Env) card candidate entry cid typ actor payload key :
  in_force s.1 candidate entry -> _cards (w_runtime s.1) = card ->
  wp (on_runtime (MemoryRuntime.record_event cid typ actor payload key)) (fun r s' =>
    in_force s'.1 candidate entry) s.
Proof.
  intros (Hv & Hp & reg & Hreg & Hin) _. apply wp_on_runtime.
  eapply wp_mono; [apply record_event_frame|]. intros r s' [Hpan _].
  split; [done|]. split; [cbn in *; by rewrite Hpan|]. by exists reg.
Qed.

(** What holds around a sink that answered. *)
Definition governed (pp : PatchPanel) (cid : UUID) (sink : string) (ext : option string)
    (s : W * Env) (result : SinkResult) (s' : W * Env) : Prop :=
  exists node card, node ∈ pp_nodes pp /\ nd_id node = sink /\ nd_type node = SINK /\
    dict_get cid (_cards (w_runtime s.1)) = Some card /\
    (v_truthy (vget "shadow" (cd_metadata card)) = true ->
     v_truthy (vget_default "allow_shadow_egress" (VBool false) (nd_config node)) = true) /\
    (sink_input_buckets pp node = [] \/ cd_current_bucket card ∈ sink_input_buckets pp node) /\
    let history := history_of cid (w_runtime s.1) in
    (sink = "authority_provisioner_sink" ->
       has_decision history "registration_compliance_validator" "registration_compliant" /\
       has_decision history "registration_admin_reviewer" "registration_approved" /\
       exists payload, onboarding_model_validate (VDict (cd_payload card)) = Ok payload) /\
    (sink <> "authority_provisioner_sink" -> is_publication node = true ->
       has_decision history "topological_validator" "topology_valid" /\
       has_decision history "governance_reviewer" "proposal_approved" /\
       exists candidate entry,
         patch_panel_model_validate (vget "candidate_definition" (cd_payload card)) = Ok candidate /\
         in_force s'.1 candidate entry /\
         sink_external_reference result = Some (str_or ext (uuid_str (re_id entry)))).

(** The decision the topology handler makes on a card, and where it leaves it. *)
Definition topology_decision (request : ValidatorExecutionInput) (node : NodeDefinition)
    (s : W * Env) (ev : CardEvent) (s' : W * Env) : Prop :=
  exists card card' accepted exit,
    dict_get (vi_card_id request) (_cards (w_runtime s.1)) = Some card /\
    (accepted = true <-> is_ok (validate_candidate card)) /\
    vget (if accepted then "valid_exit" else "invalid_exit") (nd_config node) = VStr exit /\
    exit ∈ nd_output_pipes node /\
    vget "accepted" (ev_payload ev) = VBool accepted /\ ev_actor_id ev = Some (nd_id node) /\
    dict_get (vi_card_id request) (_cards (w_runtime s'.1)) = Some card' /\
    (exit <> "" -> exists panel bucket owner,
       dict_get (card_panel_id card) (_patch_panels (w_runtime s.1)) = Some panel /\
       resolve_pipe_bucket panel exit "output" = Ok (bucket, owner) /\
       card' = card_with_bucket bucket card /\ vget "output_pipe" (ev_payload ev) = VStr exit) /\
    (exit = "" -> card' = card).

(** A decision that is recorded as made. *)
Lemma decision_recorded_as request node (s : W * Env) card accepted reason exit payload ev s1 g a :
  dict_get (vi_card_id request) (_cards (w_runtime s.1)) = Some card ->
  (accepted = true <-> is_ok (validate_candidate card)) ->
  vget (if accepted then "valid_exit" else "invalid_exit") (nd_config node) = VStr exit ->
  exit ∈ nd_output_pipes node -> dict_get "accepted" payload = None ->
  validation_recorded (vi_card_id request) (nd_id node) accepted reason (Some exit) payload card
    (w_runtime s.1, s.2) ev s1 ->
  topology_decision request node s ev (mkWorld s1.1 g a, s1.2).
Proof.
  intros Hc Hiff Hcfg Hdecl Hpa (panel & c' & Hpanel & Hrt & Hev & Hc' & _).
  pose proof (validation_payload_accepted accepted reason payload Hpa) as Hacc.
  exists card, c', accepted, exit. do 4 (split; [done|]). unfold routed in Hrt. cbn [truthy str_or] in *.
  destruct Hev as (_ & _ & Hact & _). case_bool_decide as Hempty; cbn [negb] in Hrt, Hpanel.
  - destruct Hrt as [-> Hp]. rewrite Hp. do 3 (split; [done|]). done.
  - destruct Hrt as (bucket & owner & Hrb & -> & Hp). rewrite Hp.
    assert (Hskip : forall k v w, vget "accepted" (dict_set "destination_bucket" v (dict_set "output_pipe" w k))
                    = vget "accepted" k).
    { intros k v w. unfold vget. by rewrite !dict_get_set_ne. }
    rewrite Hskip. do 3 (split; [done|]). split; [|done]. intros _. exists panel, bucket, owner.
    split; [by apply Hpanel|]. do 2 (split; [done|]).
    unfold vget. rewrite dict_get_set_ne by done. by rewrite dict_get_set_eq.
Qed.

(** C18. Governance: a sink with a bound input pipe answers only for a card in
    the bucket of one of them (a sink none of whose input pipes is bound, or
    that has none, answers for a card in any bucket of any panel), and only
    for a production card unless the sink allows shadow egress. The registry
    publication sink moreover requires both an accepted topology validation
    and an accepted governance review in the card's history and leaves a
    candidate that validates, is registered in the runtime and has an entry in
    the registry; the authority provisioner requires both onboarding decisions
    and a payload that parses. *)
Theorem sink_requires_governance pp cid sink ext key (s : W * Env) result s' :
  Inv (w_runtime s.1) s.2 -> execute_sink pp cid sink ext key s = (Ok result, s') ->
  governed pp cid sink ext s result s'.
Proof.
  intros Hi Hrun.
  enough (Hwp : wp (execute_sink pp cid sink ext key) (fun r s' => forall result, r = Ok result ->
            governed pp cid sink ext s result s') s).
  { unfold wp in Hwp. rewrite Hrun in Hwp. exact (Hwp result eq_refl). }
  clear result s' Hrun. unfold execute_sink. apply wp_bind, wp_lift; [|done].
  intros node (Hn & Hid & Ht)%node_ok. apply wp_bind, wp_on_runtime.
  apply wp_get_card; cbn [fst snd]; rewrite world_eta; [|done]. intros card Hc.
  destruct (inv_card _ _ Hi _ _ Hc) as [Hcid _].
  destruct (_ && _) eqn:Hshadow; [by apply wp_raise|]. apply wp_bind, wp_lift; [|done].
  intros [] Hat%at_sink_ok. rewrite <- Hcid in Hc.
  assert (Hsh : v_truthy (vget "shadow" (cd_metadata card)) = true ->
     v_truthy (vget_default "allow_shadow_egress" (VBool false) (nd_config node)) = true).
  { intros Hs. rewrite Hs in Hshadow. by apply negb_false_iff in Hshadow. }
  apply wp_bind. unfold _execute_configured_sink. case_bool_decide as Hauth.
  - eapply wp_mono; [by apply provision_frame|]. intros [answer|x] s1 Hprov; [|done].
    destruct (Hprov answer eq_refl) as (? & ? & ?). apply wp_bind. unfold wp at 1.
    destruct (on_runtime _ s1) as [[ev|x] s2]; cbn [fst snd]; [|done]. apply wp_ret.
    intros result [= <-]. exists node, card. rewrite <- Hid, <- Hcid.
    do 6 (split; [done|]). split; [done | by intros].
  - destruct (is_publication node) eqn:Hpub; cbn [negb].
    + eapply wp_mono; [by apply publish_spec|]. intros [answer|x] s1 Hp; [|done].
      destruct (Hp answer eq_refl) as [(Ht1 & Ht2 & cand & entry & Hcand & Hforce & Hans) _].
      apply wp_bind. eapply wp_mono; [by eapply publish_runtime_event|].
      intros [ev|x] s2 Hf2; [|done]. apply wp_ret. intros result [= <-].
      exists node, card. rewrite <- Hid, <- Hcid. do 6 (split; [done|]). split; [done|].
      intros _ _. split; [done|]. split; [done|]. by exists cand, entry.
    + apply wp_ret, wp_bind. unfold wp at 1.
      destruct (on_runtime _ s) as [[ev|x] s2]; cbn [fst snd]; [|done]. apply wp_ret.
      intros result [= <-]. exists node, card. rewrite <- Hid, <- Hcid.
      do 6 (split; [done|]). split; [done|]. intros _ Hyes. congruence.
Qed.

(** C19. The algorithmic topology validator, on a request that decides nothing
    itself. Under a fresh idempotency key and without the key [accepted] in
    its payload, an answered request is accepted if and only if the candidate
    of the card parses and validates; the configured exit is then chosen, it
    is a declared output of the node, the recorded decision is the computed
    one, and the card is routed through the exit (or stays, when the exit is
    the empty string). Under a key that was used before, the answer is the
    event recorded under it, whatever it decided, and the runtime does not
    change. *)
Theorem topology_validator_decides pp request (s : W * Env) ev s' node :
  Inv (w_runtime s.1) s.2 ->
  _node pp (vi_validator_id request) NT_VALIDATOR = Ok node ->
  vget "validation_handler" (nd_config node) = VStr "patch_panel_topology" ->
  vi_accepted request = None -> vi_selected_exit request = None ->
  execute_validator pp request s = (Ok ev, s') ->
  (cache_miss (vi_idempotency_key request) (w_runtime s.1) ->
   dict_get "accepted" (vi_payload request) = None -> topology_decision request node s ev s') /\
  replays_event (vi_idempotency_key request) (w_runtime s.1, s.2) ev (w_runtime s'.1, s'.2).
Proof.
  intros Hi Hnode Hh Ha He Hrun.
  enough (Hwp : wp (execute_validator pp request) (fun r s' => forall ev, r = Ok ev ->
            (cache_miss (vi_idempotency_key request) (w_runtime s.1) ->
             dict_get "accepted" (vi_payload request) = None -> topology_decision request node s ev s') /\
            replays_event (vi_idempotency_key request) (w_runtime s.1, s.2) ev (w_runtime s'.1, s'.2)) s).
  { unfold wp in Hwp. rewrite Hrun in Hwp. exact (Hwp ev eq_refl). }
  clear ev s' Hrun. unfold execute_validator. apply wp_bind, wp_lift_res. rewrite Hnode. cbn beta iota.
  rewrite Hh. change (v_eq_str (VStr "patch_panel_topology") "patch_panel_topology") with true.
  change (v_eq_str (VStr "patch_panel_topology") "participant_onboarding_compliance") with false.
  apply wp_bind, topology_request_spec; [done | done | done|].
  intros card r' Hc (vx & ix & Hvx & Hix & Hcid & Hkey & Hdec & Hpay).
  apply wp_bind, wp_ret, wp_bind.
  assert (Hres : exists accepted exit, vi_accepted r' = Some accepted /\ vi_selected_exit r' = Some exit /\
            (accepted = true <-> is_ok (validate_candidate card)) /\
            vget (if accepted then "valid_exit" else "invalid_exit") (nd_config node) = VStr exit).
  { destruct Hdec as [(? & ? & ?)|(? & ? & ?)]; [exists true, vx | exists false, ix]; naive_solver. }
  clear Hdec. destruct Hres as (b & exit & Hb & Hexit & Hiff & Hcfg). rewrite Hexit.
  apply wp_lift; [|done]. intros [] [Hdecl _]%validator_exit_ok. apply wp_bind, wp_lift_res.
  unfold _validator_accepted. rewrite Hb. cbn beta iota. apply wp_on_runtime.
  rewrite Hcid, Hkey. eapply wp_mono; [by eapply validate_card_spec|].
  intros r s1 Hr ev ->. destruct (Hr ev eq_refl) as [Hrec Hrep]. cbn [fst snd w_runtime] in *.
  split; [|by destruct s1]. intros Hm Hpa.
  eapply decision_recorded_as; [exact Hc | exact Hiff | exact Hcfg | exact Hdecl | | exact (Hrec Hm)].
  rewrite Hpay; [done|]. set_solver.
Qed.

(** C20. [validate_card] records what it is told. Under a fresh idempotency
    key the event carries the validator's decision, the history has grown by
    exactly this event, and, when an exit is given, the card's own panel
    resolves the exit, the card is in the bucket of the exit and the event
    names both. A key of the caller's payload, however, replaces the recorded
    decision: with [accepted] (and, unrouted, [output_pipe]) in the payload,
    the event says what the payload says. Under a key that was used before,
    the answer is the event recorded under it and nothing changes. *)
Theorem validate_card_records cid vid accepted reason exit payload key s ev s' c :
  Inv s.1 s.2 -> dict_get cid (_cards s.1) = Some c -> NoDup (dict_keys payload) ->
  validate_card cid vid accepted reason exit (Some payload) key s = (Ok ev, s') ->
  (cache_miss key s.1 ->
   history_of cid s'.1 = history_of cid s.1 ++ [ev] /\
   ev_event_type ev = "card_validated" /\ ev_actor_id ev = Some vid /\
   (forall k, k ∉ ["output_pipe"; "destination_bucket"] \/ truthy exit = false ->
      dict_get k (ev_payload ev) =
        match dict_get k payload with
        | Some v => Some v
        | None => dict_get k [("accepted", VBool accepted); ("reason", v_opt_str reason)]
        end) /\
   (truthy exit = true -> exists pp bucket node,
      dict_get (card_panel_id c) (_patch_panels s.1) = Some pp /\
      resolve_pipe_bucket pp (str_or exit "") "output" = Ok (bucket, node) /\
      dict_get cid (_cards s'.1) = Some (card_with_bucket bucket c) /\
      vget "output_pipe" (ev_payload ev) = VStr (str_or exit "") /\
      vget "destination_bucket" (ev_payload ev) = VStr bucket) /\
   (truthy exit = false -> dict_get cid (_cards s'.1) = Some c)) /\
  replays_event key s ev s'.
Proof.
  intros Hi Hc Hnd Hrun.
  pose proof (validate_card_spec cid vid accepted reason exit payload key s c Hi Hc) as Hs.
  unfold wp in Hs. rewrite Hrun in Hs. destruct (Hs ev eq_refl) as [Hrec Hrep]. cbn [snd fst] in *.
  split; [|done]. intros Hm.
  destruct (Hrec Hm) as (pp & c' & Hpp & Hrt & (_ & Hty & Hact & _) & Hc' & Hh).
  pose proof (fun k => validation_payload_get accepted reason payload k Hnd) as Hbase.
  split; [done|]. split; [done|]. split; [done|]. unfold routed in Hrt.
  destruct (truthy exit) eqn:Et.
  - destruct Hrt as (bucket & node & Hr & -> & Hp). split; [|split; [|done]].
    + intros k [Hk|]; [|done]. rewrite Hp, !dict_get_set_ne by set_solver. apply Hbase.
    + intros _. exists pp, bucket, node. split; [by apply Hpp|]. split; [done|]. split; [done|].
      rewrite Hp. unfold vget. split.
      * rewrite dict_get_set_ne by done. by rewrite dict_get_set_eq.
      * by rewrite dict_get_set_eq.
  - destruct Hrt as [-> Hp]. split; [|done]. intros k _. rewrite Hp. apply Hbase.
Qed.
End properties.

(** ** Publishing once *)
Section once.
Context `{Oracle} `{Networkx} `{Pydantic} {A : Type} `{AuthorizationRepository A}.
Notation W := (World Runtime RegistryState A).

(** At most one entry for a version of a panel. *)
Definition one_per_version (w : W) : Prop :=
  forall reg e e', w_registry w = Some reg -> e ∈ dict_values reg -> e' ∈ dict_values reg ->
    re_patch_panel_id e = re_patch_panel_id e' -> re_version e = re_version e' -> e = e'.

Definition keeps {B} (m : M W B) : Prop :=
  forall s, one_per_version s.1 -> wp m (fun _ s' => one_per_version s'.1) s.

Lemma keeps_bind {B C} (m : M W B) (f : B -> M W C) : keeps m -> (forall b, keeps (f b)) -> keeps (m ≫= f).
Proof.
  intros Hm Hf s Hs. apply wp_bind. eapply wp_mono; [by apply Hm|]. intros [b|x] s' Hs'; [by apply Hf | done].
Qed.

Lemma keeps_pure {B} (r : res B) : keeps (lift_res r).
Proof. intros s Hs. by apply wp_lift_res. Qed.

Lemma keeps_runtime {B} (m : M Runtime B) : keeps (on_runtime m).
Proof. intros s Hs. apply wp_on_runtime. unfold wp. exact Hs. Qed.

Lemma keeps_auth {B} x (m : M A B) : keeps (on_auth x m).
Proof. intros s Hs. apply wp_on_auth; [done|]. intros a _. unfold wp. exact Hs. Qed.

Lemma keeps_forM {B} (l : list B) (f : B -> M W ()) : (forall b, keeps (f b)) -> keeps (forM l f).
Proof. intros Hf. induction l as [|b l IH]; cbn [forM]; [apply (keeps_pure (Ok tt)) | by apply keeps_bind]. Qed.

Lemma keeps_provision node card ext :
  keeps (_execute_authority_provisioning_sink node card ext).
Proof.
  unfold _execute_authority_provisioning_sink, _ensure_authority_provisioning_history.
  apply keeps_bind; [apply keeps_auth|]. intros _. apply keeps_bind.
  { apply keeps_bind; [apply keeps_runtime|]. intros h. destruct (_ || _); [apply (keeps_pure (Raise _)) | apply (keeps_pure (Ok tt))]. }
  intros _. apply keeps_bind; [apply keeps_pure|]. intros p. apply keeps_bind; [apply keeps_auth|].
  intros _. apply keeps_bind; [|intros _; apply (keeps_pure (Ok _))].
  apply keeps_forM. intros a. apply keeps_bind; [apply keeps_auth | intros _; apply (keeps_pure (Ok tt))].
Qed.

Lemma keeps_publish node card ext : keeps (publish_candidate node card ext).
Proof.
  intros s Hs. unfold publish_candidate, _ensure_registry_publication_history.
  apply wp_bind, wp_on_registry; [done|]. intros g Hg. apply wp_ret. cbn [fst snd].
  set (s0 := (mkWorld _ _ _, _)). assert (s0 = s) as -> by (unfold s0; rewrite <- Hg; apply world_eta).
  apply wp_bind, wp_bind, wp_on_runtime. unfold wp at 1.
  destruct (rt_card_history _ _) as [[h|x] t]; cbn [fst snd]; [|exact Hs].
  destruct (_ || _); [apply wp_raise; exact Hs | apply wp_ret].
  apply wp_bind, wp_lift; [|intros; exact Hs]. intros candidate _.
  apply wp_bind, wp_lift; [|intros; exact Hs]. intros metadata _.
  apply wp_bind, wp_on_runtime. unfold wp at 1.
  destruct (rt_register_patch_panel _ _) as [[pp|x] t2]; cbn [fst snd]; [|exact Hs].
  apply wp_bind, wp_on_registry; [intros _; exact Hs|]. cbn [fst snd w_registry].
  intros g' Hg'. apply wp_bind, wp_get, wp_ret. cbn [fst snd w_runtime w_auth]. apply wp_bind.
  destruct (py_next _ _) as [e|] eqn:En; [apply wp_ret, wp_ret; intros ? ? ? [= <-]; by apply Hs|].
  apply wp_bind, wp_from_patch_panel. intros e env' Hid Hv _. cbn [fst snd].
  apply wp_on_registry; [intros _; intros ? ? ? [= <-]; by apply Hs|]. cbn [fst snd w_registry w_runtime w_auth].
  intros g2 [= <-]. apply wp_bind, wp_modify, wp_ret, wp_ret. cbn [fst snd]. intros reg e1 e2 [= <-] H1' H2'.
  rewrite py_next_none in En.
  assert (Hnew : forall x, x ∈ dict_values g' -> re_patch_panel_id x = pp_id candidate ->
            re_version x = pp_version candidate -> False).
  { intros x Hx Hxi Hxv. specialize (En x). rewrite !bool_decide_eq_true_2 in En by done.
    discriminate En. apply elem_of_py_filter. split; [done|]. unfold _entry_matches. cbn.
    by destruct (re_status x). }
  apply dict_set_values_elem in H1' as [->|H1']; apply dict_set_values_elem in H2' as [->|H2'];
    intros Hpi Hpv; [done | | |by eapply Hs].
  - exfalso. apply (Hnew e2 H2'); congruence.
  - exfalso. apply (Hnew e1 H1'); congruence.
Qed.

(** C21. Publication is idempotent in the registry: whatever it answers or
    raises, executing a sink never makes a second entry for a version of a
    panel. *)
Theorem sink_publishes_once pp cid sink ext key s :
  one_per_version s.1 -> one_per_version (execute_sink pp cid sink ext key s).2.1.
Proof.
  enough (Hk : keeps (execute_sink pp cid sink ext key)) by apply Hk.
  unfold execute_sink. apply keeps_bind; [apply keeps_pure|]. intros node.
  apply keeps_bind; [apply keeps_runtime|]. intros card.
  destruct (_ && _); [apply (keeps_pure (Raise _))|]. apply keeps_bind; [apply keeps_pure|]. intros _.
  apply keeps_bind.
  - unfold _execute_configured_sink. case_bool_decide; [apply keeps_provision|].
    destruct (negb _); [apply (keeps_pure (Ok _)) | apply keeps_publish].
  - intros ans. apply keeps_bind; [apply keeps_runtime|]. intros ev. apply (keeps_pure (Ok _)).
Qed.
End once.

(** ** Evaluated instances

    A proposal that walks through [system_pp_approval]: the topology
    validator accepts it, governance approves it, the sink publishes it. *)
Module Proposal.
#[local] Existing Instance tick_oracle.
#[local] Existing Instance tick_oracle_laws.
#[local] Existing Instance ListGraph.networkx.
#[local] Existing Instance ListGraph.networkx_laws.

(** The document [work] stands for the [work] panel. *)
#[export] Instance pydantic : Pydantic := {|
  patch_panel_fields v :=
    if v_eq_str v "work" then Ok work_panel else Raise (ValidationError "not a panel");
  registry_metadata_fields _ :=
    Ok (mkRegistryMetadata "Work" None [] [] [] [] [] None None None None DRAFT);
  onboarding_fields _ := Raise (ValidationError "not an onboarding request");
  patch_panel_dump_by_alias _ := VNone; bucket_dump _ := VNone;
  patch_panel_dump _ := VStr "work";
  registry_metadata_dump _ := VNone;
  constraints_dump _ := VNone;
|}.

Definition ops : list op :=
  [Register system_pp_approval;
   CreateCard "system_pp_approval" [("candidate_definition", VStr "work")] None None].

Definition proposed : World Runtime RegistryState AuthState * Env :=
  let '(rt, e) := run_ops ops start in (mkWorld rt (Some []) (Some empty_auth_state), e).

Definition topology_request : ValidatorExecutionInput :=
  mkValidatorInput 0 "topological_validator" None None None None [] None.
Definition validated := (execute_validator system_pp_approval topology_request proposed).2.

Definition governance_request : ValidatorExecutionInput :=
  mkValidatorInput 0 "governance_reviewer" (Some "proposal_approved") None None None [] None.
Definition approved := (execute_validator system_pp_approval governance_request validated).2.

Lemma ops_Inv os : Inv (run_ops os start).1 (run_ops os start).2.
Proof. apply run_ops_Inv, Inv_start. Qed.
End Proposal.

Section witnesses.
Import Proposal.
#[local] Existing Instance tick_oracle.
#[local] Existing Instance tick_oracle_laws.
#[local] Existing Instance ListGraph.networkx.
#[local] Existing Instance ListGraph.networkx_laws.

(** The same events, driven on the runtime directly. *)
Definition approval_ops : list op :=
  ops ++
  [ValidateCard 0 "topological_validator" true (Some "Patch Panel topology validation passed")
     (Some "topology_valid")
     (Some [("validation_handler", VStr "patch_panel_topology");
            ("candidate_patch_panel_id", VStr "work"); ("node_count", VInt 3);
            ("edge_count", VInt 2); ("cycles", VList [])]) None;
   ValidateCard 0 "governance_reviewer" true None (Some "proposal_approved") (Some []) None].

Definition replayed (rt : Runtime * Env) : World Runtime RegistryState AuthState * Env :=
  (mkWorld rt.1 (Some []) (Some empty_auth_state), rt.2).

Lemma approved_replayed : approved = replayed (run_ops approval_ops start).
Proof. vm_compute. reflexivity. Qed.

Lemma replayed_Inv rt : Inv rt.1 rt.2 -> Inv (w_runtime (replayed rt).1) (replayed rt).2.
Proof. done. Qed.

Lemma approved_Inv : Inv (w_runtime approved.1) approved.2.
Proof.
  exact (eq_ind_r (fun w => Inv (w_runtime w.1) w.2) (replayed_Inv _ (ops_Inv approval_ops))
           approved_replayed).
Qed.

Lemma sink_requires_governance_witness :
  exists result s',
    execute_sink system_pp_approval 0 "registry_publication_sink" None None approved = (Ok result, s') /\
    governed system_pp_approval 0 "registry_publication_sink" None approved result s'.
Proof.
  assert (Hrun : exists result s',
    execute_sink system_pp_approval 0 "registry_publication_sink" None None approved = (Ok result, s'))
    by (eexists _, _; vm_compute; reflexivity).
  destruct Hrun as (result & s' & Hrun). exists result, s'. split; [exact Hrun|].
  exact (sink_requires_governance system_pp_approval 0 "registry_publication_sink" None None approved
           result s' approved_Inv Hrun).
Defined.

Lemma topology_validator_decides_witness :
  exists ev s' node,
    execute_validator system_pp_approval topology_request proposed = (Ok ev, s') /\
    topology_decision topology_request node proposed ev s'.
Proof.
  assert (Hnode : exists node, _node system_pp_approval "topological_validator" NT_VALIDATOR = Ok node /\
            vget "validation_handler" (nd_config node) = VStr "patch_panel_topology")
    by (eexists; split; [reflexivity | reflexivity]).
  assert (Hrun : exists ev s',
    execute_validator system_pp_approval topology_request proposed = (Ok ev, s'))
    by (eexists _, _; vm_compute; reflexivity).
  destruct Hnode as (node & Hnode & Hcfg), Hrun as (ev & s' & Hrun).
  exists ev, s', node. split; [exact Hrun|].
  apply (topology_validator_decides system_pp_approval topology_request proposed ev s' node).
  - exact (ops_Inv ops).
  - exact Hnode.
  - exact Hcfg.
  - reflexivity.
  - reflexivity.
  - exact Hrun.
  - intros c Hc. discriminate Hc.
  - reflexivity.
Defined.

(** A rejection recorded with a payload that says otherwise: the history
    then holds the acceptance the publication sink looks for, although
    [accepted] was [False] and the card was not routed. *)
Definition forged : doc := [("accepted", VBool true); ("output_pipe", VStr "proposal_approved")].

Lemma forged_keys : NoDup (dict_keys forged).
Proof. apply (bool_decide_unpack (NoDup (dict_keys forged))). vm_compute. exact I. Qed.

Lemma validate_card_records_witness :
  exists ev s', validate_card 0 "governance_reviewer" false None None (Some forged) None
                  (run_ops ops start) = (Ok ev, s') /\
    has_decision (history_of 0 s'.1) "governance_reviewer" "proposal_approved".
Proof.
  assert (Hrun : exists ev s', validate_card 0 "governance_reviewer" false None None (Some forged) None
                   (run_ops ops start) = (Ok ev, s')) by (eexists _, _; vm_compute; reflexivity).
  assert (Hc : exists c, dict_get 0%N (_cards (run_ops ops start).1) = Some c)
    by (eexists; vm_compute; reflexivity).
  destruct Hrun as (ev & s' & Hrun), Hc as [c Hc]. exists ev, s'. split; [exact Hrun|].
  assert (Hmiss : cache_miss None (run_ops ops start).1) by (intros x Hx; discriminate Hx).
  destruct (proj1 (validate_card_records 0 "governance_reviewer" false None None forged None
              (run_ops ops start) ev s' c (ops_Inv ops) Hc forged_keys Hrun) Hmiss)
    as (Hh & Hty & Hact & Hget & _).
  exists ev. rewrite Hh. split; [apply elem_of_app; right; left|]. split; [exact Hty|].
  split; [exact Hact|]. unfold vget. rewrite !Hget by (right; reflexivity). split; reflexivity.
Defined.

Lemma sink_publishes_once_witness :
  one_per_version (execute_sink system_pp_approval 0 "registry_publication_sink" None None approved).2.1.
Proof.
  apply (sink_publishes_once system_pp_approval 0 "registry_publication_sink" None None approved).
  assert (Hreg : w_registry approved.1 = Some []) by (vm_compute; reflexivity).
  intros reg e e' Hr He. rewrite Hreg in Hr. injection Hr as <-.
  destruct (not_elem_of_nil e He).
Defined.
End witnesses.
