(* ===== verification/Shadow.v ===== *)
(** * Shadow execution and mutations ([runtime/shadow.py])

    [ShadowService] keeps the links between production cards and their
    shadows, and the proposed mutations of panels, next to the runtime it
    drives through [CardRuntime]. *)
From Stdlib Require Import ZArith QArith Ascii String.
From S2P Require Import Prelude Values Authority Models Graph PanelValidator Artifacts.
From S2P Require Import RuntimeService.
Open Scope string_scope.
Open Scope list_scope.

Record ShadowPolicy : Type := mkPolicy { sample_rate : Q; max_parallel : Z }.

Definition default_policy : ShadowPolicy := mkPolicy 1 1.

Record ShadowRun : Type := mkShadowRun {
  production_card : Card;
  shadow_card : Card;
  shadow_metadata : doc;
}.

Record ShadowState : Type := mkShadowState {
  links : list (UUID * ShadowCardLink);
  mutations : list (UUID * ProposedMutation);
}.

Definition put_link (l : ShadowCardLink) (st : ShadowState) : ShadowState :=
  mkShadowState (dict_set (sl_id l) l (links st)) (mutations st).
Definition put_link_at (i : UUID) (l : ShadowCardLink) (st : ShadowState) : ShadowState :=
  mkShadowState (dict_set i l (links st)) (mutations st).
Definition put_mutation_at (i : UUID) (m : ProposedMutation) (st : ShadowState) : ShadowState :=
  mkShadowState (links st) (dict_set i m (mutations st)).

(** The [model_copy(update=...)] calls. *)
Definition link_completed (metrics : doc) (l : ShadowCardLink) : ShadowCardLink :=
  mkShadowCardLink (sl_id l) (sl_production_card_id l) (sl_shadow_card_id l) (sl_candidate_id l)
    "completed" metrics (sl_created_at l).
Definition mutation_validated (status : MutationStatus) (t : datetime) (payload : doc)
    (m : ProposedMutation) : ProposedMutation :=
  mkMutation (mu_id m) (mu_mutation_type m) (mu_proposed_by m) payload status (mu_created_at m)
    (Some t) (mu_promoted_at m).
Definition mutation_promoted (t : datetime) (m : ProposedMutation) : ProposedMutation :=
  mkMutation (mu_id m) (mu_mutation_type m) (mu_proposed_by m) (mu_payload m) MUT_PROMOTED
    (mu_created_at m) (mu_validated_at m) (Some t).

(** [link.production_card_id == card.id and link.status == "active"]. *)
Definition active_link (card_id : UUID) (l : ShadowCardLink) : bool :=
  bool_decide (sl_production_card_id l = card_id) && bool_decide (sl_status l = "active").

Definition active_links (card_id : UUID) (st : ShadowState) : list ShadowCardLink :=
  py_filter (active_link card_id) (dict_values (links st)).

Section shadow.
Context `{Oracle} {R : Type} `{CardRuntime R}.
Notation W := (R * ShadowState)%type.

Definition on_rt {B} (m : M R B) : M W B := zoom fst (fun r w => (r, w.2)) m.
Definition on_state {B} (m : M ShadowState B) : M W B := zoom snd (fun t w => (w.1, t)) m.

Definition _link (link_id : UUID) : M W ShadowCardLink :=
  st ← get;
  match dict_get link_id (links st.2) with
  | Some l => mret l
  | None => raise (NotFoundError ("shadow link '" +:+ uuid_str link_id +:+ "' does not exist"))
  end.

Definition _mutation (mutation_id : UUID) : M W ProposedMutation :=
  st ← get;
  match dict_get mutation_id (mutations st.2) with
  | Some m => mret m
  | None => raise (NotFoundError ("mutation '" +:+ uuid_str mutation_id +:+ "' does not exist"))
  end.

Definition new_link (production_card_id shadow_card_id : UUID) (candidate_id : string) :
    M W ShadowCardLink :=
  i ← uuid4; t ← now;
  mret (mkShadowCardLink i production_card_id shadow_card_id candidate_id "active" [] t).

Definition create_shadow_card (production_card : Card) (candidate_id : string)
    (policy : option ShadowPolicy) (idempotency_key : option string) : M W ShadowRun :=
  let policy := default default_policy policy in
  if Qle_bool (sample_rate policy) 0
  then raise (InvalidOperationError "shadow sampling skipped this card")
  else
    st ← get;
    if Z.leb (max_parallel policy)
         (Z.of_nat (length (active_links (cd_id production_card) st.2)))
    then raise (ConflictError
                  ("production card '" +:+ uuid_str (cd_id production_card) +:+
                   "' already has maximum parallel shadows"))
    else
      let patch_panel_id := (split_first ":" (cd_workflow_version production_card)).1 in
      shadow_card ← on_rt (rt_create_card patch_panel_id (cd_payload production_card)
        (Some (dict_update (cd_metadata production_card)
                 [("shadow", VBool true);
                  ("production_card_id", VStr (uuid_str (cd_id production_card)));
                  ("candidate_id", VStr candidate_id)]))
        idempotency_key);
      link ← new_link (cd_id production_card) (cd_id shadow_card) candidate_id;
      _ ← on_state (modify (put_link link));
      _ ← on_rt (rt_record_event (cd_id production_card) "shadow_created" (Some candidate_id)
        (Some [("shadow_card_id", VStr (uuid_str (cd_id shadow_card)));
               ("shadow_link_id", VStr (uuid_str (sl_id link)));
               ("candidate_id", VStr candidate_id)]) None);
      mret (mkShadowRun production_card shadow_card
              [("production_card_id", VStr (uuid_str (cd_id production_card)));
               ("shadow_card_id", VStr (uuid_str (cd_id shadow_card)));
               ("shadow_link_id", VStr (uuid_str (sl_id link)));
               ("candidate_id", VStr candidate_id)]).

Definition complete_shadow (link_id : UUID) (metrics : doc) : M W ShadowCardLink :=
  link ← _link link_id;
  let completed := link_completed metrics link in
  _ ← on_state (modify (put_link_at link_id completed));
  _ ← on_rt (rt_record_event (sl_production_card_id completed) "shadow_completed"
        (Some (sl_candidate_id completed))
        (Some [("shadow_link_id", VStr (uuid_str link_id)); ("metrics", VDict metrics)]) None);
  mret completed.

Definition propose_mutation (mutation_type proposed_by : string) (payload : doc) :
    M W ProposedMutation :=
  i ← uuid4; t ← now;
  let mutation := mkMutation i mutation_type proposed_by payload MUT_SHADOWING t None None in
  _ ← on_state (modify (put_mutation_at i mutation));
  mret mutation.

Definition validate_mutation (mutation_id : UUID) (accepted : bool) (validator_id : string)
    (reason : option string) : M W ProposedMutation :=
  mutation ← _mutation mutation_id;
  let status := if accepted then MUT_VALIDATED else MUT_REJECTED in
  t ← now;
  let validated := mutation_validated status t
    (dict_update (mu_payload mutation)
       [("validation", VDict [("validator_id", VStr validator_id); ("reason", v_opt_str reason)])])
    mutation in
  _ ← on_state (modify (put_mutation_at mutation_id validated));
  mret validated.

Definition promote_mutation (mutation_id : UUID) (patch_panel : PatchPanel) :
    M W ProposedMutation :=
  mutation ← _mutation mutation_id;
  if negb (bool_decide (mu_status mutation = MUT_VALIDATED))
  then raise (ConflictError "only validated mutations can be promoted")
  else
    _ ← on_rt (rt_register_patch_panel patch_panel);
    t ← now;
    let promoted := mutation_promoted t mutation in
    _ ← on_state (modify (put_mutation_at mutation_id promoted));
    mret promoted.
End shadow.
