(* ===== verification/ShadowTheorems.v ===== *)
(** * What shadow execution and mutation promotion guarantee *)
From Stdlib Require Import ZArith QArith Ascii String.
From S2P Require Import Prelude Values Authority Models Graph PanelValidator SystemPanels Artifacts.
From S2P Require Import RuntimeService MemoryRuntime MemorySpec MemoryInvariant MemoryRefine MemoryReplay.
From S2P Require Import Auth Registry Pydantic Executor ExecutorSpec Shadow.
Open Scope string_scope.
Open Scope list_scope.

Section zooms.
Context {R B : Type}.

Lemma wp_on_rt (m : M R B) (Q : res B -> (R * ShadowState) * Env -> Prop) s :
  wp m (fun r t => Q r ((t.1, s.1.2), t.2)) (s.1.1, s.2) -> wp (on_rt m) Q s.
Proof. intros Hm. unfold on_rt. by apply wp_zoom. Qed.

Lemma wp_on_state (m : M ShadowState B) (Q : res B -> (R * ShadowState) * Env -> Prop) s :
  wp m (fun r t => Q r ((s.1.1, t.1), t.2)) (s.1.2, s.2) -> wp (on_state m) Q s.
Proof. intros Hm. unfold on_state. by apply wp_zoom. Qed.
End zooms.

Lemma filter_dict_set {K V} `{EqDecision K} (p : V -> bool) (k : K) v d :
  length (py_filter p (dict_values (dict_set k v d))) <= S (length (py_filter p (dict_values d))).
Proof.
  unfold py_filter, dict_values, fmap. induction d as [|[j w] d IH]; simpl; [destruct (p v); simpl; lia|].
  case_decide; simpl; [destruct (p v), (p w); simpl; lia|]. destruct (p w); simpl in *; lia.
Qed.

(** ** The number of parallel shadows *)
Section parallel.
Context `{Oracle} {R : Type} `{CardRuntime R}.

Lemma wp_new_link pid sid cand (Q : res ShadowCardLink -> (R * ShadowState) * Env -> Prop) s :
  (forall l e', sl_production_card_id l = pid -> sl_shadow_card_id l = sid -> sl_candidate_id l = cand ->
     sl_status l = "active" -> Q (Ok l) (s.1, e')) ->
  wp (new_link pid sid cand) Q s.
Proof. intros HQ. apply wp_bind, wp_uuid4, wp_bind, wp_now, wp_ret. by apply HQ. Qed.

(** What a shadow that was made has done to the service's state: one link
    more, under its own identifier. *)
Definition shadowed (card : Card) (cand : string) (p : ShadowPolicy) (st : ShadowState) (run : ShadowRun)
    (st' : ShadowState) : Prop :=
  (0 < sample_rate p)%Q /\
  (Z.of_nat (length (active_links (cd_id card) st)) < max_parallel p)%Z /\
  (Z.of_nat (length (active_links (cd_id card) st')) <= max_parallel p)%Z /\
  (exists l, sl_production_card_id l = cd_id card /\ sl_shadow_card_id l = cd_id (shadow_card run) /\
     sl_candidate_id l = cand /\ sl_status l = "active" /\ dict_get (sl_id l) (links st') = Some l /\
     forall i, i <> sl_id l -> dict_get i (links st') = dict_get i (links st)) /\
  mutations st' = mutations st.

(** C22. The sampling policy bounds the parallel shadows of a card, whatever
    the runtime: when [create_shadow_card] answers, the card had fewer than
    [max_parallel] active links before and has at most that many after, and
    the sample rate was positive. It wrote one active link, from the card to
    its shadow, under the identifier drawn for it; the links under all other
    identifiers, of this card and of the other cards, and the mutations are
    as they were. *)
Theorem shadow_parallel_bound card cand policy key (s : (R * ShadowState) * Env) run s' :
  create_shadow_card card cand policy key s = (Ok run, s') ->
  shadowed card cand (default default_policy policy) s.1.2 run s'.1.2.
Proof.
  intros Hrun. set (p := default default_policy policy).
  enough (Hwp : wp (create_shadow_card card cand policy key) (fun r s' => forall run, r = Ok run ->
    shadowed card cand p s.1.2 run s'.1.2) s).
  { unfold wp in Hwp. rewrite Hrun in Hwp. by apply (Hwp run). }
  clear run s' Hrun. unfold create_shadow_card. fold p.
  destruct (Qle_bool (sample_rate p) 0) eqn:Eq; [by apply wp_raise|].
  apply wp_bind, wp_get. destruct (Z.leb_spec (max_parallel p) (Z.of_nat (length (active_links (cd_id card) s.1.2))));
    [by apply wp_raise|].
  assert (0 < sample_rate p)%Q as Hpos.
  { apply Qnot_le_lt. intros Hle. apply Qle_bool_iff in Hle. congruence. }
  apply wp_bind, wp_on_rt. unfold wp at 1. destruct (rt_create_card _ _ _ _ _) as [[c|x] t]; [|done].
  apply wp_bind, wp_new_link. intros l e' Hl Hs Hcand Hact. apply wp_bind, wp_on_state, wp_modify. cbn [fst snd].
  apply wp_bind, wp_on_rt. unfold wp at 1. destruct (rt_record_event _ _ _ _ _ _) as [[ev|x] t']; [|done].
  apply wp_ret. intros run [= <-]. cbn [fst snd]. split; [done|]. split; [done|]. split; [|split; [|done]].
  - pose proof (filter_dict_set (active_link (cd_id card)) (sl_id l) l (links s.1.2)) as Hlen.
    unfold active_links in *. cbn [put_link links]. lia.
  - exists l. do 4 (split; [done|]). cbn [put_link links]. split; [apply dict_get_set_eq|].
    intros i Hi. by rewrite dict_get_set_ne.
Qed.
End parallel.

(** ** Shadows never leave *)
Section egress.
Context `{OracleLaws} `{NetworkxLaws} `{Pydantic} {A : Type} `{AuthorizationRepository A}.

Lemma create_card_stored pid payload metadata key (s : Runtime * Env) :
  Inv s.1 s.2 -> cache_miss key s.1 ->
  wp (create_card pid payload metadata key) (fun r s' => forall c, r = Ok c ->
    dict_get (cd_id c) (_cards s'.1) = Some c /\ cd_metadata c = default [] metadata /\
    cd_payload c = payload /\ Inv s'.1 s'.2) s.
Proof.
  intros Hi Hm. eapply wp_mono.
  { apply wp_conj; [apply (create_card_refines (fun _ => True) pid payload metadata key)|].
    instantiate (1 := fun r s' => forall c, r = Ok c -> dict_get (cd_id c) (_cards s'.1) = Some c /\
      cd_metadata c = default [] metadata /\ cd_payload c = payload).
    apply wp_with_cached; [intros x Hk Ht; by rewrite (Hm x Hk) in Ht|]. intros _.
    apply wp_bind, wp_get_patch_panel; [|done]. intros pp Hpp. apply wp_bind, wp_lift; [|done].
    intros bucket Hb. apply wp_bind, wp_new_card. intros c e1 _ _ _ _ Hp Hmeta.
    apply wp_bind, wp_modify, wp_bind, wp_new_event. simpl. intros ev e2 _ _ _.
    do 2 apply wp_bind, wp_modify. apply wp_ret. intros ? [= <-]. simpl. autorewrite with rt. simpl.
    split; [apply dict_get_set_eq | done]. }
  intros r s' [Hstep Hc] c Hr. destruct (one_step_Inv _ _ _ _ Hi Hstep) as [Hi' _].
  destruct (Hc c Hr) as (? & ? & ?). done.
Qed.

Lemma shadow_card_stored card cand policy key (s : (Runtime * ShadowState) * Env) :
  Inv s.1.1 s.2 -> cache_miss key s.1.1 ->
  wp (create_shadow_card card cand policy key) (fun r s' => forall run, r = Ok run ->
    Inv s'.1.1 s'.2 /\ exists c, dict_get (cd_id (shadow_card run)) (_cards s'.1.1) = Some c /\
      v_truthy (vget "shadow" (cd_metadata c)) = true /\ cd_payload c = cd_payload card) s.
Proof.
  intros Hi Hm. unfold create_shadow_card. destruct (Qle_bool _ _); [by apply wp_raise|].
  apply wp_bind, wp_get. destruct (Z.leb _ _); [by apply wp_raise|].
  apply wp_bind, wp_on_rt. eapply wp_mono; [by apply create_card_stored|].
  intros [c|x] s1 Hst; [|done]. destruct (Hst c eq_refl) as (Hc & Hmeta & Hpay & Hi1). cbn [fst snd].
  apply wp_bind. unfold new_link. apply wp_bind, wp_uuid4, wp_bind, wp_now, wp_ret. cbn [fst snd].
  apply wp_bind, wp_on_state, wp_modify. cbn [fst snd]. apply wp_bind, wp_on_rt. cbn [fst snd].
  assert (Hi2 : Inv s1.1 (mkEnv (S (now_ctr s1.2)) (S (uuid_ctr s1.2)))).
  { eapply Inv_env; [|exact Hi1]. split; simpl; lia. }
  eapply wp_mono; [by apply (record_event_refines (fun _ => True))|].
  intros [ev|x] s2 Hstep; [|done]. destruct (one_step_Inv _ (s1.1, mkEnv (S (now_ctr s1.2)) (S (uuid_ctr s1.2))) _ _ Hi2 Hstep)
    as (Hi3 & Hg & _). cbn [fst snd] in *.
  apply wp_ret. intros run [= <-]. split; [done|]. cbn [shadow_card fst].
  destruct (grow_cards _ _ Hg _ _ Hc) as (c' & Hc' & _ & _ & Hp' & Hm' & _).
  exists c'. split; [done|]. split; [|congruence].
  rewrite Hm', Hmeta. unfold vget. cbn. by rewrite !dict_get_set_ne, dict_get_set_eq by done.
Qed.

(** Under a recorded key the shadow is the recorded card. *)
Lemma shadow_replayed card cand policy key (s : (Runtime * ShadowState) * Env) run s' x :
  create_shadow_card card cand policy key s = (Ok run, s') ->
  lookup_key key s.1.1 = Some x -> truthy_cached x = true ->
  x = C_card (shadow_card run) /\ _cards s'.1.1 = _cards s.1.1.
Proof.
  intros Hrun Hk Ht.
  enough (Hwp : wp (create_shadow_card card cand policy key) (fun r s' => forall run, r = Ok run ->
    x = C_card (shadow_card run) /\ _cards s'.1.1 = _cards s.1.1) s).
  { unfold wp in Hwp. rewrite Hrun in Hwp. by apply (Hwp run). }
  clear run s' Hrun. unfold create_shadow_card. destruct (Qle_bool _ _); [by apply wp_raise|].
  apply wp_bind, wp_get. destruct (Z.leb _ _); [by apply wp_raise|].
  apply wp_bind, wp_on_rt.
  assert (Hcard : forall pid pl m, create_card pid pl m key (s.1.1, s.2) = (_typed_card x, (s.1.1, s.2))).
  { intros pid pl m. unfold create_card. by rewrite (with_cached_hit _ _ _ _ x). }
  unfold wp at 1. change (rt_create_card ?pid ?pl ?m key) with (create_card pid pl m key).
  rewrite !Hcard. destruct x as [c| | |]; [|done..]. cbn [_typed_card fst snd].
  apply wp_bind. unfold new_link. apply wp_bind, wp_uuid4, wp_bind, wp_now, wp_ret. cbn [fst snd].
  apply wp_bind, wp_on_state, wp_modify. cbn [fst snd]. apply wp_bind, wp_on_rt. cbn [fst snd].
  eapply wp_mono; [apply record_event_frame|]. intros [ev|y] s2 [_ Hc]; [|done].
  apply wp_ret. intros run [= <-]. split; [done|]. exact Hc.
Qed.

(** C23. Shadows never leave, when they are made under a fresh idempotency
    key: the card that [create_shadow_card] makes carries the payload of its
    production card, and, whatever the runtime does to it afterwards, no sink
    of any panel executes on it unless that sink's configuration allows shadow
    egress. Under a key that was used before there is no such promise: the
    shadow is whatever card that key stands for, unmarked and unchanged. *)
Theorem shadow_cards_never_egress card cand policy key (s : (Runtime * ShadowState) * Env) run s' :
  Inv s.1.1 s.2 -> create_shadow_card card cand policy key s = (Ok run, s') ->
  (cache_miss key s.1.1 ->
   forall os pp sink ext skey (w : World Runtime RegistryState A) e result,
   w_runtime w = (run_ops os (s'.1.1, s'.2)).1 -> e = (run_ops os (s'.1.1, s'.2)).2 ->
   (execute_sink pp (cd_id (shadow_card run)) sink ext skey (w, e)).1 = Ok result ->
   (exists c, dict_get (cd_id (shadow_card run)) (_cards (w_runtime w)) = Some c /\
      cd_payload c = cd_payload card) /\
   exists node, node ∈ pp_nodes pp /\ nd_id node = sink /\
     v_truthy (vget_default "allow_shadow_egress" (VBool false) (nd_config node)) = true) /\
  (forall x, lookup_key key s.1.1 = Some x -> truthy_cached x = true ->
     x = C_card (shadow_card run) /\ _cards s'.1.1 = _cards s.1.1).
Proof.
  intros Hi Hrun. split; [|intros x Hk Ht; by eapply shadow_replayed].
  intros Hm os pp sink ext skey w e result Hw He Hsink.
  pose proof (shadow_card_stored card cand policy key s Hi Hm) as Hs. unfold wp in Hs.
  rewrite Hrun in Hs. destruct (Hs run eq_refl) as (Hi' & c & Hc & Hshadow & Hpay).
  destruct (grow_cards _ _ (run_ops_grows os (s'.1.1, s'.2) Hi') _ _ Hc)
    as (c' & Hc' & _ & _ & Hp' & Hm' & _). rewrite <- Hw in Hc'.
  split; [exists c'; split; [done | congruence]|].
  enough (Hwp : wp (execute_sink pp (cd_id (shadow_card run)) sink ext skey) (fun r _ => is_ok r ->
    exists node, node ∈ pp_nodes pp /\ nd_id node = sink /\
      v_truthy (vget_default "allow_shadow_egress" (VBool false) (nd_config node)) = true) (w, e)).
  { apply Hwp. by eexists. }
  clear Hsink. unfold execute_sink. apply wp_bind, wp_lift; [|by intros ? ? []].
  intros node (Hn & Hid & _)%node_ok. apply wp_bind, wp_on_runtime.
  apply wp_get_card; cbn [fst snd]; [|intros; congruence]. intros x Hx.
  assert (x = c') as -> by congruence. rewrite Hm', Hshadow. cbn [andb].
  destruct (v_truthy (vget_default _ _ _)) eqn:Ea; cbn [negb]; [|apply wp_raise; by intros []].
  unfold wp. intros _. by exists node.
Qed.
End egress.

(** ** Mutations *)
Section mutations.
Context `{Oracle} `{Networkx}.

(** C24. Only a validated mutation is promoted, and only to a panel that
    validates: when [promote_mutation] answers, the mutation was in status
    [validated], the panel passed the graph validator and is the registered
    one; when it raises, neither the runtime nor the mutations have changed,
    so a rejected panel leaves the mutation as it was. *)
Theorem promote_only_validated mid pp (s : (Runtime * ShadowState) * Env) :
  let run := promote_mutation mid pp s in
  match run.1 with
  | Ok m' => exists m t, dict_get mid (mutations s.1.2) = Some m /\ mu_status m = MUT_VALIDATED /\
      is_ok (validate pp) /\ m' = mutation_promoted t m /\
      run.2.1.1 = put_panel pp s.1.1 /\ run.2.1.2 = put_mutation_at mid m' s.1.2
  | Raise _ => run.2.1 = s.1
  end.
Proof.
  enough (Hwp : wp (promote_mutation mid pp) (fun r s' => match r with
    | Ok m' => exists m t, dict_get mid (mutations s.1.2) = Some m /\ mu_status m = MUT_VALIDATED /\
        is_ok (validate pp) /\ m' = mutation_promoted t m /\
        s'.1.1 = put_panel pp s.1.1 /\ s'.1.2 = put_mutation_at mid m' s.1.2
    | Raise _ => s'.1 = s.1
    end) s) by exact Hwp.
  apply wp_bind. unfold _mutation. apply wp_bind, wp_get.
  destruct (dict_get mid _) as [m|] eqn:Em; [apply wp_ret | by apply wp_raise].
  case_bool_decide as Hst; cbn [negb]; [|by apply wp_raise].
  apply wp_bind, wp_on_rt, wp_bind, wp_lift; cbn [fst snd].
  - intros pp' [-> Hok]%validate_patch_panel_ok. apply wp_bind, wp_modify, wp_ret.
    apply wp_bind, wp_now, wp_bind, wp_on_state, wp_modify, wp_ret. cbn [fst snd].
    eexists m, _. done.
  - intros x _. by destruct s as [[? ?] ?].
Qed.
End mutations.

(** ** Evaluated instances *)
#[local] Existing Instance tick_oracle.
#[local] Existing Instance tick_oracle_laws.
#[local] Existing Instance ListGraph.networkx.
#[local] Existing Instance ListGraph.networkx_laws.

Definition production_ops : list op := [Register work_panel; CreateCard "work" [("n", VInt 1)] None None].
Definition production : (Runtime * ShadowState) * Env :=
  ((run_ops production_ops start).1, mkShadowState [] [], (run_ops production_ops start).2).
Definition original : Card := mkCard 0 "work:1" "todo" [("n", VInt 1)] [] (Aware 0).

Lemma shadow_parallel_bound_witness :
  exists run s', create_shadow_card original "candidate" None None production = (Ok run, s') /\
    (Z.of_nat (length (active_links (cd_id original) s'.1.2)) <= 1)%Z.
Proof.
  assert (Hrun : exists run s', create_shadow_card original "candidate" None None production = (Ok run, s'))
    by (eexists _, _; vm_compute; reflexivity).
  destruct Hrun as (run & s' & Hrun). exists run, s'. split; [exact Hrun|].
  exact (proj1 (proj2 (proj2
    (shadow_parallel_bound original "candidate" None None production run s' Hrun)))).
Defined.

(** A panel whose sink allows shadow egress. *)
Definition open_panel : PatchPanel :=
  mkPatchPanel "open" "1" None [] [sink_node "drain" [] [("allow_shadow_egress", VBool true)]] []
    [] [] [].

Definition demo_pydantic : Pydantic := {|
  patch_panel_fields _ := Raise (ValidationError "not a panel");
  registry_metadata_fields _ := Raise (ValidationError "not metadata");
  onboarding_fields _ := Raise (ValidationError "not an onboarding request");
  patch_panel_dump_by_alias _ := VNone; bucket_dump _ := VNone;
  patch_panel_dump _ := VNone; registry_metadata_dump _ := VNone; constraints_dump _ := VNone;
|}.
#[local] Existing Instance demo_pydantic.

Lemma no_key_miss (st : Runtime) : cache_miss None st.
Proof. by intros c. Qed.

Lemma run_none (st : Runtime) (e : Env) : st = (run_ops [] (st, e)).1 /\ e = (run_ops [] (st, e)).2.
Proof. done. Qed.

Lemma production_Inv : Inv production.1.1 production.2.
Proof. exact (run_ops_Inv production_ops start Inv_start). Qed.

Lemma open_panel_egress : exists run s' result,
  create_shadow_card original "candidate" None None production = (Ok run, s') /\
  (execute_sink (A := AuthState) open_panel (cd_id (shadow_card run)) "drain" None None
     (mkWorld s'.1.1 (Some []) None, s'.2)).1 = Ok result.
Proof. eexists _, _, _. split; vm_compute; reflexivity. Qed.

Lemma shadow_cards_never_egress_witness : exists run s' result,
  create_shadow_card original "candidate" None None production = (Ok run, s') /\
  (execute_sink (A := AuthState) open_panel (cd_id (shadow_card run)) "drain" None None
     (mkWorld s'.1.1 (Some []) None, s'.2)).1 = Ok result /\
  exists node, node ∈ pp_nodes open_panel /\ nd_id node = "drain" /\
    v_truthy (vget_default "allow_shadow_egress" (VBool false) (nd_config node)) = true.
Proof.
  destruct open_panel_egress as (run & s' & result & Hpair & Hsink).
  exists run, s', result. split; [exact Hpair|]. split; [exact Hsink|].
  exact (proj2 (proj1 (shadow_cards_never_egress original "candidate" None None production run s'
    production_Inv Hpair) (no_key_miss production.1.1)
    [] open_panel "drain" None None (mkWorld s'.1.1 (Some []) None) s'.2 result
    (proj1 (run_none s'.1.1 s'.2)) (proj2 (run_none s'.1.1 s'.2)) Hsink)).
Defined.
