(* ===== verification/Genesis.v ===== *)
(** * Intent-driven genesis ([genesis/service.py])

    [GenesisService] keeps the intents it received and an index of their
    deduplication keys, searches the registry for reusable panels, and
    launches or proposes work through the runtime. *)
From Stdlib Require Import ZArith Ascii String.
From S2P Require Import Prelude Values Authority Models Graph PanelValidator Artifacts.
From S2P Require Import RuntimeService Registry Pydantic.
Open Scope string_scope.
Open Scope list_scope.

Definition SYSTEM_PP_APPROVAL_ID : string := "system_pp_approval".

Record GenesisState : Type := mkGenesisState {
  intents : list (UUID * GenesisIntent);
  deduplication_index : list (string * UUID);
}.

Definition put_intent (i : GenesisIntent) (st : GenesisState) : GenesisState :=
  mkGenesisState (dict_set (gi_id i) i (intents st)) (deduplication_index st).
Definition put_key (key : string) (i : UUID) (st : GenesisState) : GenesisState :=
  mkGenesisState (intents st) (dict_set key i (deduplication_index st)).

(** The [model_copy(update=...)] calls: new status, candidates, selection,
    launched card, proposal card and update time. *)
Definition intent_update (status : GenesisIntentStatus) (candidates : list UUID)
    (selected launched proposal : option UUID) (updated_at : datetime) (i : GenesisIntent) :
    GenesisIntent :=
  mkIntent (gi_id i) (gi_requested_by i) (gi_deduplication_key i) (gi_goal i) (gi_input_type i)
    (gi_desired_outputs i) (gi_tags i) (gi_constraints i) (gi_launch_if_existing i)
    (gi_propose_if_missing i) status candidates selected launched proposal (gi_created_at i)
    updated_at (gi_metadata i).

Definition with_candidates (ids : list UUID) (i : GenesisIntent) : GenesisIntent :=
  intent_update (gi_status i) ids (gi_selected_registry_entry_id i) (gi_launched_card_id i)
    (gi_proposal_card_id i) (gi_updated_at i) i.
Definition design_required (t : datetime) (i : GenesisIntent) : GenesisIntent :=
  intent_update GI_DESIGN_REQUIRED (gi_candidate_registry_entry_ids i)
    (gi_selected_registry_entry_id i) (gi_launched_card_id i) (gi_proposal_card_id i) t i.
Definition launched (entry_id card_id : UUID) (t : datetime) (i : GenesisIntent) : GenesisIntent :=
  intent_update GI_LAUNCHED (gi_candidate_registry_entry_ids i) (Some entry_id) (Some card_id)
    (gi_proposal_card_id i) t i.
Definition proposed (card_id : UUID) (t : datetime) (i : GenesisIntent) : GenesisIntent :=
  intent_update GI_PROPOSED (gi_candidate_registry_entry_ids i) (gi_selected_registry_entry_id i)
    (gi_launched_card_id i) (Some card_id) t i.

Definition by_input (x : string) : PatchPanelRegistrySearch :=
  mkSearch None (Some x) None None None None false false.
Definition by_output (x : string) : PatchPanelRegistrySearch :=
  mkSearch None None (Some x) None None None false false.
Definition by_tag (x : string) : PatchPanelRegistrySearch :=
  mkSearch (Some x) None None None None None false false.
Definition by_risk (x : option string) : PatchPanelRegistrySearch :=
  mkSearch None None None None x None false false.

Definition intent_filters (i : GenesisIntent) : list PatchPanelRegistrySearch :=
  [by_input (gi_input_type i)] ++ map by_output (gi_desired_outputs i) ++
  map by_tag (gi_tags i) ++
  (if truthy (gc_risk_level (gi_constraints i))
   then [by_risk (gc_risk_level (gi_constraints i))] else []).

(** [if candidate.id not in seen: seen.add(...); candidates.append(...)]. *)
Definition collect (acc found : list PatchPanelRegistryEntry) : list PatchPanelRegistryEntry :=
  foldl (fun acc c => if bool_decide (re_id c ∈ map re_id acc) then acc else acc ++ [c]) acc found.

Section genesis.
Context `{Oracle} `{Pydantic} {R G : Type} `{CardRuntime R} `{PatchPanelRegistry G}.
Notation W := (R * G * GenesisState)%type.

Definition on_rt {B} (m : M R B) : M W B := zoom (fun w => w.1.1) (fun r w => (r, w.1.2, w.2)) m.
Definition on_reg {B} (m : M G B) : M W B := zoom (fun w => w.1.2) (fun g w => (w.1.1, g, w.2)) m.
Definition on_intents {B} (m : M GenesisState B) : M W B := zoom snd (fun t w => (w.1, t)) m.

Definition get_intent (intent_id : UUID) : M W GenesisIntent :=
  st ← get;
  match dict_get intent_id (intents st.2) with
  | Some i => mret i
  | None => raise (NotFoundError ("genesis intent '" +:+ uuid_str intent_id +:+ "' does not exist"))
  end.

Fixpoint search_all (filters : list PatchPanelRegistrySearch) (acc : list PatchPanelRegistryEntry) :
    M W (list PatchPanelRegistryEntry) :=
  match filters with
  | [] => mret acc
  | f :: filters' => found ← on_reg (rg_search f); search_all filters' (collect acc found)
  end.

Definition search_candidates (intent : GenesisIntent) : M W (list PatchPanelRegistryEntry) :=
  search_all (intent_filters intent) [].

(** [GenesisIntent(...)]: empty keys and goals are rejected. *)
Definition new_intent (requested_by deduplication_key goal input_type : string)
    (desired_outputs tags : list string) (constraints : GenesisIntentConstraints)
    (launch_if_existing propose_if_missing : bool) (metadata : doc) : M W GenesisIntent :=
  i ← uuid4; t1 ← now; t2 ← now;
  if bool_decide (deduplication_key = "") || bool_decide (goal = "")
  then raise (ValidationError "String should have at least 1 character")
  else
    mret (mkIntent i requested_by deduplication_key goal input_type desired_outputs tags
            constraints launch_if_existing propose_if_missing GI_RECEIVED [] None None None
            t1 t2 metadata).

Definition receive_intent (requested_by deduplication_key goal input_type : string)
    (desired_outputs tags : list string) (constraints : GenesisIntentConstraints)
    (launch_if_existing propose_if_missing : bool) (metadata : option doc) : M W GenesisIntent :=
  st ← get;
  match dict_get deduplication_key (deduplication_index st.2) with
  | Some i => get_intent i
  | None =>
      intent ← new_intent requested_by deduplication_key goal input_type desired_outputs tags
                 constraints launch_if_existing propose_if_missing (default [] metadata);
      candidates ← search_candidates intent;
      let intent := with_candidates (map re_id candidates) intent in
      intent ← (match candidates with
                | [] => if propose_if_missing then t ← now; mret (design_required t intent)
                        else mret intent
                | _ => mret intent
                end);
      _ ← on_intents (modify (put_intent intent));
      _ ← on_intents (modify (put_key deduplication_key (gi_id intent)));
      mret intent
  end.

Definition launch (intent_id : UUID) (registry_entry_id : option UUID) : M W Card :=
  intent ← get_intent intent_id;
  match (match registry_entry_id with
         | Some i => Some i
         | None => head (gi_candidate_registry_entry_ids intent)
         end) with
  | None => raise (ConflictError "genesis intent has no registry candidate to launch")
  | Some selected_id =>
      entry ← on_reg (rg_get selected_id);
      card ← on_rt (rt_create_card (re_patch_panel_id entry)
        [("goal", VStr (gi_goal intent)); ("input_type", VStr (gi_input_type intent));
         ("desired_outputs", VList (map VStr (gi_desired_outputs intent)));
         ("tags", VList (map VStr (gi_tags intent)));
         ("constraints", constraints_dump (gi_constraints intent))]
        (Some [("genesis_intent_id", VStr (uuid_str (gi_id intent)));
               ("registry_entry_id", VStr (uuid_str (re_id entry)));
               ("requested_by", VStr (gi_requested_by intent))])
        (Some ("genesis:launch:" +:+ gi_deduplication_key intent +:+ ":" +:+ uuid_str (re_id entry))));
      t ← now;
      _ ← on_intents (modify (put_intent (launched (re_id entry) (cd_id card) t intent)));
      mret card
  end.

Definition propose (intent_id : UUID) (proposed_by : string) (candidate_definition : PatchPanel)
    (registry_metadata : PatchPanelRegistryMetadata)
    (base_patch_panel_id base_version : option string) : M W Card :=
  intent ← get_intent intent_id;
  card ← on_rt (rt_create_card SYSTEM_PP_APPROVAL_ID
    [("kind", VStr "patch_panel_proposal"); ("proposal_type", VStr "create");
     ("genesis_intent_id", VStr (uuid_str (gi_id intent))); ("proposed_by", VStr proposed_by);
     ("candidate_definition", patch_panel_dump candidate_definition);
     ("registry_metadata", registry_metadata_dump registry_metadata);
     ("base_patch_panel_id", v_opt_str base_patch_panel_id);
     ("base_version", v_opt_str base_version)]
    (Some [("genesis_intent_id", VStr (uuid_str (gi_id intent)));
           ("proposed_by", VStr proposed_by);
           ("candidate_patch_panel_id", VStr (pp_id candidate_definition))])
    (Some ("genesis:propose:" +:+ uuid_str (gi_id intent) +:+ ":" +:+ pp_id candidate_definition
           +:+ ":" +:+ pp_version candidate_definition)));
  t ← now;
  _ ← on_intents (modify (put_intent (proposed (cd_id card) t intent)));
  mret card.
End genesis.
