(* ===== verification/GenesisTheorems.v ===== *)
(** * What genesis guarantees

    Over the in-memory runtime and any registry that meets [RegistrySpec]:
    an intent is received once per deduplication key, its candidates are the
    relevant live entries of the registry, and launching it again under the
    same entry answers the same card. *)
From Stdlib Require Import ZArith Ascii String.
From stdpp Require Import gmap.
From S2P Require Import Prelude Values Authority Models Graph PanelValidator SystemPanels Artifacts.
From S2P Require Import RuntimeService MemoryRuntime MemorySpec MemoryInvariant MemoryRefine.
From S2P Require Import MemoryReplay Registry RegistryTheorems Pydantic Genesis.
Open Scope string_scope.
Open Scope list_scope.

(** ** The candidates of an intent *)
Definition has_or_any (x : string) (l : list string) : Prop := x = "" \/ x ∈ l.

(** A live entry that takes the input type, gives one of the outputs, bears
    one of the tags or has the risk level of the intent. An empty string in
    the request asks for nothing, so every live entry meets it. *)
Definition relevant (i : GenesisIntent) (e : PatchPanelRegistryEntry) : Prop :=
  re_status e <> ARCHIVED /\ re_status e <> SUPERSEDED /\
  (has_or_any (gi_input_type i) (re_input_types e) \/
   (exists o, o ∈ gi_desired_outputs i /\ has_or_any o (re_output_types e)) \/
   (exists t, t ∈ gi_tags i /\ has_or_any t (re_tags e)) \/
   (exists r, gc_risk_level (gi_constraints i) = Some r /\ r <> "" /\ re_risk_level e = Some r)).

Lemma wants_some x (P : string -> Prop) : wants (Some x) P <-> (x <> "" -> P x).
Proof. unfold wants. naive_solver. Qed.

Lemma wants_none (P : string -> Prop) : wants None P.
Proof. by intros x. Qed.

Lemma matches_live e f (Q : Prop) :
  sr_include_archived f = false -> sr_include_superseded f = false ->
  (wants (sr_tag f) (fun x => x ∈ re_tags e) /\
   wants (sr_input_type f) (fun x => x ∈ re_input_types e) /\
   wants (sr_output_type f) (fun x => x ∈ re_output_types e) /\
   wants (sr_required_tool f) (fun x => x ∈ re_required_tools e) /\
   wants (sr_risk_level f) (fun x => re_risk_level e = Some x) /\
   wants (sr_owner_participant_id f) (fun x => re_owner_participant_id e = Some x) <-> Q) ->
  matches_filters e f <-> re_status e <> ARCHIVED /\ re_status e <> SUPERSEDED /\ Q.
Proof.
  intros Ha Hs <-. split.
  - intros []. rewrite Ha, Hs in *. naive_solver.
  - intros (? & ? & ? & ? & ? & ? & ? & ?). split; try done; congruence.
Qed.

Lemma has_or_any_wants x l : (x <> "" -> x ∈ l) <-> has_or_any x l.
Proof. unfold has_or_any. destruct (decide (x = "")); naive_solver. Qed.

Ltac one_filter :=
  apply matches_live; [done | done |]; cbn; rewrite ?wants_some, ?has_or_any_wants;
  intuition auto using wants_none.

Lemma by_input_iff e x : matches_filters e (by_input x) <->
  re_status e <> ARCHIVED /\ re_status e <> SUPERSEDED /\ has_or_any x (re_input_types e).
Proof. one_filter. Qed.
Lemma by_output_iff e x : matches_filters e (by_output x) <->
  re_status e <> ARCHIVED /\ re_status e <> SUPERSEDED /\ has_or_any x (re_output_types e).
Proof. one_filter. Qed.
Lemma by_tag_iff e x : matches_filters e (by_tag x) <->
  re_status e <> ARCHIVED /\ re_status e <> SUPERSEDED /\ has_or_any x (re_tags e).
Proof. one_filter. Qed.
Lemma by_risk_iff e r : r <> "" -> matches_filters e (by_risk (Some r)) <->
  re_status e <> ARCHIVED /\ re_status e <> SUPERSEDED /\ re_risk_level e = Some r.
Proof. intros Hr. one_filter. Qed.

Lemma elem_of_intent_filters f i :
  f ∈ intent_filters i <->
  f = by_input (gi_input_type i) \/ (exists o, f = by_output o /\ o ∈ gi_desired_outputs i) \/
  (exists t, f = by_tag t /\ t ∈ gi_tags i) \/
  (exists r, f = by_risk (Some r) /\ gc_risk_level (gi_constraints i) = Some r /\ r <> "").
Proof.
  unfold intent_filters. rewrite !elem_of_app, list_elem_of_singleton, !list_elem_of_fmap.
  assert (Hr : f ∈ (if truthy (gc_risk_level (gi_constraints i))
                    then [by_risk (gc_risk_level (gi_constraints i))] else []) <->
    exists r, f = by_risk (Some r) /\ gc_risk_level (gi_constraints i) = Some r /\ r <> "").
  { destruct (gc_risk_level _) as [r|]; cbn; [|rewrite elem_of_nil; naive_solver].
    case_bool_decide; cbn; [rewrite elem_of_nil; naive_solver|].
    rewrite list_elem_of_singleton. naive_solver. }
  by rewrite Hr.
Qed.

Lemma relevant_iff i e :
  (exists f, f ∈ intent_filters i /\ matches_filters e f) <-> relevant i e.
Proof.
  unfold relevant. setoid_rewrite elem_of_intent_filters. split.
  - intros (f & [->|[(o & -> & Ho)|[(t & -> & Ht)|(r & -> & Hr & Hne)]]] & Hm).
    + apply by_input_iff in Hm. naive_solver.
    + apply by_output_iff in Hm. naive_solver.
    + apply by_tag_iff in Hm. naive_solver.
    + apply by_risk_iff in Hm; [|done]. naive_solver.
  - intros (Ha & Hs & [Hi|[(o & Ho & Hm)|[(t & Ht & Hm)|(r & Hr & Hne & Hm)]]]).
    + exists (by_input (gi_input_type i)). rewrite by_input_iff. naive_solver.
    + exists (by_output o). rewrite by_output_iff. naive_solver.
    + exists (by_tag t). rewrite by_tag_iff. naive_solver.
    + exists (by_risk (Some r)). rewrite by_risk_iff by done. naive_solver.
Qed.

(** [collect] adds the entries whose id is new, once. *)
Lemma collect_spec (view : entry_map) acc found :
  NoDup (map re_id acc) ->
  (forall e, e ∈ acc ++ found -> view !! re_id e = Some e) ->
  NoDup (map re_id (collect acc found)) /\
  (forall e, e ∈ collect acc found <-> e ∈ acc \/ e ∈ found).
Proof.
  unfold collect. revert acc. induction found as [|c found IH]; intros acc Hnd Hv; cbn [foldl].
  { split; [done|]. intros e. rewrite elem_of_nil. naive_solver. }
  case_bool_decide as Hin.
  - apply list_elem_of_fmap in Hin as (c' & Hid & Hc').
    assert (c' = c) as ->.
    { apply (inj Some). rewrite <- (Hv c'), <- (Hv c), Hid; [done | |]; rewrite elem_of_app; auto.
      right. left. }
    destruct (IH acc Hnd) as [H1' H2'].
    { intros e He. apply Hv. rewrite elem_of_app, elem_of_cons in *. tauto. }
    split; [done|]. intros e. rewrite H2', elem_of_cons. naive_solver.
  - destruct (IH (acc ++ [c])) as [H1' H2'].
    { rewrite map_app. apply NoDup_app. split; [done|]. split; [|apply NoDup_singleton].
      intros x Hx ->%list_elem_of_singleton. done. }
    { intros e He. apply Hv. rewrite !elem_of_app, elem_of_cons, elem_of_nil in *. tauto. }
    split; [done|]. intros e. rewrite H2', elem_of_app, !elem_of_cons, elem_of_nil. tauto.
Qed.

Section genesis.
Context `{OracleLaws} `{NetworkxLaws} `{Pydantic} {G : Type} `{PatchPanelRegistry G} `{!RegistrySpec G}.
Notation W := (Runtime * G * GenesisState)%type.
Implicit Types (s : W * Env).

Lemma on_reg_reads {B} (m : M G B) (r : res B) s :
  m (s.1.1.2, s.2) = (r, (s.1.1.2, s.2)) -> on_reg m s = (r, s).
Proof.
  intros Hm. unfold on_reg, zoom. cbn [fst snd] in *. rewrite Hm. by destruct s as [[[? ?] ?] ?].
Qed.

Lemma search_all_spec filters acc s :
  reg_inv s.1.1.2 -> NoDup (map re_id acc) ->
  (forall e, e ∈ acc -> reg_view s.1.1.2 !! re_id e = Some e) ->
  exists l, search_all filters acc s = (Ok l, s) /\ NoDup (map re_id l) /\
    forall e, e ∈ l <-> e ∈ acc \/ (reg_view s.1.1.2 !! re_id e = Some e /\
      exists f, f ∈ filters /\ matches_filters e f).
Proof.
  intros Hi. revert acc. induction filters as [|f filters IH]; intros acc Hnd Hv; cbn [search_all].
  { exists acc. split; [done|]. split; [done|]. intros e. split; [by left|].
    by intros [?|(_ & f & ?%elem_of_nil & _)]. }
  destruct (search_spec f (s.1.1.2, s.2) Hi) as (Hs & found & Hr & Hndf & Hin).
  unfold mbind, M_bind. rewrite (on_reg_reads (rg_search f) (Ok found) s).
  2: { rewrite (surjective_pairing (rg_search f _)). by rewrite Hr, Hs. }
  destruct (collect_spec (reg_view s.1.1.2) acc found Hnd) as [Hnd' Hc].
  { intros e [He|He]%elem_of_app; [auto | by apply Hin]. }
  destruct (IH (collect acc found) Hnd') as (l & Hl & Hndl & Hel).
  { intros e [He|He]%Hc; [auto | by apply Hin]. }
  exists l. split; [done|]. split; [done|]. intros e. rewrite Hel, Hc, Hin, entry_matches_iff.
  cbn [fst]. setoid_rewrite elem_of_cons. naive_solver.
Qed.

Lemma candidates_spec i s :
  reg_inv s.1.1.2 ->
  exists l, search_candidates i s = (Ok l, s) /\ NoDup (map re_id l) /\
    forall e, e ∈ l <-> reg_view s.1.1.2 !! re_id e = Some e /\ relevant i e.
Proof.
  intros Hi. destruct (search_all_spec (intent_filters i) [] s Hi) as (l & Hl & Hnd & Hin).
  { apply NoDup_nil_2. }
  { by intros e ?%elem_of_nil. }
  exists l. split; [done|]. split; [done|]. intros e. rewrite Hin, elem_of_nil, relevant_iff. tauto.
Qed.

(** ** The invariant of the intents *)
Record genesis_inv (t : GenesisState) (e : Env) : Prop := {
  gen_ids i it : dict_get i (intents t) = Some it -> gi_id it = i /\ drawn (mkEnv 0 0) e i;
  gen_index k i : dict_get k (deduplication_index t) = Some i ->
    exists it, dict_get i (intents t) = Some it /\ gi_deduplication_key it = k;
}.

Record GInv s : Prop := {
  g_runtime : Inv s.1.1.1 s.2;
  g_registry : reg_inv s.1.1.2;
  g_intents : genesis_inv s.1.2 s.2;
}.

(** An intent is only ever updated in its status, selection, cards and time. *)
Definition same_request (i i' : GenesisIntent) : Prop :=
  i' = intent_update (gi_status i') (gi_candidate_registry_entry_ids i)
         (gi_selected_registry_entry_id i') (gi_launched_card_id i') (gi_proposal_card_id i')
         (gi_updated_at i') i.

Lemma same_request_refl i : same_request i i.
Proof. by destruct i. Qed.
Lemma same_request_trans i1 i2 i3 : same_request i1 i2 -> same_request i2 i3 -> same_request i1 i3.
Proof. unfold same_request. intros E1 E2. rewrite E2, E1. done. Qed.

(** What the steps of the genesis service and of its surroundings keep. *)
Record gen_grows (t t' : GenesisState) : Prop := {
  gg_intents i it : dict_get i (intents t) = Some it ->
    exists it', dict_get i (intents t') = Some it' /\ same_request it it';
  gg_index k i : dict_get k (deduplication_index t) = Some i ->
    dict_get k (deduplication_index t') = Some i;
}.

Lemma gen_grows_refl t : gen_grows t t.
Proof. split; [|done]. intros i it Hit. exists it. split; [done | apply same_request_refl]. Qed.
Lemma gen_grows_trans t1 t2 t3 : gen_grows t1 t2 -> gen_grows t2 t3 -> gen_grows t1 t3.
Proof.
  intros [Hi Hk] [Hi' Hk']. split; [|auto]. intros i it Hit.
  destruct (Hi i it Hit) as (it2 & Hit2 & Hs2). destruct (Hi' i it2 Hit2) as (it3 & Hit3 & Hs3).
  exists it3. split; [done | by eapply same_request_trans].
Qed.

Lemma genesis_inv_env t e e' : env_le e e' -> genesis_inv t e -> genesis_inv t e'.
Proof.
  intros [_ Hu] [Hid Hk]. split; [|done]. intros i it Hit.
  destruct (Hid i it Hit) as (? & k & ? & ?). split; [done|]. exists k. cbn in *. split; [lia | done].
Qed.

(** Updating a stored intent. *)
Lemma genesis_inv_update t e it it' :
  genesis_inv t e -> dict_get (gi_id it) (intents t) = Some it -> same_request it it' ->
  genesis_inv (put_intent it' t) e /\ gen_grows t (put_intent it' t).
Proof.
  intros [Hid Hk] Hit Hs. pose proof Hs as Hs'. unfold same_request in Hs'.
  assert (Hgid : gi_id it' = gi_id it) by (by rewrite Hs').
  assert (Hgk : gi_deduplication_key it' = gi_deduplication_key it) by (by rewrite Hs').
  assert (Hget : forall i it0, dict_get i (intents t) = Some it0 -> exists it1,
    dict_get i (intents (put_intent it' t)) = Some it1 /\ same_request it0 it1).
  { intros i it0 Hi0. cbn. rewrite dict_get_set, Hgid. case_decide as Hi.
    - exists it'. split; [done|]. congruence.
    - exists it0. split; [done | apply same_request_refl]. }
  split; split; try done.
  - intros i it0. cbn. rewrite dict_get_set, Hgid. case_decide as Hi; [|apply Hid].
    intros [= <-]. subst i. split; [done|]. by apply (Hid _ it).
  - intros k i Hki. destruct (Hk k i Hki) as (it0 & Hi0 & <-).
    destruct (Hget i it0 Hi0) as (it1 & Hi1 & Hs1). exists it1. split; [done|]. by rewrite Hs1.
Qed.

(** Storing a new intent under a new key. *)
Lemma genesis_inv_new t e e' it :
  genesis_inv t e -> drawn e e' (gi_id it) -> env_le e e' ->
  dict_get (gi_deduplication_key it) (deduplication_index t) = None ->
  let t' := put_key (gi_deduplication_key it) (gi_id it) (put_intent it t) in
  genesis_inv t' e' /\ gen_grows t t'.
Proof.
  intros [Hid Hk] (n & Hn & Hin) [_ Hle] Hnew t'.
  assert (Hfresh : dict_get (gi_id it) (intents t) = None).
  { destruct (dict_get (gi_id it) (intents t)) as [it0|] eqn:E; [|done]. destruct (Hid _ _ E) as (_ & m & Hm & Hmi).
    cbn in Hm. rewrite Hin in Hmi. apply uuid_inj in Hmi. lia. }
  assert (Hget : forall i it0, dict_get i (intents t) = Some it0 -> dict_get i (intents t') = Some it0).
  { intros i it0 Hi0. cbn. rewrite dict_get_set_ne; [done|]. congruence. }
  split; split.
  - intros i it0. cbn. rewrite dict_get_set. case_decide as Hi.
    + intros [= <-]. subst i. split; [done|]. exists n. cbn. split; [lia | done].
    + intros Hi0. destruct (Hid _ _ Hi0) as (? & m & ? & ?). split; [done|]. exists m. cbn in *.
      split; [lia | done].
  - intros k i. cbn. rewrite !dict_get_set. case_decide as Hki.
    + intros [= <-]. exists it. by rewrite decide_True.
    + intros Hki0. destruct (Hk k i Hki0) as (it0 & Hi0 & ?). exists it0. split; [|done].
      specialize (Hget i it0 Hi0). cbn in Hget. by rewrite dict_get_set in Hget.
  - intros i it0 Hi0. exists it0. split; [by apply Hget | apply same_request_refl].
  - intros k i Hki. cbn. rewrite dict_get_set_ne; [done|]. congruence.
Qed.

(** ** The operations keep the invariant *)
Lemma wp_gen_rt {B} (m : M Runtime B) (Q : res B -> W * Env -> Prop) s :
  wp m (fun r t => Q r (t.1, s.1.1.2, s.1.2, t.2)) (s.1.1.1, s.2) -> wp (on_rt m) Q s.
Proof. intros Hm. unfold on_rt. by apply wp_zoom. Qed.

Lemma wp_on_intents {B} (m : M GenesisState B) (Q : res B -> W * Env -> Prop) s :
  wp m (fun r t => Q r (s.1.1, t.1, t.2)) (s.1.2, s.2) -> wp (on_intents m) Q s.
Proof. intros Hm. unfold on_intents. by apply wp_zoom. Qed.

Lemma wp_get_intent i (Q : res GenesisIntent -> W * Env -> Prop) s :
  (forall it, dict_get i (intents s.1.2) = Some it -> Q (Ok it) s) ->
  (forall x, dict_get i (intents s.1.2) = None -> Q (Raise x) s) -> wp (get_intent i) Q s.
Proof.
  intros Hok Hno. apply wp_bind, wp_get. destruct (dict_get i _) as [it|] eqn:E.
  - by apply wp_ret, Hok.
  - by apply wp_raise, Hno.
Qed.

(** Everything a step may change, and what it keeps. *)
Record kept s s' : Prop := {
  k_inv : GInv s';
  k_runtime : grows s.1.1.1 s'.1.1.1;
  k_intents : gen_grows s.1.2 s'.1.2;
}.

Lemma kept_refl s : GInv s -> kept s s.
Proof. intros Hi. split; [done | reflexivity | apply gen_grows_refl]. Qed.
Lemma kept_trans s1 s2 s3 : kept s1 s2 -> kept s2 s3 -> kept s1 s3.
Proof. intros [] []. split; [done | by etrans | by eapply gen_grows_trans]. Qed.

Lemma GInv_env (w : W) e e' : env_le e e' -> GInv (w, e) -> GInv (w, e').
Proof.
  intros Hle [Hr Hg Hi]. split; cbn in *; [by eapply Inv_env | done | by eapply genesis_inv_env].
Qed.

Lemma kept_env (w : W) e e' : env_le e e' -> GInv (w, e) -> kept (w, e) (w, e').
Proof. intros Hle Hi. split; [by eapply GInv_env | reflexivity | apply gen_grows_refl]. Qed.

Lemma kept_update s e' it it' :
  GInv s -> env_le s.2 e' -> dict_get (gi_id it) (intents s.1.2) = Some it -> same_request it it' ->
  kept s (s.1.1, put_intent it' s.1.2, e').
Proof.
  intros Hi Hle Hit Hs. destruct s as [[[rt g] t] e]. cbn in *.
  destruct (GInv_env _ _ _ Hle Hi) as [Hr Hg Hint]. cbn in *.
  destruct (genesis_inv_update t e' it it' Hint Hit Hs) as [Hi' Hgr].
  split; [by split | reflexivity | done].
Qed.

Lemma receive_spec by_ key goal input outs tags cs launch propose meta s :
  GInv s ->
  wp (receive_intent by_ key goal input outs tags cs launch propose meta) (fun r s' =>
    kept s s' /\ s'.1.1 = s.1.1 /\ forall it, r = Ok it ->
      dict_get (gi_id it) (intents s'.1.2) = Some it /\
      dict_get key (deduplication_index s'.1.2) = Some (gi_id it)) s.
Proof.
  intros Hi. apply wp_bind, wp_get. destruct (dict_get key _) as [i|] eqn:Ek.
  { destruct (gen_index _ _ (g_intents _ Hi) _ _ Ek) as (it & Hit & _).
    destruct (gen_ids _ _ (g_intents _ Hi) _ _ Hit) as [Hid _].
    apply wp_get_intent; [|congruence]. intros it' Hit'.
    split; [by apply kept_refl|]. split; [done|]. intros ? [= <-].
    assert (it' = it) as -> by congruence. by rewrite Hid. }
  destruct s as [w e].
  assert (Hle : env_le e (mkEnv (S (S (now_ctr e))) (S (uuid_ctr e)))) by (split; cbn; lia).
  apply wp_bind. unfold new_intent. apply wp_bind, wp_uuid4, wp_bind, wp_now, wp_bind, wp_now.
  destruct (_ || _).
  { apply wp_raise. split; [by apply kept_env|]. done. }
  apply wp_ret, wp_bind. cbn [fst snd].
  set (it0 := mkIntent _ _ _ _ _ _ _ _ _ _ _ _ _ _ _ _ _ _).
  pose proof (GInv_env _ _ _ Hle Hi) as Hi1.
  destruct (candidates_spec it0 (w, mkEnv (S (S (now_ctr e))) (S (uuid_ctr e))) (g_registry _ Hi1))
    as (l & Hl & _ & _).
  unfold wp at 1. cbn [fst snd] in *. cbn [now_ctr uuid_ctr] in *. rewrite Hl. cbn [fst snd].
  apply wp_bind.
  assert (Hst : forall e' it, env_le (mkEnv (S (S (now_ctr e))) (S (uuid_ctr e))) e' ->
    gi_id it = gi_id it0 -> gi_deduplication_key it = key ->
    wp (_ ← on_intents (modify (put_intent it)); _ ← on_intents (modify (put_key key (gi_id it)));
        mret it) (fun r s' =>
      kept (w, e) s' /\ s'.1.1 = w.1 /\ forall it, r = Ok it ->
        dict_get (gi_id it) (intents s'.1.2) = Some it /\
        dict_get key (deduplication_index s'.1.2) = Some (gi_id it)) (w, e')).
  { intros e' it Hle' Hid Hkey. do 2 apply wp_bind, wp_on_intents, wp_modify. apply wp_ret. cbn [fst snd].
    destruct (genesis_inv_new w.2 e e' it (g_intents _ Hi)) as [Hgi Hgg].
    - rewrite Hid. exists (uuid_ctr e). split; [destruct Hle' as [_ Hle']; cbn in Hle'; lia | done].
    - destruct Hle, Hle'. split; cbn in *; lia.
    - by rewrite Hkey.
    - rewrite Hkey in Hgi, Hgg. assert (Hle2 : env_le e e') by (destruct Hle, Hle'; split; cbn in *; lia).
      destruct (GInv_env _ _ _ Hle2 Hi) as [Hr Hg _]. split; [|split; [done|]].
      + split; [by split | reflexivity | done].
      + intros ? [= <-]. cbn. by rewrite !dict_get_set_eq. }
  destruct l as [|c l]; [destruct propose|].
  - apply wp_bind, wp_now, wp_ret. apply Hst; [split; cbn; lia | done | done].
  - apply wp_ret. apply Hst; [split; cbn; lia | done | done].
  - apply wp_ret. apply Hst; [split; cbn; lia | done | done].
Qed.

Lemma wp_create pid payload metadata key (Q : res Card -> W * Env -> Prop) s :
  GInv s ->
  (forall r rt e', create_card pid payload metadata key (s.1.1.1, s.2) = (r, (rt, e')) ->
     kept s (rt, s.1.1.2, s.1.2, e') -> env_le s.2 e' -> Q r (rt, s.1.1.2, s.1.2, e')) ->
  wp (on_rt (rt_create_card pid payload metadata key)) Q s.
Proof.
  intros [Hi Hg Hint] HQ. apply wp_gen_rt.
  pose proof (create_card_refines (fun _ => True) pid payload metadata key (s.1.1.1, s.2)) as Hs.
  unfold wp in *. cbn [rt_create_card card_runtime]. destruct (create_card _ _ _ _ _) as [r [rt e']] eqn:E.
  destruct (one_step_Inv (fun _ => True) (s.1.1.1, s.2) r (rt, e') Hi Hs) as (Hi' & Hgr & Hle).
  apply HQ; [done | | done]. cbn in *.
  split; [|done | apply gen_grows_refl]. split; [done | done | by eapply genesis_inv_env].
Qed.

(** The entry [launch] selects. *)
Definition selection (registry_entry_id : option UUID) (it : GenesisIntent) : option UUID :=
  match registry_entry_id with
  | Some i => Some i
  | None => head (gi_candidate_registry_entry_ids it)
  end.
Definition launch_key (it : GenesisIntent) (entry_id : UUID) : string :=
  "genesis:launch:" +:+ gi_deduplication_key it +:+ ":" +:+ uuid_str entry_id.

Definition launch_payload (it : GenesisIntent) : doc :=
  [("goal", VStr (gi_goal it)); ("input_type", VStr (gi_input_type it));
   ("desired_outputs", VList (map VStr (gi_desired_outputs it)));
   ("tags", VList (map VStr (gi_tags it)));
   ("constraints", constraints_dump (gi_constraints it))].

(** The card of a launch, made from the intent and the entry. *)
Definition launches s it entry card (rt : Runtime) : Prop :=
  exists meta e', create_card (re_patch_panel_id entry) (launch_payload it) meta
    (Some (launch_key it (re_id entry))) (s.1.1.1, s.2) = (Ok card, (rt, e')).

Lemma wp_rg_get i (Q : res PatchPanelRegistryEntry -> W * Env -> Prop) s :
  GInv s -> Q (match reg_view s.1.1.2 !! i with Some e => Ok e | None => Raise (entry_not_found i) end) s ->
  wp (on_reg (rg_get i)) Q s.
Proof.
  intros Hi HQ. destruct (get_spec i (s.1.1.2, s.2) (g_registry _ Hi)) as [Hs Hr].
  unfold wp. erewrite on_reg_reads; [exact HQ|].
  rewrite (surjective_pairing (rg_get i _)). by rewrite Hr, Hs.
Qed.

Lemma launch_spec i r s :
  GInv s ->
  wp (launch i r) (fun r' s' => kept s s' /\ s'.1.1.2 = s.1.1.2 /\ forall card, r' = Ok card ->
    exists it sel entry t, dict_get i (intents s.1.2) = Some it /\ selection r it = Some sel /\
      reg_view s.1.1.2 !! sel = Some entry /\ launches s it entry card s'.1.1.1 /\
      dict_get i (intents s'.1.2) = Some (launched (re_id entry) (cd_id card) t it)) s.
Proof.
  intros Hi. apply wp_bind, wp_get_intent; [|intros; split; [by apply kept_refl | done]].
  intros it Hit. fold (selection r it). destruct (selection r it) as [sel|] eqn:Es.
  2: { apply wp_raise. split; [by apply kept_refl | done]. }
  destruct (gen_ids _ _ (g_intents _ Hi) _ _ Hit) as [Hid _].
  apply wp_bind, wp_rg_get; [done|]. destruct (reg_view _ !! sel) as [entry|] eqn:Ee.
  2: { split; [by apply kept_refl | done]. }
  apply wp_bind, wp_create; [done|]. intros [card|x] rt e' Hc Hk Hle; [|by split].
  apply wp_bind, wp_now, wp_bind, wp_on_intents, wp_modify, wp_ret. cbn [fst snd].
  split; [|split; [done|]].
  - eapply kept_trans; [exact Hk|]. subst i.
    apply (kept_update (rt, s.1.1.2, s.1.2, e') _ it); [apply Hk | split; cbn; lia | done | done].
  - intros ? [= <-]. eexists it, sel, entry, _. split; [done|]. split; [done|]. split; [done|].
    split; [by eexists _, _|]. cbn. rewrite dict_get_set. by rewrite decide_True.
Qed.

Definition propose_key (i : UUID) (pp : PatchPanel) : string :=
  "genesis:propose:" +:+ uuid_str i +:+ ":" +:+ pp_id pp +:+ ":" +:+ pp_version pp.

Lemma propose_spec i by_ pp m base_id base_version s :
  GInv s ->
  wp (propose i by_ pp m base_id base_version) (fun r' s' => kept s s' /\ s'.1.1.2 = s.1.1.2 /\
    forall card, r' = Ok card -> exists it t payload meta e',
      dict_get i (intents s.1.2) = Some it /\
      create_card SYSTEM_PP_APPROVAL_ID payload meta (Some (propose_key i pp)) (s.1.1.1, s.2)
        = (Ok card, (s'.1.1.1, e')) /\
      dict_get i (intents s'.1.2) = Some (proposed (cd_id card) t it)) s.
Proof.
  intros Hi. apply wp_bind, wp_get_intent; [|intros; split; [by apply kept_refl | done]].
  intros it Hit. destruct (gen_ids _ _ (g_intents _ Hi) _ _ Hit) as [Hid _].
  apply wp_bind, wp_create; [done|]. intros [card|x] rt e' Hc Hk Hle; [|by split; [|split]].
  apply wp_bind, wp_now, wp_bind, wp_on_intents, wp_modify, wp_ret. cbn [fst snd].
  rewrite <- Hid in *. split; [|split; [done|]].
  - eapply kept_trans; [exact Hk|].
    apply (kept_update (rt, s.1.1.2, s.1.2, e') _ it); [apply Hk | split; cbn; lia | done | done].
  - intros ? [= <-]. eexists it, _, _, _, _. split; [done|]. split; [exact Hc|].
    cbn. rewrite dict_get_set. by rewrite decide_True.
Qed.

(** What the service does and what happens around it: any operation of the
    runtime, any change of the registry that keeps its invariant. *)
Inductive gen_step s : W * Env -> Prop :=
  | gen_receive by_ key goal input outs tags cs launch propose meta :
      gen_step s (receive_intent by_ key goal input outs tags cs launch propose meta s).2
  | gen_launch i r : gen_step s (launch i r s).2
  | gen_propose i by_ pp m base_id base_version :
      gen_step s (propose i by_ pp m base_id base_version s).2
  | gen_runtime o : gen_step s (on_rt (run_op o) s).2
  | gen_registry g e' : reg_inv g -> env_le s.2 e' -> gen_step s (s.1.1.1, g, s.1.2, e').

Lemma gen_step_kept s s' : gen_step s s' -> GInv s -> kept s s'.
Proof.
  intros [by_ key goal input outs tags cs la pr meta|i r|i by_ pp m b bv|o|g e' Hg Hle] Hi.
  - apply (receive_spec by_ key goal input outs tags cs la pr meta s Hi).
  - apply (launch_spec i r s Hi).
  - apply (propose_spec i by_ pp m b bv s Hi).
  - apply (wp_gen_rt (run_op o) (fun _ s' => kept s s')). unfold wp. cbn [fst snd].
    pose proof (run_op_Inv o (s.1.1.1, s.2) (g_runtime _ Hi)) as Hi'.
    pose proof (run_op_grows o (s.1.1.1, s.2) (g_runtime _ Hi)) as Hgr.
    pose proof (run_op_env o (s.1.1.1, s.2) (g_runtime _ Hi)) as Hle.
    split; cbn in *; [|done | apply gen_grows_refl].
    split; cbn; [done | apply Hi | by eapply genesis_inv_env, Hi].
  - destruct Hi as [Hr _ Hint]. split; cbn; [|reflexivity | apply gen_grows_refl].
    split; cbn; [by eapply Inv_env | done | by eapply genesis_inv_env].
Qed.

Lemma gen_steps_kept s s' : rtc gen_step s s' -> GInv s -> kept s s'.
Proof.
  induction 1 as [s|s1 s2 s3 Hst _ IH]; intros Hi; [by apply kept_refl|].
  pose proof (gen_step_kept _ _ Hst Hi) as Hk. eapply kept_trans; [exact Hk|]. apply IH, Hk.
Qed.

(** C25. An intent is received once per deduplication key: whatever happens
    after it was received, the next request under the key, whatever else it
    asks for, answers the stored intent, which is the first request with at
    most its status, selection, cards and update time changed, and changes
    nothing. *)
Theorem receive_intent_once by_ key goal input outs tags cs la pr meta s it s1 s2
    by2 goal2 input2 outs2 tags2 cs2 la2 pr2 meta2 :
  GInv s -> receive_intent by_ key goal input outs tags cs la pr meta s = (Ok it, s1) ->
  rtc gen_step s1 s2 ->
  exists it', receive_intent by2 key goal2 input2 outs2 tags2 cs2 la2 pr2 meta2 s2 = (Ok it', s2) /\
    gi_id it' = gi_id it /\ same_request it it' /\
    dict_get (gi_id it) (intents s2.1.2) = Some it'.
Proof.
  intros Hi Hrun Hsteps.
  destruct (receive_spec by_ key goal input outs tags cs la pr meta s Hi) as (Hk & _ & Hst).
  rewrite Hrun in Hk, Hst. destruct (Hst it eq_refl) as [Hit Hkey]. cbn in Hit, Hkey.
  pose proof (gen_steps_kept _ _ Hsteps (k_inv _ _ Hk)) as Hk2.
  destruct (gg_intents _ _ (k_intents _ _ Hk2) _ _ Hit) as (it' & Hit' & Hs).
  pose proof (gg_index _ _ (k_intents _ _ Hk2) _ _ Hkey) as Hkey'.
  exists it'. split; [|split; [by rewrite Hs | done]].
  unfold receive_intent, get_intent, get, mbind, M_bind, mret, M_ret. by rewrite Hkey', Hit'.
Qed.

(** The candidates of an intent are exactly the relevant live entries
    of the registry, each once, and searching them changes nothing. *)
Lemma candidates_are_relevant it s :
  reg_inv s.1.1.2 ->
  exists l, search_candidates it s = (Ok l, s) /\ NoDup (map re_id l) /\
    forall e, e ∈ l <-> reg_view s.1.1.2 !! re_id e = Some e /\ relevant it e.
Proof. apply candidates_spec. Qed.

(** What the runtime answered under a key, it answers again later. *)
Lemma create_again pid payload metadata key card s rt e' s1 s2 pid' payload' metadata' :
  create_card pid payload metadata (Some key) (s.1.1.1, s.2) = (Ok card, (rt, e')) ->
  truthy (Some key) = true -> s1.1.1.1 = rt -> kept s1 s2 ->
  on_rt (rt_create_card pid' payload' metadata' (Some key)) s2 = (Ok card, s2).
Proof.
  intros Hc Hk <- Hkept.
  pose proof (create_stores pid payload metadata (Some key) (s.1.1.1, s.2) Hk) as Hst.
  unfold wp in Hst. rewrite Hc in Hst. destruct (Hst card eq_refl) as (ch & Hch & Htr & Hty). cbn in Hch.
  pose proof (grow_keys _ _ (k_runtime _ _ Hkept) (Some key) ch Hch Htr) as Hch2.
  unfold on_rt, zoom. cbn [rt_create_card card_runtime]. unfold create_card.
  rewrite (with_cached_hit _ _ _ _ ch) by done. rewrite Hty. by destruct s2 as [[[? ?] ?] ?].
Qed.

(** Launching is idempotent: as long as the registry still answers the
    selected entry, launching the intent again, whatever happened in
    between, answers the same card and changes neither the runtime nor the
    registry. *)
Lemma launch_again i r s card s1 s2 it sel entry entry' :
  GInv s -> launch i r s = (Ok card, s1) -> rtc gen_step s1 s2 ->
  dict_get i (intents s.1.2) = Some it -> selection r it = Some sel ->
  reg_view s.1.1.2 !! sel = Some entry -> reg_view s2.1.1.2 !! sel = Some entry' ->
  re_id entry' = re_id entry ->
  exists s3, launch i r s2 = (Ok card, s3) /\ s3.1.1 = s2.1.1.
Proof.
  intros Hi Hrun Hsteps Hit Hsel He He' Hid.
  destruct (launch_spec i r s Hi) as (Hk & _ & Hl). rewrite Hrun in Hk, Hl.
  destruct (Hl card eq_refl) as (it_ & sel_ & entry_ & t & Hit_ & Hsel_ & He_ & (meta & e' & Hc) & Hit1).
  cbn in *. simplify_eq.
  pose proof (gen_steps_kept _ _ Hsteps (k_inv _ _ Hk)) as Hk2.
  destruct (gg_intents _ _ (k_intents _ _ Hk2) _ _ Hit1) as (it2 & Hit2 & Hs2).
  enough (Hwp : wp (launch i r) (fun r' s3 => r' = Ok card /\ s3.1.1 = s2.1.1) s2).
  { destruct Hwp as [Hr3 Hs3]. exists (launch i r s2).2. split; [|done].
    rewrite <- Hr3. apply surjective_pairing. }
  apply wp_bind, wp_get_intent; [|congruence]. intros ? Hit2'. simplify_eq.
  fold (selection r it2). assert (Hsel2 : selection r it2 = Some sel).
  { unfold same_request in Hs2. by rewrite Hs2. }
  rewrite Hsel2. apply wp_bind, wp_rg_get; [apply Hk2|]. rewrite He'. apply wp_bind.
  assert (Hkey : launch_key it2 (re_id entry') = launch_key it (re_id entry)).
  { unfold same_request in Hs2. by rewrite Hs2, Hid. }
  unfold launch_key in Hkey. rewrite Hkey. unfold wp at 1.
  erewrite create_again by (done || exact Hc). cbn [fst snd].
  apply wp_bind, wp_now, wp_bind, wp_on_intents, wp_modify, wp_ret. done.
Qed.

(** Proposals are idempotent per key, and the key is the panel id and
    version joined by a colon: a later proposal whose id and version join to
    the same string, whatever candidate it carries, answers the card of the
    first and changes neither the runtime nor the registry. *)
Lemma propose_again i by_ pp m b v s card s1 s2 by2 pp2 m2 b2 v2 :
  GInv s -> propose i by_ pp m b v s = (Ok card, s1) -> rtc gen_step s1 s2 ->
  pp_id pp2 +:+ ":" +:+ pp_version pp2 = pp_id pp +:+ ":" +:+ pp_version pp ->
  exists s3, propose i by2 pp2 m2 b2 v2 s2 = (Ok card, s3) /\ s3.1.1 = s2.1.1.
Proof.
  intros Hi Hrun Hsteps Hjoin.
  destruct (propose_spec i by_ pp m b v s Hi) as (Hk & _ & Hp). rewrite Hrun in Hk, Hp.
  destruct (Hp card eq_refl) as (it & t & payload & meta & e' & Hit & Hc & Hit1). cbn in *.
  pose proof (gen_steps_kept _ _ Hsteps (k_inv _ _ Hk)) as Hk2.
  destruct (gg_intents _ _ (k_intents _ _ Hk2) _ _ Hit1) as (it2 & Hit2 & Hs2).
  destruct (gen_ids _ _ (g_intents _ (k_inv _ _ Hk2)) _ _ Hit2) as [Hid2 _].
  enough (Hwp : wp (propose i by2 pp2 m2 b2 v2) (fun r' s3 => r' = Ok card /\ s3.1.1 = s2.1.1) s2).
  { destruct Hwp as [Hr3 Hs3]. exists (propose i by2 pp2 m2 b2 v2 s2).2. split; [|done].
    rewrite <- Hr3. apply surjective_pairing. }
  apply wp_bind, wp_get_intent; [|congruence]. intros ? Hit2'. simplify_eq. apply wp_bind.
  rewrite Hjoin. unfold propose_key in Hc. unfold wp at 1.
  erewrite create_again by (done || exact Hc). cbn [fst snd].
  apply wp_bind, wp_now, wp_bind, wp_on_intents, wp_modify, wp_ret. done.
Qed.

(** C26. Acting on an intent is idempotent, whatever happened in between. As
    long as the registry still answers the selected entry, launching again
    answers the same card and changes neither the runtime nor the registry.
    Proposing again does so too, per key, and the key is the panel id and
    version joined by a colon: a later proposal whose id and version join to
    the same string, whatever candidate it carries, answers the card of the
    first. *)
Theorem intents_act_once i s card s1 s2 :
  GInv s -> rtc gen_step s1 s2 ->
  (forall r it sel entry entry', launch i r s = (Ok card, s1) ->
     dict_get i (intents s.1.2) = Some it -> selection r it = Some sel ->
     reg_view s.1.1.2 !! sel = Some entry -> reg_view s2.1.1.2 !! sel = Some entry' ->
     re_id entry' = re_id entry ->
     exists s3, launch i r s2 = (Ok card, s3) /\ s3.1.1 = s2.1.1) /\
  (forall by_ pp m b v by2 pp2 m2 b2 v2, propose i by_ pp m b v s = (Ok card, s1) ->
     pp_id pp2 +:+ ":" +:+ pp_version pp2 = pp_id pp +:+ ":" +:+ pp_version pp ->
     exists s3, propose i by2 pp2 m2 b2 v2 s2 = (Ok card, s3) /\ s3.1.1 = s2.1.1).
Proof.
  intros Hi Hst. split; [intros; by eapply launch_again | intros; by eapply propose_again].
Qed.
End genesis.

(** ** Evaluated instances *)
#[local] Existing Instance tick_oracle.
#[local] Existing Instance tick_oracle_laws.
#[local] Existing Instance ListGraph.networkx.
#[local] Existing Instance ListGraph.networkx_laws.

Definition dumping_pydantic : Pydantic := {|
  patch_panel_fields _ := Raise (ValidationError "not a panel");
  registry_metadata_fields _ := Raise (ValidationError "not metadata");
  onboarding_fields _ := Raise (ValidationError "not an onboarding request");
  patch_panel_dump_by_alias _ := VNone; bucket_dump _ := VNone;
  patch_panel_dump pp := VDict [("id", VStr (pp_id pp)); ("version", VStr (pp_version pp))];
  registry_metadata_dump m := VStr (rm_name m);
  constraints_dump c := VDict [("risk_level", v_opt_str (gc_risk_level c))];
|}.
#[local] Existing Instance dumping_pydantic.

Definition work_entry : PatchPanelRegistryEntry :=
  mkRegistryEntry 1000 "work" "1" "Work" None ["demo"] ["text"] ["text"] [] []
    (Some "low") None None None PUBLISHED None [] (Aware 1) (Aware 1) None.

(** A runtime with one panel and the approval panel, a registry that offers
    the first. *)
Definition offered : Runtime * RegistryState * GenesisState * Env :=
  let s := run_ops [Register work_panel; Register system_pp_approval] start in
  (s.1, [(1000%N, work_entry)], mkGenesisState [] [], s.2).

Definition any_risk : GenesisIntentConstraints := mkConstraints None None false [].
Definition ask (goal : string) := receive_intent (R := Runtime) (G := RegistryState) "ada" "k1" goal
  "text" [] [] any_risk true true None.

Lemma offered_GInv : GInv offered.
Proof.
  split.
  - exact (run_ops_Inv [Register work_panel; Register system_pp_approval] start Inv_start).
  - split; [apply NoDup_singleton|]. intros k e. cbn. case_decide; [|done]. by intros [= <-].
  - split; by intros.
Qed.

Definition asked := (ask "summarise" offered).2.

Lemma asked_answer : exists it, ask "summarise" offered = (Ok it, asked) /\ gi_goal it = "summarise".
Proof. eexists. split; vm_compute; reflexivity. Qed.

Lemma receive_intent_once_witness : exists it it' s2,
  rtc gen_step asked s2 /\ ask "something else" s2 = (Ok it', s2) /\ gi_id it' = gi_id it /\
  gi_goal it = "summarise".
Proof.
  destruct asked_answer as (it & Hit & Hg).
  pose (s2 := (launch (gi_id it) None asked).2).
  assert (Hst : rtc gen_step asked s2) by (apply rtc_once; constructor).
  destruct (receive_intent_once "ada" "k1" "summarise" "text" [] [] any_risk true true None offered
    it asked s2 "ada" "something else" "text" [] [] any_risk true true None offered_GInv Hit Hst)
    as (it' & Hrun & Hid & _).
  exists it, it', s2. split; [exact Hst|]. split; [exact Hrun|]. split; [exact Hid | exact Hg].
Defined.

Lemma candidates_are_relevant_witness : exists l,
  search_candidates (R := Runtime) (mkIntent 5 "ada" "k" "g" "text" [] [] any_risk true true
      GI_RECEIVED [] None None None (Aware 0) (Aware 0) []) offered = (Ok l, offered) /\
  l = [work_entry].
Proof.
  destruct (candidates_are_relevant (mkIntent 5 "ada" "k" "g" "text" [] [] any_risk true true
      GI_RECEIVED [] None None None (Aware 0) (Aware 0) []) offered (g_registry _ offered_GInv))
    as (l & Hl & _). exists l. split; [exact Hl|].
  vm_compute in Hl. injection Hl as <-. reflexivity.
Defined.

Lemma launch_setup : exists card it s1 s2, launch 0 None asked = (Ok card, s1) /\
  s2 = (on_rt (run_op (ClaimCard "take" "w" 60 None)) s1).2 /\
  dict_get 0%N (intents asked.1.2) = Some it /\ selection None it = Some 1000%N /\
  reg_view asked.1.1.2 !! 1000%N = Some work_entry /\ reg_view s2.1.1.2 !! 1000%N = Some work_entry.
Proof.
  eexists _, _, _, _. split; [vm_compute; reflexivity|]. split; [reflexivity|].
  repeat split; vm_compute; reflexivity.
Qed.

Lemma launch_again_steps card s1 s2 :
  launch 0 None asked = (Ok card, s1) -> s2 = (on_rt (run_op (ClaimCard "take" "w" 60 None)) s1).2 ->
  rtc gen_step s1 s2.
Proof. intros _ ->. apply rtc_once, gen_runtime. Qed.

Lemma asked_GInv : GInv asked.
Proof. apply (gen_step_kept offered asked); [constructor | apply offered_GInv]. Qed.

(** Two different candidates that share a key. *)
Definition candidate (id version : string) : PatchPanel :=
  mkPatchPanel id version None [] [] [] [] [] [].
Definition candidate_metadata : PatchPanelRegistryMetadata :=
  mkRegistryMetadata "c" None [] [] [] [] [] None None None None DRAFT.

Lemma propose_setup : exists card s1,
  propose 0 "ada" (candidate "a" "b:c") candidate_metadata None None asked = (Ok card, s1) /\
  vget "candidate_definition" (cd_payload card) = patch_panel_dump (candidate "a" "b:c").
Proof. eexists _, _. split; vm_compute; reflexivity. Qed.

Lemma intents_act_once_witness :
  (exists card s1 s2 s3,
     launch 0 None asked = (Ok card, s1) /\
     s2 = (on_rt (run_op (ClaimCard "take" "w" 60 None)) s1).2 /\
     launch 0 None s2 = (Ok card, s3) /\ s3.1.1 = s2.1.1) /\
  (exists card s1 s2,
     propose 0 "ada" (candidate "a" "b:c") candidate_metadata None None asked = (Ok card, s1) /\
     propose 0 "bob" (candidate "a:b" "c") candidate_metadata None None s1 = (Ok card, s2) /\
     vget "candidate_definition" (cd_payload card) = patch_panel_dump (candidate "a" "b:c")).
Proof.
  split.
  - destruct launch_setup as (card & it & s1 & s2 & Hrun & Hs2 & Hit & Hsel & He & He').
    pose proof (launch_again_steps card s1 s2 Hrun Hs2) as Hst.
    destruct (intents_act_once 0 asked card s1 s2 asked_GInv Hst) as [Hlaunch _].
    destruct (Hlaunch None it 1000%N work_entry work_entry Hrun Hit Hsel He He' eq_refl)
      as (s3 & Hrun3 & Hs3).
    exists card, s1, s2, s3. split; [exact Hrun|]. split; [exact Hs2|]. split; [exact Hrun3 | exact Hs3].
  - destruct propose_setup as (card & s1 & Hrun & Hcand).
    destruct (intents_act_once 0 asked card s1 s1 asked_GInv (rtc_refl gen_step s1)) as [_ Hpropose].
    destruct (Hpropose "ada" (candidate "a" "b:c") candidate_metadata None None
      "bob" (candidate "a:b" "c") candidate_metadata None None Hrun eq_refl) as (s2 & Hrun2 & _).
    exists card, s1, s2. split; [exact Hrun|]. split; [exact Hrun2 | exact Hcand].
Defined.
