(* ===== verification/PostgresRuntime.v ===== *)
(** * The card runtime on PostgreSQL ([runtime/postgres.py])

    [PostgresCardRuntime] over the ten tables it uses. Every method that
    writes runs in one transaction: when it raises, the tables are as they
    were. Rows whose columns are the fields of a domain model are that
    model's record. The [JSON] columns hold documents, which come back as
    they were stored. The foreign keys of these tables point to rows the same
    transaction has read or inserted, and no row is ever deleted, so they
    hold. *)
From Stdlib Require Import ZArith Ascii String.
From stdpp Require Import sorting.
From S2P Require Import Prelude Values UuidText Authority Models Graph PanelValidator Artifacts.
From S2P Require Import RuntimeService MemoryRuntime Pydantic Sql.
Open Scope string_scope.
Open Scope list_scope.

(** ** References of idempotency records *)
(** [UUID(cached.removeprefix(prefix))]. *)
Definition reference (prefix cached : string) : res UUID := UUID_of_text (removeprefix prefix cached).

(** The artifacts an idempotency record of a submission refers to. *)
Definition artifact_references (cached : string) : res (list UUID) :=
  if startswith cached "artifact:" then u ← reference "artifact:" cached; Ok [u]
  else map_res UUID_of_text
         (py_filter (fun s => negb (bool_decide (s = "")))
            (split_all "," (removeprefix "artifacts:" cached))).

(** ** Rows ([persistence/tables.py]) *)
Record PanelRow : Type := mkPanelRow {
  pr_id : string; pr_version : string; pr_definition : value; pr_created_at : datetime;
}.
Record VersionRow : Type := mkVersionRow {
  vw_id : string; vw_patch_panel_id : string; vw_version : string; vw_active : bool;
  vw_created_at : datetime;
}.
Record BucketRow : Type := mkBucketRow {
  br_workflow_version : string; br_id : string; br_definition : value; br_created_at : datetime;
}.
Record IdempotencyRow : Type := mkIdempotencyRow {
  ir_key : string; ir_operation : string; ir_response_ref : string; ir_created_at : datetime;
}.

(** Instants of a [DateTime(timezone=True)] column. *)
Definition instant (t : datetime) : Z := match t with Aware us | Naive us => us end.

(** [released_at IS NULL AND expires_at > t], and [expires_at <= t]. *)
Definition lease_row_active (t : datetime) (l : Lease) : bool :=
  match ls_released_at l with
  | None => Z.ltb (instant t) (instant (ls_expires_at l))
  | Some _ => false
  end.
Definition lease_row_overdue (t : datetime) (l : Lease) : bool :=
  match ls_released_at l with
  | None => Z.leb (instant (ls_expires_at l)) (instant t)
  | Some _ => false
  end.

(** [.values(status="exited", exited_at=now)]. *)
Definition location_exited (t : datetime) (r : CardLocation) : CardLocation :=
  mkCardLocation (cl_id r) (cl_card_id r) (cl_bucket r) "exited" (cl_entered_at r)
    (cl_accepted_at r) (Some t).
Definition active_location (card_id : UUID) (r : CardLocation) : bool :=
  bool_decide (cl_card_id r = card_id) && bool_decide (cl_status r = "active").

(** [.order_by(card_events.c.occurred_at, card_events.c.id)]. *)
Definition event_le (a b : CardEvent) : Prop :=
  (instant (ev_occurred_at a) < instant (ev_occurred_at b))%Z \/
  (instant (ev_occurred_at a) = instant (ev_occurred_at b) /\ (ev_id a <= ev_id b)%N).

#[export] Instance event_le_dec : RelDecision event_le.
Proof. intros a b. unfold event_le. apply _. Defined.

(** ** The database *)
Section postgres.
Context `{Oracle} `{Networkx} `{Pydantic} `{Sql}.

Record PgRuntime : Type := mkPgRuntime {
  pg_patch_panels : table PanelRow;
  pg_workflow_versions : table VersionRow;
  pg_buckets : table BucketRow;
  pg_cards : table Card;
  pg_card_locations : table CardLocation;
  pg_leases : table Lease;
  pg_validation_results : table ValidationResult;
  pg_artifacts : table ArtifactReference;
  pg_card_events : table CardEvent;
  pg_idempotency_records : table IdempotencyRow;
}.

Definition empty_database : PgRuntime :=
  mkPgRuntime sql_create sql_create sql_create sql_create sql_create sql_create sql_create
    sql_create sql_create sql_create.

(** A table of the database, with its primary key. *)
Record place (Row : Type) : Type := mkPlace {
  pl_get : PgRuntime -> table Row;
  pl_set : table Row -> PgRuntime -> PgRuntime;
  pl_same_key : Row -> Row -> bool;
}.
Arguments pl_get {Row}.
Arguments pl_set {Row}.
Arguments pl_same_key {Row}.

Definition patch_panels : place PanelRow := mkPlace _ pg_patch_panels
  (fun t st => mkPgRuntime t (pg_workflow_versions st) (pg_buckets st) (pg_cards st)
     (pg_card_locations st) (pg_leases st) (pg_validation_results st) (pg_artifacts st)
     (pg_card_events st) (pg_idempotency_records st))
  (fun a b => bool_decide (pr_id a = pr_id b) && bool_decide (pr_version a = pr_version b)).
Definition workflow_versions : place VersionRow := mkPlace _ pg_workflow_versions
  (fun t st => mkPgRuntime (pg_patch_panels st) t (pg_buckets st) (pg_cards st)
     (pg_card_locations st) (pg_leases st) (pg_validation_results st) (pg_artifacts st)
     (pg_card_events st) (pg_idempotency_records st))
  (fun a b => bool_decide (vw_id a = vw_id b)).
Definition buckets : place BucketRow := mkPlace _ pg_buckets
  (fun t st => mkPgRuntime (pg_patch_panels st) (pg_workflow_versions st) t (pg_cards st)
     (pg_card_locations st) (pg_leases st) (pg_validation_results st) (pg_artifacts st)
     (pg_card_events st) (pg_idempotency_records st))
  (fun a b => bool_decide (br_workflow_version a = br_workflow_version b) &&
              bool_decide (br_id a = br_id b)).
Definition cards : place Card := mkPlace _ pg_cards
  (fun t st => mkPgRuntime (pg_patch_panels st) (pg_workflow_versions st) (pg_buckets st) t
     (pg_card_locations st) (pg_leases st) (pg_validation_results st) (pg_artifacts st)
     (pg_card_events st) (pg_idempotency_records st))
  (fun a b => bool_decide (cd_id a = cd_id b)).
Definition card_locations : place CardLocation := mkPlace _ pg_card_locations
  (fun t st => mkPgRuntime (pg_patch_panels st) (pg_workflow_versions st) (pg_buckets st)
     (pg_cards st) t (pg_leases st) (pg_validation_results st) (pg_artifacts st)
     (pg_card_events st) (pg_idempotency_records st))
  (fun a b => bool_decide (cl_id a = cl_id b)).
Definition leases : place Lease := mkPlace _ pg_leases
  (fun t st => mkPgRuntime (pg_patch_panels st) (pg_workflow_versions st) (pg_buckets st)
     (pg_cards st) (pg_card_locations st) t (pg_validation_results st) (pg_artifacts st)
     (pg_card_events st) (pg_idempotency_records st))
  (fun a b => bool_decide (ls_id a = ls_id b)).
Definition validation_results : place ValidationResult := mkPlace _ pg_validation_results
  (fun t st => mkPgRuntime (pg_patch_panels st) (pg_workflow_versions st) (pg_buckets st)
     (pg_cards st) (pg_card_locations st) (pg_leases st) t (pg_artifacts st)
     (pg_card_events st) (pg_idempotency_records st))
  (fun a b => bool_decide (vr_id a = vr_id b)).
Definition artifacts : place ArtifactReference := mkPlace _ pg_artifacts
  (fun t st => mkPgRuntime (pg_patch_panels st) (pg_workflow_versions st) (pg_buckets st)
     (pg_cards st) (pg_card_locations st) (pg_leases st) (pg_validation_results st) t
     (pg_card_events st) (pg_idempotency_records st))
  (fun a b => bool_decide (ar_id a = ar_id b)).
Definition card_events : place CardEvent := mkPlace _ pg_card_events
  (fun t st => mkPgRuntime (pg_patch_panels st) (pg_workflow_versions st) (pg_buckets st)
     (pg_cards st) (pg_card_locations st) (pg_leases st) (pg_validation_results st)
     (pg_artifacts st) t (pg_idempotency_records st))
  (fun a b => bool_decide (ev_id a = ev_id b)).
Definition idempotency_records : place IdempotencyRow := mkPlace _ pg_idempotency_records
  (fun t st => mkPgRuntime (pg_patch_panels st) (pg_workflow_versions st) (pg_buckets st)
     (pg_cards st) (pg_card_locations st) (pg_leases st) (pg_validation_results st)
     (pg_artifacts st) (pg_card_events st) t)
  (fun a b => bool_decide (ir_key a = ir_key b)).

(** ** Statements *)
Definition duplicate_key : exn := IntegrityError "duplicate key value violates unique constraint".

Definition insert_into {Row} (p : place Row) (r : Row) : M PgRuntime () :=
  st ← get;
  match sql_insert (pl_same_key p) r (pl_get p st) with
  | None => raise duplicate_key
  | Some t => put (pl_set p t st)
  end.

(** The [Integer] column [size_bytes] is PostgreSQL's 32-bit [integer]. The
    column [created_at], the one instant of a row that the client supplies, is
    a [TIMESTAMP WITH TIME ZONE]: a value without a zone is read in that of
    the session, UTC. *)
Definition fits_integer (z : Z) : bool := Z.leb (- 2 ^ 31) z && Z.ltb z (2 ^ 31).
Definition artifact_in_utc (r : ArtifactReference) : ArtifactReference :=
  mkArtifact (ar_id r) (ar_card_id r) (ar_event_id r) (ar_storage_ref r) (ar_content_hash r)
    (ar_content_type r) (ar_size_bytes r) (ar_metadata r) (aware (ar_created_at r)).
Definition insert_artifact (r : ArtifactReference) : M PgRuntime () :=
  if fits_integer (ar_size_bytes r) then insert_into artifacts (artifact_in_utc r)
  else raise (DataError "integer out of range").

Definition select_from {Row} (p : place Row) (where_ : Row -> bool) : M PgRuntime (list Row) :=
  st ← get; mret (sql_select where_ (pl_get p st)).

Definition update_in {Row} (p : place Row) (where_ : Row -> bool) (set_ : Row -> Row) :
    M PgRuntime () :=
  modify (fun st => pl_set p (sql_update where_ set_ (pl_get p st)).1 st).

(** [with Session(engine) as session, session.begin()]: an exception rolls
    back. *)
Definition transaction {A} (m : M PgRuntime A) : M PgRuntime A := fun s =>
  match m s with
  | (Ok a, s') => (Ok a, s')
  | (Raise x, s') => (Raise x, (s.1, s'.2))
  end.

(** ** Private helpers *)
Definition pg_missing {A} (msg : string) (rows : list A) : M PgRuntime A :=
  match rows with r :: _ => mret r | [] => raise (NotFoundError msg) end.

Definition _pg_get_card (card_id : UUID) : M PgRuntime Card :=
  rows ← select_from cards (fun c => bool_decide (cd_id c = card_id));
  pg_missing ("card '" +:+ uuid_str card_id +:+ "' does not exist") rows.

Definition _pg_get_event (event_id : UUID) : M PgRuntime CardEvent :=
  rows ← select_from card_events (fun e => bool_decide (ev_id e = event_id));
  pg_missing ("event '" +:+ uuid_str event_id +:+ "' does not exist") rows.

Definition _pg_get_lease (lease_id : UUID) : M PgRuntime Lease :=
  rows ← select_from leases (fun l => bool_decide (ls_id l = lease_id));
  pg_missing ("lease '" +:+ uuid_str lease_id +:+ "' does not exist") rows.

Definition _pg_get_artifacts (artifact_ids : list UUID) : M PgRuntime (list ArtifactReference) :=
  match artifact_ids with
  | [] => mret []
  | _ =>
      rows ← select_from artifacts (fun a => bool_decide (ar_id a ∈ artifact_ids));
      let by_id := dict_of_list (map (fun a => (ar_id a, a)) rows) in
      match py_next (fun i => negb (dict_mem i by_id)) artifact_ids with
      | Some i => raise (NotFoundError ("artifact '" +:+ uuid_str i +:+ "' does not exist"))
      | None => mret (omap (fun i => dict_get i by_id) artifact_ids)
      end
  end.

(** The join of the panels with their active versions. *)
Definition _get_active_patch_panel (patch_panel_id : string) : M PgRuntime PatchPanel :=
  panels ← select_from patch_panels (fun r => bool_decide (pr_id r = patch_panel_id));
  versions ← select_from workflow_versions vw_active;
  let joined := flat_map (fun r => map (fun _ => r)
    (py_filter (fun v => bool_decide (vw_patch_panel_id v = pr_id r) &&
                         bool_decide (vw_version v = pr_version r)) versions)) panels in
  row ← pg_missing ("Patch Panel '" +:+ patch_panel_id +:+ "' is not registered") joined;
  lift_res (patch_panel_model_validate (pr_definition row)).

Definition _pg_single_patch_panel : M PgRuntime PatchPanel :=
  rows ← select_from patch_panels (fun _ => true);
  match rows with
  | [] => raise (NotFoundError "no Patch Panels are registered")
  | [row] => lift_res (patch_panel_model_validate (pr_definition row))
  | _ => raise (ConflictError
                  "operation requires an explicit Patch Panel when multiple are registered")
  end.

(** [patch_panel_id, version = card.workflow_version.split(":", maxsplit=1)]. *)
Definition _pg_get_patch_panel_for_card (card : Card) : M PgRuntime PatchPanel :=
  match split_first ":" (cd_workflow_version card) with
  | (_, None) => raise (ValueError "not enough values to unpack (expected 2, got 1)")
  | (patch_panel_id, Some version) =>
      rows ← select_from patch_panels (fun r => bool_decide (pr_id r = patch_panel_id) &&
                                                bool_decide (pr_version r = version));
      row ← pg_missing ("Patch Panel '" +:+ cd_workflow_version card +:+ "' is not registered") rows;
      lift_res (patch_panel_model_validate (pr_definition row))
  end.

Definition _get_idempotency (key : option string) : M PgRuntime (option string) :=
  match key with
  | Some k =>
      if truthy key then
        rows ← select_from idempotency_records (fun r => bool_decide (ir_key r = k));
        mret (match rows with r :: _ => Some (ir_response_ref r) | [] => None end)
      else mret None
  | None => mret None
  end.

Definition on_integrity_error {A} (x : exn) (m : M PgRuntime A) : M PgRuntime A := fun s =>
  match m s with (Raise (IntegrityError _), s') => (Raise x, s') | r => r end.

Definition _store_idempotency (key : option string) (operation response_ref : string) :
    M PgRuntime () :=
  match key with
  | Some k =>
      if truthy key then
        t ← now;
        on_integrity_error (ConflictError ("idempotency key '" +:+ k +:+ "' already exists"))
          (insert_into idempotency_records (mkIdempotencyRow k operation response_ref t))
      else mret tt
  | None => mret tt
  end.

(** [cached = self._get_idempotency(...); if cached: return lookup(cached)],
    and the rest of the method, in one transaction. *)
Definition with_reference {A} (key : option string) (lookup : string -> M PgRuntime A)
    (body : M PgRuntime A) : M PgRuntime A :=
  transaction (
    cached ← _get_idempotency key;
    if truthy cached then lookup (str_or cached "") else body).

Definition _insert_event (ev : CardEvent) : M PgRuntime () := insert_into card_events ev.

Definition new_location (card_id : UUID) (bucket : string) (t : datetime) : M PgRuntime CardLocation :=
  i ← uuid4; mret (mkCardLocation i card_id bucket "active" t (Some t) None).

Definition _move_card_row (card : Card) (to_bucket : string) (actor_id reason : option string)
    (emit_event : bool) : M PgRuntime Card :=
  t ← now;
  _ ← update_in card_locations (active_location (cd_id card)) (location_exited t);
  location ← new_location (cd_id card) to_bucket t;
  _ ← insert_into card_locations location;
  _ ← update_in cards (fun c => bool_decide (cd_id c = cd_id card)) (card_with_bucket to_bucket);
  _ ← (if emit_event then
         ev ← new_event (cd_id card) "card_moved" actor_id
                [("from_bucket", VStr (cd_current_bucket card)); ("to_bucket", VStr to_bucket);
                 ("reason", v_opt_str reason)];
         _insert_event ev
       else mret tt);
  mret (card_with_bucket to_bucket card).

(** ** The methods *)
Definition pg_register_patch_panel (pp : PatchPanel) : M PgRuntime PatchPanel :=
  _ ← lift_res (validate_patch_panel pp);
  t ← now;
  transaction (
    existing ← select_from patch_panels (fun r => bool_decide (pr_id r = pp_id pp) &&
                                                  bool_decide (pr_version r = pp_version pp));
    _ ← (match existing with
         | [] => insert_into patch_panels
                   (mkPanelRow (pp_id pp) (pp_version pp) (patch_panel_dump_by_alias pp) t)
         | _ => mret tt
         end);
    existing_version ← select_from workflow_versions
                         (fun r => bool_decide (vw_id r = workflow_version_id pp));
    _ ← (match existing_version with
         | [] =>
             _ ← insert_into workflow_versions
                   (mkVersionRow (workflow_version_id pp) (pp_id pp) (pp_version pp) true t);
             forM (pp_buckets pp) (fun bucket =>
               insert_into buckets
                 (mkBucketRow (workflow_version_id pp) (bk_id bucket) (bucket_dump bucket) t))
         | _ => mret tt
         end);
    mret pp).

Definition pg_list_patch_panels : M PgRuntime (list PatchPanel) :=
  rows ← select_from patch_panels (fun _ => true);
  lift_res (map_res (fun r => patch_panel_model_validate (pr_definition r)) rows).

Definition pg_create_card (patch_panel_id : string) (payload : doc) (metadata : option doc)
    (idempotency_key : option string) : M PgRuntime Card :=
  with_reference idempotency_key (fun cached => i ← lift_res (reference "card:" cached); _pg_get_card i) (
    pp ← _get_active_patch_panel patch_panel_id;
    initial_bucket ← lift_res (resolve_initial_bucket pp);
    card ← new_card (workflow_version_id pp) initial_bucket payload (default [] metadata);
    _ ← insert_into cards card;
    location ← new_location (cd_id card) initial_bucket (cd_created_at card);
    _ ← insert_into card_locations location;
    ev ← new_event (cd_id card) "card_created" None
           [("patch_panel_id", VStr (pp_id pp)); ("version", VStr (pp_version pp));
            ("bucket", VStr initial_bucket)];
    _ ← _insert_event ev;
    _ ← _store_idempotency idempotency_key "card.create" ("card:" +:+ uuid_str (cd_id card));
    mret card).

Definition pg_list_cards : M PgRuntime (list Card) := select_from cards (fun _ => true).
Definition pg_get_card (card_id : UUID) : M PgRuntime Card := _pg_get_card card_id.
Definition pg_get_lease (lease_id : UUID) : M PgRuntime Lease := _pg_get_lease lease_id.
Definition pg_list_leases : M PgRuntime (list Lease) := select_from leases (fun _ => true).

(** A card in the bucket that no active lease holds, in the engine's order. *)
Definition claimable_rows (bucket : string) (t : datetime) : M PgRuntime (list Card) :=
  held ← select_from leases (lease_row_active t);
  select_from cards (fun c => bool_decide (cd_current_bucket c = bucket) &&
                              negb (bool_decide (cd_id c ∈ map ls_card_id held))).

Definition lease_reference (cached : string) : M PgRuntime Lease :=
  i ← lift_res (reference "lease:" cached); _pg_get_lease i.

Definition pg_claim_card (input_pipe worker_id : string) (lease_seconds : Z)
    (idempotency_key : option string) : M PgRuntime Lease :=
  with_reference idempotency_key lease_reference (
    pp ← _pg_single_patch_panel;
    target ← lift_res (resolve_pipe_bucket pp input_pipe "input");
    let '(bucket, node_id) := target in
    t ← now;
    rows ← claimable_rows bucket t;
    card ← pg_missing ("no claimable cards in bucket '" +:+ bucket +:+ "'") rows;
    lease ← new_lease card node_id worker_id input_pipe lease_seconds;
    _ ← insert_into leases lease;
    ev ← new_event (cd_id card) "card_claimed" (Some worker_id)
           [("lease_id", VStr (uuid_str (ls_id lease))); ("input_pipe", VStr input_pipe)];
    _ ← _insert_event ev;
    _ ← _store_idempotency idempotency_key "card.claim" ("lease:" +:+ uuid_str (ls_id lease));
    mret lease).

Definition pg_submit_artifact (lease_id : UUID) (output_pipe : string)
    (artifact_refs : list ArtifactReference) (idempotency_key : option string) :
    M PgRuntime (list ArtifactReference) :=
  with_reference idempotency_key
    (fun cached => ids ← lift_res (artifact_references cached); _pg_get_artifacts ids) (
    lease ← _pg_get_lease lease_id;
    _ ← ensure_active_lease lease;
    card ← _pg_get_card (ls_card_id lease);
    pp ← _pg_get_patch_panel_for_card card;
    destination ← lift_res (resolve_pipe_bucket pp output_pipe "output");
    let '(destination_bucket, node_id) := destination in
    _ ← lift_res (ensure_artifact_refs_belong_to_card (cd_id card) artifact_refs);
    _ ← lift_res (ensure_artifacts_accepted pp destination_bucket artifact_refs);
    if negb (bool_decide (node_id = ls_node_id lease))
    then raise (ConflictError
                  ("lease node '" +:+ ls_node_id lease +:+ "' cannot submit through node '" +:+
                   node_id +:+ "'"))
    else
      _ ← _move_card_row card destination_bucket (Some (ls_worker_id lease))
            (Some "artifact_submitted") false;
      released_at ← now;
      _ ← update_in leases (fun l => bool_decide (ls_id l = ls_id lease))
            (lease_with_released released_at);
      ev ← new_event (cd_id card) "artifact_submitted" (Some (ls_worker_id lease))
             [("artifact_ids", VList (map (fun r => VStr (uuid_str (ar_id r))) artifact_refs));
              ("artifact_refs", VList (map artifact_summary artifact_refs));
              ("lease_id", VStr (uuid_str (ls_id lease)));
              ("output_pipe", VStr output_pipe);
              ("destination_bucket", VStr destination_bucket)];
      _ ← _insert_event ev;
      let stored_refs := map (artifact_with_event (cd_id card) (ev_id ev)) artifact_refs in
      _ ← forM stored_refs insert_artifact;
      _ ← _store_idempotency idempotency_key "artifact.submit"
            ("artifacts:" +:+ str_concat "," (map (fun r => uuid_str (ar_id r)) stored_refs));
      mret stored_refs).

Definition pg_renew_lease (lease_id : UUID) (lease_seconds : Z) (idempotency_key : option string) :
    M PgRuntime Lease :=
  with_reference idempotency_key lease_reference (
    lease ← _pg_get_lease lease_id;
    _ ← ensure_active_lease lease;
    t ← now;
    expires_at ← lift_res (dt_add_seconds t lease_seconds);
    _ ← update_in leases (fun l => bool_decide (ls_id l = ls_id lease))
          (lease_with_expiry expires_at);
    ev ← new_event (ls_card_id lease) "lease_renewed" (Some (ls_worker_id lease))
           [("lease_id", VStr (uuid_str (ls_id lease))); ("expires_at", VStr (isoformat expires_at))];
    _ ← _insert_event ev;
    _ ← _store_idempotency idempotency_key "lease.renew" ("lease:" +:+ uuid_str (ls_id lease));
    mret (lease_with_expiry expires_at lease)).

Definition pg_release_lease (lease_id : UUID) (actor_id idempotency_key : option string) :
    M PgRuntime Lease :=
  with_reference idempotency_key lease_reference (
    lease ← _pg_get_lease lease_id;
    match ls_released_at lease with
    | Some _ => mret lease
    | None =>
        released_at ← now;
        _ ← update_in leases (fun l => bool_decide (ls_id l = ls_id lease))
              (lease_with_released released_at);
        ev ← new_event (ls_card_id lease) "lease_released"
               (opt_or actor_id (Some (ls_worker_id lease)))
               [("lease_id", VStr (uuid_str (ls_id lease)))];
        _ ← _insert_event ev;
        _ ← _store_idempotency idempotency_key "lease.release" ("lease:" +:+ uuid_str (ls_id lease));
        mret (lease_with_released released_at lease)
    end).

Definition pg_expire_lease (t : datetime) (lease : Lease) : M PgRuntime () :=
  _ ← update_in leases (fun l => bool_decide (ls_id l = ls_id lease)) (lease_with_released t);
  ev ← new_event (ls_card_id lease) "lease_expired" (Some (ls_worker_id lease))
         [("lease_id", VStr (uuid_str (ls_id lease)))];
  _insert_event ev.

Definition pg_expire_leases : M PgRuntime (list Lease) :=
  t ← now;
  transaction (
    rows ← select_from leases (lease_row_overdue t);
    _ ← forM rows (pg_expire_lease t);
    mret (map (lease_with_released t) rows)).

Definition new_validation_result (card_id : UUID) (validator_id : string) (accepted : bool)
    (reason output_pipe : option string) (payload : doc) : M PgRuntime ValidationResult :=
  i ← uuid4; t ← now;
  mret (mkValidationResult i card_id validator_id accepted reason output_pipe payload t).

Definition event_reference (cached : string) : M PgRuntime CardEvent :=
  i ← lift_res (reference "event:" cached); _pg_get_event i.

Definition pg_validate_card (card_id : UUID) (validator_id : string) (accepted : bool)
    (reason output_pipe : option string) (payload : option doc)
    (idempotency_key : option string) : M PgRuntime CardEvent :=
  with_reference idempotency_key event_reference (
    card ← _pg_get_card card_id;
    result ← new_validation_result (cd_id card) validator_id accepted reason output_pipe
               (default [] payload);
    _ ← insert_into validation_results result;
    let event_payload := dict_update
      [("accepted", VBool accepted); ("reason", v_opt_str reason);
       ("validation_result_id", VStr (uuid_str (vr_id result)))] (default [] payload) in
    event_payload ←
      (if truthy output_pipe then
         let pipe := str_or output_pipe "" in
         pp ← _pg_get_patch_panel_for_card card;
         destination ← lift_res (resolve_pipe_bucket pp pipe "output");
         _ ← _move_card_row card destination.1 (Some validator_id) (Some "validator_output") true;
         mret (dict_set "destination_bucket" (VStr destination.1)
                 (dict_set "output_pipe" (VStr pipe) event_payload))
       else mret event_payload);
    ev ← new_event (cd_id card) "card_validated" (Some validator_id) event_payload;
    _ ← _insert_event ev;
    _ ← _store_idempotency idempotency_key "card.validate" ("event:" +:+ uuid_str (ev_id ev));
    mret ev).

Definition pg_move_card (card_id : UUID) (to_bucket : string)
    (actor_id reason idempotency_key : option string) : M PgRuntime Card :=
  with_reference idempotency_key (fun cached => i ← lift_res (reference "card:" cached); _pg_get_card i) (
    card ← _pg_get_card card_id;
    pp ← _pg_get_patch_panel_for_card card;
    _ ← lift_res (ensure_bucket_exists pp to_bucket);
    moved ← _move_card_row card to_bucket actor_id reason true;
    _ ← _store_idempotency idempotency_key "card.move" ("card:" +:+ uuid_str (cd_id card));
    mret moved).

Definition pg_card_history (card_id : UUID) : M PgRuntime (list CardEvent) :=
  _ ← _pg_get_card card_id;
  rows ← select_from card_events (fun e => bool_decide (ev_card_id e = card_id));
  mret (merge_sort event_le rows).

Definition pg_record_event (card_id : UUID) (event_type : string) (actor_id : option string)
    (payload : option doc) (idempotency_key : option string) : M PgRuntime CardEvent :=
  with_reference idempotency_key event_reference (
    _ ← _pg_get_card card_id;
    ev ← new_event card_id event_type actor_id (default [] payload);
    _ ← _insert_event ev;
    _ ← _store_idempotency idempotency_key "event.record" ("event:" +:+ uuid_str (ev_id ev));
    mret ev).

#[export] Instance postgres_card_runtime : CardRuntime PgRuntime := {|
  rt_register_patch_panel := pg_register_patch_panel;
  rt_list_patch_panels := pg_list_patch_panels;
  rt_create_card := pg_create_card;
  rt_list_cards := pg_list_cards;
  rt_get_card := pg_get_card;
  rt_get_lease := pg_get_lease;
  rt_list_leases := pg_list_leases;
  rt_claim_card := pg_claim_card;
  rt_submit_artifact := pg_submit_artifact;
  rt_renew_lease := pg_renew_lease;
  rt_release_lease := pg_release_lease;
  rt_expire_leases := pg_expire_leases;
  rt_validate_card := pg_validate_card;
  rt_move_card := pg_move_card;
  rt_card_history := pg_card_history;
  rt_record_event := pg_record_event;
|}.
End postgres.
