(* ===== verification/PostgresSpec.v ===== *)
(** * Lemmas on the PostgreSQL runtime

    What a computation over the database may do ([evolves]), which ones leave
    cards, locations and leases alone ([frames]), and the invariants of
    these three tables. *)
From Stdlib Require Import ZArith Ascii String.
From stdpp Require Import sorting.
From S2P Require Import Prelude Values Authority Models Graph PanelValidator Artifacts.
From S2P Require Import RuntimeService MemoryRuntime MemorySpec MemoryInvariant Pydantic Sql.
From S2P Require Import PostgresRuntime.
Open Scope string_scope.
Open Scope list_scope.

(** ** Successful runs *)

(** [wpo m Q s]: if [m] answers from [s], the answer and the state are in
    [Q]. Transactions make the other runs harmless. *)
Definition wpo {S A} (m : M S A) (Q : A -> S * Env -> Prop) (s : S * Env) : Prop :=
  wp m (fun r s' => forall a, r = Ok a -> Q a s') s.
Arguments wpo {S A} m Q s : simpl never.

Section wpo.
Context {S A B : Type}.
Implicit Types (s : S * Env).

Lemma wpo_ret (a : A) (Q : A -> S * Env -> Prop) s : Q a s -> wpo (mret a) Q s.
Proof. by intros ? ? [= <-]. Qed.
Lemma wpo_raise e (Q : A -> S * Env -> Prop) s : wpo (raise e) Q s.
Proof. by intros ? ?. Qed.
Lemma wpo_lift (r : res A) (Q : A -> S * Env -> Prop) s :
  (forall a, r = Ok a -> Q a s) -> wpo (lift_res r) Q s.
Proof. done. Qed.
Lemma wpo_bind (m : M S A) (f : A -> M S B) Q s :
  wpo m (fun a s' => wpo (f a) Q s') s -> wpo (m ≫= f) Q s.
Proof.
  unfold wpo, wp, mbind, M_bind. destruct (m s) as [[a|e] s']; cbn; [|done].
  intros Hm. by apply Hm.
Qed.
Lemma wpo_mono (m : M S A) (Q Q' : A -> S * Env -> Prop) s :
  wpo m Q s -> (forall a s', Q a s' -> Q' a s') -> wpo m Q' s.
Proof. unfold wpo, wp. naive_solver. Qed.
Lemma wpo_conj (m : M S A) (Q Q' : A -> S * Env -> Prop) s :
  wpo m Q s -> wpo m Q' s -> wpo m (fun a s' => Q a s' /\ Q' a s') s.
Proof. unfold wpo, wp. naive_solver. Qed.
End wpo.

Section postgres.
Context `{Oracle} `{Networkx} `{Pydantic} `{SqlLaws}.
Implicit Types (st : PgRuntime) (s : PgRuntime * Env).

Lemma wpo_transaction {A} (m : M PgRuntime A) Q s : wpo m Q s -> wpo (transaction m) Q s.
Proof.
  unfold wpo, wp, transaction. destruct (m s) as [[a|e] s']; cbn; [done|]. by intros _ ? ?.
Qed.

Lemma wpo_insert {Row} (p : place Row) r Q s :
  (forall t, sql_rows t ≡ₚ r :: sql_rows (pl_get _ p s.1) ->
     (forall x, x ∈ sql_rows (pl_get _ p s.1) -> pl_same_key _ p r x = false) ->
     Q tt (pl_set _ p t s.1, s.2)) ->
  wpo (insert_into p r) Q s.
Proof.
  intros HQ. unfold wpo, wp, insert_into, get, mbind, M_bind. cbn.
  destruct (sql_insert _ _ _) as [t|] eqn:E; cbn; [|by intros ? ?].
  intros [] _. apply HQ; [by eapply sql_insert_rows|].
  intros x Hx. destruct (pl_same_key _ p r x) eqn:Ek; [|done].
  assert (sql_insert (pl_same_key _ p) r (pl_get _ p s.1) = None) as Hn.
  { apply sql_insert_conflict. eauto. }
  congruence.
Qed.

(** ** What every computation keeps *)
Definition rows_grow {Row K} (key : Row -> K) (t t' : table Row) : Prop :=
  forall r, r ∈ sql_rows t -> exists r', r' ∈ sql_rows t' /\ key r' = key r.

Definition keys_once (st : PgRuntime) : Prop := NoDup (map ir_key (sql_rows (pg_idempotency_records st))).

(** What of a card row never changes: everything but its bucket. *)
Definition card_core (c : Card) : Card := card_with_bucket "" c.

Lemma card_core_id c c' : card_core c = card_core c' -> cd_id c = cd_id c'.
Proof. by intros [= ?]. Qed.
Lemma lease_core_id l l' : lease_core l = lease_core l' -> ls_id l = ls_id l'.
Proof. by intros [= ?]. Qed.

Record evolves (s s' : PgRuntime * Env) : Prop := {
  evo_env : env_le s.2 s'.2;
  evo_cards : rows_grow card_core (pg_cards s.1) (pg_cards s'.1);
  evo_leases : rows_grow lease_core (pg_leases s.1) (pg_leases s'.1);
  evo_events ev : ev ∈ sql_rows (pg_card_events s.1) -> ev ∈ sql_rows (pg_card_events s'.1);
  evo_artifacts a : a ∈ sql_rows (pg_artifacts s.1) -> a ∈ sql_rows (pg_artifacts s'.1);
  evo_panels : rows_grow (fun r => (pr_id r, pr_version r)) (pg_patch_panels s.1) (pg_patch_panels s'.1);
  evo_records r : r ∈ sql_rows (pg_idempotency_records s.1) ->
    r ∈ sql_rows (pg_idempotency_records s'.1);
  evo_keys : keys_once s.1 -> keys_once s'.1;
}.

Lemma rows_grow_refl {Row K} (key : Row -> K) (t : table Row) : rows_grow key t t.
Proof. intros r Hr. by exists r. Qed.
Lemma rows_grow_trans {Row K} (key : Row -> K) (t1 t2 t3 : table Row) :
  rows_grow key t1 t2 -> rows_grow key t2 t3 -> rows_grow key t1 t3.
Proof.
  intros H12 H23 r Hr. destruct (H12 r Hr) as (r2 & Hr2 & <-).
  destruct (H23 r2 Hr2) as (r3 & ? & ?). by exists r3.
Qed.

#[local] Hint Resolve rows_grow_refl env_le_refl : core.

Lemma evolves_refl s : evolves s s.
Proof. split; auto. Qed.
Lemma evolves_trans s1 s2 s3 : evolves s1 s2 -> evolves s2 s3 -> evolves s1 s3.
Proof.
  intros [] []. split; eauto using rows_grow_trans. by eapply env_le_trans.
Qed.
Lemma evolves_env st e e' : env_le e e' -> evolves (st, e) (st, e').
Proof. intros. split; auto. Qed.

Lemma rows_grow_insert {Row K} (key : Row -> K) r (t t' : table Row) :
  sql_rows t' ≡ₚ r :: sql_rows t -> rows_grow key t t'.
Proof. intros Hp x Hx. exists x. split; [|done]. rewrite Hp. by right. Qed.

Lemma rows_grow_update {Row K} (key : Row -> K) p f (t : table Row) :
  (forall r, key (f r) = key r) -> rows_grow key t (sql_update p f t).1.
Proof.
  intros Hf x Hx. exists (if p x then f x else x). split; [|by destruct (p x)].
  rewrite sql_update_rows. apply list_elem_of_fmap. by exists x.
Qed.

Definition evolving {A} (m : M PgRuntime A) : Prop := forall s, evolves s (m s).2.

Lemma evolving_ret {A} (a : A) : evolving (mret a).
Proof. intros s. apply evolves_refl. Qed.
Lemma evolving_raise {A} x : evolving (A := A) (raise x).
Proof. intros s. apply evolves_refl. Qed.
Lemma evolving_lift {A} (r : res A) : evolving (lift_res r).
Proof. intros s. apply evolves_refl. Qed.
Lemma evolving_get : evolving get.
Proof. intros s. apply evolves_refl. Qed.
Lemma evolving_now : evolving now.
Proof. intros [st e]. apply evolves_env. split; cbn; lia. Qed.
Lemma evolving_uuid4 : evolving uuid4.
Proof. intros [st e]. apply evolves_env. split; cbn; lia. Qed.
Lemma evolving_bind {A B} (m : M PgRuntime A) (f : A -> M PgRuntime B) :
  evolving m -> (forall a, evolving (f a)) -> evolving (m ≫= f).
Proof.
  intros Hm Hf s. unfold mbind, M_bind. specialize (Hm s). destruct (m s) as [[a|x] s1]; cbn in *; [|done].
  eapply evolves_trans; [exact Hm | apply Hf].
Qed.
Lemma evolving_transaction {A} (m : M PgRuntime A) : evolving m -> evolving (transaction m).
Proof.
  intros Hm s. specialize (Hm s). unfold transaction. destruct (m s) as [[a|x] s1]; cbn; [done|].
  destruct s. apply evolves_env, Hm.
Qed.
Lemma evolving_on_error {A} x (m : M PgRuntime A) : evolving m -> evolving (on_integrity_error x m).
Proof.
  intros Hm s. specialize (Hm s). unfold on_integrity_error. by destruct (m s) as [[a|[]] s1].
Qed.
Lemma evolving_forM {A} (l : list A) (f : A -> M PgRuntime ()) :
  (forall a, evolving (f a)) -> evolving (forM l f).
Proof.
  intros Hf. induction l as [|a l IH]; cbn; [apply evolving_ret|]. by apply evolving_bind.
Qed.
Lemma evolving_select {Row} (p : place Row) q : evolving (select_from p q).
Proof. intros s. apply evolves_refl. Qed.
Lemma evolving_missing {A} msg (l : list A) : evolving (pg_missing msg l).
Proof. destruct l; [apply evolving_raise | apply evolving_ret]. Qed.

(** Inserting a row into the table at a place, or updating rows without
    touching their identity, evolves the database. *)
Class Growing {Row} (p : place Row) : Prop := {
  growing_insert s r t :
    sql_insert (pl_same_key _ p) r (pl_get _ p s.1) = Some t -> evolves s (pl_set _ p t s.1, s.2);
}.

Ltac growing :=
  split; intros s r t Ht; apply sql_insert_rows in Ht; split; cbn in *; auto;
  first [by eapply rows_grow_insert | by intros x Hx; rewrite Ht; right].

#[export] Instance patch_panels_growing : Growing patch_panels.
Proof. growing. Qed.
#[export] Instance workflow_versions_growing : Growing workflow_versions.
Proof. growing. Qed.
#[export] Instance buckets_growing : Growing buckets.
Proof. growing. Qed.
#[export] Instance cards_growing : Growing cards.
Proof. growing. Qed.
#[export] Instance card_locations_growing : Growing card_locations.
Proof. growing. Qed.
#[export] Instance leases_growing : Growing leases.
Proof. growing. Qed.
#[export] Instance validation_results_growing : Growing validation_results.
Proof. growing. Qed.
#[export] Instance artifacts_growing : Growing artifacts.
Proof. growing. Qed.
#[export] Instance card_events_growing : Growing card_events.
Proof. growing. Qed.

#[export] Instance idempotency_records_growing : Growing idempotency_records.
Proof.
  split. intros s r t Ht. pose proof (sql_insert_rows _ _ _ _ Ht) as Hp. split; cbn in *; auto.
  - intros x Hx. rewrite Hp. by right.
  - unfold keys_once. cbn. intros Hnd. rewrite Hp. cbn. apply NoDup_cons. split; [|done].
    intros (x & Hx & Hin)%list_elem_of_fmap.
    enough (sql_insert (pl_same_key _ idempotency_records) r (pg_idempotency_records s.1) = None)
      by (cbn in *; congruence).
    apply sql_insert_conflict. exists x. split; [done|]. cbn. by apply bool_decide_eq_true.
Qed.

Lemma evolving_insert {Row} (p : place Row) `{!Growing p} r : evolving (insert_into p r).
Proof.
  intros s. unfold insert_into, get, mbind, M_bind. cbn.
  destruct (sql_insert _ _ _) as [t|] eqn:E; cbn; [by eapply growing_insert | apply evolves_refl].
Qed.

Lemma evolving_update_cards q f : (forall c, card_core (f c) = card_core c) -> evolving (update_in cards q f).
Proof. intros Hf s. split; cbn; auto. by apply rows_grow_update. Qed.
Lemma evolving_update_leases q f : (forall l, lease_core (f l) = lease_core l) -> evolving (update_in leases q f).
Proof. intros Hf s. split; cbn; auto. by apply rows_grow_update. Qed.
Lemma evolving_update_locations q f : evolving (update_in card_locations q f).
Proof. intros s. split; cbn; auto. Qed.

End postgres.

Create HintDb evolving.
#[export] Hint Resolve evolving_ret evolving_raise evolving_lift evolving_get evolving_now
  evolving_uuid4 evolving_select evolving_missing evolving_insert evolving_update_locations
  : evolving.
#[export] Hint Extern 1 (evolving (mbind _ _)) => apply evolving_bind; [|intros] : evolving.
#[export] Hint Extern 1 (evolving (transaction _)) => apply evolving_transaction : evolving.
#[export] Hint Extern 1 (evolving (on_integrity_error _ _)) => apply evolving_on_error : evolving.
#[export] Hint Extern 1 (evolving (forM _ _)) => apply evolving_forM; intros : evolving.
#[export] Hint Extern 1 (evolving (update_in cards _ _)) => by apply evolving_update_cards : evolving.
#[export] Hint Extern 1 (evolving (update_in leases _ _)) => by apply evolving_update_leases : evolving.
#[export] Hint Extern 2 (evolving (match ?x with _ => _ end)) => destruct x : evolving.

(** ** Computations that only read *)
Section reads.
Context `{Oracle} `{Networkx} `{Pydantic} `{SqlLaws}.

Definition reads {A} (m : M PgRuntime A) : Prop := forall s, (m s).2 = s.

Lemma reads_ret {A} (a : A) : reads (mret a).
Proof. done. Qed.
Lemma reads_raise {A} x : reads (A := A) (raise x).
Proof. done. Qed.
Lemma reads_lift {A} (r : res A) : reads (lift_res r).
Proof. done. Qed.
Lemma reads_select {Row} (p : place Row) q : reads (select_from p q).
Proof. done. Qed.
Lemma reads_missing {A} msg (l : list A) : reads (pg_missing msg l).
Proof. by destruct l. Qed.
Lemma reads_bind {A B} (m : M PgRuntime A) (f : A -> M PgRuntime B) :
  reads m -> (forall a, reads (f a)) -> reads (m ≫= f).
Proof.
  intros Hm Hf s. unfold mbind, M_bind. specialize (Hm s). destruct (m s) as [[a|x] s1]; cbn in *; [|done].
  subst. apply Hf.
Qed.
Lemma reads_evolving {A} (m : M PgRuntime A) : reads m -> evolving m.
Proof. intros Hm s. rewrite Hm. apply evolves_refl. Qed.

Lemma wpo_reads {A} (m : M PgRuntime A) Q s :
  reads m -> (forall a, (m s).1 = Ok a -> Q a s) -> wpo m Q s.
Proof. intros Hm HQ. unfold wpo, wp. rewrite Hm. auto. Qed.
End reads.

#[export] Hint Resolve reads_ret reads_raise reads_lift reads_select reads_missing : evolving.
#[export] Hint Extern 1 (reads (mbind _ _)) => apply reads_bind; [|intros] : evolving.
#[export] Hint Extern 2 (reads (match ?x with _ => _ end)) => destruct x : evolving.

Section readers.
Context `{Oracle} `{Networkx} `{Pydantic} `{SqlLaws}.

Lemma reads_get_card i : reads (_pg_get_card i).
Proof. unfold _pg_get_card. auto with evolving. Qed.
Lemma reads_get_event i : reads (_pg_get_event i).
Proof. unfold _pg_get_event. auto with evolving. Qed.
Lemma reads_get_lease i : reads (_pg_get_lease i).
Proof. unfold _pg_get_lease. auto with evolving. Qed.
Lemma reads_get_artifacts ids : reads (_pg_get_artifacts ids).
Proof. unfold _pg_get_artifacts. auto with evolving. Qed.
Lemma reads_get_active_patch_panel pid : reads (_get_active_patch_panel pid).
Proof. unfold _get_active_patch_panel. auto with evolving. Qed.
Lemma reads_single_patch_panel : reads _pg_single_patch_panel.
Proof. unfold _pg_single_patch_panel. auto 6 with evolving. Qed.
Lemma reads_get_patch_panel_for_card c : reads (_pg_get_patch_panel_for_card c).
Proof. unfold _pg_get_patch_panel_for_card. auto with evolving. Qed.
Lemma reads_get_idempotency key : reads (_get_idempotency key).
Proof. unfold _get_idempotency. auto with evolving. Qed.
Lemma reads_claimable_rows b t : reads (claimable_rows b t).
Proof. unfold claimable_rows. auto with evolving. Qed.
Lemma reads_reference {A} p cached (f : UUID -> M PgRuntime A) :
  (forall i, reads (f i)) -> reads (i ← lift_res (reference p cached); f i).
Proof. auto with evolving. Qed.
End readers.

#[export] Hint Resolve reads_get_card reads_get_event reads_get_lease reads_get_artifacts
  reads_get_active_patch_panel reads_single_patch_panel reads_get_patch_panel_for_card
  reads_get_idempotency reads_claimable_rows : evolving.
#[export] Hint Extern 3 (evolving _) => apply reads_evolving; solve [auto with evolving] : evolving.

Section methods.
Context `{Oracle} `{Networkx} `{Pydantic} `{SqlLaws}.

Lemma evolving_ensure_active_lease l : evolving (ensure_active_lease l).
Proof. unfold ensure_active_lease. auto 8 with evolving. Qed.
Lemma evolving_new_event cid typ actor p : evolving (new_event cid typ actor p).
Proof. unfold new_event. auto with evolving. Qed.
Lemma evolving_new_card wv b p m : evolving (new_card wv b p m).
Proof. unfold new_card. auto with evolving. Qed.
Lemma evolving_new_lease c n w p secs : evolving (new_lease c n w p secs).
Proof. unfold new_lease. auto 8 with evolving. Qed.
Lemma evolving_new_location c b t : evolving (new_location c b t).
Proof. unfold new_location. auto with evolving. Qed.
Lemma evolving_insert_artifact r : evolving (insert_artifact r).
Proof. unfold insert_artifact. auto with evolving typeclass_instances. Qed.
Lemma evolving_insert_event ev : evolving (_insert_event ev).
Proof. apply evolving_insert. apply _. Qed.
Lemma evolving_store_idempotency key operation r : evolving (_store_idempotency key operation r).
Proof. unfold _store_idempotency. auto 8 with evolving typeclass_instances. Qed.
Lemma evolving_move_card_row c b actor reason emit :
  evolving (_move_card_row c b actor reason emit).
Proof.
  unfold _move_card_row, _insert_event.
  auto 16 using evolving_new_location, evolving_new_event with evolving typeclass_instances.
Qed.
End methods.

#[export] Hint Resolve evolving_ensure_active_lease evolving_new_event evolving_new_card
  evolving_new_lease evolving_new_location evolving_insert_event evolving_insert_artifact evolving_store_idempotency
  evolving_move_card_row : evolving.

Section lookups.
Context `{Oracle} `{Networkx} `{Pydantic} `{SqlLaws}.
Implicit Types (s : PgRuntime * Env).

Lemma wpo_now (Q : datetime -> PgRuntime * Env -> Prop) s :
  Q (Aware (clock_at (now_ctr s.2))) (s.1, mkEnv (S (now_ctr s.2)) (uuid_ctr s.2)) -> wpo now Q s.
Proof. by intros HQ ? [= <-]. Qed.

Lemma wpo_uuid4 (Q : UUID -> PgRuntime * Env -> Prop) s :
  Q (uuid_at (uuid_ctr s.2)) (s.1, mkEnv (now_ctr s.2) (S (uuid_ctr s.2))) -> wpo uuid4 Q s.
Proof. by intros HQ ? [= <-]. Qed.

(** Rows that lookups answer. *)
Lemma wpo_select {Row} (p : place Row) q (Q : list Row -> PgRuntime * Env -> Prop) s :
  Q (sql_select q (pl_get _ p s.1)) s -> wpo (select_from p q) Q s.
Proof. by intros HQ ? [= <-]. Qed.
Lemma wpo_missing {A} msg (l : list A) (Q : A -> PgRuntime * Env -> Prop) s :
  (forall a l', l = a :: l' -> Q a s) -> wpo (pg_missing msg l) Q s.
Proof. intros HQ. destruct l; [by apply wpo_raise | apply wpo_ret; by eapply HQ]. Qed.

Lemma wpo_get_card i (Q : Card -> PgRuntime * Env -> Prop) s :
  (forall c, c ∈ sql_rows (pg_cards s.1) -> cd_id c = i -> Q c s) -> wpo (_pg_get_card i) Q s.
Proof.
  intros HQ. apply wpo_bind, wpo_select, wpo_missing. intros c l Hl.
  assert (Hc : c ∈ sql_select (fun c => bool_decide (cd_id c = i)) (pg_cards s.1)).
  { cbn in Hl. rewrite Hl. by left. }
  apply elem_of_select in Hc as [Hc Hi%bool_decide_eq_true]. by apply HQ.
Qed.
Lemma wpo_get_lease i (Q : Lease -> PgRuntime * Env -> Prop) s :
  (forall l, l ∈ sql_rows (pg_leases s.1) -> ls_id l = i -> Q l s) -> wpo (_pg_get_lease i) Q s.
Proof.
  intros HQ. apply wpo_bind, wpo_select, wpo_missing. intros c l Hl.
  assert (Hc : c ∈ sql_select (fun c => bool_decide (ls_id c = i)) (pg_leases s.1)).
  { cbn in Hl. rewrite Hl. by left. }
  apply elem_of_select in Hc as [Hc Hi%bool_decide_eq_true]. by apply HQ.
Qed.

End lookups.

(** Walks through a method. *)
Ltac evolve :=
  cbv beta zeta;
  lazymatch goal with
  | |- evolving (mbind _ _) => apply evolving_bind; [evolve | intros; evolve]
  | |- evolving (transaction _) => apply evolving_transaction; evolve
  | |- evolving (forM _ _) => apply evolving_forM; intros; evolve
  | |- evolving (match ?x with _ => _ end) => destruct x; evolve
  | |- evolving (insert_into _ _) => apply evolving_insert; apply _
  | |- evolving _ => auto with evolving
  end.

(** ** The operations *)
Section operations.
Context `{Oracle} `{Networkx} `{Pydantic} `{SqlLaws}.

Definition pg_run_op (o : op) : M PgRuntime answer :=
  match o with
  | Register pp => mapM A_panel (pg_register_patch_panel pp)
  | CreateCard pid payload metadata key => mapM A_card (pg_create_card pid payload metadata key)
  | ClaimCard pipe worker seconds key => mapM A_lease (pg_claim_card pipe worker seconds key)
  | SubmitArtifact lid pipe refs key => mapM A_artifacts (pg_submit_artifact lid pipe refs key)
  | RenewLease lid seconds key => mapM A_lease (pg_renew_lease lid seconds key)
  | ReleaseLease lid actor key => mapM A_lease (pg_release_lease lid actor key)
  | ExpireLeases => mapM A_leases pg_expire_leases
  | ValidateCard cid vid accepted reason pipe payload key =>
      mapM A_event (pg_validate_card cid vid accepted reason pipe payload key)
  | MoveCard cid to_bucket actor reason key => mapM A_card (pg_move_card cid to_bucket actor reason key)
  | RecordEvent cid typ actor payload key => mapM A_event (pg_record_event cid typ actor payload key)
  end.

Fixpoint pg_run_ops (os : list op) (s : PgRuntime * Env) : PgRuntime * Env :=
  match os with
  | [] => s
  | o :: os' => pg_run_ops os' (pg_run_op o s).2
  end.

Lemma evolving_with_reference {A} key lookup (body : M PgRuntime A) :
  (forall r, reads (lookup r)) -> evolving body -> evolving (with_reference key lookup body).
Proof.
  intros Hl Hb. unfold with_reference. apply evolving_transaction, evolving_bind; [auto with evolving|].
  intros cached. destruct (truthy cached); [by apply reads_evolving | done].
Qed.

Lemma evolving_mapM {A B} (f : A -> B) (m : M PgRuntime A) : evolving m -> evolving (mapM f m).
Proof. intros Hm. unfold mapM. auto with evolving. Qed.

Lemma evolving_run_op o : evolving (pg_run_op o).
Proof.
  destruct o; cbn [pg_run_op]; apply evolving_mapM;
    try (apply evolving_with_reference; [intros; unfold lease_reference, event_reference; auto with evolving|]).
  all: unfold pg_register_patch_panel, pg_expire_leases, pg_expire_lease, new_validation_result; evolve.
Qed.

Lemma evolving_run_ops os s : evolves s (pg_run_ops os s).
Proof.
  revert s. induction os as [|o os IH]; intros s; cbn [pg_run_ops]; [apply evolves_refl|].
  eapply evolves_trans; [apply evolving_run_op | apply IH].
Qed.
End operations.
