(* ===== verification/PostgresInvariant.v ===== *)
(** * Invariants of the PostgreSQL runtime

    Leases exclude each other per card, the location rows of a card say where
    it is, and leases that were released stay as they were: every method keeps
    this, whatever the order in which the engine returns rows. *)
From Stdlib Require Import ZArith Ascii String.
From stdpp Require Import sorting.
From S2P Require Import Prelude Values Authority Models Graph PanelValidator Artifacts.
From S2P Require Import RuntimeService MemoryRuntime MemorySpec MemoryInvariant Pydantic Sql.
From S2P Require Import PostgresRuntime PostgresSpec.
Open Scope string_scope.
Open Scope list_scope.

(** ** The invariants, on lists of rows *)
Section rows.
Context `{OracleLaws}.

Record lease_inv (ls : list Lease) (e : Env) : Prop := {
  li_ids : NoDup (map ls_id ls);
  li_exclusive t l1 l2 : time_reached e t -> l1 ∈ ls -> l2 ∈ ls ->
    ls_card_id l1 = ls_card_id l2 -> lease_active_at l1 t -> lease_active_at l2 t ->
    ls_id l1 = ls_id l2;
}.

(** Entered at a reading of the clock, and still active or left at a later
    one. *)
Definition location_times (e : Env) (loc : CardLocation) : Prop :=
  exists n, n < now_ctr e /\ cl_entered_at loc = Aware (clock_at n) /\
    (cl_status loc = "active" /\ cl_exited_at loc = None \/
     cl_status loc = "exited" /\
       exists n', n < n' < now_ctr e /\ cl_exited_at loc = Some (Aware (clock_at n'))).

Lemma location_times_env e e' loc : env_le e e' -> location_times e loc -> location_times e' loc.
Proof.
  intros [Hle _] (n & Hn & He & Hs). exists n. split; [lia|]. split; [done|].
  destruct Hs as [Hs|(Hs & n' & Hn' & Hx)]; [by left|]. right. split; [done|]. exists n'. split; [lia | done].
Qed.

Record location_inv (cs : list Card) (ls : list CardLocation) (e : Env) : Prop := {
  lo_ids : NoDup (map cd_id cs);
  lo_active c : c ∈ cs -> exists loc, py_filter (active_location (cd_id c)) ls = [loc] /\
    cl_bucket loc = cd_current_bucket c;
  lo_known loc : loc ∈ ls -> cl_card_id loc ∈ map cd_id cs;
  lo_times loc : loc ∈ ls -> location_times e loc;
}.

Lemma location_inv_env cs ls e e' : env_le e e' -> location_inv cs ls e -> location_inv cs ls e'.
Proof. intros Hle []. split; try done. intros loc Hl. eapply location_times_env; eauto. Qed.

Lemma lease_inv_perm ls ls' e : ls ≡ₚ ls' -> lease_inv ls e -> lease_inv ls' e.
Proof.
  intros Hp [Hid Hex]. split; [by rewrite <- Hp|]. intros t l1 l2. rewrite <- !Hp. apply Hex.
Qed.

Lemma lease_inv_env ls e e' : env_le e e' -> lease_inv ls e -> lease_inv ls e'.
Proof.
  intros Hle [Hid Hex]. split; [done|]. intros t l1 l2 Ht. apply Hex. by eapply time_reached_le.
Qed.

Lemma location_inv_perm cs cs' ls ls' e :
  cs ≡ₚ cs' -> ls ≡ₚ ls' -> location_inv cs ls e -> location_inv cs' ls' e.
Proof.
  intros Hc Hl [Hid Hact Hk Hst]. split.
  - by rewrite <- Hc.
  - intros c. rewrite <- Hc. intros Hin. destruct (Hact c Hin) as (loc & Hf & Hb). exists loc.
    split; [|done]. symmetry. apply Permutation_singleton_l. rewrite <- Hf. by apply py_filter_perm.
  - intros loc. rewrite <- Hl, <- Hc. apply Hk.
  - intros loc. rewrite <- Hl. apply Hst.
Qed.

Lemma time_now e n t : (now_ctr e <= n)%nat -> time_reached (mkEnv (S n) (uuid_ctr e)) t ->
  (clock_at n <= t)%Z.
Proof. intros Hn Ht. apply Ht. cbn. lia. Qed.

(** ** Changes of the leases *)
Lemma lease_inv_insert ls e e' l :
  lease_inv ls e -> env_le e e' -> (forall x, x ∈ ls -> ls_id x <> ls_id l) ->
  (forall x t', x ∈ ls -> ls_card_id x = ls_card_id l -> time_reached e' t' -> ~ lease_active_at x t') ->
  lease_inv (l :: ls) e'.
Proof.
  intros [Hid Hex] Hle Hnew Hfree. split.
  - cbn. apply NoDup_cons. split; [|done]. intros (x & Hx & Hin)%list_elem_of_fmap. by apply (Hnew x).
  - intros t' l1 l2 Hr H1' H2' Hc Ha1 Ha2.
    apply elem_of_cons in H1' as [->|H1'], H2' as [->|H2']; [done | | |].
    + by destruct (Hfree l2 t' H2').
    + by destruct (Hfree l1 t' H1').
    + eapply Hex; eauto. by eapply time_reached_le.
Qed.

Lemma map_update_ids {A K} (key : A -> K) (p : A -> bool) f (l : list A) :
  (forall x, key (f x) = key x) -> map key (map (fun x => if p x then f x else x) l) = map key l.
Proof. intros Hf. rewrite map_map. apply map_ext. intros x. by destruct (p x). Qed.

(** Releasing leases. *)
Lemma lease_inv_release ls e (p : Lease -> bool) t :
  lease_inv ls e -> lease_inv (map (fun x => if p x then lease_with_released t x else x) ls) e.
Proof.
  intros [Hid Hex]. split; [by rewrite map_update_ids|].
  intros t' l1 l2 Hr (x1 & -> & Hx1)%list_elem_of_fmap (x2 & -> & Hx2)%list_elem_of_fmap.
  destruct (p x1); [by intros _ [? _]|]. destruct (p x2); [by intros _ _ [? _]|]. by apply Hex.
Qed.

(** Renewing a lease that is active at the present instant. *)
Lemma lease_inv_renew ls e e' l us :
  lease_inv ls e -> l ∈ ls -> lease_active_at l (clock_at (now_ctr e)) -> env_le e e' ->
  (now_ctr e < now_ctr e')%nat ->
  lease_inv (map (fun x => if bool_decide (ls_id x = ls_id l) then lease_with_expiry us x else x) ls) e'.
Proof.
  intros [Hid Hex] Hl Hact Hle Hlt. split; [by rewrite map_update_ids|].
  assert (Hnow : time_reached e (clock_at (now_ctr e))).
  { intros n Hn. apply clock_mono. lia. }
  intros t' l1 l2 Hr (x1 & -> & Hx1)%list_elem_of_fmap (x2 & -> & Hx2)%list_elem_of_fmap.
  assert (Ht : (clock_at (now_ctr e) <= t')%Z) by (by apply Hr).
  assert (Hsame : forall x, x ∈ ls -> ls_id x = ls_id l -> x = l).
  { intros x Hx Hxl. by apply (NoDup_map_inj ls_id ls). }
  assert (Hpast : forall x, x ∈ ls ->
    lease_active_at (if bool_decide (ls_id x = ls_id l) then lease_with_expiry us x else x) t' ->
    lease_active_at x (clock_at (now_ctr e))).
  { intros x Hx. case_bool_decide as Hxl; [by rewrite (Hsame x Hx Hxl)|]. by eapply lease_active_mono. }
  assert (Hkeep : forall x, ls_card_id (if bool_decide (ls_id x = ls_id l)
    then lease_with_expiry us x else x) = ls_card_id x /\
    ls_id (if bool_decide (ls_id x = ls_id l) then lease_with_expiry us x else x) = ls_id x).
  { intros x. by case_bool_decide. }
  intros Hc Ha1 Ha2.
  destruct (Hkeep x1) as [Hc1 ->], (Hkeep x2) as [Hc2 ->]. rewrite Hc1, Hc2 in Hc.
  apply (Hex (clock_at (now_ctr e))); auto.
Qed.

(** ** Changes of the places *)
Lemma active_location_true i r :
  active_location i r = true <-> cl_card_id r = i /\ cl_status r = "active".
Proof. unfold active_location. by rewrite andb_true_iff, !bool_decide_eq_true. Qed.

(** A new card enters its first bucket. *)
Lemma location_inv_create cs ls c loc e n :
  location_inv cs ls e -> n < now_ctr e -> cl_entered_at loc = Aware (clock_at n) -> cd_id c ∉ map cd_id cs -> cl_card_id loc = cd_id c ->
  cl_status loc = "active" -> cl_exited_at loc = None -> cl_bucket loc = cd_current_bucket c ->
  location_inv (c :: cs) (loc :: ls) e.
Proof.
  intros [Hid Hact Hk Hst] Hn He Hc Hl Hs Hx Hb. split.
  - cbn. by apply NoDup_cons.
  - intros c' [->|Hc']%elem_of_cons; cbn.
    + rewrite (proj2 (active_location_true _ _)) by done. exists loc. split; [|done]. f_equal.
      apply py_filter_none. intros r Hr. apply not_true_iff_false.
      intros [Hrc _]%active_location_true. apply Hc. rewrite <- Hrc. by apply Hk.
    + destruct (active_location (cd_id c') loc) eqn:E; [|by apply Hact].
      apply active_location_true in E as [E _]. destruct Hc. rewrite <- Hl, E.
      apply list_elem_of_fmap. by exists c'.
  - intros r [->|Hr]%elem_of_cons; cbn; apply elem_of_cons; [by left | right; by apply Hk].
  - intros r [->|Hr]%elem_of_cons; [exists n; auto | by apply Hst].
Qed.

(** A card leaves its bucket for another. *)
Lemma location_inv_move cs ls i b loc e e' :
  location_inv cs ls e -> env_le e e' -> now_ctr e < now_ctr e' ->
  cl_entered_at loc = Aware (clock_at (now_ctr e)) -> i ∈ map cd_id cs -> cl_card_id loc = i ->
  cl_status loc = "active" -> cl_exited_at loc = None -> cl_bucket loc = b ->
  location_inv (map (fun c => if bool_decide (cd_id c = i) then card_with_bucket b c else c) cs)
    (loc :: map (fun r => if active_location i r then location_exited (Aware (clock_at (now_ctr e))) r else r) ls) e'.
Proof.
  intros [Hid Hact Hk Hst] Hle Hlt Hent Hi Hl Hs Hx Hb. set (t := Aware (clock_at (now_ctr e))).
  set (upd := fun r => if active_location i r then location_exited t r else r).
  assert (Hids : map cd_id (map (fun c => if bool_decide (cd_id c = i)
    then card_with_bucket b c else c) cs) = map cd_id cs) by by rewrite map_update_ids.
  assert (Hcard : forall r, cl_card_id (upd r) = cl_card_id r).
  { intros r. unfold upd. by destruct (active_location i r). }
  assert (Hoff : forall r, active_location i (upd r) = false).
  { intros r. unfold upd. destruct (active_location i r) eqn:E; [|done].
    apply not_true_iff_false. by intros [_ ?]%active_location_true. }
  split; rewrite ?Hids.
  - done.
  - intros c' (c & -> & Hc)%list_elem_of_fmap. case_bool_decide as Hci; cbn.
    + rewrite Hci, (proj2 (active_location_true _ _)) by done. exists loc. split; [|done]. f_equal.
      apply py_filter_none. intros r (r0 & -> & _)%list_elem_of_fmap. apply Hoff.
    + destruct (active_location (cd_id c) loc) eqn:E.
      { apply active_location_true in E as [E _]. congruence. }
      destruct (Hact c Hc) as (l0 & Hf & Hb0). exists l0. split; [|done]. rewrite <- Hf.
      unfold py_filter. clear -Hci. induction ls as [|r ls IH]; cbn; [done|].
      assert (Hr : active_location (cd_id c) (upd r) = active_location (cd_id c) r).
      { unfold upd. destruct (active_location i r) eqn:Ei; [|done].
        apply active_location_true in Ei as [Ei _]. unfold active_location. cbn.
        by rewrite (bool_decide_eq_false_2 (cl_card_id r = cd_id c)) by congruence. }
      rewrite Hr, IH. destruct (active_location (cd_id c) r) eqn:Ec; [|done]. f_equal.
      unfold upd. destruct (active_location i r) eqn:Ei; [|done].
      apply active_location_true in Ei as [Ei _]. apply active_location_true in Ec as [Ec _]. congruence.
  - intros r [->|(r0 & -> & Hr)%list_elem_of_fmap]%elem_of_cons; [by rewrite Hl|].
    rewrite Hcard. by apply Hk.
  - intros r [->|(r0 & -> & Hr)%list_elem_of_fmap]%elem_of_cons; [exists (now_ctr e); auto|].
    unfold upd. destruct (active_location i r0); [|by eapply location_times_env, Hst].
    destruct (Hst r0 Hr) as (n & Hn & He & _). exists n. cbn. split; [lia|]. split; [done|]. right.
    split; [done|]. exists (now_ctr e). split; [lia | done].
Qed.

Lemma lease_row_active_at t l : lease_row_active (Aware t) l = true <-> lease_active_at l t.
Proof.
  unfold lease_row_active, lease_active_at. destruct (ls_released_at l); [naive_solver|].
  cbn. rewrite Z.ltb_lt. destruct (ls_expires_at l) as [us|us]; cbn; split.
  - intros ?. split; [done|]. by exists us.
  - by intros (_ & u & [= <-] & ?).
  - intros ?. split; [done|]. by exists us.
  - by intros (_ & u & [= <-] & ?).
Qed.
End rows.

(** ** The invariant of the database *)
Section invariant.
Context `{OracleLaws} `{Networkx} `{Pydantic} `{SqlLaws}.
Implicit Types (s : PgRuntime * Env).

(** [final]: leases that were released, at some point of the run. They are
    stored, released, as long as the invariant holds. *)
Context (final : Lease -> Prop).

Definition core (st : PgRuntime) := (pg_cards st, pg_card_locations st, pg_leases st).

Record PgInv s : Prop := {
  pi_leases : lease_inv (sql_rows (pg_leases s.1)) s.2;
  pi_locations : location_inv (sql_rows (pg_cards s.1)) (sql_rows (pg_card_locations s.1)) s.2;
  pi_final l : final l -> l ∈ sql_rows (pg_leases s.1) /\ ls_released_at l <> None;
}.

Lemma PgInv_core s s' : core s'.1 = core s.1 -> env_le s.2 s'.2 -> PgInv s -> PgInv s'.
Proof.
  intros [= Hc Hl Hs] Hle [Hi Ho Hf]. split; rewrite ?Hc, ?Hl, ?Hs; [by eapply lease_inv_env | by eapply location_inv_env | done].
Qed.

(** The row of an unreleased lease is unreleased. *)
Lemma unreleased_row s l : PgInv s -> l ∈ sql_rows (pg_leases s.1) -> ls_released_at l = None ->
  forall x, x ∈ sql_rows (pg_leases s.1) -> bool_decide (ls_id x = ls_id l) = true -> ls_released_at x = None.
Proof.
  intros [[Hnd _] _ _] Hl Hn x Hx Hid%bool_decide_eq_true.
  by rewrite (NoDup_map_inj ls_id _ x l Hnd Hx Hl Hid).
Qed.

(** Computations that leave the three tables alone. *)
Definition frames {A} (m : M PgRuntime A) : Prop := forall s, core (m s).2.1 = core s.1.

Class Outside {Row} (p : place Row) : Prop := outside t st : core (pl_set _ p t st) = core st.
#[export] Instance patch_panels_outside : Outside patch_panels. Proof. done. Qed.
#[export] Instance workflow_versions_outside : Outside workflow_versions. Proof. done. Qed.
#[export] Instance buckets_outside : Outside buckets. Proof. done. Qed.
#[export] Instance validation_results_outside : Outside validation_results. Proof. done. Qed.
#[export] Instance artifacts_outside : Outside artifacts. Proof. done. Qed.
#[export] Instance card_events_outside : Outside card_events. Proof. done. Qed.
#[export] Instance idempotency_records_outside : Outside idempotency_records. Proof. done. Qed.

Lemma frames_insert {Row} (p : place Row) `{!Outside p} r : frames (insert_into p r).
Proof.
  intros s. unfold insert_into, get, mbind, M_bind. cbn.
  destruct (sql_insert _ _ _); cbn; [apply outside | done].
Qed.
Lemma frames_bind {A B} (m : M PgRuntime A) (f : A -> M PgRuntime B) :
  frames m -> (forall a, frames (f a)) -> frames (m ≫= f).
Proof.
  intros Hm Hf s. unfold mbind, M_bind. specialize (Hm s).
  destruct (m s) as [[a|x] s1]; cbn in *; [|done]. rewrite <- Hm. apply Hf.
Qed.
Lemma frames_reads {A} (m : M PgRuntime A) : reads m -> frames m.
Proof. intros Hm s. by rewrite Hm. Qed.
Lemma frames_now : frames now.
Proof. done. Qed.
Lemma frames_uuid4 : frames uuid4.
Proof. done. Qed.
Lemma frames_on_error {A} x (m : M PgRuntime A) : frames m -> frames (on_integrity_error x m).
Proof. intros Hm s. specialize (Hm s). unfold on_integrity_error. by destruct (m s) as [[a|[]] s1]. Qed.
Lemma frames_forM {A} (l : list A) (f : A -> M PgRuntime ()) :
  (forall a, frames (f a)) -> frames (forM l f).
Proof. intros Hf. induction l as [|a l IH]; cbn; [done|]. by apply frames_bind. Qed.
Lemma frames_transaction {A} (m : M PgRuntime A) : frames m -> frames (transaction m).
Proof. intros Hm s. specialize (Hm s). unfold transaction. by destruct (m s) as [[a|x] s1]. Qed.
End invariant.

Ltac frame :=
  cbv beta zeta;
  lazymatch goal with
  | |- frames (insert_into _ _) => apply frames_insert; apply _
  | |- frames (transaction _) => apply frames_transaction; frame
  | |- frames (on_integrity_error _ _) => apply frames_on_error; frame
  | |- frames (forM _ _) => apply frames_forM; intros; frame
  | |- frames now => apply frames_now
  | |- frames uuid4 => apply frames_uuid4
  | |- frames (mbind _ _) => apply frames_bind; [frame | intros; frame]
  | |- frames (match ?x with _ => _ end) => destruct x; frame
  | |- frames (new_event _ _ _ _) => unfold new_event; frame
  | |- frames (new_card _ _ _ _) => unfold new_card; frame
  | |- frames (new_lease _ _ _ _ _) => unfold new_lease; frame
  | |- frames (new_location _ _ _) => unfold new_location; frame
  | |- frames (new_validation_result _ _ _ _ _ _) => unfold new_validation_result; frame
  | |- frames (_insert_event _) => unfold _insert_event; frame
  | |- frames (insert_artifact _) => unfold insert_artifact; frame
  | |- frames (_store_idempotency _ _ _) => unfold _store_idempotency; frame
  | |- frames (ensure_active_lease _) => unfold ensure_active_lease; frame
  | |- frames _ => apply frames_reads; auto with evolving
  end.

Section keeping.
Context `{OracleLaws} `{Networkx} `{Pydantic} `{SqlLaws}.
Context (final : Lease -> Prop).
Implicit Types (s : PgRuntime * Env).

Lemma wpo_frames {A} (m : M PgRuntime A) (Q : A -> PgRuntime * Env -> Prop) s :
  frames m -> evolving m ->
  (forall a s', core s'.1 = core s.1 -> env_le s.2 s'.2 -> Q a s') -> wpo m Q s.
Proof.
  intros Hf He HQ. unfold wpo, wp. intros a Ha. apply HQ; [apply Hf | apply He].
Qed.

Definition keeps {A} (m : M PgRuntime A) : Prop :=
  forall s, PgInv final s -> wpo m (fun _ s' => PgInv final s') s.

Lemma keeps_frames {A} (m : M PgRuntime A) : frames m -> evolving m -> keeps m.
Proof.
  intros Hf He s Hi. apply wpo_frames; [done | done|]. intros a s' Hc Hle. by eapply PgInv_core.
Qed.
Lemma pg_keeps_bind {A B} (m : M PgRuntime A) (f : A -> M PgRuntime B) :
  keeps m -> (forall a, keeps (f a)) -> keeps (m ≫= f).
Proof. intros Hm Hf s Hi. apply wpo_bind. eapply wpo_mono; [by apply Hm|]. intros a s'. apply Hf. Qed.

(** A transaction keeps the invariant when it answers and when it raises. *)
Lemma keeps_run {A} (m : M PgRuntime A) s :
  keeps (transaction m) -> evolving m -> PgInv final s -> PgInv final (transaction m s).2.
Proof.
  intros Hk He Hi. pose proof (evolving_transaction m He s) as Hev. specialize (Hk s Hi).
  unfold wpo, wp in Hk. unfold transaction in *. specialize (He s).
  destruct (m s) as [[a|x] s1]; cbn in *; [by apply (Hk a)|].
  eapply PgInv_core; [| |exact Hi]; [done | apply He].
Qed.

End keeping.

(** ** The methods keep it *)
Section keepers.
Context `{OracleLaws} `{Networkx} `{Pydantic} `{SqlLaws}.
Context (final : Lease -> Prop).
Implicit Types (s : PgRuntime * Env).

(** No lease that [p] selects is released yet. *)
Definition unreleased (p : Lease -> bool) s : Prop :=
  forall x, x ∈ sql_rows (pg_leases s.1) -> p x = true -> ls_released_at x = None.

(** The rest of a method writes elsewhere. *)
Lemma wpo_rest {A} (m : M PgRuntime A) s :
  frames m -> evolving m -> PgInv final s -> wpo m (fun _ s' => PgInv final s') s.
Proof. intros Hf He Hi. by apply keeps_frames. Qed.

Lemma keeps_create c b t n {A} (rest : M PgRuntime A) s :
  PgInv final s -> n < now_ctr s.2 -> t = Aware (clock_at n) -> b = cd_current_bucket c -> frames rest -> evolving rest ->
  wpo (_ ← insert_into cards c; location ← new_location (cd_id c) b t;
       _ ← insert_into card_locations location; rest) (fun _ s' => PgInv final s') s.
Proof.
  intros [Hi Ho Hfin] Hn Ht -> Hf He. apply wpo_bind, wpo_insert. cbn. intros tc Hc Hnew.
  apply wpo_bind. unfold new_location. apply wpo_bind, wpo_uuid4, wpo_ret. cbn [fst snd].
  apply wpo_bind, wpo_insert. cbn. intros tl Hloc _. apply wpo_rest; [done | done|].
  split; cbn; [eapply lease_inv_env; [|exact Hi]; split; cbn; lia | | done].
  eapply location_inv_perm; [by symmetry | by symmetry|].
  apply (location_inv_create _ _ _ _ _ n); try done.
  { eapply location_inv_env; [|exact Ho]. split; cbn; lia. }
  intros (x & Hx' & Hin)%list_elem_of_fmap.
  specialize (Hnew x Hin). apply bool_decide_eq_false in Hnew. congruence.
Qed.

Lemma keeps_update_leases (p : Lease -> bool) g s :
  PgInv final s -> unreleased p s -> lease_inv (map (fun x => if p x then g x else x) (sql_rows (pg_leases s.1))) s.2 ->
  PgInv final ((update_in leases p g s).2).
Proof.
  intros [Hi Ho Hfin] Hp Hl. split; cbn; [eapply lease_inv_perm; [by rewrite sql_update_rows | done] | done|].
  intros l [Hr Hne]%Hfin. split; [|done]. rewrite sql_update_rows. apply list_elem_of_fmap. exists l.
  split; [|done]. destruct (p l) eqn:E; [by rewrite (Hp l Hr E) in Hne | done].
Qed.

Lemma wpo_release (p : Lease -> bool) t Q s :
  PgInv final s -> unreleased p s ->
  (forall s', PgInv final s' ->
     sql_rows (pg_leases s'.1) ≡ₚ
       map (fun x => if p x then lease_with_released t x else x) (sql_rows (pg_leases s.1)) -> Q tt s') ->
  wpo (update_in leases p (lease_with_released t)) Q s.
Proof.
  intros Hi Hp HQ [] _. apply HQ; [|cbn; by rewrite sql_update_rows].
  apply keeps_update_leases; [done | done | apply lease_inv_release, Hi].
Qed.

(** A lease found active can be extended. *)
Lemma keeps_renewal l {A} (rest : datetime -> M PgRuntime A) s secs :
  PgInv final s -> l ∈ sql_rows (pg_leases s.1) -> (forall t, frames (rest t)) -> (forall t, evolving (rest t)) ->
  wpo (_ ← ensure_active_lease l; t ← now; expires_at ← lift_res (dt_add_seconds t secs);
       _ ← update_in leases (fun x => bool_decide (ls_id x = ls_id l)) (lease_with_expiry expires_at);
       rest expires_at) (fun _ s' => PgInv final s') s.
Proof.
  intros Hi Hl Hf He. apply wpo_bind. unfold wpo. apply wp_ensure_active_lease; [by intros ? ? ? ? ? ? ?|].
  intros Hact [] _. apply wpo_bind, wpo_now, wpo_bind, wpo_lift. intros us _. cbn [fst snd now_ctr uuid_ctr].
  apply wpo_bind. intros [] _. apply wpo_rest; [done | done|].
  apply (keeps_update_leases _ _ (s.1, mkEnv (S (S (now_ctr s.2))) (uuid_ctr s.2))).
  - apply (PgInv_core final s); [done | split; cbn; lia | done].
  - intros x. apply (unreleased_row final s); [done | done | apply Hact].
  - destruct Hi as [Hi _ _]. cbn. eapply lease_inv_renew; try done; cbn; [split; cbn; lia | lia].
Qed.

Lemma keeps_move c b actor reason emit : forall s, PgInv final s ->
  cd_id c ∈ map cd_id (sql_rows (pg_cards s.1)) ->
  wpo (_move_card_row c b actor reason emit)
    (fun _ s' => PgInv final s' /\ pg_leases s'.1 = pg_leases s.1) s.
Proof.
  intros s [Hi Ho Hfin] Hc. unfold _move_card_row. apply wpo_bind, wpo_now. cbn [fst snd].
  apply wpo_bind. intros [] _. apply wpo_bind. unfold new_location. apply wpo_bind, wpo_uuid4, wpo_ret. cbn [fst snd].
  apply wpo_bind, wpo_insert. cbn. intros tl Htl _. apply wpo_bind. intros [] _.
  apply wpo_frames; [frame | evolve|]. cbn. intros moved s' Hcore Hle. split; [|by injection Hcore].
  eapply (PgInv_core final (_, _)); [exact Hcore | exact Hle|]. split; cbn; [| |done].
  - eapply lease_inv_env; [|exact Hi]. split; cbn; lia.
  - eapply location_inv_perm; [by rewrite sql_update_rows | rewrite Htl, sql_update_rows; reflexivity|].
    apply (location_inv_move _ _ _ _ _ s.2); try done; [split; cbn; lia | cbn; lia].
Qed.

(** A card without an active lease can get one. *)
Lemma keeps_claim c node worker pipe secs bucket t {A} (rest : Lease -> M PgRuntime A) s s0 held :
  PgInv final s -> s.1 = s0.1 -> s.2 = mkEnv (S (now_ctr s0.2)) (uuid_ctr s0.2) ->
  t = Aware (clock_at (now_ctr s0.2)) ->
  held = sql_select (lease_row_active t) (pg_leases s.1) ->
  c ∈ sql_select (fun c => bool_decide (cd_current_bucket c = bucket) &&
        negb (bool_decide (cd_id c ∈ map ls_card_id held))) (pg_cards s.1) ->
  (forall l, frames (rest l)) -> (forall l, evolving (rest l)) ->
  wpo (lease ← new_lease c node worker pipe secs; _ ← insert_into leases lease; rest lease)
    (fun _ s' => PgInv final s') s.
Proof.
  intros [Hi Ho Hfin] Hs0 He0 -> -> [_ Hc]%elem_of_select Hf He.
  apply andb_true_iff in Hc as [_ Hc]. rewrite negb_true_iff, bool_decide_eq_false in Hc.
  assert (Hfree : forall x t', x ∈ sql_rows (pg_leases s.1) -> ls_card_id x = cd_id c ->
    (clock_at (now_ctr s0.2) <= t')%Z -> ~ lease_active_at x t').
  { intros x t' Hx Hxc Ht Ha. apply Hc, list_elem_of_fmap. exists x. split; [done|].
    apply elem_of_select. split; [done|]. apply lease_row_active_at. by eapply lease_active_mono. }
  apply wpo_bind. unfold new_lease.
  apply wpo_bind, wpo_now, wpo_bind, wpo_lift. intros us _. cbn [fst snd].
  apply wpo_bind, wpo_uuid4, wpo_bind, wpo_now, wpo_ret. cbn [fst snd].
  apply wpo_bind, wpo_insert. cbn. intros tl Htl Hnew. apply wpo_rest; [done | done|].
  split; cbn; [|eapply location_inv_env; [|exact Ho]; split; cbn; lia|].
  2: { intros l [Hr Hne]%Hfin. split; [|done]. rewrite Htl. by right. }
  eapply lease_inv_perm; [by symmetry|].
  apply (lease_inv_insert _ s.2); [done | split; cbn; lia | |].
  - intros x Hx. specialize (Hnew x Hx). apply bool_decide_eq_false in Hnew. cbn in *. congruence.
  - intros x t' Hx Hxc Ht. apply Hfree; [done | done|]. apply Ht. rewrite He0. cbn. lia.
Qed.

Lemma keeps_with_reference {A} key lookup (body : M PgRuntime A) :
  (forall r, reads (lookup r)) -> keeps final body -> keeps final (with_reference key lookup body).
Proof.
  intros Hl Hb s Hi. apply wpo_transaction, wpo_bind, wpo_reads; [auto with evolving|].
  intros cached _. destruct (truthy cached); [by apply wpo_reads | by apply Hb].
Qed.
End keepers.

Section operations.
Context `{OracleLaws} `{Networkx} `{Pydantic} `{SqlLaws}.
Context (final : Lease -> Prop).
Implicit Types (s : PgRuntime * Env).

Lemma keeps_pg_create pid payload metadata key : keeps final (pg_create_card pid payload metadata key).
Proof.
  apply keeps_with_reference; [auto with evolving|].
  apply pg_keeps_bind; [apply keeps_frames; [frame | evolve]|]. intros pp.
  apply pg_keeps_bind; [apply keeps_frames; [frame | evolve]|]. intros bucket s Hi.
  apply wpo_bind. unfold new_card. apply wpo_bind, wpo_uuid4, wpo_bind, wpo_now, wpo_ret.
  cbn [fst snd]. apply (keeps_create final _ _ _ (now_ctr s.2)); [|cbn; lia | done | done | frame | evolve].
  apply (PgInv_core final s); [done | split; cbn; lia | exact Hi].
Qed.

Lemma keeps_pg_claim pipe worker secs key : keeps final (pg_claim_card pipe worker secs key).
Proof.
  apply keeps_with_reference; [intros; unfold lease_reference; auto with evolving|].
  apply pg_keeps_bind; [apply keeps_frames; [frame | evolve]|]. intros pp.
  apply pg_keeps_bind; [apply keeps_frames; [frame | evolve]|]. intros [bucket node] s Hi.
  apply wpo_bind, wpo_now. cbn [fst snd]. apply wpo_bind, wpo_reads; [apply reads_claimable_rows|].
  intros rows [= Hrows]. apply wpo_bind, wpo_missing. intros c l ->.
  eapply (keeps_claim final c _ _ _ _ bucket _ _ _ s); try reflexivity; [| |intros; frame | intros; evolve].
  - apply (PgInv_core final s); [done | split; cbn; lia | exact Hi].
  - cbn [fst snd pl_get leases cards] in *. rewrite Hrows. by left.
Qed.

Lemma keeps_pg_submit lid pipe refs key : keeps final (pg_submit_artifact lid pipe refs key).
Proof.
  apply keeps_with_reference; [auto with evolving|].
  intros s Hi. apply wpo_bind, wpo_get_lease. intros lease Hl _.
  apply wpo_bind. unfold wpo at 1. apply wp_ensure_active_lease; [by intros ? ? ? ? ? ? ?|].
  intros [Hnone _] [] _. pose proof (unreleased_row final s lease Hi Hl Hnone) as Hun.
  set (s1 := (s.1, mkEnv (S (now_ctr s.2)) (uuid_ctr s.2))).
  assert (Hi1 : PgInv final s1) by (apply (PgInv_core final s); [done | split; cbn; lia | done]).
  apply wpo_bind, wpo_get_card. intros c Hc _.
  apply wpo_bind, wpo_reads; [auto with evolving|]. intros pp _.
  apply wpo_bind, wpo_lift. intros [bucket node] _.
  do 2 (apply wpo_bind, wpo_lift; intros [] _). case_bool_decide; cbn [negb]; [|by apply wpo_raise].
  apply wpo_bind. eapply wpo_mono; [apply (keeps_move final); [done | apply list_elem_of_fmap; by exists c]|].
  intros moved s2 [Hi2 Hsame]. apply wpo_bind, wpo_now. apply wpo_bind, (wpo_release final).
  - apply (PgInv_core final s2); [done | split; cbn; lia | exact Hi2].
  - unfold unreleased. cbn. by rewrite Hsame.
  - intros s3 Hi3 _. apply wpo_rest; [frame | evolve | done].
Qed.

Lemma keeps_pg_renew lid secs key : keeps final (pg_renew_lease lid secs key).
Proof.
  apply keeps_with_reference; [intros; unfold lease_reference; auto with evolving|]. intros s Hi.
  apply wpo_bind, wpo_get_lease. intros l Hl _.
  apply (keeps_renewal final l (fun expires_at => _)); [done | done | intros; frame | intros; evolve].
Qed.

Lemma keeps_pg_release lid actor key : keeps final (pg_release_lease lid actor key).
Proof.
  apply keeps_with_reference; [intros; unfold lease_reference; auto with evolving|]. intros s Hi.
  apply wpo_bind, wpo_get_lease. intros l Hl _. destruct (ls_released_at l) eqn:Hn; [by apply wpo_ret|].
  apply wpo_bind, wpo_now, wpo_bind, (wpo_release final).
  - apply (PgInv_core final s); [done | split; cbn; lia | exact Hi].
  - intros x. by apply (unreleased_row final s).
  - intros s2 Hi2 _. apply wpo_rest; [frame | evolve | done].
Qed.

(** The overdue leases are released one after the other: the others wait
    unreleased. *)
Lemma keeps_expire_each t rows s : PgInv final s -> NoDup (map ls_id rows) ->
  (forall l, l ∈ rows -> l ∈ sql_rows (pg_leases s.1) /\ ls_released_at l = None) ->
  wpo (forM rows (pg_expire_lease t)) (fun _ s' => PgInv final s') s.
Proof.
  revert s. induction rows as [|l rows IH]; intros s Hi Hnd Hrows; cbn [forM]; [by apply wpo_ret|].
  destruct (Hrows l) as [Hl Hn]; [by left|]. cbn in Hnd. apply NoDup_cons in Hnd as [Hout Hnd].
  apply wpo_bind, wpo_bind, (wpo_release final); [done | by intros x; apply (unreleased_row final s)|].
  intros s1 Hi1 Hp. apply wpo_frames; [frame | evolve|]. intros [] s2 Hc Hle.
  apply IH; [by eapply PgInv_core | done|]. intros x Hx.
  destruct (Hrows x) as [Hxs Hxn]; [by right|]. split; [|done]. injection Hc as _ _ ->.
  rewrite Hp. apply list_elem_of_fmap. exists x. split; [|done].
  rewrite bool_decide_eq_false_2; [done|]. intros Hid. apply Hout. rewrite <- Hid.
  apply list_elem_of_fmap. by exists x.
Qed.

Lemma keeps_pg_expire t : keeps final (rows ← select_from leases (lease_row_overdue t);
    _ ← forM rows (pg_expire_lease t); mret (map (lease_with_released t) rows)).
Proof.
  intros s Hi. apply wpo_bind, wpo_select, wpo_bind.
  eapply wpo_mono; [apply keeps_expire_each; [exact Hi | |]|].
  3: { intros [] s1 Hi1. by apply wpo_ret. }
  { cbn. rewrite sql_select_perm. apply filter_NoDup_map, Hi. }
  intros l [Hl Ho]%elem_of_select. split; [done|]. unfold lease_row_overdue in Ho.
  by destruct (ls_released_at l).
Qed.

Lemma keeps_pg_validate cid vid accepted reason pipe payload key :
  keeps final (pg_validate_card cid vid accepted reason pipe payload key).
Proof.
  apply keeps_with_reference; [intros; unfold event_reference; auto with evolving|]. intros s Hi.
  apply wpo_bind, wpo_get_card. intros c Hc _. apply wpo_bind, wpo_frames; [frame | unfold new_validation_result; evolve|].
  intros result s1 Hc1 Hle1. apply wpo_bind, wpo_frames; [frame | evolve|]. intros [] s2 Hc2 Hle2.
  assert (Hi2 : PgInv final s2).
  { eapply PgInv_core; [by rewrite Hc2 | by eapply env_le_trans | done]. }
  cbv zeta. apply wpo_bind. destruct (truthy pipe).
  - apply wpo_bind, wpo_reads; [auto with evolving|]. intros pp _.
    apply wpo_bind, wpo_lift. intros destination _. apply wpo_bind.
    eapply wpo_mono; [apply (keeps_move final); [done|]|].
    { apply list_elem_of_fmap. exists c. split; [done|].
      assert (pg_cards s2.1 = pg_cards s.1) as -> by (rewrite Hc1 in Hc2; by injection Hc2). done. }
    intros moved s3 [Hi3 _]. apply wpo_ret. apply wpo_rest; [frame | evolve | done].
  - apply wpo_ret. apply wpo_rest; [frame | evolve | done].
Qed.

Lemma keeps_pg_move cid to_bucket actor reason key : keeps final (pg_move_card cid to_bucket actor reason key).
Proof.
  apply keeps_with_reference; [auto with evolving|]. intros s Hi.
  apply wpo_bind, wpo_get_card. intros c Hc _.
  apply wpo_bind, wpo_reads; [auto with evolving|]. intros pp _.
  apply wpo_bind, wpo_lift. intros [] _. apply wpo_bind.
  eapply wpo_mono; [apply (keeps_move final); [done | apply list_elem_of_fmap; by exists c]|].
  intros moved s1 [Hi1 _]. apply wpo_rest; [frame | evolve | done].
Qed.

(** A method that raises has changed nothing but the clock. *)
Definition atomic {A} (m : M PgRuntime A) : Prop :=
  forall s x, (m s).1 = Raise x -> (m s).2.1 = s.1.

Lemma atomic_transaction {A} (m : M PgRuntime A) : atomic (transaction m).
Proof. intros s x. unfold transaction. by destruct (m s) as [[a|y] s']. Qed.
Lemma atomic_after {A B} (m : M PgRuntime A) (f : A -> M PgRuntime B) :
  (forall s, (m s).2.1 = s.1) -> (forall a, atomic (f a)) -> atomic (m ≫= f).
Proof.
  intros Hm Hf s x. unfold mbind, M_bind. specialize (Hm s).
  destruct (m s) as [[a|y] s1]; cbn in *; [|done]. rewrite <- Hm. apply Hf.
Qed.
Lemma atomic_mapM {A B} (f : A -> B) (m : M PgRuntime A) : atomic m -> atomic (mapM f m).
Proof.
  intros Hm s x. unfold mapM, mbind, M_bind. specialize (Hm s).
  destruct (m s) as [[a|y] s1]; cbn in *; [done|]. intros _. by apply (Hm y).
Qed.

Lemma atomic_run_op o : atomic (pg_run_op o).
Proof.
  destruct o; cbn [pg_run_op]; apply atomic_mapM; try apply atomic_transaction;
    repeat (apply atomic_after; [done | intros]); apply atomic_transaction.
Qed.

Lemma mapM_state {A B} (f : A -> B) (m : M PgRuntime A) s : (mapM f m s).2 = (m s).2.
Proof. unfold mapM, mbind, M_bind. by destruct (m s) as [[a|x] s']. Qed.

Lemma pg_run_op_inv o s : PgInv final s -> PgInv final (pg_run_op o s).2.
Proof.
  intros Hi. destruct (pg_run_op o s).1 as [a|x] eqn:Er.
  - enough (Hk : keeps final (pg_run_op o)) by exact (Hk s Hi a Er).
    destruct o; cbn [pg_run_op]; (apply pg_keeps_bind; [|intros; apply keeps_frames; [frame | evolve]]).
    + unfold pg_register_patch_panel. apply keeps_frames; [frame | evolve].
    + apply keeps_pg_create.
    + apply keeps_pg_claim.
    + apply keeps_pg_submit.
    + apply keeps_pg_renew.
    + apply keeps_pg_release.
    + unfold pg_expire_leases. apply pg_keeps_bind; [apply keeps_frames; [frame | evolve]|].
      intros t s1 Hi1. by apply wpo_transaction, keeps_pg_expire.
    + apply keeps_pg_validate.
    + apply keeps_pg_move.
    + apply keeps_with_reference; [intros; unfold event_reference; auto with evolving|].
      apply keeps_frames; [frame | evolve].
  - eapply PgInv_core; [by rewrite (atomic_run_op o s x Er) | apply evolving_run_op | done].
Qed.
End operations.
