(* ===== verification/PostgresReplay.v ===== *)
(** * Idempotent replay on PostgreSQL

    An idempotency record holds a textual reference to what the call
    answered. References parse back to what they were printed from, records
    and the rows they refer to stay, so a repeated call finds the object. *)
From Stdlib Require Import ZArith Ascii String.
From stdpp Require Import sorting.
From S2P Require Import Prelude Values UuidText UuidTheorems Authority Models Graph PanelValidator Artifacts.
From S2P Require Import RuntimeService MemoryRuntime MemorySpec MemoryReplay Pydantic Sql.
From S2P Require Import PostgresRuntime PostgresSpec.
Open Scope string_scope.
Open Scope list_scope.

(** ** References *)
Lemma reference_app p u : is_uuid u -> reference p (p +:+ uuid_str u) = Ok u.
Proof. intros Hu. unfold reference. rewrite removeprefix_app. by apply UUID_of_uuid_str. Qed.

Lemma split_all_concat us : us <> [] ->
  split_all "," (str_concat "," (map uuid_str us)) = map uuid_str us.
Proof.
  intros Hne. induction us as [|u us IH]; [done|]. destruct us as [|v us].
  - by apply split_all_none, uuid_str_not.
  - change (str_concat "," (map uuid_str (u :: v :: us)))
      with (uuid_str u +:+ String "," (str_concat "," (map uuid_str (v :: us)))).
    rewrite split_all_app by by apply uuid_str_not. by rewrite IH.
Qed.

Lemma UUID_of_text_all us : Forall is_uuid us ->
  map_res UUID_of_text (py_filter (fun s => negb (bool_decide (s = ""))) (map uuid_str us)) = Ok us.
Proof.
  induction 1 as [|u us Hu _ IH]; [done|]. cbn. rewrite bool_decide_eq_false_2 by apply uuid_str_nonempty.
  cbn. unfold mbind, res_bind. rewrite UUID_of_uuid_str by done. unfold py_filter in IH. by rewrite IH.
Qed.

(** The identifiers of a submission come back in order. *)
Lemma artifact_references_app us : us <> [] -> Forall is_uuid us ->
  artifact_references ("artifacts:" +:+ str_concat "," (map uuid_str us)) = Ok us.
Proof.
  intros Hne Hus. unfold artifact_references.
  change (startswith ("artifacts:" +:+ str_concat "," (map uuid_str us)) "artifact:")
    with false. cbn iota.
  by rewrite removeprefix_app, split_all_concat, UUID_of_text_all.
Qed.

(** ** The objects an answer is about *)
Definition answer_ids (a : answer) : list UUID :=
  match a with
  | A_panel _ => []
  | A_card c => [cd_id c]
  | A_lease l => [ls_id l]
  | A_leases ls => map ls_id ls
  | A_artifacts refs => map ar_id refs
  | A_event ev => [ev_id ev]
  end.

(** The answer is made of rows of the tables. *)
Definition current `{Pydantic} `{Sql} (st : PgRuntime) (a : answer) : Prop :=
  match a with
  | A_panel pp => exists r, r ∈ sql_rows (pg_patch_panels st) /\ patch_panel_model_validate (pr_definition r) = Ok pp
  | A_card c => c ∈ sql_rows (pg_cards st)
  | A_lease l => l ∈ sql_rows (pg_leases st)
  | A_leases ls => Forall (fun l => l ∈ sql_rows (pg_leases st)) ls
  | A_artifacts refs => Forall (fun r => r ∈ sql_rows (pg_artifacts st)) refs
  | A_event ev => ev ∈ sql_rows (pg_card_events st)
  end.

(** The identifiers a caller passes. *)
Definition op_uuids (o : op) : Prop :=
  match o with
  | SubmitArtifact lid _ refs _ => is_uuid lid /\ Forall (fun r => is_uuid (ar_id r)) refs
  | RenewLease i _ _ | ReleaseLease i _ _ | ValidateCard i _ _ _ _ _ _ | MoveCard i _ _ _ _
  | RecordEvent i _ _ _ _ => is_uuid i
  | Register _ | CreateCard _ _ _ _ | ClaimCard _ _ _ _ | ExpireLeases => True
  end.

Section replay.
Context `{Oracle} `{Networkx} `{Pydantic} `{SqlLaws}.
Context (uuids : forall n, is_uuid (uuid_at n)).
Implicit Types (s : PgRuntime * Env).

Definition card_reference (cached : string) : M PgRuntime Card :=
  i ← lift_res (reference "card:" cached); _pg_get_card i.
Definition artifacts_reference (cached : string) : M PgRuntime (list ArtifactReference) :=
  ids ← lift_res (artifact_references cached); _pg_get_artifacts ids.

(** Releasing a released lease answers it again without storing the key. *)
Definition pg_releases_again (o : op) (st : PgRuntime) : Prop :=
  exists lid actor key l, o = ReleaseLease lid actor key /\
    l ∈ sql_rows (pg_leases st) /\ ls_id l = lid /\ ls_released_at l <> None.

(** ** Rows stay *)
Definition persists (P : PgRuntime * Env -> Prop) : Prop := forall s s', evolves s s' -> P s -> P s'.

Definition has_card i s : Prop := exists c, c ∈ sql_rows (pg_cards s.1) /\ cd_id c = i.
Definition has_lease i s : Prop := exists l, l ∈ sql_rows (pg_leases s.1) /\ ls_id l = i.
Definition has_event i s : Prop := exists ev, ev ∈ sql_rows (pg_card_events s.1) /\ ev_id ev = i.
Definition has_artifact i s : Prop := exists r, r ∈ sql_rows (pg_artifacts s.1) /\ ar_id r = i.
Definition has_artifacts ids s : Prop := Forall (fun i => has_artifact i s) ids.

Lemma persists_card i : persists (has_card i).
Proof. intros s s' He (c & Hc & <-). destruct (evo_cards _ _ He c Hc) as (c' & Hc' & E).
  exists c'. split; [done | by apply card_core_id].
Qed.
Lemma persists_lease i : persists (has_lease i).
Proof. intros s s' He (l & Hl & <-). destruct (evo_leases _ _ He l Hl) as (l' & Hl' & E).
  exists l'. split; [done | by apply lease_core_id].
Qed.
Lemma persists_event i : persists (has_event i).
Proof. intros s s' He (ev & Hev & <-). exists ev. split; [by apply (evo_events _ _ He) | done]. Qed.
Lemma persists_artifacts ids : persists (has_artifacts ids).
Proof.
  intros s s' He Hf. eapply Forall_impl; [exact Hf|]. intros i (r & Hr & <-). exists r.
  split; [by apply (evo_artifacts _ _ He) | done].
Qed.

(** ** Lookups answer the rows with the identifier *)
Lemma lookup_sound {Row} (p : place Row) q msg s r :
  ((rows ← select_from p q; pg_missing msg rows) s).1 = Ok r ->
  r ∈ sql_rows (pl_get _ p s.1) /\ q r = true.
Proof.
  change ((pg_missing msg (sql_select q (pl_get _ p s.1)) s).1 = Ok r -> r ∈ sql_rows (pl_get _ p s.1) /\ q r = true).
  destruct (sql_select q (pl_get _ p s.1)) as [|r' l] eqn:E; [done|].
  intros [= ->]. apply (elem_of_select q (pl_get _ p s.1) r). rewrite E. by left.
Qed.

Lemma lookup_complete {Row} (p : place Row) q msg s r :
  r ∈ sql_rows (pl_get _ p s.1) -> q r = true ->
  exists r', ((rows ← select_from p q; pg_missing msg rows) s).1 = Ok r'.
Proof.
  intros Hr Hq. assert (Hin : r ∈ sql_select q (pl_get _ p s.1)) by by apply elem_of_select.
  change (exists r', (pg_missing msg (sql_select q (pl_get _ p s.1)) s).1 = Ok r').
  destruct (sql_select q (pl_get _ p s.1)) as [|r' l]; [|by eexists].
  by apply elem_of_nil in Hin.
Qed.

Lemma find_by_id {Row} (p : place Row) (key : Row -> UUID) msg i s :
  (exists r, r ∈ sql_rows (pl_get _ p s.1) /\ key r = i) <->
  exists r, ((rows ← select_from p (fun r => bool_decide (key r = i)); pg_missing msg rows) s).1 = Ok r /\
    key r = i.
Proof.
  split.
  - intros (r & Hr & Hi). destruct (lookup_complete p (fun r => bool_decide (key r = i)) msg s r) as [r' Hr'];
      [done | by apply bool_decide_eq_true|]. exists r'. split; [done|].
    by apply lookup_sound in Hr' as [_ ?%bool_decide_eq_true].
  - intros (r & [Hr _]%lookup_sound & Hi). by exists r.
Qed.

Definition artifacts_by_id (ids : list UUID) (st : PgRuntime) : list (UUID * ArtifactReference) :=
  dict_of_list (map (fun a => (ar_id a, a)) (sql_select (fun a => bool_decide (ar_id a ∈ ids)) (pg_artifacts st))).

Lemma get_artifacts_run ids s : ids <> [] -> (_pg_get_artifacts ids s).1 =
  match py_next (fun i => negb (dict_mem i (artifacts_by_id ids s.1))) ids with
  | Some i => Raise (NotFoundError ("artifact '" +:+ uuid_str i +:+ "' does not exist"))
  | None => Ok (omap (fun i => dict_get i (artifacts_by_id ids s.1)) ids)
  end.
Proof.
  intros Hne. destruct ids as [|i0 ids0]; [done|].
  unfold _pg_get_artifacts, select_from, get, mbind, M_bind. cbn -[py_next dict_of_list omap].
  fold (artifacts_by_id (i0 :: ids0) s.1). by destruct (py_next _ _).
Qed.

Lemma get_artifacts_sound ids s rs : (_pg_get_artifacts ids s).1 = Ok rs ->
  map ar_id rs = ids /\ has_artifacts ids s /\ Forall (fun r => r ∈ sql_rows (pg_artifacts s.1)) rs.
Proof.
  destruct (decide (ids = [])) as [->|Hne]; [intros [= <-]; split; [done | split; constructor]|].
  rewrite get_artifacts_run by done. set (d := artifacts_by_id ids s.1).
  assert (Hd : forall i r, dict_get i d = Some r -> ar_id r = i /\ r ∈ sql_rows (pg_artifacts s.1)).
  { intros i r Hr%dict_of_list_elem. apply list_elem_of_fmap in Hr as (x & [= -> ->] & Hx).
    split; [done|]. by apply elem_of_select in Hx as [? _]. }
  destruct (py_next _ ids) eqn:En; [done|]. intros [= <-].
  assert (Hall : forall i, i ∈ ids -> exists r, dict_get i d = Some r).
  { intros i Hi. pose proof (proj1 (py_next_none _ _) En i Hi) as Hm.
    by apply negb_false_iff, dict_mem_true, dict_key_get in Hm. }
  clearbody d. clear En Hne. split.
  - induction ids as [|i ids IH]; [done|]. cbn. destruct (Hall i) as [r Hr]; [by left|]. rewrite Hr. cbn.
    destruct (Hd _ _ Hr) as [-> _]. f_equal. apply IH. intros j Hj. apply Hall. by right.
  - split; apply Forall_forall.
    + intros i Hi. destruct (Hall i Hi) as [r [? ?]%Hd]. by exists r.
    + intros r (i & _ & Hr)%list_elem_of_omap. by apply (Hd i r).
Qed.

Lemma get_artifacts_complete ids s : has_artifacts ids s ->
  exists rs, (_pg_get_artifacts ids s).1 = Ok rs.
Proof.
  intros Hids. destruct (decide (ids = [])) as [->|Hne]; [by eexists|].
  rewrite get_artifacts_run by done. set (d := artifacts_by_id ids s.1).
  enough (py_next (fun i => negb (dict_mem i d)) ids = None) as Hn by (rewrite Hn; by eexists).
  apply py_next_none. intros i Hi. rewrite negb_false_iff, dict_mem_true.
  destruct (proj1 (Forall_forall _ _) Hids i Hi) as (r & Hr & Hri).
  apply dict_of_list_keys, list_elem_of_fmap. exists (i, r). split; [done|]. apply list_elem_of_fmap.
  exists r. split; [by rewrite Hri|]. apply elem_of_select. split; [done|].
  apply bool_decide_eq_true. by rewrite Hri.
Qed.

(** ** Looking up a reference

    A lookup that answers keeps answering the same object. *)
Definition stays {A} (lookup : string -> M PgRuntime A) (ids : A -> list UUID) : Prop :=
  forall cached s s' a, evolves s s' -> (lookup cached s).1 = Ok a ->
  exists a', (lookup cached s').1 = Ok a' /\ ids a' = ids a.

Lemma reference_ok {A} prefix cached (f : UUID -> M PgRuntime A) s a :
  ((i ← lift_res (reference prefix cached); f i) s).1 = Ok a <->
  exists i, reference prefix cached = Ok i /\ (f i s).1 = Ok a.
Proof.
  unfold mbind at 1, M_bind at 1, lift_res. destruct (reference prefix cached); naive_solver.
Qed.

Lemma stays_row {Row} (p : place Row) (key : Row -> UUID) (ids : Row -> list UUID) prefix
    (msg : UUID -> string) :
  (forall r, ids r = [key r]) ->
  (forall i, persists (fun s => exists r, r ∈ sql_rows (pl_get _ p s.1) /\ key r = i)) ->
  stays (fun cached => i ← lift_res (reference prefix cached);
           rows ← select_from p (fun r => bool_decide (key r = i)); pg_missing (msg i) rows) ids.
Proof.
  intros Hids Hp cached s s' a He (i & Hi & Ha)%reference_ok.
  pose proof (lookup_sound _ _ _ _ _ Ha) as [Hr Hk%bool_decide_eq_true].
  destruct (proj1 (find_by_id p key (msg i) i s')) as (r & Hr' & Hri).
  { apply (Hp i s s' He). by exists a. }
  exists r. rewrite !Hids, Hri, Hk. split; [|done]. apply reference_ok. by exists i.
Qed.

Lemma stays_card : stays card_reference (fun c => [cd_id c]).
Proof. apply (stays_row cards cd_id); [done | apply persists_card]. Qed.
Lemma stays_lease : stays lease_reference (fun l => [ls_id l]).
Proof. apply (stays_row leases ls_id); [done | apply persists_lease]. Qed.
Lemma stays_event : stays event_reference (fun ev => [ev_id ev]).
Proof. apply (stays_row card_events ev_id); [done | apply persists_event]. Qed.
Lemma stays_artifacts : stays artifacts_reference (map ar_id).
Proof.
  intros cached s s' a He. unfold artifacts_reference, mbind, M_bind, lift_res.
  destruct (artifact_references cached) as [ids|x]; [|done].
  intros (Hids & Hhas & _)%get_artifacts_sound.
  destruct (get_artifacts_complete ids s') as [rs Hrs]; [by eapply persists_artifacts|].
  exists rs. split; [done|]. apply get_artifacts_sound in Hrs as [-> _]. done.
Qed.

(** ** What a call leaves under its key *)
Definition stored_ref {A} (key : option string) (lookup : string -> M PgRuntime A)
    (ids : A -> list UUID) (a : A) s : Prop :=
  exists r, r ∈ sql_rows (pg_idempotency_records s.1) /\ key = Some (ir_key r) /\
    ir_response_ref r <> "" /\ exists a', (lookup (ir_response_ref r) s).1 = Ok a' /\ ids a' = ids a.

Lemma stored_ref_evolves {A} key lookup ids (a : A) s s' :
  stays lookup ids -> evolves s s' -> stored_ref key lookup ids a s -> stored_ref key lookup ids a s'.
Proof.
  intros Hst He (r & Hr & Hk & Hne & a' & Ha & Hi).
  destruct (Hst _ _ _ _ He Ha) as (a2 & Ha2 & Hi2).
  exists r. split; [by apply (evo_records _ _ He)|]. do 2 (split; [done|]).
  exists a2. by rewrite Hi2.
Qed.

Lemma get_idempotency_found k r s : keys_once s.1 -> r ∈ sql_rows (pg_idempotency_records s.1) ->
  ir_key r = k -> k <> "" -> _get_idempotency (Some k) s = (Ok (Some (ir_response_ref r)), s).
Proof.
  intros Hnd Hr Hk Hne. unfold _get_idempotency. cbn. rewrite bool_decide_eq_false_2 by done.
  change ((Ok (match sql_select (fun r => bool_decide (ir_key r = k)) (pg_idempotency_records s.1) with
               | r :: _ => Some (ir_response_ref r) | [] => None end), s)
          = (Ok (Some (ir_response_ref r)), s)).
  destruct (sql_select _ (pg_idempotency_records s.1)) as [|x l] eqn:E.
  - pose proof (proj1 (select_none _ _) E r Hr) as Hf. by apply bool_decide_eq_false in Hf.
  - assert (Hx : x ∈ sql_select (fun r => bool_decide (ir_key r = k)) (pg_idempotency_records s.1)).
    { rewrite E. by left. }
    apply elem_of_select in Hx as [Hx Hxk%bool_decide_eq_true].
    assert (x = r) as -> by (by eapply (NoDup_map_inj ir_key); [exact Hnd | | | congruence]). done.
Qed.

Lemma get_idempotency_some key s c : (_get_idempotency key s).1 = Ok (Some c) ->
  exists r, r ∈ sql_rows (pg_idempotency_records s.1) /\ key = Some (ir_key r) /\ ir_response_ref r = c.
Proof.
  destruct key as [k|]; [|done]. unfold _get_idempotency. cbn. case_bool_decide; [done|]. cbn.
  change (Ok (match sql_select (fun r => bool_decide (ir_key r = k)) (pg_idempotency_records s.1) with
               | r :: _ => Some (ir_response_ref r) | [] => None end) = Ok (Some c) ->
          exists r, r ∈ sql_rows (pg_idempotency_records s.1) /\ Some k = Some (ir_key r) /\ ir_response_ref r = c).
  destruct (sql_select _ (pg_idempotency_records s.1)) as [|x l] eqn:E; [done|]. intros [= Hc].
  assert (Hx : x ∈ sql_select (fun r => bool_decide (ir_key r = k)) (pg_idempotency_records s.1)).
  { rewrite E. by left. }
  apply elem_of_select in Hx as [Hx Hxk%bool_decide_eq_true]. exists x. by rewrite Hxk.
Qed.

(** A call that finds its key answers what the record refers to. *)
Lemma with_reference_found {A} key (lookup : string -> M PgRuntime A) body ids a s :
  keys_once s.1 -> truthy key = true -> (forall c, reads (lookup c)) -> stored_ref key lookup ids a s ->
  exists a', with_reference key lookup body s = (Ok a', s) /\ ids a' = ids a /\
    exists cached, (lookup cached s).1 = Ok a'.
Proof.
  intros Hnd Hk Hl (r & Hr & -> & Hne & a' & Ha & Hi). exists a'. split; [|split; [done | by eexists]].
  unfold with_reference, transaction, mbind, M_bind.
  rewrite (get_idempotency_found (ir_key r) r); [|done | done | done|].
  - cbn [truthy str_or]. rewrite (bool_decide_eq_false_2 (ir_response_ref r = "")) by done. cbn.
    pose proof (Hl (ir_response_ref r) s) as Hs. destruct (lookup (ir_response_ref r) s) as [v s2]. cbn in *. by subst.
  - intros He. cbn in Hk. rewrite He in Hk. done.
Qed.

Lemma wpo_with_reference {A} key (lookup : string -> M PgRuntime A) body ids s :
  (forall c, reads (lookup c)) ->
  wpo body (fun a s' => stored_ref key lookup ids a s') s ->
  wpo (with_reference key lookup body) (fun a s' => stored_ref key lookup ids a s') s.
Proof.
  intros Hl Hb. apply wpo_transaction, wpo_bind, wpo_reads; [auto with evolving|].
  intros [c|] Hc; [|done]. cbn [truthy str_or]. case_bool_decide as Hne; cbn [negb]; [done|].
  apply wpo_reads; [done|]. intros a Ha. apply get_idempotency_some in Hc as (r & Hr & -> & <-).
  exists r. do 3 (split; [done|]). by exists a.
Qed.

(** Walking to the end of a body, where the reference is stored. *)
Lemma wpo_skip {A B} (P : PgRuntime * Env -> Prop) (m : M PgRuntime A) (f : A -> M PgRuntime B) Q s :
  persists P -> P s -> evolving m -> (forall a s', P s' -> wpo (f a) Q s') -> wpo (m ≫= f) Q s.
Proof.
  intros Hp Hs He Hf. apply wpo_bind. intros a Ha. apply Hf. by apply (Hp s), Hs; apply He.
Qed.

Lemma wpo_store {A} (P : PgRuntime * Env -> Prop) key operation ref lookup (ids : A -> list UUID) a s :
  truthy key = true -> ref <> "" -> persists P -> P s ->
  (forall s', P s' -> exists a', (lookup ref s').1 = Ok a' /\ ids a' = ids a) ->
  wpo (_ ← _store_idempotency key operation ref; mret a) (fun a s' => stored_ref key lookup ids a s') s.
Proof.
  intros Hk Hne Hp Hs Hl. destruct key as [k|]; [|done]. apply wpo_bind. unfold _store_idempotency. rewrite Hk.
  apply wpo_bind, wpo_now. cbn [fst snd].
  assert (He : evolves s (s.1, mkEnv (S (now_ctr s.2)) (uuid_ctr s.2))).
  { destruct s as [st e]. apply evolves_env. split; cbn; lia. }
  pose proof (Hp _ _ He Hs) as Hs1. set (s1 := (s.1, _)) in *. set (row := mkIdempotencyRow k operation ref _).
  pose proof (evolving_insert idempotency_records row s1) as Hi. unfold wpo, wp, on_integrity_error.
  assert (Hins : wpo (insert_into idempotency_records row)
    (fun _ s' => row ∈ sql_rows (pg_idempotency_records s'.1)) s1).
  { apply wpo_insert. cbn. intros t Ht _. rewrite Ht. by left. }
  unfold wpo, wp in Hins. destruct (insert_into idempotency_records row s1) as [[[]|x] s2].
  - intros [] _. apply wpo_ret. exists row. split; [by apply (Hins tt)|]. split; [done|]. split; [done|].
    apply Hl, (Hp _ _ Hi), Hs1.
  - by destruct x.
Qed.

Lemma wpo_insert_row {Row} (p : place Row) `{!Growing p} r Q s :
  (forall s', r ∈ sql_rows (pl_get _ p s'.1) -> evolves s s' -> Q tt s') ->
  (forall t st, pl_get _ p (pl_set _ p t st) = t) ->
  wpo (insert_into p r) Q s.
Proof.
  intros HQ Hgs [] Hr. apply HQ; [|by apply evolving_insert].
  revert Hr. enough (wpo (insert_into p r) (fun _ s' => r ∈ sql_rows (pl_get _ p s'.1)) s) as Hw by exact (Hw tt).
  apply wpo_insert. cbn [fst]. intros t Ht _. rewrite Hgs, Ht. by left.
Qed.

Lemma wpo_insert_artifacts refs Q s :
  (forall s', has_artifacts (map ar_id refs) s' -> evolves s s' -> Q tt s') ->
  wpo (forM refs insert_artifact) Q s.
Proof.
  revert s Q. induction refs as [|r refs IH]; intros s Q HQ; cbn [forM].
  - apply wpo_ret, HQ; [by apply Forall_nil | apply evolves_refl].
  - apply wpo_bind. unfold insert_artifact. destruct (fits_integer _); [|by apply wpo_raise].
    apply wpo_insert_row; [apply _ | | done]. cbn. intros s1 Hr He1. apply IH. intros s2 Hs2 He2.
    apply HQ; [|by eapply evolves_trans]. apply Forall_cons. split; [|done].
    assert (Hs1 : has_artifacts [ar_id r] s1) by (apply Forall_singleton; by exists (artifact_in_utc r)).
    apply (persists_artifacts _ _ _ He2) in Hs1. exact (proj1 (Forall_singleton _ _) Hs1).
Qed.
End replay.

Create HintDb persists.
#[export] Hint Resolve persists_card persists_lease persists_event persists_artifacts : persists.

(** Past a step that keeps the row, and to the end of the body. *)
Ltac skip_step P :=
  apply (wpo_skip P); [auto with persists | assumption | solve [evolve] | intros ? ? ?; cbv beta zeta].
Ltac store_step P :=
  apply (wpo_store P); [assumption | done | auto with persists | assumption | intros ? ?].

(** ** The methods *)
Section methods.
Context `{Oracle} `{Networkx} `{Pydantic} `{SqlLaws}.
Context (uuids : forall n, is_uuid (uuid_at n)).
Implicit Types (s : PgRuntime * Env).

Lemma row_found {Row} (p : place Row) (key : Row -> UUID) prefix (msg : UUID -> string) i s :
  is_uuid i -> (exists r, r ∈ sql_rows (pl_get _ p s.1) /\ key r = i) ->
  exists a', ((i ← lift_res (reference prefix (prefix +:+ uuid_str i));
           rows ← select_from p (fun r => bool_decide (key r = i)); pg_missing (msg i) rows) s).1 = Ok a' /\
    [key a'] = [i].
Proof.
  intros Hi Hr. apply (proj1 (find_by_id p key (msg i) i s)) in Hr as (r & Hr & <-).
  exists r. split; [|done]. apply reference_ok. exists (key r). split; [by apply reference_app | done].
Qed.

Lemma create_stores_ref pid payload metadata key s : truthy key = true ->
  wpo (pg_create_card pid payload metadata key)
    (fun a s' => stored_ref key card_reference (fun c => [cd_id c]) a s') s.
Proof.
  intros Hk. apply wpo_with_reference; [intros; unfold card_reference; auto with evolving|].
  apply wpo_bind, wpo_reads; [auto with evolving|]. intros pp _. apply wpo_bind, wpo_lift. intros bucket _.
  apply wpo_bind. unfold new_card. apply wpo_bind, wpo_uuid4, wpo_bind, wpo_now, wpo_ret. cbn [fst snd].
  set (c := mkCard _ _ _ _ _ _).
  apply wpo_bind, wpo_insert_row; [apply _ | | done]. cbn. intros s1 Hc _.
  assert (has_card (cd_id c) s1) by by exists c.
  do 4 skip_step (has_card (cd_id c)). store_step (has_card (cd_id c)).
  apply (row_found cards cd_id "card:"); [apply uuids | done].
Qed.

Lemma claim_stores_ref pipe worker secs key s : truthy key = true ->
  wpo (pg_claim_card pipe worker secs key)
    (fun a s' => stored_ref key lease_reference (fun l => [ls_id l]) a s') s.
Proof.
  intros Hk. apply wpo_with_reference; [intros; unfold lease_reference; auto with evolving|].
  apply wpo_bind, wpo_reads; [auto with evolving|]. intros pp _. apply wpo_bind, wpo_lift. intros [bucket node] _.
  apply wpo_bind, wpo_now, wpo_bind, wpo_reads; [auto with evolving|]. intros rows _.
  apply wpo_bind, wpo_missing. intros c l _. apply wpo_bind. unfold new_lease.
  apply wpo_bind, wpo_now, wpo_bind, wpo_lift. intros us _. cbn [fst snd].
  apply wpo_bind, wpo_uuid4, wpo_bind, wpo_now, wpo_ret. set (lease := mkLease _ _ _ _ _ _ _ _).
  apply wpo_bind, wpo_insert_row; [apply _ | | done]. cbn. intros s1 Hl _.
  assert (has_lease (ls_id lease) s1) by by exists lease.
  do 2 skip_step (has_lease (ls_id lease)). store_step (has_lease (ls_id lease)).
  apply (row_found leases ls_id "lease:"); [apply uuids | done].
Qed.

Lemma renew_stores_ref lid secs key s : truthy key = true -> is_uuid lid ->
  wpo (pg_renew_lease lid secs key)
    (fun a s' => stored_ref key lease_reference (fun l => [ls_id l]) a s') s.
Proof.
  intros Hk Hi. apply wpo_with_reference; [intros; unfold lease_reference; auto with evolving|].
  apply wpo_bind, wpo_get_lease. intros l Hl Hid. assert (has_lease lid s) by by exists l.
  do 6 skip_step (has_lease lid). rewrite Hid. store_step (has_lease lid).
  cbn. rewrite Hid. by apply (row_found leases ls_id "lease:").
Qed.

Lemma release_stores_ref lid actor key s : truthy key = true -> is_uuid lid ->
  ~ pg_releases_again (ReleaseLease lid actor key) s.1 ->
  wpo (pg_release_lease lid actor key)
    (fun a s' => stored_ref key lease_reference (fun l => [ls_id l]) a s') s.
Proof.
  intros Hk Hi Ha. apply wpo_with_reference; [intros; unfold lease_reference; auto with evolving|].
  apply wpo_bind, wpo_get_lease. intros l Hl Hid. assert (has_lease lid s) by by exists l.
  destruct (ls_released_at l) eqn:Er.
  { destruct Ha. exists lid, actor, key, l. by rewrite Er. }
  do 4 skip_step (has_lease lid). rewrite Hid. store_step (has_lease lid).
  cbn. rewrite Hid. by apply (row_found leases ls_id "lease:").
Qed.

(** An event made and inserted can be found. *)
Lemma wpo_event_row {A} cid typ actor payload (f : CardEvent -> M PgRuntime A) Q s :
  (forall ev s', is_uuid (ev_id ev) -> has_event (ev_id ev) s' -> wpo (f ev) Q s') ->
  wpo (ev ← new_event cid typ actor payload; _ ← _insert_event ev; f ev) Q s.
Proof.
  intros Hf. apply wpo_bind. unfold new_event. apply wpo_bind, wpo_uuid4, wpo_bind, wpo_now, wpo_ret.
  set (ev := mkEvent _ _ _ _ _ _). apply wpo_bind, wpo_insert_row; [apply _ | | done].
  cbn. intros s1 Hev _. apply Hf; [apply uuids | by exists ev].
Qed.

Lemma event_stores key operation ev s : truthy key = true -> is_uuid (ev_id ev) -> has_event (ev_id ev) s ->
  wpo (_ ← _store_idempotency key operation ("event:" +:+ uuid_str (ev_id ev)); mret ev)
    (fun a s' => stored_ref key event_reference (fun ev => [ev_id ev]) a s') s.
Proof.
  intros Hk Hi Hev. store_step (has_event (ev_id ev)).
  by apply (row_found card_events ev_id "event:").
Qed.

Lemma validate_stores_ref cid vid accepted reason pipe payload key s : truthy key = true ->
  wpo (pg_validate_card cid vid accepted reason pipe payload key)
    (fun a s' => stored_ref key event_reference (fun ev => [ev_id ev]) a s') s.
Proof.
  intros Hk. apply wpo_with_reference; [intros; unfold event_reference; auto with evolving|].
  assert (Htrue : persists (fun _ => True)) by done. assert (Hs : (fun _ => True) s) by done.
  do 4 (apply (wpo_skip (fun _ => True)); [done | done | unfold new_validation_result; solve [evolve] |
    intros ? ? _; cbv beta zeta]).
  apply wpo_event_row. intros ev s1 Hi Hev. by apply event_stores.
Qed.

Lemma record_stores_ref cid typ actor payload key s : truthy key = true ->
  wpo (pg_record_event cid typ actor payload key)
    (fun a s' => stored_ref key event_reference (fun ev => [ev_id ev]) a s') s.
Proof.
  intros Hk. apply wpo_with_reference; [intros; unfold event_reference; auto with evolving|].
  apply wpo_bind, wpo_get_card. intros c _ _.
  apply wpo_event_row. intros ev s1 Hi Hev. by apply event_stores.
Qed.

Lemma wpo_evolving {A} (m : M PgRuntime A) (P : A -> Prop) s :
  evolving m -> (forall s1, wpo m (fun a _ => P a) s1) -> wpo m (fun a s' => P a /\ evolves s s') s.
Proof. intros He Hp a Ha. split; [by apply (Hp s) | apply He]. Qed.

Lemma move_answers c b actor reason emit s :
  wpo (_move_card_row c b actor reason emit) (fun a _ => a = card_with_bucket b c) s.
Proof.
  unfold _move_card_row.
  do 6 (apply (wpo_skip (fun _ => True)); [done | done | solve [evolve] | intros ? ? _; cbv beta]).
  by apply wpo_ret.
Qed.

Lemma move_stores_ref cid to_bucket actor reason key s : truthy key = true -> is_uuid cid ->
  wpo (pg_move_card cid to_bucket actor reason key)
    (fun a s' => stored_ref key card_reference (fun c => [cd_id c]) a s') s.
Proof.
  intros Hk Hi. apply wpo_with_reference; [intros; unfold card_reference; auto with evolving|].
  apply wpo_bind, wpo_get_card. intros c Hc Hid. assert (has_card cid s) by by exists c.
  do 2 skip_step (has_card cid). apply wpo_bind.
  eapply wpo_mono; [apply wpo_evolving; [evolve | intros; apply move_answers]|].
  intros moved s2 [-> He]. assert (has_card cid s2) by (by eapply persists_card).
  rewrite Hid. store_step (has_card cid). cbn. rewrite Hid.
  by apply (row_found cards cd_id "card:").
Qed.

Lemma submit_stores_ref lid pipe refs key s : truthy key = true -> Forall (fun r => is_uuid (ar_id r)) refs ->
  wpo (pg_submit_artifact lid pipe refs key)
    (fun a s' => stored_ref key artifacts_reference (map ar_id) a s') s.
Proof.
  intros Hk Hrefs. apply wpo_with_reference; [intros; unfold artifacts_reference; auto with evolving|].
  do 4 (apply (wpo_skip (fun _ => True)); [done | done | solve [evolve] | intros ? ? _; cbv beta]).
  apply wpo_bind, wpo_lift. intros [bucket node] _.
  apply wpo_bind, wpo_lift. intros [] [Hne _]%refs_belong_ok. apply wpo_bind, wpo_lift. intros [] _.
  case_bool_decide; cbn [negb]; [|by apply wpo_raise].
  do 5 (apply (wpo_skip (fun _ => True)); [done | done | solve [evolve] | intros ? ? _; cbv beta]).
  cbv zeta. set (stored := map _ refs). set (ids := map ar_id refs).
  assert (Hids : map ar_id stored = ids).
  { unfold stored, ids. rewrite map_map. by apply map_ext. }
  apply wpo_bind, wpo_insert_artifacts. rewrite Hids. intros s1 Hs1 _.
  replace (map (fun r => uuid_str (ar_id r)) stored) with (map uuid_str ids) by (by rewrite <- Hids, map_map).
  assert (Hn : ids <> []) by (unfold ids; by destruct refs).
  assert (Hu : Forall is_uuid ids) by by apply Forall_map.
  store_step (has_artifacts ids). rewrite Hids.
  unfold artifacts_reference, mbind, M_bind, lift_res. rewrite artifact_references_app by done.
  edestruct get_artifacts_complete as [rs Hrs]; [eassumption|].
  exists rs. split; [done|]. by apply get_artifacts_sound in Hrs as [-> _].
Qed.

(** ** Any operation *)
Definition lookup_ref (o : op) (cached : string) : M PgRuntime answer :=
  match o with
  | Register _ | ExpireLeases => raise idempotency_conflict
  | CreateCard _ _ _ _ | MoveCard _ _ _ _ _ => mapM A_card (card_reference cached)
  | ClaimCard _ _ _ _ | RenewLease _ _ _ | ReleaseLease _ _ _ => mapM A_lease (lease_reference cached)
  | SubmitArtifact _ _ _ _ => mapM A_artifacts (artifacts_reference cached)
  | ValidateCard _ _ _ _ _ _ _ | RecordEvent _ _ _ _ _ => mapM A_event (event_reference cached)
  end.

Lemma mapM_ok {A B} (f : A -> B) (m : M PgRuntime A) s b :
  (mapM f m s).1 = Ok b <-> exists a, (m s).1 = Ok a /\ b = f a.
Proof. unfold mapM, mbind, M_bind. destruct (m s) as [[a|x] s']; cbn; naive_solver. Qed.

Lemma stored_ref_mapM {A} key lookup (ids : A -> list UUID) (f : A -> answer) m s :
  (forall a, answer_ids (f a) = ids a) ->
  wpo m (fun a s' => stored_ref key lookup ids a s') s ->
  wpo (mapM f m) (fun a s' => stored_ref key (fun c => mapM f (lookup c)) answer_ids a s') s.
Proof.
  intros Hf Hm. apply wpo_bind. eapply wpo_mono; [exact Hm|].
  intros a s' (r & Hr & Hk & Hne & a' & Ha & Hi). apply wpo_ret. exists r. do 3 (split; [done|]).
  exists (f a'). split; [apply mapM_ok; by exists a' | by rewrite !Hf].
Qed.

Lemma run_op_stores_ref o s : truthy (op_key o) = true -> op_uuids o -> ~ pg_releases_again o s.1 ->
  wpo (pg_run_op o) (fun a s' => stored_ref (op_key o) (lookup_ref o) answer_ids a s') s.
Proof.
  intros Hk Hu Ha. destruct o; try done; cbn [op_key op_uuids pg_run_op] in *;
    (eapply (stored_ref_mapM _ _ _ _ _ _ (fun _ => eq_refl)) || idtac).
  - by apply create_stores_ref.
  - by apply claim_stores_ref.
  - apply submit_stores_ref; tauto.
  - by apply renew_stores_ref.
  - by apply release_stores_ref.
  - by apply validate_stores_ref.
  - by apply move_stores_ref.
  - by apply record_stores_ref.
Qed.

Lemma stays_mapM {A} (f : A -> answer) lookup (ids : A -> list UUID) :
  (forall a, answer_ids (f a) = ids a) -> stays lookup ids -> stays (fun c => mapM f (lookup c)) answer_ids.
Proof.
  intros Hf Hst c s s' b He (a & Ha & ->)%mapM_ok. destruct (Hst _ _ _ _ He Ha) as (a' & Ha' & Hi).
  exists (f a'). split; [apply mapM_ok; by exists a' | by rewrite !Hf].
Qed.

Lemma stays_lookup_ref o : stays (lookup_ref o) answer_ids.
Proof.
  destruct o; cbn [lookup_ref]; try done; eapply (stays_mapM _ _ _ (fun _ => eq_refl));
    auto using stays_card, stays_lease, stays_artifacts, stays_event.
Qed.

Lemma found_mapM {A} key (f : A -> answer) (lookup : string -> M PgRuntime A) body a s :
  keys_once s.1 -> truthy key = true -> (forall c, reads (lookup c)) ->
  stored_ref key (fun c => mapM f (lookup c)) answer_ids a s ->
  exists a', mapM f (with_reference key lookup body) s = (Ok a', s) /\ answer_ids a' = answer_ids a /\
    exists cached, (mapM f (lookup cached) s).1 = Ok a'.
Proof.
  intros Hnd Hk Hl (r & Hr & Hkr & Hne & b & (x & Hx & ->)%mapM_ok & Hi).
  destruct (with_reference_found key lookup body (fun y => answer_ids (f y)) x s) as (x' & Hw & Hx' & c & Hc);
    [done | done | done | by exists r; eauto 6|].
  exists (f x'). split; [unfold mapM, mbind, M_bind; by rewrite Hw|]. split; [congruence|].
  exists c. apply mapM_ok. by exists x'.
Qed.

(** What a lookup answers are rows of the tables, as they are. *)
Lemma lookup_current o cached s a : (lookup_ref o cached s).1 = Ok a -> current s.1 a.
Proof.
  destruct o; cbn [lookup_ref]; try done; intros (x & Hx & ->)%mapM_ok; cbn [current].
  all: unfold card_reference, lease_reference, artifacts_reference, event_reference in Hx.
  all: try (apply reference_ok in Hx as (i & _ & Hx); by apply lookup_sound in Hx as [Hx _]).
  revert Hx. unfold mbind, M_bind, lift_res. destruct (artifact_references cached) as [ids|]; [|done].
  by intros (_ & _ & Hx)%get_artifacts_sound.
Qed.

Lemma run_op_found o a s : keys_once s.1 -> truthy (op_key o) = true ->
  stored_ref (op_key o) (lookup_ref o) answer_ids a s ->
  exists a', pg_run_op o s = (Ok a', s) /\ answer_ids a' = answer_ids a /\ current s.1 a'.
Proof.
  intros Hnd Hk Hst.
  enough (exists a', pg_run_op o s = (Ok a', s) /\ answer_ids a' = answer_ids a /\
            exists cached, (lookup_ref o cached s).1 = Ok a') as (a' & Hr & Hi & c & Hc).
  { exists a'. split; [done|]. split; [done|]. by eapply lookup_current. }
  destruct o; try done; cbn [op_key pg_run_op lookup_ref] in *;
    (eapply found_mapM; [done | done | | exact Hst]); intros c;
    unfold card_reference, lease_reference, artifacts_reference, event_reference; auto with evolving.
Qed.

(** The call again, any number of operations later. *)
Lemma run_op_again o s a os : keys_once s.1 -> truthy (op_key o) = true -> op_uuids o ->
  ~ pg_releases_again o s.1 -> (pg_run_op o s).1 = Ok a ->
  let later := pg_run_ops os (pg_run_op o s).2 in
  exists a', pg_run_op o later = (Ok a', later) /\ answer_ids a' = answer_ids a /\ current later.1 a'.
Proof.
  intros Hnd Hk Hu Ha Hr. pose proof (run_op_stores_ref o s Hk Hu Ha a Hr) as Hst. cbv zeta.
  pose proof (evolving_run_ops os (pg_run_op o s).2) as He.
  apply run_op_found; [|done |].
  - by apply (evo_keys _ _ He), (evo_keys _ _ (evolving_run_op o s)).
  - eapply stored_ref_evolves; [apply stays_lookup_ref | done | done].
Qed.
End methods.
