(* ===== verification/PostgresTheorems.v ===== *)
(** * What the PostgreSQL runtime guarantees

    The properties of [PostgresCardRuntime] after any operations on an empty
    database, each with an evaluated instance on the [work] panel. *)
From Stdlib Require Import ZArith Ascii String.
From S2P Require Import Prelude Values UuidTheorems Authority Models Graph PanelValidator SystemPanels Artifacts.
From S2P Require Import RuntimeService MemoryRuntime MemorySpec MemoryInvariant MemoryReplay Pydantic Sql.
From S2P Require Import PostgresRuntime PostgresSpec PostgresInvariant PostgresReplay.
From S2P Require MemoryRefine.
Open Scope string_scope.
Open Scope list_scope.

Section registering.
Context `{Oracle} `{Networkx} `{Pydantic} `{SqlLaws}.
Implicit Types (s : PgRuntime * Env).

Definition has_panel (pid version : string) s : Prop :=
  exists r, r ∈ sql_rows (pg_patch_panels s.1) /\ (pr_id r, pr_version r) = (pid, version).

Lemma persists_panel pid version : persists (has_panel pid version).
Proof. intros s s' He (r & Hr & Hk). destruct (evo_panels _ _ He r Hr) as (r' & Hr' & E).
  exists r'. by rewrite E. Qed.

Lemma register_has_panel pp s a :
  (pg_run_op (Register pp) s).1 = Ok a -> has_panel (pp_id pp) (pp_version pp) (pg_run_op (Register pp) s).2.
Proof.
  enough (Hw : wpo (pg_run_op (Register pp)) (fun _ s' => has_panel (pp_id pp) (pp_version pp) s') s)
    by exact (Hw a).
  apply wpo_bind. unfold pg_register_patch_panel. apply wpo_bind, wpo_lift. intros validated _.
  apply wpo_bind, wpo_now, wpo_transaction, wpo_bind, wpo_select. cbn [fst snd pl_get patch_panels].
  apply wpo_bind.
  assert (Hrest : forall (u : ()) s', has_panel (pp_id pp) (pp_version pp) s' ->
    wpo (existing_version ← select_from workflow_versions
           (fun r => bool_decide (vw_id r = workflow_version_id pp));
         _ ← (match existing_version with
              | [] =>
                  _ ← insert_into workflow_versions
                        (mkVersionRow (workflow_version_id pp) (pp_id pp) (pp_version pp) true
                           (Aware (clock_at (now_ctr s.2))));
                  forM (pp_buckets pp) (fun bucket => insert_into buckets
                    (mkBucketRow (workflow_version_id pp) (bk_id bucket) (bucket_dump bucket)
                       (Aware (clock_at (now_ctr s.2)))))
              | _ => mret tt
              end);
         mret pp) (fun a s' => wpo (mret (A_panel a))
      (fun _ s' => has_panel (pp_id pp) (pp_version pp) s') s') s').
  { intros [] s' Hs'. do 2 (eapply (wpo_skip (has_panel (pp_id pp) (pp_version pp)));
      [apply persists_panel | eassumption | evolve | intros ? ? ?]). by apply wpo_ret, wpo_ret. }
  destruct (sql_select _ (pg_patch_panels s.1)) as [|x l] eqn:E.
  - apply wpo_insert_row; [apply _ | | done]. cbn. intros s' Hin _. apply (Hrest tt).
    by eexists.
  - apply wpo_ret, (Hrest tt). exists x.
    assert (Hx : x ∈ sql_select (fun r => bool_decide (pr_id r = pp_id pp) &&
      bool_decide (pr_version r = pp_version pp)) (pg_patch_panels s.1)) by (rewrite E; by left).
    apply elem_of_select in Hx as [Hx [?%bool_decide_eq_true ?%bool_decide_eq_true]%andb_true_iff].
    split; [done | congruence].
Qed.

(** No record under the key refers to anything. *)
Definition no_reference (key : option string) (st : PgRuntime) : Prop :=
  forall r, r ∈ sql_rows (pg_idempotency_records st) -> key = Some (ir_key r) -> ir_response_ref r = "".

Lemma with_reference_miss {A} key lookup (body : M PgRuntime A) s :
  no_reference key s.1 -> with_reference key lookup body s = transaction body s.
Proof.
  intros Hn. unfold with_reference, transaction, mbind, M_bind.
  pose proof (reads_get_idempotency key s) as Hs. pose proof (get_idempotency_some key s) as Hc.
  destruct (_get_idempotency key s) as [[[c|]|x] s1] eqn:E; cbn in *; subst.
  - destruct (Hc c eq_refl) as (r & Hr & Hk & <-). by rewrite (Hn r Hr Hk).
  - done.
  - exfalso. revert E. unfold _get_idempotency. destruct key as [k|]; [|done].
    by destruct (truthy _).
Qed.

Lemma single_panel_conflict p1 v1 p2 v2 s : (p1, v1) <> (p2, v2) -> has_panel p1 v1 s -> has_panel p2 v2 s ->
  _pg_single_patch_panel s =
    (Raise (ConflictError "operation requires an explicit Patch Panel when multiple are registered"), s).
Proof.
  intros Hne (r1 & Hr1 & E1) (r2 & Hr2 & E2).
  assert (r1 <> r2) by congruence.
  change (_pg_single_patch_panel s) with (match sql_rows (pg_patch_panels s.1) with
    | [] => raise (S := PgRuntime) (A := PatchPanel) (NotFoundError "no Patch Panels are registered")
    | [row] => lift_res (patch_panel_model_validate (pr_definition row))
    | _ => raise (ConflictError "operation requires an explicit Patch Panel when multiple are registered")
    end s).
  destruct (sql_rows (pg_patch_panels s.1)) as [|x [|y l]]; [by apply elem_of_nil in Hr1 | | done].
  apply list_elem_of_singleton in Hr1, Hr2. congruence.
Qed.
End registering.

Section guarantees.
Context `{OracleLaws} `{Networkx} `{Pydantic} `{SqlLaws}.
Implicit Types (s : PgRuntime * Env).

(** The database after the operations [os], from the start. *)
Definition pg_reached (os : list op) (e : Env) : PgRuntime * Env := pg_run_ops os (empty_database, e).

Lemma empty_database_inv e : PgInv (fun _ => False) (empty_database, e).
Proof.
  split; cbn; rewrite ?sql_rows_create; [| |done].
  - split; [apply NoDup_nil_2|]. by intros t l1 l2 _ ?%elem_of_nil.
  - split; [apply NoDup_nil_2 | | |]; intros ? ?%elem_of_nil; done.
Qed.

Lemma pg_run_ops_inv final os s : PgInv final s -> PgInv final (pg_run_ops os s).
Proof. revert s. induction os as [|o os IH]; intros s Hi; cbn; [done|]. by apply IH, pg_run_op_inv. Qed.

Lemma pg_reached_inv os e : PgInv (fun _ => False) (pg_reached os e).
Proof. apply pg_run_ops_inv, empty_database_inv. Qed.

Lemma pg_reached_keys os e : keys_once (pg_reached os e).1.
Proof.
  apply (evo_keys _ _ (evolving_run_ops os (empty_database, e))). unfold keys_once. cbn.
  rewrite sql_rows_create. apply NoDup_nil_2.
Qed.

(** From any reached database on, a lease that is released keeps its row. *)
Lemma released_rows_stay final s os : PgInv final s ->
  PgInv (fun l => l ∈ sql_rows (pg_leases s.1) /\ ls_released_at l <> None) (pg_run_ops os s).
Proof. intros [Hl Ho _]. by apply pg_run_ops_inv. Qed.

Lemma card_core_bucket c c' : card_core c' = card_core c -> c' = card_with_bucket (cd_current_bucket c') c.
Proof. destruct c, c'. by intros [= -> -> -> -> ->]. Qed.

(** The row with the identifier of a card, after any operations. *)
Lemma card_row_later final s os c : PgInv final s -> c ∈ sql_rows (pg_cards s.1) ->
  exists b, forall x, x ∈ sql_rows (pg_cards (pg_run_ops os s).1) /\ cd_id x = cd_id c <->
    x = card_with_bucket b c.
Proof.
  intros Hi Hc. destruct (evo_cards _ _ (evolving_run_ops os s) c Hc) as (c' & Hc' & E).
  pose proof (lo_ids _ _ _ (pi_locations _ _ (pg_run_ops_inv _ os s Hi))) as Hnd.
  exists (cd_current_bucket c'). intros x. rewrite <- (card_core_bucket c c' E). split.
  - intros [Hx Hid]. apply (NoDup_map_inj cd_id _ x c' Hnd Hx Hc'). rewrite Hid. symmetry. by apply card_core_id.
  - intros ->. split; [done | by apply card_core_id].
Qed.

(** The row with the identifier of a lease, after any operations. *)
Lemma lease_row_later final s os l : PgInv final s -> l ∈ sql_rows (pg_leases s.1) ->
  exists l', (forall x, x ∈ sql_rows (pg_leases (pg_run_ops os s).1) /\ ls_id x = ls_id l <-> x = l') /\
    lease_core l' = lease_core l /\ (ls_released_at l <> None -> l' = l).
Proof.
  intros Hi Hl. destruct (evo_leases _ _ (evolving_run_ops os s) l Hl) as (l' & Hl' & E).
  destruct (released_rows_stay final s os Hi) as [[Hnd _] _ Hfin].
  assert (Hone : forall x, x ∈ sql_rows (pg_leases (pg_run_ops os s).1) -> ls_id x = ls_id l -> x = l').
  { intros x Hx Hid. apply (NoDup_map_inj ls_id _ x l' Hnd Hx Hl'). rewrite Hid. symmetry. by apply lease_core_id. }
  exists l'. split; [|split; [done|]].
  - intros x. split; [intros []; auto|]. intros ->. split; [done | by apply lease_core_id].
  - intros Hr. symmetry. by apply Hone, eq_refl; apply Hfin.
Qed.

(** C27. The database stays consistent, whatever operations have run one after
    the other, in whatever order the engine returns rows (calls that overlap
    in time are the subject of C32). At no instant that the clock has
    reached do two rows of [leases] hold one card; every card has exactly one
    active location, in its current bucket; every location belongs to a
    stored card, was entered at an instant the clock has shown, and is either
    active and not exited, or exited at an instant the clock has shown after
    the entry. And the database keeps its history: after any further
    operations, run one after the other, every event and every artifact is
    stored unchanged, the row of a card differs at most in the bucket, and the
    row of a lease at most in its expiry and its release; the row of a
    released lease is as it was. *)
Theorem pg_database_consistent os e :
  let s := pg_reached os e in
  (forall t l1 l2, time_reached s.2 t ->
     l1 ∈ sql_rows (pg_leases s.1) -> l2 ∈ sql_rows (pg_leases s.1) ->
     ls_card_id l1 = ls_card_id l2 -> lease_active_at l1 t -> lease_active_at l2 t -> l1 = l2) /\
  (forall c, c ∈ sql_rows (pg_cards s.1) -> exists loc,
     py_filter (active_location (cd_id c)) (sql_rows (pg_card_locations s.1)) = [loc] /\
     cl_bucket loc = cd_current_bucket c) /\
  (forall loc, loc ∈ sql_rows (pg_card_locations s.1) ->
     (exists c, c ∈ sql_rows (pg_cards s.1) /\ cl_card_id loc = cd_id c) /\
     location_times s.2 loc) /\
  (forall os', let later := pg_run_ops os' s in
     (forall ev, ev ∈ sql_rows (pg_card_events s.1) -> ev ∈ sql_rows (pg_card_events later.1)) /\
     (forall a, a ∈ sql_rows (pg_artifacts s.1) -> a ∈ sql_rows (pg_artifacts later.1)) /\
     (forall c, c ∈ sql_rows (pg_cards s.1) -> exists b, forall x,
        x ∈ sql_rows (pg_cards later.1) /\ cd_id x = cd_id c <-> x = card_with_bucket b c) /\
     (forall l, l ∈ sql_rows (pg_leases s.1) -> exists l',
        (forall x, x ∈ sql_rows (pg_leases later.1) /\ ls_id x = ls_id l <-> x = l') /\
        lease_core l' = lease_core l /\ (ls_released_at l <> None -> l' = l))).
Proof.
  cbv zeta. pose proof (pg_reached_inv os e) as Hi. split; [|split; [|split]]; cycle 3.
  - intros os'. pose proof (evolving_run_ops os' (pg_reached os e)) as He.
    split; [apply He|]. split; [apply He|].
    split; [intros c; by eapply card_row_later | intros l; by eapply lease_row_later].
  - intros t l1 l2 Ht Hl1 Hl2 Hc A1 A2. destruct (pi_leases _ _ Hi) as [Hnd Hex].
    eapply (NoDup_map_inj ls_id); [exact Hnd | done | done | by eapply Hex].
  - by destruct (pi_locations _ _ Hi).
  - destruct (pi_locations _ _ Hi) as [_ _ Hk Hst].
    intros loc Hl. split; [|by apply Hst]. by apply Hk, list_elem_of_fmap in Hl as (c & ? & ?); exists c.
Qed.

(** C28. Calls are transactions that run once: a call that raises leaves all
    tables as they were; and once a call has answered under an idempotency
    key, the same call, any number of operations later, changes nothing, not
    even the position of the clock, and answers rows of the tables as they
    are then, with the identifiers of the objects the first answer was about,
    in the same order. (Releasing a released lease is the exception, as in
    memory: it stores no key.) Identifiers, drawn or passed, are taken to
    have 128 bits. *)
Theorem pg_calls_run_once before e o :
  let s := pg_reached before e in
  (forall x, (pg_run_op o s).1 = Raise x -> (pg_run_op o s).2.1 = s.1) /\
  ((forall n, is_uuid (uuid_at n)) -> op_uuids o -> truthy (op_key o) = true ->
   ~ pg_releases_again o s.1 ->
   forall a, (pg_run_op o s).1 = Ok a -> forall os,
   let later := pg_run_ops os (pg_run_op o s).2 in
   exists a', pg_run_op o later = (Ok a', later) /\ answer_ids a' = answer_ids a /\ current later.1 a').
Proof.
  cbv zeta. split; [apply atomic_run_op|]. intros Hu Hids Hk Ha a Hr os.
  apply run_op_again; try done. apply pg_reached_keys.
Qed.

(** C29. The PostgreSQL backend cannot serve claims for two panels: once two
    panels that differ in id or version are registered, every later claim
    that is not a replay raises [ConflictError], for every pipe, and changes
    nothing. *)
Theorem pg_claims_need_one_panel before e p q between after pipe worker secs key a b :
  let s1 := pg_reached before e in
  let s2 := pg_run_ops between (pg_run_op (Register p) s1).2 in
  let s3 := pg_run_ops after (pg_run_op (Register q) s2).2 in
  (pg_run_op (Register p) s1).1 = Ok a -> (pg_run_op (Register q) s2).1 = Ok b ->
  (pp_id p, pp_version p) <> (pp_id q, pp_version q) -> no_reference key s3.1 ->
  pg_claim_card pipe worker secs key s3 =
    (Raise (ConflictError "operation requires an explicit Patch Panel when multiple are registered"), s3).
Proof.
  intros s1 s2 s3 Ha Hb Hne Hn. unfold pg_claim_card. rewrite with_reference_miss by done.
  assert (Hp : has_panel (pp_id p) (pp_version p) s3).
  { eapply persists_panel; [apply evolving_run_ops|]. eapply persists_panel; [apply evolving_run_op|].
    eapply persists_panel; [apply evolving_run_ops|]. by eapply register_has_panel. }
  assert (Hq : has_panel (pp_id q) (pp_version q) s3).
  { eapply persists_panel; [apply evolving_run_ops|]. by eapply register_has_panel. }
  unfold transaction, mbind, M_bind. rewrite (single_panel_conflict _ _ _ _ s3 Hne Hp Hq). by destruct s3.
Qed.
End guarantees.

(** ** Evaluated instances *)
Module Demo.
Definition second_panel : PatchPanel :=
  mkPatchPanel "second" "1" None (pp_buckets work_panel) (pp_nodes work_panel) (pp_edges work_panel)
    (pp_pipe_bindings work_panel) (pp_acceptance_contracts work_panel) [].

#[local] Instance pydantic : Pydantic := {|
  patch_panel_fields v := if v_eq_str v "work" then Ok work_panel else Ok second_panel;
  registry_metadata_fields _ := Raise (ValidationError "not metadata");
  onboarding_fields _ := Raise (ValidationError "not an onboarding request");
  patch_panel_dump_by_alias pp := VStr (pp_id pp); bucket_dump b := VStr (bk_id b);
  patch_panel_dump _ := VNone; registry_metadata_dump _ := VNone; constraints_dump _ := VNone;
|}.

Definition e0 : Env := mkEnv 0 0.
Definition created : list op := [Register work_panel; CreateCard "work" [] None (Some "k1")].

Definition claim : op := ClaimCard "take" "w1" 3600 (Some "k2").

(** On the ticking oracle. *)
Section ticking.
#[local] Existing Instance tick_oracle.
#[local] Existing Instance tick_oracle_laws.
#[local] Existing Instance ListGraph.networkx.
#[local] Existing Instance ListSql.sql.
#[local] Existing Instance ListSql.sql_laws.

(** Claimed, released and claimed again by another worker. *)
Definition twice : list op :=
  created ++ [claim; ReleaseLease 3 None None; ClaimCard "take" "w2" 3600 None].

Lemma twice_leases : exists l1 l2,
  sql_rows (pg_leases (pg_reached twice e0).1) = [l1; l2] /\ ls_card_id l1 = ls_card_id l2 /\
  ls_id l1 <> ls_id l2 /\ ls_released_at l1 <> None /\
  lease_active_at l2 (clock_at (now_ctr (pg_reached twice e0).2)).
Proof.
  eexists _, _. split; [vm_compute; reflexivity|]. split; [reflexivity|]. split; [vm_compute; discriminate|].
  split; [discriminate|]. split; [reflexivity|]. eexists. split; [reflexivity|]. vm_compute. reflexivity.
Qed.

(** Of the two leases of the card the second is active, and only it; the
    first, released, keeps its row whatever happens next. *)
Lemma pg_database_consistent_witness : exists l1 l2,
  sql_rows (pg_leases (pg_reached twice e0).1) = [l1; l2] /\
  lease_active_at l2 (clock_at (now_ctr (pg_reached twice e0).2)) /\
  ~ lease_active_at l1 (clock_at (now_ctr (pg_reached twice e0).2)) /\
  (forall os', l1 ∈ sql_rows (pg_leases (pg_run_ops os' (pg_reached twice e0)).1)).
Proof.
  destruct twice_leases as (l1 & l2 & Hrows & Hc & Hne & Hrel & Hact). exists l1, l2.
  split; [exact Hrows|]. split; [exact Hact|]. split; cycle 1.
  { intros os'. destruct (pg_database_consistent twice e0) as (_ & _ & _ & Hstay).
    destruct (Hstay os') as (_ & _ & _ & Hlease).
    destruct (Hlease l1) as (l' & Hl' & _ & Hsame); [rewrite Hrows; left|].
    rewrite <- (Hsame Hrel). apply Hl'. reflexivity. }
  intros Hact1. apply Hne. f_equal.
  apply (proj1 (pg_database_consistent twice e0) (clock_at (now_ctr (pg_reached twice e0).2))).
  - intros n Hn. apply clock_mono. lia.
  - rewrite Hrows. left.
  - rewrite Hrows. right. left.
  - exact Hc.
  - exact Hact1.
  - exact Hact.
Defined.

(** Created, moved on by hand: two locations, one of them active. *)
Definition moved : list op := created ++ [MoveCard 0 "done" (Some "w1") None None].

Lemma moved_card : exists c,
  sql_rows (pg_cards (pg_reached moved e0).1) = [c] /\ cd_current_bucket c = "done" /\
  length (sql_rows (pg_card_locations (pg_reached moved e0).1)) = 2.
Proof. eexists. split; [vm_compute; reflexivity|]. split; vm_compute; reflexivity. Qed.

Example moved_location : exists c loc,
  sql_rows (pg_cards (pg_reached moved e0).1) = [c] /\
  py_filter (active_location (cd_id c)) (sql_rows (pg_card_locations (pg_reached moved e0).1)) = [loc] /\
  cl_bucket loc = "done".
Proof.
  destruct moved_card as (c & Hc & Hb & _).
  destruct (pi_locations _ _ (pg_reached_inv moved e0)) as [_ Hact _ _].
  destruct (Hact c) as (loc & Hl & Hlb); [rewrite Hc; left|].
  exists c, loc. split; [exact Hc|]. split; [exact Hl | by rewrite Hlb].
Qed.

(** The second panel makes the claim of the waiting card fail. *)
Lemma two_panels :
  (pg_run_op (Register work_panel) (pg_reached [] e0)).1 = Ok (A_panel work_panel) /\
  (pg_run_op (Register second_panel)
     (pg_run_ops [CreateCard "work" [] None None] (pg_run_op (Register work_panel) (pg_reached [] e0)).2)).1
    = Ok (A_panel second_panel).
Proof. split; vm_compute; reflexivity. Qed.

Lemma pg_claims_need_one_panel_witness :
  let s2 := pg_run_ops [CreateCard "work" [] None None]
    (pg_run_op (Register work_panel) (pg_reached [] e0)).2 in
  let s3 := pg_run_ops [] (pg_run_op (Register second_panel) s2).2 in
  is_ok (pg_claim_card "take" "w1" 60 None s2).1 /\
  pg_claim_card "take" "w1" 60 None s3 =
    (Raise (ConflictError "operation requires an explicit Patch Panel when multiple are registered"), s3).
Proof.
  cbv zeta. split; [eexists; vm_compute; reflexivity|]. destruct two_panels as [Hp Hq].
  refine (pg_claims_need_one_panel [] e0 work_panel second_panel [CreateCard "work" [] None None] []
           "take" "w1" 60 None _ _ Hp Hq _ _).
  - vm_compute. discriminate.
  - intros r _ Hk. discriminate Hk.
Defined.
End ticking.

(** The clock ticks; identifiers have 128 bits. *)
#[local] Instance oracle : Oracle := {|
  clock_at := @clock_at tick_oracle;
  uuid_at n := (N.of_nat n mod 2 ^ 128)%N;
  isoformat := @isoformat tick_oracle;
|}.
#[local] Existing Instance ListGraph.networkx.
#[local] Existing Instance ListSql.sql.
#[local] Existing Instance ListSql.sql_laws.

Lemma uuids n : is_uuid (uuid_at n).
Proof. unfold is_uuid. cbn [uuid_at oracle]. apply N.mod_lt. lia. Qed.

(** The card is 0; its location and event are 1 and 2. *)
Definition report : ArtifactReference :=
  mkArtifact 77 0 None "file:///r" "sha256:00" "text/plain" 4 [("role", VStr "report")] (Aware 0).
Definition submit (lease : UUID) : op := SubmitArtifact lease "made" [report] (Some "k3").

Lemma claim_answers : exists l, (pg_run_op claim (pg_reached created e0)).1 = Ok (A_lease l) /\ ls_id l = 3%N.
Proof. eexists. split; vm_compute; reflexivity. Qed.

(** A claim, a submission, a second replay of each. *)
Lemma pg_calls_run_once_witness :
  exists l refs,
    (pg_run_op claim (pg_reached created e0)).1 = Ok (A_lease l) /\
    (pg_run_op (submit 3) (pg_run_op claim (pg_reached created e0)).2).1 = Ok (A_artifacts refs) /\
    let later := pg_run_ops [submit 3; claim; submit 3] (pg_run_op claim (pg_reached created e0)).2 in
    exists a', pg_run_op claim later = (Ok a', later) /\ answer_ids a' = [3%N].
Proof.
  destruct claim_answers as (l & Hl & Hid).
  assert (Hsub : exists refs,
    (pg_run_op (submit 3) (pg_run_op claim (pg_reached created e0)).2).1 = Ok (A_artifacts refs)).
  { eexists. vm_compute. reflexivity. }
  destruct Hsub as [refs Hsub]. exists l, refs. split; [exact Hl|]. split; [exact Hsub|]. cbv zeta.
  destruct (pg_calls_run_once created e0 claim) as [_ Honce]. cbv zeta in Honce.
  assert (Hagain : ~ pg_releases_again claim (pg_reached created e0).1).
  { intros (lid & actor & key & x & Heq & _). discriminate Heq. }
  destruct (Honce uuids I eq_refl Hagain (A_lease l) Hl [submit 3; claim; submit 3]) as (a' & Hrun & Ha' & _).
  exists a'. split; [exact Hrun|]. rewrite Ha'. cbn. by rewrite Hid.
Defined.

(** An artifact of 2 GiB does not fit the column: the submission is refused
    and rolled back, where the in-memory runtime takes it. *)
Definition big_report : ArtifactReference :=
  mkArtifact 77 0 None "s3://r" "sha256:00" "text/plain" (2 ^ 31) [("role", VStr "report")] (Aware 0).

Example size_out_of_range :
  let s := pg_run_ops [claim] (pg_reached created e0) in
  (pg_run_op (SubmitArtifact 3 "made" [big_report] None) s).1 = Raise (DataError "integer out of range") /\
  (pg_run_op (SubmitArtifact 3 "made" [big_report] None) s).2.1 = s.1 /\
  is_ok (run_op (SubmitArtifact 2 "made" [big_report] None) (MemoryRefine.run_ops (created ++ [claim]) start)).1.
Proof. split; [|split]; [vm_compute; reflexivity.. | eexists; vm_compute; reflexivity]. Qed.
End Demo.
