(* ===== verification/Transactions.v ===== *)
(** * Transactions that run at the same time

    A method on the database is a program of statements ([txn]). It has two
    semantics: alone, as a computation over the database, and interleaved
    with other transactions under PostgreSQL's default isolation level, READ
    COMMITTED, whose documented rules are these. A statement sees what was
    committed when it started, and the transaction's own writes. [SELECT ...
    FOR UPDATE] computes its rows from that snapshot, waits for the lock of
    each row, tests a row again only in its current version (its subqueries
    keep the snapshot), and locks until the transaction ends. An insert waits
    for an open transaction that inserted the same key, and fails when the
    key is committed. Writes appear to the others on commit. *)
From Stdlib Require Import ZArith Ascii String.
From S2P Require Import Prelude Values Authority Models Graph PanelValidator Artifacts.
From S2P Require Import RuntimeService MemoryRuntime Pydantic Sql PostgresRuntime.
Open Scope string_scope.
Open Scope list_scope.

Section transactions.
Context `{Oracle} `{Networkx} `{Pydantic} `{Sql}.

(** ** Programs *)

(** The writes of the transactions modelled here. [W_release] is [UPDATE
    leases SET released_at = t WHERE id = i AND released_at IS NULL]. *)
Inductive write : Type :=
  | W_lease (l : Lease)
  | W_event (ev : CardEvent)
  | W_record (r : IdempotencyRow)
  | W_release (i : UUID) (t : datetime).

Inductive txn (A : Type) : Type :=
  | Return (a : A)
  | Throw (x : exn)
  | Clock (k : datetime -> txn A)
  | Fresh (k : UUID -> txn A)
  | Select {B : Type} (q : PgRuntime -> B) (k : B -> txn A)
  (** [SELECT ... FROM cards WHERE ... LIMIT 1 FOR UPDATE]. *)
  | SelectForUpdate (where_ : PgRuntime -> Card -> bool) (k : option Card -> txn A)
  (** [x] is raised when the primary key is taken. *)
  | Insert (w : write) (x : exn) (k : txn A)
  (** The continuation takes the [rowcount]. *)
  | Release (i : UUID) (t : datetime) (k : nat -> txn A).
#[global] Arguments Return {A}.
#[global] Arguments Throw {A}.
#[global] Arguments Clock {A}.
#[global] Arguments Fresh {A}.
#[global] Arguments Select {A B}.
#[global] Arguments SelectForUpdate {A}.
#[global] Arguments Insert {A}.
#[global] Arguments Release {A}.

(** A pure step that can raise. *)
Definition checked {A B} (r : res B) (k : B -> txn A) : txn A :=
  match r with Ok b => k b | Raise x => Throw x end.

Definition put_in {Row} (p : place Row) (r : Row) (st : PgRuntime) : option PgRuntime :=
  match sql_insert (pl_same_key _ p) r (pl_get _ p st) with
  | Some t => Some (pl_set _ p t st)
  | None => None
  end.

Definition releasable (i : UUID) (l : Lease) : bool :=
  bool_decide (ls_id l = i) && bool_decide (ls_released_at l = None).

Definition released_in (i : UUID) (t : datetime) (st : PgRuntime) : PgRuntime * nat :=
  let '(leases', n) := sql_update (releasable i) (lease_with_released t) (pg_leases st) in
  (pl_set _ leases leases' st, n).

(** [None]: the primary key is taken. *)
Definition perform (w : write) (st : PgRuntime) : option PgRuntime :=
  match w with
  | W_lease l => put_in leases l st
  | W_event ev => put_in card_events ev st
  | W_record r => put_in idempotency_records r st
  | W_release i t => Some (released_in i t st).1
  end.

(** ** Alone *)
Fixpoint run_alone {A} (p : txn A) : M PgRuntime A :=
  match p with
  | Return a => mret a
  | Throw x => raise x
  | Clock k => t ← now; run_alone (k t)
  | Fresh k => i ← uuid4; run_alone (k i)
  | Select q k => st ← get; run_alone (k (q st))
  | SelectForUpdate where_ k =>
      st ← get; run_alone (k (head (sql_select (where_ st) (pg_cards st))))
  | Insert w x k =>
      st ← get;
      match perform w st with
      | Some st' => _ ← put st'; run_alone k
      | None => raise x
      end
  | Release i t k =>
      st ← get; let '(st', n) := released_in i t st in _ ← put st'; run_alone (k n)
  end.

(** ** Interleaved *)

(** A transaction that runs: the [FOR UPDATE] it waits in (the snapshot and
    the rows not yet tried), the cards it has locked, its writes, the rest of
    the program. *)
Inductive proc (A : Type) : Type :=
  | Running (waiting : option (PgRuntime * list Card)) (locks : list UUID) (writes : list write)
      (rest : txn A)
  | Finished (r : res A).
#[global] Arguments Running {A}.
#[global] Arguments Finished {A}.

Definition begin {A} (p : txn A) : proc A := Running None [] [] p.

Definition proc_locks {A} (p : proc A) : list UUID :=
  match p with Running _ locks _ _ => locks | Finished _ => [] end.
Definition proc_writes {A} (p : proc A) : list write :=
  match p with Running _ _ writes _ => writes | Finished _ => [] end.

(** The writes on top of a committed database. *)
Definition view (st : PgRuntime) (writes : list write) : PgRuntime :=
  foldl (fun st w => default st (perform w st)) st writes.

(** Two open transactions may not write the same row. *)
Definition same_row (w w' : write) : bool :=
  match w, w' with
  | W_lease l, W_lease l' => bool_decide (ls_id l = ls_id l')
  | W_event ev, W_event ev' => bool_decide (ev_id ev = ev_id ev')
  | W_record r, W_record r' => bool_decide (ir_key r = ir_key r')
  | W_release i _, W_release i' _ => bool_decide (i = i')
  | _, _ => false
  end.

Definition locked {A} (i : UUID) (others : list (proc A)) : bool :=
  existsb (fun p => bool_decide (i ∈ proc_locks p)) others.
Definition written {A} (w : write) (others : list (proc A)) : bool :=
  existsb (fun p => existsb (same_row w) (proc_writes p)) others.

Definition tick (e : Env) : Env := mkEnv (S (now_ctr e)) (uuid_ctr e).
Definition draw (e : Env) : Env := mkEnv (now_ctr e) (S (uuid_ctr e)).

(** The next step of a transaction among the others; [None] when it waits or
    has finished. *)
Definition proc_step {A} (others : list (proc A)) (d : PgRuntime * Env) (p : proc A) :
    option ((PgRuntime * Env) * proc A) :=
  match p with
  | Finished _ => None
  | Running waiting locks writes rest =>
      let st := view d.1 writes in
      match rest with
      | Return a => Some ((st, d.2), Finished (Ok a))
      | Throw x => Some (d, Finished (Raise x))
      | Clock k => Some ((d.1, tick d.2), Running None locks writes (k (Aware (clock_at (now_ctr d.2)))))
      | Fresh k => Some ((d.1, draw d.2), Running None locks writes (k (uuid_at (uuid_ctr d.2))))
      | Select q k => Some (d, Running None locks writes (k (q st)))
      | SelectForUpdate where_ k =>
          match waiting with
          | None => Some (d, Running (Some (st, sql_select (where_ st) (pg_cards st))) locks writes rest)
          | Some (_, []) => Some (d, Running None locks writes (k None))
          | Some (snapshot, c :: cs) =>
              if locked (cd_id c) others then None
              else match sql_select (fun c' => bool_decide (cd_id c' = cd_id c)) (pg_cards st) with
                   | c' :: _ =>
                       if where_ snapshot c'
                       then Some (d, Running None (cd_id c :: locks) writes (k (Some c')))
                       else Some (d, Running (Some (snapshot, cs)) locks writes rest)
                   | [] => Some (d, Running (Some (snapshot, cs)) locks writes rest)
                   end
          end
      | Insert w x k =>
          if written w others then None
          else match perform w st with
               | Some _ => Some (d, Running None locks (writes ++ [w]) k)
               | None => Some (d, Running None locks writes (Throw x))
               end
      | Release i t k =>
          if written (W_release i t) others then None
          else match (released_in i t st).2 with
               | 0 => Some (d, Running None locks writes (k 0))
               | n => Some (d, Running None locks (writes ++ [W_release i t]) (k n))
               end
      end
  end.

(** The committed database, the clock and the transactions. *)
Record system (A : Type) : Type := mkSystem {
  sy_db : PgRuntime * Env;
  sy_procs : list (proc A);
}.
#[global] Arguments mkSystem {A}.
#[global] Arguments sy_db {A}.
#[global] Arguments sy_procs {A}.

Definition sys_step {A} (i : nat) (s : system A) : option (system A) :=
  match sy_procs s !! i with
  | Some p =>
      match proc_step (delete i (sy_procs s)) (sy_db s) p with
      | Some (d, p') => Some (mkSystem d (<[i := p']> (sy_procs s)))
      | None => None
      end
  | None => None
  end.

(** The transactions run in the order a schedule gives; one that waits lets
    the next go. *)
Fixpoint run_schedule {A} (sched : list nat) (s : system A) : system A :=
  match sched with
  | [] => s
  | i :: sched' => run_schedule sched' (default s (sys_step i s))
  end.

Definition start_all {A} (d : PgRuntime * Env) (ps : list (txn A)) : system A :=
  mkSystem d (map begin ps).

Definition finished {A} (p : proc A) : Prop := exists r, p = Finished r.
End transactions.
