(* ===== verification/LeaseStore.v ===== *)
(** * The lease store ([runtime/sqlalchemy_store.py])

    [PostgresLeaseStore], and [PostgresCardRuntime.claim_card] again as a
    transaction, to run at the same time as others. *)
From Stdlib Require Import ZArith Ascii String.
From S2P Require Import Prelude Values UuidText Authority Models Graph PanelValidator Artifacts.
From S2P Require Import RuntimeService MemoryRuntime Pydantic Sql PostgresRuntime Transactions.
Open Scope string_scope.
Open Scope list_scope.

Section lease_store.
Context `{Oracle} `{Networkx} `{Pydantic} `{Sql}.
Context {A : Type}.

(** ** [PostgresLeaseStore] *)

(** [self._get_idempotency(session, key)]. *)
Definition select_reference (key : string) (st : PgRuntime) : option string :=
  match sql_select (fun r => bool_decide (ir_key r = key)) (pg_idempotency_records st) with
  | r :: _ => Some (ir_response_ref r)
  | [] => None
  end.

(** [if idempotency_key: cached = ...; if cached: return ...]. *)
Definition unless_recorded (key : option string) (hit : string -> txn A) (body : txn A) : txn A :=
  if truthy key then
    Select (select_reference (str_or key "")) (fun cached =>
      if truthy cached then hit (str_or cached "") else body)
  else body.

(** [if idempotency_key: self._store_idempotency(...)]. *)
Definition record_reference (key : option string) (operation response_ref : string) (k : txn A) : txn A :=
  if truthy key then
    Clock (fun t =>
      Insert (W_record (mkIdempotencyRow (str_or key "") operation response_ref t))
        (ConflictError ("idempotency key '" +:+ str_or key "" +:+ "' already exists")) k)
  else k.

Definition acquire_lease (card_id : UUID) (node_id worker_id input_pipe : string) (lease_seconds : Z)
    (idempotency_key : option string) (return_ : UUID -> A) : txn A :=
  unless_recorded idempotency_key (fun cached => checked (UUID_of_text cached) (fun i => Return (return_ i)))
  (SelectForUpdate (fun _ c => bool_decide (cd_id c = card_id)) (fun card_row =>
  match card_row with
  | None => Throw (NotFoundError ("card '" +:+ uuid_str card_id +:+ "' does not exist"))
  | Some _ =>
      Clock (fun t =>
      Select (fun st => sql_select (fun l => bool_decide (ls_card_id l = card_id) && lease_row_active t l)
                          (pg_leases st)) (fun active_lease =>
      match active_lease with
      | _ :: _ => Throw (ConflictError ("card '" +:+ uuid_str card_id +:+ "' already has an active lease"))
      | [] =>
          Fresh (fun lease_id =>
          Clock (fun claimed_at =>
          Clock (fun t =>
          checked (dt_add_seconds t lease_seconds) (fun expires_at =>
          Insert (W_lease (mkLease lease_id card_id node_id worker_id input_pipe claimed_at expires_at None))
            duplicate_key
          (record_reference idempotency_key "lease.acquire" (uuid_str lease_id)
          (Return (return_ lease_id)))))))
      end))
  end)).

Definition release_lease (lease_id : UUID) (return_ : A) : txn A :=
  Clock (fun t =>
  Release lease_id t (fun rowcount =>
  match rowcount with
  | 0 => Throw (NotFoundError ("active lease '" +:+ uuid_str lease_id +:+ "' does not exist"))
  | S _ => Return return_
  end)).
End lease_store.

(** ** [PostgresCardRuntime.claim_card], statement by statement *)
Section claim.
Context `{Oracle} `{Networkx} `{Pydantic} `{Sql}.

Definition select_lease (lease_id : UUID) (k : Lease -> txn Lease) : txn Lease :=
  Select (fun st => sql_select (fun l => bool_decide (ls_id l = lease_id)) (pg_leases st)) (fun rows =>
  match rows with
  | l :: _ => k l
  | [] => Throw (NotFoundError ("lease '" +:+ uuid_str lease_id +:+ "' does not exist"))
  end).

Definition select_single_patch_panel (k : PatchPanel -> txn Lease) : txn Lease :=
  Select (fun st => sql_rows (pg_patch_panels st)) (fun rows =>
  match rows with
  | [] => Throw (NotFoundError "no Patch Panels are registered")
  | [row] => checked (patch_panel_model_validate (pr_definition row)) k
  | _ => Throw (ConflictError "operation requires an explicit Patch Panel when multiple are registered")
  end).

Definition claim_txn (input_pipe worker_id : string) (lease_seconds : Z)
    (idempotency_key : option string) : txn Lease :=
  unless_recorded idempotency_key
    (fun cached => checked (reference "lease:" cached) (fun i => select_lease i Return))
  (select_single_patch_panel (fun pp =>
  checked (resolve_pipe_bucket pp input_pipe "input") (fun '(bucket, node_id) =>
  Clock (fun t =>
  SelectForUpdate (fun st c =>
    bool_decide (cd_current_bucket c = bucket) &&
    negb (bool_decide (cd_id c ∈ map ls_card_id (sql_select (lease_row_active t) (pg_leases st)))))
  (fun card_row =>
  match card_row with
  | None => Throw (NotFoundError ("no claimable cards in bucket '" +:+ bucket +:+ "'"))
  | Some card =>
      Clock (fun t =>
      checked (dt_add_seconds t lease_seconds) (fun expires_at =>
      Fresh (fun lease_id =>
      Clock (fun claimed_at =>
      let lease := mkLease lease_id (cd_id card) node_id worker_id input_pipe claimed_at expires_at None in
      Insert (W_lease lease) duplicate_key
      (Fresh (fun event_id =>
      Clock (fun occurred_at =>
      Insert (W_event (mkEvent event_id (cd_id card) "card_claimed" (Some worker_id)
                [("lease_id", VStr (uuid_str lease_id)); ("input_pipe", VStr input_pipe)] occurred_at))
        duplicate_key
      (record_reference idempotency_key "card.claim" ("lease:" +:+ uuid_str lease_id)
      (Return lease)))))))))
  end))))).
End claim.
