(* ===== verification/LeaseGuard.v ===== *)
(** * A discipline for transactions on leases

    [guarded] is a judgement on programs: a lease may be inserted only for a
    card whose row the transaction has locked, after a later statement found
    no active lease of it. Interleavings of guarded transactions keep leases
    exclusive, and they end. *)
From Stdlib Require Import ZArith Ascii String.
From S2P Require Import Prelude Values Authority Models Graph PanelValidator Artifacts.
From S2P Require Import RuntimeService MemoryRuntime MemorySpec MemoryInvariant Pydantic Sql.
From S2P Require Import PostgresRuntime PostgresSpec PostgresInvariant Transactions.
Open Scope string_scope.
Open Scope list_scope.

(** ** Interleavings end *)
Section termination.
Context `{Oracle} `{Networkx} `{Pydantic} `{Sql} {A : Type}.

Definition proc_next (p' p : proc A) : Prop :=
  exists others d d', proc_step others d p = Some (d', p').

Lemma finished_acc (r : res A) : Acc proc_next (Finished r).
Proof. constructor. by intros p' (others & d & d' & ?). Qed.

Lemma running_acc (rest : txn A) : forall waiting locks writes, Acc proc_next (Running waiting locks writes rest).
Proof.
  induction rest as [a|x|k IH|k IH|B q k IH|where_ k IH|w x k IH|i t k IH]; intros waiting locks writes;
    try (constructor; intros p' (others & d & d' & Hs); cbn in Hs).
  - injection Hs as _ <-. apply finished_acc.
  - injection Hs as _ <-. apply finished_acc.
  - injection Hs as _ <-. apply IH.
  - injection Hs as _ <-. apply IH.
  - injection Hs as _ <-. apply IH.
  - assert (Hw : forall snapshot cs locks, Acc proc_next (Running (Some (snapshot, cs)) locks writes (SelectForUpdate where_ k))).
    { intros snapshot cs. induction cs as [|c cs IHc]; intros locks'; constructor;
        intros p1 (others1 & d1 & d1' & Hs1); cbn in Hs1.
      - injection Hs1 as _ <-. apply IH.
      - destruct (locked _ _); [done|]. destruct (sql_select _ (pg_cards (view d1.1 writes))) as [|c' cs']; [injection Hs1 as _ <-; apply IHc|].
        destruct (where_ snapshot c'); injection Hs1 as _ <-; [apply IH | apply IHc]. }
    destruct waiting as [[snapshot cs]|]; [|injection Hs as _ <-; apply Hw].
    apply (Acc_inv (Hw snapshot cs locks)). by exists others, d, d'.
  - destruct (written _ _); [done|]. destruct (perform _ _); injection Hs as _ <-; [apply IH|].
    constructor. intros p' (? & ? & ? & Hs). cbn in Hs. injection Hs as _ <-. apply finished_acc.
  - destruct (written _ _); [done|]. destruct (released_in _ _ _).2; injection Hs as _ <-; apply IH.
Qed.

Lemma proc_acc (p : proc A) : Acc proc_next p.
Proof. destruct p; [apply running_acc | apply finished_acc]. Qed.

(** One of the transactions advances. *)
Definition procs_next (ps' ps : list (proc A)) : Prop :=
  exists i p p', ps !! i = Some p /\ proc_next p' p /\ ps' = <[i := p']> ps.

Lemma procs_acc (ps : list (proc A)) : Acc procs_next ps.
Proof.
  induction ps as [|p ps IH].
  { constructor. by intros ps' (i & p & p' & ? & _). }
  pose proof (proc_acc p) as Hp. revert ps IH. induction Hp as [p _ IHp]. intros ps Hps.
  pose proof Hps as Hps'. induction Hps' as [ps _ IHps]. constructor.
  intros ps' ([|i] & q & q' & Hq & Hnext & ->); cbn in *.
  - injection Hq as <-. by apply IHp.
  - apply IHps; [by exists i, q, q'|]. apply Hps. by exists i, q, q'.
Qed.

Definition sys_next (s' s : system A) : Prop := exists i, sys_step i s = Some s'.

Lemma sys_step_inv i (s s' : system A) : sys_step i s = Some s' -> exists p p', sy_procs s !! i = Some p /\
  proc_step (delete i (sy_procs s)) (sy_db s) p = Some (sy_db s', p') /\
  sy_procs s' = <[i := p']> (sy_procs s).
Proof.
  unfold sys_step. destruct (sy_procs s !! i) as [p|] eqn:Ep; [|done].
  destruct (proc_step _ _ _) as [[d p']|] eqn:Es; [|done]. intros [= <-]. by exists p, p'.
Qed.

Lemma sys_acc (s : system A) : Acc sys_next s.
Proof.
  remember (sy_procs s) as ps eqn:Eps. pose proof (procs_acc ps) as Hacc.
  revert s Eps. induction Hacc as [ps _ IH]. intros s ->. constructor. intros s' [i Hs].
  apply sys_step_inv in Hs as (p & p' & Hp & Hstep & Hprocs).
  eapply IH; [|done]. exists i, p, p'. split; [done|]. split; [|done]. by eexists _, _, _.
Qed.
End termination.

(** ** The judgement *)
Section guarded.
Context `{OracleLaws} `{Networkx} `{Pydantic} `{SqlLaws} {A : Type}.

(** What a transaction knows about its card: nothing; that it has locked its
    row (and the instant it has read since); that no committed lease of it is
    active; that besides it has inserted one. *)
Inductive phase : Type :=
  | Unlocked
  | Locked (seen : option datetime)
  | Free
  | Inserted.

Definition leased (st : PgRuntime) (card_id : UUID) (t : datetime) : bool :=
  existsb (fun l => bool_decide (ls_card_id l = card_id) && lease_row_active t l) (sql_rows (pg_leases st)).

Definition ends (p : txn A) : Prop := (exists a, p = Return a) \/ (exists x, p = Throw x).

Fixpoint guarded (card_id : UUID) (ph : phase) (p : txn A) : Prop :=
  match p with
  | Return _ | Throw _ => True
  | Clock k => forall t, guarded card_id (match ph with Locked _ => Locked (Some t) | _ => ph end) (k t)
  | Fresh k => forall i, guarded card_id ph (k i)
  | Select q k => forall st,
      match ph with
      | Locked (Some t) => guarded card_id (if leased st card_id t then ph else Free) (k (q st))
      | _ => guarded card_id ph (k (q st))
      end
  | SelectForUpdate where_ k =>
      ph = Unlocked /\ (forall st c, where_ st c = true -> cd_id c = card_id) /\
      guarded card_id Unlocked (k None) /\ (forall c, guarded card_id (Locked None) (k (Some c)))
  | Insert (W_lease l) _ k => ph = Free /\ ls_card_id l = card_id /\ guarded card_id Inserted k
  | Insert (W_record _) _ k => ends k
  | Insert _ _ _ => False
  | Release _ _ k => ph = Unlocked /\ forall n, ends (k n)
  end.

(** ** What a transaction holds *)
Implicit Types (d : PgRuntime * Env) (p : proc A) (s : system A).

(** No committed lease of the card is active now or later. *)
Definition free (card_id : UUID) d : Prop :=
  forall l t, l ∈ sql_rows (pg_leases d.1) -> ls_card_id l = card_id -> time_reached d.2 t ->
  ~ lease_active_at l t.

Definition no_lease (w : write) : Prop := match w with W_lease _ => False | _ => True end.

(** The writes of an open transaction may be committed. *)
Definition committable d (locks : list UUID) (writes : list write) : Prop :=
  Forall no_lease writes \/
  exists l more, writes = W_lease l :: more /\ Forall no_lease more /\ ls_card_id l ∈ locks /\
    free (ls_card_id l) d.

Definition holds (card_id : UUID) (ph : phase) d (locks : list UUID) (writes : list write) : Prop :=
  match ph with
  | Unlocked => locks = [] /\ writes = []
  | Locked seen => locks = [card_id] /\ writes = [] /\
      (forall t, seen = Some t -> exists us, t = Aware us /\ forall t', time_reached d.2 t' -> (us <= t')%Z)
  | Free => locks = [card_id] /\ writes = [] /\ free card_id d
  | Inserted => locks = [card_id] /\ (exists l, writes = [W_lease l] /\ ls_card_id l = card_id) /\
      free card_id d
  end.

Inductive proc_ok d : proc A -> Prop :=
  | ok_finished r : proc_ok d (Finished r)
  | ok_ends waiting locks writes rest :
      ends rest -> committable d locks writes -> proc_ok d (Running waiting locks writes rest)
  | ok_guarded card_id ph waiting locks writes rest :
      guarded card_id ph rest -> holds card_id ph d locks writes ->
      proc_ok d (Running waiting locks writes rest).

Lemma holds_committable card_id ph d locks writes : holds card_id ph d locks writes -> committable d locks writes.
Proof.
  destruct ph; cbn.
  - intros [-> ->]. left. constructor.
  - intros (-> & -> & _). left. constructor.
  - intros (-> & -> & _). left. constructor.
  - intros (-> & (l & -> & <-) & Hf). right. exists l, []. split; [done|]. split; [constructor|].
    split; [by left | done].
Qed.

Lemma proc_ok_committable d w locks writes rest :
  proc_ok d (Running w locks writes rest) -> committable d locks writes.
Proof. inversion 1; subst; [done | by eapply holds_committable]. Qed.

(** The invariant of an interleaving. *)
Record sys_ok s : Prop := {
  so_leases : lease_inv (sql_rows (pg_leases (sy_db s).1)) (sy_db s).2;
  so_procs p : p ∈ sy_procs s -> proc_ok (sy_db s) p;
  so_locks i j p q c : sy_procs s !! i = Some p -> sy_procs s !! j = Some q ->
    c ∈ proc_locks p -> c ∈ proc_locks q -> i = j;
}.

(** Changes of the database that others make: time passes, leases are
    released, leases of other cards are inserted. *)
Definition harmless (locks : list UUID) d d' : Prop :=
  env_le d.2 d'.2 /\
  forall l, l ∈ sql_rows (pg_leases d'.1) ->
    ls_card_id l ∉ locks \/
    exists l0, l0 ∈ sql_rows (pg_leases d.1) /\ ls_card_id l0 = ls_card_id l /\
      (forall t, lease_active_at l t -> lease_active_at l0 t).

Lemma harmless_free card_id locks d d' : harmless locks d d' -> card_id ∈ locks -> free card_id d -> free card_id d'.
Proof.
  intros [He Hl] Hin Hf l t Hr Hc Ht Ha. destruct (Hl l Hr) as [Hn | (l0 & Hr0 & Hc0 & Ha0)].
  - by rewrite Hc in Hn.
  - apply (Hf l0 t); [done | congruence | by eapply time_reached_le | by apply Ha0].
Qed.

Lemma proc_ok_harmless d d' p : harmless (proc_locks p) d d' -> proc_ok d p -> proc_ok d' p.
Proof.
  intros Hh Hok. pose proof (proj1 Hh) as He. destruct Hok as [r|w locks writes rest Hends Hc|X ph w locks writes rest Hg Hph].
  - constructor.
  - apply ok_ends; [done|]. destruct Hc as [Hc | (l & more & -> & Hm & Hin & Hf)]; [by left|].
    right. exists l, more. do 3 (split; [done|]). by eapply harmless_free.
  - apply (ok_guarded _ X ph); [done|]. destruct ph; cbn in *; [done | | |].
    + destruct Hph as (-> & -> & Hs). do 2 (split; [done|]). intros t Ht.
      destruct (Hs t Ht) as (us & -> & Hus). exists us. split; [done|]. intros t' Ht'.
      apply Hus. by eapply time_reached_le.
    + destruct Hph as (-> & -> & Hf). do 2 (split; [done|]). eapply harmless_free; [done | by left | done].
    + destruct Hph as (-> & Hw & Hf). do 2 (split; [done|]). eapply harmless_free; [done | by left | done].
Qed.

Lemma harmless_env st e e' locks : env_le e e' -> harmless locks (st, e) (st, e').
Proof. intros He. split; [done|]. intros l Hl. right. by exists l. Qed.

(** ** Commits *)
Definition weakens (st st' : PgRuntime) : Prop :=
  forall l, l ∈ sql_rows (pg_leases st') -> exists l0, l0 ∈ sql_rows (pg_leases st) /\
    ls_card_id l0 = ls_card_id l /\ (forall t, lease_active_at l t -> lease_active_at l0 t).

Lemma weakens_refl st : weakens st st.
Proof. intros l Hl. by exists l. Qed.
Lemma weakens_trans st1 st2 st3 : weakens st1 st2 -> weakens st2 st3 -> weakens st1 st3.
Proof.
  intros H12 H23 l Hl. destruct (H23 l Hl) as (l2 & Hl2 & Hc2 & Ha2).
  destruct (H12 l2 Hl2) as (l1 & Hl1 & Hc1 & Ha1). exists l1. split; [done|]. split; [congruence | auto].
Qed.

Lemma put_in_leases {Row} (p : place Row) r st st' `{!Outside p} :
  put_in p r st = Some st' -> pg_leases st' = pg_leases st.
Proof.
  unfold put_in. destruct (sql_insert _ _ _) as [t|]; [|done]. intros [= <-].
  pose proof (outside (p := p) t st) as Ho. by injection Ho.
Qed.

Lemma perform_weakens w st e : no_lease w -> lease_inv (sql_rows (pg_leases st)) e ->
  let st' := default st (perform w st) in
  lease_inv (sql_rows (pg_leases st')) e /\ weakens st st'.
Proof.
  intros Hw Hi. cbv zeta. destruct (perform w st) as [st'|] eqn:Ep; cbn [default from_option id];
    [|split; [done | apply weakens_refl]].
  destruct w as [l|ev|r|i t]; [done | | |]; cbn [perform] in Ep.
  1,2: apply put_in_leases in Ep; [|apply _]; split; [by rewrite Ep|];
    unfold weakens; rewrite Ep; apply weakens_refl.
  injection Ep as <-. unfold released_in. destruct (sql_update _ _ _) as [t' n] eqn:Eu.
  pose proof (sql_update_rows (releasable i) (lease_with_released t) (pg_leases st)) as Hrows.
  rewrite Eu in Hrows. cbn in *. split.
  - eapply lease_inv_perm; [by symmetry|]. by apply lease_inv_release.
  - intros l. cbn. rewrite Hrows. intros (l0 & -> & Hl0)%list_elem_of_fmap. exists l0.
    split; [done|]. destruct (releasable i l0); split; try done. by intros t0 [? _].
Qed.

Lemma view_weakens writes : forall st e, Forall no_lease writes -> lease_inv (sql_rows (pg_leases st)) e ->
  lease_inv (sql_rows (pg_leases (view st writes))) e /\ weakens st (view st writes).
Proof.
  unfold view. induction writes as [|w writes IH]; intros st e Hw Hi; [split; [done | apply weakens_refl]|].
  apply Forall_cons in Hw as [Hw Hws]. destruct (perform_weakens w st e Hw Hi) as [Hi1 Hwk]. cbn [foldl].
  destruct (IH _ e Hws Hi1) as [Hi2 Hwk2]. split; [done|]. by eapply weakens_trans.
Qed.

Lemma weakens_harmless st st' e locks : weakens st st' -> harmless locks (st, e) (st', e).
Proof. intros Hw. split; [done|]. intros l Hl. right. by apply Hw. Qed.

(** Committing inserts at most a lease of a locked card that was free. *)
Lemma commit_ok st e locks writes :
  lease_inv (sql_rows (pg_leases st)) e -> committable (st, e) locks writes ->
  lease_inv (sql_rows (pg_leases (view st writes))) e /\
  forall others, (forall c, c ∈ locks -> c ∉ others) -> harmless others (st, e) (view st writes, e).
Proof.
  intros Hi [Hn | (l & more & -> & Hm & Hin & Hf)].
  { destruct (view_weakens writes st e Hn Hi) as [Hv Hw]. split; [done|]. intros others _.
    by apply weakens_harmless. }
  set (st1 := default st (perform (W_lease l) st)).
  assert (Hst1 : lease_inv (sql_rows (pg_leases st1)) e /\
    forall x, x ∈ sql_rows (pg_leases st1) -> x = l \/ x ∈ sql_rows (pg_leases st)).
  { unfold st1. cbn [perform]. unfold put_in. destruct (sql_insert _ _ _) as [t|] eqn:Es; cbn; [|auto].
    pose proof (sql_insert_rows _ _ _ _ Es) as Hrows. cbn in Hrows. split.
    - eapply lease_inv_perm; [by symmetry|]. eapply lease_inv_insert; [exact Hi | split; lia | |].
      + intros x Hx Hid. enough (sql_insert (pl_same_key _ leases) l (pg_leases st) = None) by (cbn in *; congruence).
        apply sql_insert_conflict. exists x. split; [done|]. cbn. by apply bool_decide_eq_true.
      + intros x t' Hx Hc Ht. by apply Hf.
    - intros x. rewrite Hrows, elem_of_cons. tauto. }
  destruct Hst1 as [Hi1 Hrows1].
  change (view st (W_lease l :: more)) with (view st1 more).
  destruct (view_weakens more st1 e Hm Hi1) as [Hv Hw]. split; [done|].
  intros others Hdis. split; [done|]. intros x Hx. destruct (Hw x Hx) as (y & Hy & Hyc & Hya).
  destruct (Hrows1 y Hy) as [->|Hy0].
  - left. rewrite <- Hyc. by apply Hdis.
  - right. by exists y.
Qed.

(** ** Steps *)
Lemma not_ends (rest : txn A) : ends rest -> match rest with Return _ | Throw _ => True | _ => False end.
Proof. by intros [[a ->] | [x ->]]. Qed.

(** What is left of a transaction that has not come to its end. *)
Lemma proc_ok_guarded d w locks writes rest : proc_ok d (Running w locks writes rest) -> ~ ends rest ->
  exists card_id ph, guarded card_id ph rest /\ holds card_id ph d locks writes.
Proof. inversion 1; subst; [done|]. intros _. eauto. Qed.

Record step_ok (others : list (proc A)) d p d' p' : Prop := {
  st_leases : lease_inv (sql_rows (pg_leases d'.1)) d'.2;
  st_proc : proc_ok d' p';
  st_others q : q ∈ others -> harmless (proc_locks q) d d';
  st_locks c : c ∈ proc_locks p' -> c ∈ proc_locks p \/ locked c others = false;
}.

Lemma step_same others d p p' : lease_inv (sql_rows (pg_leases d.1)) d.2 -> proc_ok d p' ->
  proc_locks p' = proc_locks p -> step_ok others d p d p'.
Proof.
  intros Hi Hp Hl. split; [done | done | |]; [|rewrite Hl; auto].
  intros q _. destruct d. by apply harmless_env.
Qed.

Lemma step_env others st e e' p p' : env_le e e' -> lease_inv (sql_rows (pg_leases st)) e -> proc_ok (st, e') p' ->
  proc_locks p' = proc_locks p -> step_ok others (st, e) p (st, e') p'.
Proof.
  intros He Hi Hp Hl. split; cbn; [by eapply lease_inv_env | done | | rewrite Hl; auto].
  intros q _. by apply harmless_env.
Qed.

Lemma holds_env card_id ph st e e' locks writes : env_le e e' ->
  holds card_id ph (st, e) locks writes -> holds card_id ph (st, e') locks writes.
Proof.
  intros He Hh. assert (Hf : free card_id (st, e) -> free card_id (st, e')).
  { eapply (harmless_free _ [card_id]); [by apply harmless_env | by left]. }
  destruct ph; cbn in *; [done | | tauto | tauto].
  destruct Hh as (-> & -> & Hs). do 2 (split; [done|]). intros t Ht.
  destruct (Hs t Ht) as (us & -> & Hus). exists us. split; [done|]. intros t' Ht'. apply Hus. by eapply time_reached_le.
Qed.

Lemma holds_clock card_id ph st e locks writes : holds card_id ph (st, e) locks writes ->
  holds card_id (match ph with Locked _ => Locked (Some (Aware (clock_at (now_ctr e)))) | _ => ph end)
    (st, tick e) locks writes.
Proof.
  intros Hh%(holds_env _ _ _ e (tick e)); [|split; cbn; lia].
  destruct ph; try done. destruct Hh as (-> & -> & _). do 2 (split; [done|]). intros t [= <-].
  eexists. split; [done|]. intros t' Ht'. apply Ht'. cbn. lia.
Qed.

(** A look at the leases of the card tells whether it is free. *)
Lemma leased_free d card_id us : (forall t', time_reached d.2 t' -> (us <= t')%Z) ->
  leased d.1 card_id (Aware us) = false -> free card_id d.
Proof.
  intros Hus Hl l t Hr Hc Ht Ha. assert (Hact : lease_row_active (Aware us) l = true).
  { apply lease_row_active_at. eapply lease_active_mono; [by apply Hus | done]. }
  enough (leased d.1 card_id (Aware us) = true) by congruence.
  apply existsb_true. exists l. split; [done|]. rewrite Hact, andb_true_r. by apply bool_decide_eq_true.
Qed.

Lemma holds_select card_id seen d locks writes t : holds card_id (Locked seen) d locks writes -> seen = Some t ->
  holds card_id (if leased (view d.1 writes) card_id t then Locked seen else Free) d locks writes.
Proof.
  intros (-> & -> & Hs) Ht. change (view d.1 []) with d.1. destruct (leased d.1 card_id t) eqn:El; [done|].
  do 2 (split; [done|]). destruct (Hs t Ht) as (us & -> & Hus). by eapply leased_free.
Qed.

Lemma proc_step_ok others d p d' p' :
  proc_step others d p = Some (d', p') -> lease_inv (sql_rows (pg_leases d.1)) d.2 -> proc_ok d p ->
  (forall q c, q ∈ others -> c ∈ proc_locks p -> c ∉ proc_locks q) -> step_ok others d p d' p'.
Proof.
  destruct p as [w locks writes rest|r]; [|done]. intros Hs Hi Hok Hdis. cbn in Hs.
  pose proof (proc_ok_committable _ _ _ _ _ Hok) as Hcm.
  destruct rest as [a|x|k|k|B q k|where_ k|wr x k|i t k];
    try (destruct (proc_ok_guarded _ _ _ _ _ Hok) as (X & ph & Hg & Hh); [by intros ?%not_ends|]; cbn in Hg).
  - injection Hs as <- <-. destruct d as [st e]. destruct (commit_ok st e locks writes Hi Hcm) as [Hv Ho].
    split; cbn; [done | constructor | | by intros c ?%elem_of_nil].
    intros q Hq. apply Ho. intros c Hc. by apply Hdis.
  - injection Hs as <- <-. split; cbn; [done | constructor | | by intros c ?%elem_of_nil].
    intros q _. destruct d. by apply harmless_env.
  - injection Hs as <- <-. destruct d as [st e]. apply step_env; [split; cbn; lia | done | | done].
    eapply ok_guarded; [apply Hg | by apply holds_clock].
  - injection Hs as <- <-. destruct d as [st e]. apply step_env; [split; cbn; lia | done | | done].
    eapply ok_guarded; [apply Hg|]. eapply holds_env; [|done]. split; cbn; lia.
  - injection Hs as <- <-. apply step_same; [done | | done]. specialize (Hg (view d.1 writes)).
    destruct ph as [|[t|]| |]; try (by eapply ok_guarded).
    eapply ok_guarded; [exact Hg | by apply holds_select].
  - destruct Hg as (-> & Hwhere & Hnone & Hsome). cbn in Hh. destruct Hh as [-> ->].
    destruct w as [[snapshot [|c cs]]|].
    + injection Hs as <- <-. apply step_same; [done | | done]. eapply ok_guarded; [exact Hnone | done].
    + destruct (locked (cd_id c) others) eqn:El; [done|].
      destruct (sql_select _ (pg_cards (view d.1 []))) as [|c' cs'] eqn:Ec.
      { injection Hs as <- <-. apply step_same; [done | | done]. by apply (ok_guarded _ X Unlocked). }
      destruct (where_ snapshot c') eqn:Ew; injection Hs as <- <-.
      * assert (Hid : cd_id c' = cd_id c).
        { assert (Hin : c' ∈ sql_select (fun c' => bool_decide (cd_id c' = cd_id c)) (pg_cards (view d.1 [])))
            by (rewrite Ec; by left).
          by apply elem_of_select in Hin as [_ ?%bool_decide_eq_true]. }
        split; cbn; [done | | |].
        -- apply (ok_guarded _ X (Locked None)); [apply Hsome|]. split; [|done].
           f_equal. rewrite <- Hid. by eapply Hwhere.
        -- intros q _. destruct d. by apply harmless_env.
        -- intros c0 ->%list_elem_of_singleton. by right.
      * apply step_same; [done | | done]. by apply (ok_guarded _ X Unlocked).
    + injection Hs as <- <-. apply step_same; [done | | done]. by apply (ok_guarded _ X Unlocked).
  - destruct (written wr others); [done|].
    destruct (perform wr (view d.1 writes)); injection Hs as <- <-; apply step_same; try done;
      [|apply ok_ends; [right; by eexists | done]].
    destruct wr as [l|ev|r|i t]; [| done | | done].
    + destruct Hg as (-> & Hc & Hk). destruct Hh as (-> & -> & Hf). eapply ok_guarded; [exact Hk|].
      split; [done|]. split; [|done]. by exists l.
    + apply ok_ends; [done|]. destruct Hcm as [Hn | (l & more & -> & Hm & Hin & Hf)].
      * left. apply Forall_app. by split; [|repeat constructor].
      * right. exists l, (more ++ [W_record r]). split; [done|]. split; [|done].
        apply Forall_app. by split; [|repeat constructor].
  - destruct Hg as [-> Hk]. destruct Hh as [-> ->]. destruct (written _ _); [done|].
    destruct (released_in _ _ _).2; injection Hs as <- <-; apply step_same; try done;
      (apply ok_ends; [apply Hk|]); left; repeat constructor.
Qed.

(** ** Runs *)
Lemma delete_others (ps : list (proc A)) i q : q ∈ delete i ps <-> exists j, j <> i /\ ps !! j = Some q.
Proof.
  rewrite list_elem_of_lookup. split.
  - intros [j Hj]. destruct (decide (j < i)) as [Hlt|Hge].
    + rewrite list_lookup_delete_lt in Hj by done. exists j. split; [lia | done].
    + rewrite list_lookup_delete_ge in Hj by lia. exists (S j). split; [lia | done].
  - intros (j & Hne & Hj). destruct (decide (j < i)) as [Hlt|Hge].
    + exists j. by rewrite list_lookup_delete_lt.
    + exists (pred j). rewrite list_lookup_delete_ge by lia. by replace (S (pred j)) with j by lia.
Qed.

Lemma locked_false c (others : list (proc A)) : locked c others = false <->
  forall q, q ∈ others -> c ∉ proc_locks q.
Proof.
  unfold locked. rewrite <- not_true_iff_false, existsb_true. split.
  - intros Hn q Hq Hc. apply Hn. exists q. split; [done|]. by apply bool_decide_eq_true.
  - intros Hall (q & Hq & Hc%bool_decide_eq_true). by apply (Hall q).
Qed.

Lemma sys_step_ok i s s' : sys_step i s = Some s' -> sys_ok s -> sys_ok s'.
Proof.
  intros (p & p' & Hp & Hstep & Hprocs)%sys_step_inv [Hi Hok Hlocks].
  assert (Hlt : i < length (sy_procs s)) by by eapply lookup_lt_Some.
  assert (Hdis : forall q c, q ∈ delete i (sy_procs s) -> c ∈ proc_locks p -> c ∉ proc_locks q).
  { intros q c (j & Hne & Hq)%delete_others Hc Hcq. apply Hne. by eapply Hlocks. }
  destruct (proc_step_ok _ _ _ _ _ Hstep Hi) as [Hi' Hp' Ho Hl]; [|done|].
  { apply Hok. by eapply list_elem_of_lookup_2. }
  split; [done | |].
  - rewrite Hprocs. intros q (j & Hj)%list_elem_of_lookup. destruct (decide (j = i)) as [->|Hne].
    + rewrite list_lookup_insert_eq in Hj by done. by injection Hj as <-.
    + rewrite list_lookup_insert_ne in Hj by done. eapply proc_ok_harmless.
      * apply Ho, delete_others. by exists j.
      * apply Hok. by eapply list_elem_of_lookup_2.
  - assert (Hcross : forall j q c, j <> i -> sy_procs s !! j = Some q -> c ∈ proc_locks p' -> c ∈ proc_locks q -> False).
    { intros j q c Hne Hq Hc Hcq. destruct (Hl c Hc) as [Hc'|Hfree].
      - apply Hne. by eapply Hlocks.
      - eapply (proj1 (locked_false _ _)); [exact Hfree | apply delete_others; by exists j | done]. }
    rewrite Hprocs. intros j1 j2 q1 q2 c Hq1 Hq2 Hc1 Hc2.
    destruct (decide (j1 = i)) as [->|Hn1], (decide (j2 = i)) as [->|Hn2]; [done | | |].
    + rewrite list_lookup_insert_eq in Hq1 by done. injection Hq1 as <-.
      rewrite list_lookup_insert_ne in Hq2 by done. by destruct (Hcross j2 q2 c).
    + rewrite list_lookup_insert_eq in Hq2 by done. injection Hq2 as <-.
      rewrite list_lookup_insert_ne in Hq1 by done. by destruct (Hcross j1 q1 c).
    + rewrite list_lookup_insert_ne in Hq1, Hq2 by done. by eapply Hlocks.
Qed.

Lemma start_ok d ps : lease_inv (sql_rows (pg_leases d.1)) d.2 ->
  Forall (fun rest => exists card_id, guarded card_id Unlocked rest) ps -> sys_ok (start_all d ps).
Proof.
  intros Hi Hps. split; [done | |]; cbn [sy_procs sy_db start_all].
  - intros p (t & -> & Ht)%list_elem_of_fmap. apply (proj1 (Forall_forall _ _) Hps) in Ht as [X Hg].
    by apply (ok_guarded _ X Unlocked).
  - intros i j p q c Hp Hq. rewrite list_lookup_fmap in Hp, Hq.
    destruct (ps !! i); [|done]. destruct (ps !! j); [|done]. injection Hp as <-.
    by intros ?%elem_of_nil.
Qed.

Lemma run_schedule_ok sched : forall s, sys_ok s -> sys_ok (run_schedule sched s).
Proof.
  induction sched as [|i sched IH]; intros s Hs; cbn [run_schedule]; [done|]. apply IH.
  destruct (sys_step i s) as [s'|] eqn:E; [by eapply sys_step_ok | done].
Qed.

(** ** No deadlock

    A transaction that holds a lock, a lease or a record can be waited for;
    what it can wait for itself is strictly further. *)
Lemma written_by w (others : list (proc A)) : written w others = true ->
  exists q w', q ∈ others /\ w' ∈ proc_writes q /\ same_row w w' = true.
Proof.
  unfold written. rewrite existsb_true. intros (q & Hq & (w' & Hw' & Hs)%existsb_true). by exists q, w'.
Qed.

(** Whoever wrote a record or released a lease is at its end. *)
Lemma record_ends d w locks writes rest w' : proc_ok d (Running w locks writes rest) -> w' ∈ writes ->
  no_lease w' -> ends rest.
Proof.
  inversion 1 as [| |X ph ? ? ? ? Hg Hh]; subst; [done|]. intros Hw Hn. destruct ph; cbn in Hh.
  - destruct Hh as [_ ->]. by apply elem_of_nil in Hw.
  - destruct Hh as (_ & -> & _). by apply elem_of_nil in Hw.
  - destruct Hh as (_ & -> & _). by apply elem_of_nil in Hw.
  - destruct Hh as (_ & (l & -> & _) & _). by apply list_elem_of_singleton in Hw as ->.
Qed.

(** What a transaction that cannot step waits for. *)
Inductive waits_for (others : list (proc A)) : txn A -> Prop :=
  | waits_lock where_ k c : locked c others = true -> waits_for others (SelectForUpdate where_ k)
  | waits_insert w x k : written w others = true -> waits_for others (Insert w x k)
  | waits_release i t k : written (W_release i t) others = true -> waits_for others (Release i t k).

Lemma blocked_waits others d w locks writes rest :
  proc_step others d (Running w locks writes rest) = None -> waits_for others rest.
Proof.
  intros Hs. destruct rest as [a|x|k|k|B q k|where_ k|wr x k|i t k]; cbn in Hs; try done.
  - destruct w as [[snapshot [|c cs]]|]; [done | | done]. destruct (locked (cd_id c) others) eqn:El;
      [by econstructor|]. destruct (sql_select _ (pg_cards (view d.1 writes))); [done|]. by destruct (where_ _ _).
  - destruct (written wr others) eqn:Ew; [by constructor|]. by destruct (perform _ _).
  - destruct (written (W_release i t) others) eqn:Ew; [by constructor|]. by destruct (released_in _ _ _).2.
Qed.

Section stuck.
Context (s : system A) (Hok : sys_ok s) (stuck : forall i, sys_step i s = None).

Lemma stuck_waits i w locks writes rest :
  sy_procs s !! i = Some (Running w locks writes rest) -> waits_for (delete i (sy_procs s)) rest.
Proof.
  intros Hi. specialize (stuck i). unfold sys_step in stuck. rewrite Hi in stuck.
  destruct (proc_step _ _ _) as [[d p']|] eqn:E; [done|]. by eapply blocked_waits.
Qed.

Lemma stuck_proc p : p ∈ sy_procs s -> proc_ok (sy_db s) p /\
  forall w locks writes rest, p = Running w locks writes rest -> waits_for (sy_procs s) rest.
Proof.
  intros Hp. split; [by apply (so_procs _ Hok)|]. intros w locks writes rest ->.
  apply list_elem_of_lookup in Hp as [i Hi]. pose proof (stuck_waits _ _ _ _ _ Hi) as Hw.
  assert (Hsub : forall q, q ∈ delete i (sy_procs s) -> q ∈ sy_procs s).
  { intros q (j & _ & Hj)%delete_others. by eapply list_elem_of_lookup_2. }
  destruct Hw as [where_ k c Hl|w' x k Hw|j t k Hw].
  - apply (waits_lock _ _ _ c). unfold locked in *. apply existsb_true in Hl as (q & Hq & Hc).
    apply existsb_true. exists q. auto.
  - apply waits_insert. unfold written in *. apply existsb_true in Hw as (q & Hq & Hc).
    apply existsb_true. exists q. auto.
  - apply waits_release. unfold written in *. apply existsb_true in Hw as (q & Hq & Hc).
    apply existsb_true. exists q. auto.
Qed.

Lemma stuck_no_other_write p w : p ∈ sy_procs s -> w ∈ proc_writes p -> ~ no_lease w.
Proof.
  intros Hp Hw Hn. destruct (stuck_proc p Hp) as [Hpok Hwait].
  destruct p as [wt locks writes rest|r]; [|by apply elem_of_nil in Hw].
  pose proof (record_ends _ _ _ _ _ _ Hpok Hw Hn) as He%not_ends.
  specialize (Hwait _ _ _ _ eq_refl). by destruct Hwait.
Qed.

(** Nobody waits for a record or to release a lease. *)
Lemma stuck_row w : written w (sy_procs s) = true -> exists l l', w = W_lease l /\
  exists p, p ∈ sy_procs s /\ W_lease l' ∈ proc_writes p.
Proof.
  intros (q & w' & Hq & Hw' & Hs)%written_by. pose proof (stuck_no_other_write q w' Hq Hw') as Hn.
  destruct w' as [l'| | |]; [|by destruct Hn ..]. destruct w as [l| | |]; try done. exists l, l'.
  split; [done|]. by exists q.
Qed.

Lemma stuck_no_lease p l : p ∈ sy_procs s -> W_lease l ∉ proc_writes p.
Proof.
  intros Hp Hw. destruct (stuck_proc p Hp) as [Hpok Hwait].
  destruct p as [wt locks writes rest|r]; [|by apply elem_of_nil in Hw].
  specialize (Hwait _ _ _ _ eq_refl).
  inversion Hpok as [|? ? ? ? He%not_ends|X ph ? ? ? ? Hg Hh]; subst; [by destruct Hwait|].
  destruct ph; cbn in Hh.
  - destruct Hh as [_ ->]. by apply elem_of_nil in Hw.
  - destruct Hh as (_ & -> & _). by apply elem_of_nil in Hw.
  - destruct Hh as (_ & -> & _). by apply elem_of_nil in Hw.
  - destruct Hwait as [where_ k c Hl|w x k Hwr|j t k Hwr]; cbn in Hg; [by destruct Hg | | by destruct Hg].
    apply stuck_row in Hwr as (l1 & l2 & -> & _). by destruct Hg.
Qed.

Lemma stuck_unwritten w : written w (sy_procs s) = false.
Proof.
  destruct (written w (sy_procs s)) eqn:Ew; [|done].
  apply stuck_row in Ew as (l & l' & _ & p & Hp & Hw). by destruct (stuck_no_lease p l').
Qed.

Lemma stuck_finished p : p ∈ sy_procs s -> finished p.
Proof.
  assert (Hlock : forall c, locked c (sy_procs s) = false).
  { intros c. apply locked_false. intros q Hq Hc. destruct (stuck_proc q Hq) as [Hqok Hwait].
    destruct q as [wt locks writes rest|r]; [|by apply elem_of_nil in Hc].
    specialize (Hwait _ _ _ _ eq_refl).
    inversion Hqok as [|? ? ? ? He%not_ends|X ph ? ? ? ? Hg Hh]; subst; [by destruct Hwait|].
    destruct Hwait as [where_ k c' Hl|w x k Hwr|j t k Hwr]; [|by rewrite stuck_unwritten in Hwr ..].
    destruct Hg as (-> & _). destruct Hh as [Hh _]. cbn in Hc. rewrite Hh in Hc. by apply elem_of_nil in Hc. }
  intros Hp. destruct (stuck_proc p Hp) as [_ Hwait]. destruct p as [wt locks writes rest|r]; [|by exists r].
  destruct (Hwait _ _ _ _ eq_refl) as [where_ k c Hl|w x k Hw|j t k Hw];
    [by rewrite Hlock in Hl | by rewrite stuck_unwritten in Hw ..].
Qed.
End stuck.
End guarded.
