(* ===== verification/LeaseTheorems.v ===== *)
(** * What the lease store guarantees

    Interleavings of [acquire_lease] and [release_lease] never leave a card
    with two active leases, and they all end. *)
From Stdlib Require Import ZArith Ascii String.
From S2P Require Import Prelude Values Authority Models Graph PanelValidator SystemPanels Artifacts.
From S2P Require Import RuntimeService MemoryRuntime MemorySpec MemoryInvariant Pydantic Sql.
From S2P Require Import PostgresRuntime PostgresSpec PostgresInvariant PostgresTheorems.
From S2P Require Import Transactions LeaseStore LeaseGuard.
Open Scope string_scope.
Open Scope list_scope.

Section guarantees.
Context `{OracleLaws} `{Networkx} `{Pydantic} `{SqlLaws}.
Implicit Types (d : PgRuntime * Env).

(** ** The programs of the store are guarded *)
Lemma guarded_checked {A B} card_id ph (r : res B) (k : B -> txn A) :
  (forall b, r = Ok b -> guarded card_id ph (k b)) -> guarded card_id ph (checked r k).
Proof. destruct r; cbn; auto. Qed.

Lemma guarded_unless_recorded {A} card_id key hit (body : txn A) :
  (forall c, guarded card_id Unlocked (hit c)) -> guarded card_id Unlocked body ->
  guarded card_id Unlocked (unless_recorded key hit body).
Proof.
  intros Hh Hb. unfold unless_recorded. destruct (truthy key); [|done]. intros st.
  by destruct (truthy _).
Qed.

Lemma guarded_record {A} card_id ph key operation ref (k : txn A) : ends k ->
  match ph with Locked _ => False | _ => True end ->
  guarded card_id ph (record_reference key operation ref k).
Proof.
  intros Hk Hph. unfold record_reference. destruct (truthy key).
  - intros t. exact Hk.
  - by destruct Hk as [[a ->] | [x ->]].
Qed.

Lemma leased_none card_id t st :
  sql_select (fun l => bool_decide (ls_card_id l = card_id) && lease_row_active t l) (pg_leases st) = [] ->
  leased st card_id t = false.
Proof.
  intros Hn. unfold leased. apply not_true_iff_false. intros (l & Hl & Ha)%existsb_true.
  by rewrite (proj1 (select_none _ _) Hn l Hl) in Ha.
Qed.

Lemma acquire_lease_guarded {A} card_id node worker pipe secs key (return_ : UUID -> A) :
  guarded card_id Unlocked (acquire_lease card_id node worker pipe secs key return_).
Proof.
  apply guarded_unless_recorded; [intros c; by apply guarded_checked|].
  cbn [guarded]. split; [done|]. split; [by intros _ c ?%bool_decide_eq_true|]. split; [done|].
  intros c t st. destruct (sql_select _ (pg_leases st)) as [|l ls] eqn:E; [|by destruct (leased _ _ _)].
  rewrite (leased_none _ _ _ E). intros i t1 t2. apply guarded_checked. intros expires_at _.
  cbn [guarded]. split; [done|]. split; [done|]. apply guarded_record; [|done]. left. by eexists.
Qed.

Lemma release_lease_guarded {A} card_id lease_id (return_ : A) :
  guarded card_id Unlocked (release_lease lease_id return_).
Proof.
  intros t. split; [done|]. intros [|n]; [right | left]; by eexists.
Qed.

(** Calls of the store, with what Python answers ([None] of a release). *)
Inductive store_call : txn (option UUID) -> Prop :=
  | call_acquire card_id node worker pipe secs key :
      store_call (acquire_lease card_id node worker pipe secs key Some)
  | call_release lease_id : store_call (release_lease lease_id None).

Lemma store_call_guarded p : store_call p -> exists card_id, guarded card_id Unlocked p.
Proof.
  intros [card_id| lease_id]; [exists card_id; apply acquire_lease_guarded|].
  exists 0%N. apply release_lease_guarded.
Qed.

Lemma store_calls_ok d ps sched : lease_inv (sql_rows (pg_leases d.1)) d.2 -> Forall store_call ps ->
  sys_ok (run_schedule sched (start_all d ps)).
Proof.
  intros Hi Hps. apply run_schedule_ok, start_ok; [done|].
  eapply Forall_impl; [exact Hps|]. apply store_call_guarded.
Qed.

(** C30. Mutual exclusion under concurrency: any number of calls of
    [acquire_lease] and [release_lease] run at the same time on a database
    the runtime has reached; whatever the order of their statements, at no
    instant that the clock has reached are two committed leases of a card
    active. *)
Theorem acquire_lease_excludes before e ps sched t l1 l2 :
  let s := run_schedule sched (start_all (pg_reached before e) ps) in
  Forall store_call ps -> time_reached (sy_db s).2 t ->
  l1 ∈ sql_rows (pg_leases (sy_db s).1) -> l2 ∈ sql_rows (pg_leases (sy_db s).1) ->
  ls_card_id l1 = ls_card_id l2 -> lease_active_at l1 t -> lease_active_at l2 t -> l1 = l2.
Proof.
  cbv zeta. intros Hps Ht H1' H2' Hc A1 A2.
  destruct (so_leases _ (store_calls_ok (pg_reached before e) ps sched
    (pi_leases _ _ (pg_reached_inv before e)) Hps)) as [Hnd Hex].
  eapply (NoDup_map_inj ls_id); [exact Hnd | done | done | by eapply Hex].
Qed.

Lemma run_schedule_app {A} sched1 sched2 : forall s : system A,
  run_schedule (sched1 ++ sched2) s = run_schedule sched2 (run_schedule sched1 s).
Proof. induction sched1 as [|i sched1 IH]; intros s; [done | apply IH]. Qed.

Lemma stuck_or_steps {A} (s : system A) :
  (forall i, sys_step i s = None) \/ exists i s', sys_step i s = Some s'.
Proof.
  destruct (List.find (fun i => bool_decide (is_Some (sys_step i s))) (seq 0 (length (sy_procs s)))) as [i|] eqn:E.
  - apply find_some in E as [_ [s' Hs]%bool_decide_eq_true]. right. by exists i, s'.
  - left. intros i. destruct (sys_step i s) as [s'|] eqn:Es; [|done].
    destruct (sys_step_inv _ _ _ Es) as (p & p' & Hp & _).
    pose proof (find_none _ _ E i) as Hn. cbv beta in Hn. rewrite Es in Hn.
    rewrite bool_decide_eq_true_2 in Hn by by eexists. enough (true = false) by done. apply Hn, in_seq.
    apply lookup_lt_Some in Hp. lia.
Qed.

Lemma can_finish (s : system (option UUID)) : sys_ok s ->
  exists sched, Forall finished (sy_procs (run_schedule sched s)).
Proof.
  pose proof (sys_acc s) as Hacc. induction Hacc as [s _ IH]. intros Hs.
  destruct (stuck_or_steps s) as [Hstuck | (i & s' & Hi)].
  - exists []. apply Forall_forall. intros p. by apply stuck_finished.
  - destruct (IH s') as [sched Hsched]; [by exists i | by eapply sys_step_ok|].
    exists (i :: sched). cbn [run_schedule]. by rewrite Hi.
Qed.

(** C31. The calls of the store end: no interleaving of [acquire_lease] and
    [release_lease] steps for ever; when none of the calls can step, all have
    answered or raised (there is no deadlock); and from wherever a schedule
    has brought them they can be finished. *)
Theorem store_calls_terminate before e ps sched :
  let s := run_schedule sched (start_all (pg_reached before e) ps) in
  Forall store_call ps ->
  Acc (fun s2 s1 => exists i, sys_step i s1 = Some s2) s /\
  ((forall i, sys_step i s = None) -> Forall finished (sy_procs s)) /\
  exists sched', Forall finished (sy_procs (run_schedule (sched ++ sched') (start_all (pg_reached before e) ps))).
Proof.
  cbv zeta. intros Hps.
  pose proof (store_calls_ok (pg_reached before e) ps sched (pi_leases _ _ (pg_reached_inv before e)) Hps) as Hok.
  split; [apply sys_acc|]. split.
  - intros Hstuck. apply Forall_forall. intros p. by apply stuck_finished.
  - destruct (can_finish _ Hok) as [sched' Hs]. exists sched'. by rewrite run_schedule_app.
Qed.
End guarantees.

(** ** Evaluated instances *)
Module Race.
Import PostgresTheorems.Demo.
#[local] Existing Instance tick_oracle.
#[local] Existing Instance tick_oracle_laws.
#[local] Existing Instance ListGraph.networkx.
#[local] Existing Instance ListSql.sql.
#[local] Existing Instance ListSql.sql_laws.
#[local] Existing Instance PostgresTheorems.Demo.pydantic.

(** One card waits. *)
#[local] Notation ready := (pg_reached created e0) (only parsing).

(** Both look for the row at the same time: the second call waits for it, then
    finds the lease and raises. *)
Definition two_acquires : list (txn (option UUID)) :=
  [acquire_lease 0 "maker" "w1" "take" 3600 None Some; acquire_lease 0 "maker" "w2" "take" 3600 (Some "k9") Some].

Definition acquiring : list nat := [0; 1; 1; 0; 1; 1] ++ repeat 0 8 ++ repeat 1 4.

Lemma two_acquires_calls : Forall store_call two_acquires.
Proof. repeat constructor. Qed.

Lemma acquired : exists l x,
  sy_procs (run_schedule acquiring (start_all ready two_acquires)) = [Finished (Ok (Some (ls_id l))); Finished (Raise (ConflictError x))] /\
  sql_rows (pg_leases (sy_db (run_schedule acquiring (start_all ready two_acquires))).1) = [l] /\
  ls_card_id l = 0%N /\
  lease_active_at l (clock_at (now_ctr (sy_db (run_schedule acquiring (start_all ready two_acquires))).2)).
Proof.
  eexists (mkLease _ _ _ _ _ _ _ _), _. split; [vm_compute; reflexivity|].
  split; [vm_compute; reflexivity|]. split; [reflexivity|].
  split; [reflexivity|]. eexists. split; [reflexivity|]. vm_compute. reflexivity.
Qed.

Lemma acquire_lease_excludes_witness : exists l,
  sql_rows (pg_leases (sy_db (run_schedule acquiring (start_all ready two_acquires))).1) = [l] /\
  lease_active_at l (clock_at (now_ctr (sy_db (run_schedule acquiring (start_all ready two_acquires))).2)) /\
  forall l', l' ∈ sql_rows (pg_leases (sy_db (run_schedule acquiring (start_all ready two_acquires))).1) ->
    ls_card_id l' = ls_card_id l ->
    lease_active_at l' (clock_at (now_ctr (sy_db (run_schedule acquiring (start_all ready two_acquires))).2)) ->
    l' = l.
Proof.
  destruct acquired as (l & x & _ & Hrows & Hc & Hact). exists l. split; [exact Hrows|]. split; [exact Hact|].
  pose proof (acquire_lease_excludes created e0 two_acquires acquiring) as Hex.
  cbv zeta in Hex. revert Hex Hrows Hact.
  generalize (sy_db (run_schedule acquiring (start_all ready two_acquires))). intros d Hex Hrows Hact l' Hl' Hc' Hact'.
  apply (Hex (clock_at (now_ctr d.2))).
  - exact two_acquires_calls.
  - intros n Hn. apply clock_mono. lia.
  - exact Hl'.
  - rewrite Hrows. left.
  - exact Hc'.
  - exact Hact'.
  - exact Hact.
Defined.

Lemma store_calls_terminate_witness :
  exists sched', Forall finished (sy_procs (run_schedule ([0; 1; 0] ++ sched') (start_all ready two_acquires))).
Proof.
  destruct (store_calls_terminate created e0 two_acquires [0; 1; 0] two_acquires_calls) as (_ & _ & Hs).
  exact Hs.
Defined.
End Race.
