(* ===== verification/ClaimRace.v ===== *)
(** * Two [claim_card]s at the same time

    [PostgresCardRuntime.claim_card] run alone is the transaction
    [LeaseStore.claim_txn]; two of them, run at the same time, can both lease
    one card. *)
From Stdlib Require Import ZArith Ascii String.
From S2P Require Import Prelude Values Authority Models Graph PanelValidator SystemPanels Artifacts.
From S2P Require Import RuntimeService MemoryRuntime MemorySpec MemoryInvariant Pydantic Sql.
From S2P Require Import PostgresRuntime PostgresSpec PostgresInvariant PostgresTheorems.
From S2P Require Import Transactions LeaseStore LeaseGuard.
Open Scope string_scope.
Open Scope list_scope.

(** ** [claim_card] as a transaction *)
Section claim.
Context `{Oracle} `{Networkx} `{Pydantic} `{Sql}.
Implicit Types (s : PgRuntime * Env).













End claim.

(** ** Steps of one transaction among others *)
Section steps.
Context `{Oracle} `{Networkx} `{Pydantic} `{Sql} {A : Type}.
Implicit Types (p : proc A) (s : system A) (d : PgRuntime * Env).






End steps.

(** ** One claim among others *)
Section one_claim.
Context `{Oracle} `{Networkx} `{Pydantic} `{SqlLaws}.
Implicit Types (d : PgRuntime * Env) (others : list (proc Lease)).










End one_claim.

(** ** Two claims *)
Section race.
Context `{OracleLaws} `{Networkx} `{Pydantic} `{SqlLaws}.
Implicit Types (d : PgRuntime * Env).









End race.

(** ** Evaluated instance *)
Module Race.
Import PostgresTheorems.Demo.
#[local] Existing Instance tick_oracle.
#[local] Existing Instance tick_oracle_laws.
#[local] Existing Instance ListGraph.networkx.
#[local] Existing Instance ListSql.sql.
#[local] Existing Instance ListSql.sql_laws.
#[local] Existing Instance PostgresTheorems.Demo.pydantic.

(** One card waits. *)
#[local] Notation ready := (pg_reached created e0) (only parsing).







End Race.
