(* ===== verification/PostgresAuth.v ===== *)
(** * The authorization repository on PostgreSQL ([auth/repositories.py])

    [PostgresAuthorizationRepository] over its five tables, with their
    primary keys, unique and foreign keys and the check on the target of a
    grant. Instants of the columns come back with a time zone (UTC is the
    session's). Every method is one transaction. *)
From Stdlib Require Import ZArith Ascii String.
From S2P Require Import Prelude Values Authority Auth Catalog Pydantic Sql.
Open Scope string_scope.
Open Scope list_scope.

(** ** Rows ([persistence/tables.py]) *)
Record ParticipantRow : Type := mkParticipantRow {
  ptr_id : string; ptr_type : string; ptr_display_name : option string; ptr_status : string;
  ptr_trust_level : option string; ptr_auth_method : option string; ptr_metadata : doc;
  ptr_created_at : datetime; ptr_archived_at : option datetime;
}.
Record RoleRow : Type := mkRoleRow {
  rr_id : string; rr_name : string; rr_description : option string; rr_metadata : doc;
  rr_created_at : datetime;
}.
Record AssignmentRow : Type := mkAssignmentRow {
  asr_id : UUID; asr_participant_id : string; asr_role_id : string; asr_scope_type : string;
  asr_scope_id : option string; asr_assigned_by : option string; asr_expires_at : option datetime;
  asr_created_at : datetime; asr_revoked_at : option datetime; asr_metadata : doc;
}.
Record GrantRow : Type := mkGrantRow {
  gr_id : UUID; gr_participant_id : option string; gr_role_id : option string; gr_permission : string;
  gr_scope_type : string; gr_scope_id : option string; gr_granted_by : option string;
  gr_expires_at : option datetime; gr_created_at : datetime; gr_revoked_at : option datetime;
  gr_metadata : doc;
}.
Record AuditRow : Type := mkAuditRow {
  aur_id : UUID; aur_action : string; aur_participant_id : option string;
  aur_permission : option string; aur_scope_type : option string; aur_scope_id : option string;
  aur_allowed : option bool; aur_reason : option string; aur_request_ref : option string;
  aur_target_ref : option string; aur_metadata : doc; aur_created_at : datetime;
}.

(** ** What is written, and what is read back *)
Definition participant_values (p : Participant) : ParticipantRow :=
  mkParticipantRow (part_id p) (ParticipantType_value (part_type p)) (part_display_name p)
    (ParticipantStatus_value (part_status p)) (part_trust_level p) (part_auth_method p)
    (part_metadata p) (aware (part_created_at p)) (aware <$> part_archived_at p).

Definition assignment_values (a : RoleAssignment) : AssignmentRow :=
  mkAssignmentRow (ra_id a) (ra_participant_id a) (ra_role_id a)
    (ScopeType_value (scope_type (ra_scope a))) (scope_id (ra_scope a)) (ra_assigned_by a)
    (aware <$> ra_expires_at a) (aware (ra_created_at a)) (aware <$> ra_revoked_at a) (ra_metadata a).

Definition grant_values (g : PermissionGrant) : GrantRow :=
  mkGrantRow (pg_id g) (pg_participant_id g) (pg_role_id g) (PermissionName_value (pg_permission g))
    (ScopeType_value (scope_type (pg_scope g))) (scope_id (pg_scope g)) (pg_granted_by g)
    (aware <$> pg_expires_at g) (aware (pg_created_at g)) (aware <$> pg_revoked_at g) (pg_metadata g).

Definition audit_values (ev : AuthorizationAuditEvent) : AuditRow :=
  mkAuditRow (aud_id ev) (AuditAction_value (aud_action ev)) (aud_participant_id ev)
    (PermissionName_value <$> aud_permission ev) ((fun s => ScopeType_value (scope_type s)) <$> aud_scope ev)
    (aud_scope ev ≫= scope_id) (aud_allowed ev) (aud_reason ev) (aud_request_ref ev) (aud_target_ref ev)
    (aud_metadata ev) (aware (aud_created_at ev)).

Definition role_values (r : Role) : RoleRow :=
  mkRoleRow (role_id r) (role_name r) (role_description r) (role_metadata r) (aware (role_created_at r)).

Definition _participant_from_row (r : ParticipantRow) : res Participant :=
  type ← ParticipantType_of_value (ptr_type r);
  status ← ParticipantStatus_of_value (ptr_status r);
  Ok (mkParticipant (ptr_id r) type (ptr_display_name r) status (ptr_trust_level r) (ptr_auth_method r)
        (ptr_metadata r) (ptr_created_at r) (ptr_archived_at r)).

(** [Scope(type=ScopeType(...), id=...)]. *)
Definition scope_from_row (type : string) (id : option string) : res Scope :=
  t ← ScopeType_of_value type; as_validation_error (validate_scope_id (mkScope t id)).

Definition _role_assignment_from_row (r : AssignmentRow) : res RoleAssignment :=
  scope ← scope_from_row (asr_scope_type r) (asr_scope_id r);
  Ok (mkRoleAssignment (asr_id r) (asr_participant_id r) (asr_role_id r) scope (asr_assigned_by r)
        (asr_expires_at r) (asr_created_at r) (asr_revoked_at r) (asr_metadata r)).

Definition _permission_grant_from_row (r : GrantRow) : res PermissionGrant :=
  permission ← PermissionName_of_value (gr_permission r);
  scope ← scope_from_row (gr_scope_type r) (gr_scope_id r);
  as_validation_error (validate_grant_target
    (mkPermissionGrant (gr_id r) permission scope (gr_participant_id r) (gr_role_id r) (gr_granted_by r)
       (gr_expires_at r) (gr_created_at r) (gr_revoked_at r) (gr_metadata r))).

(** ** The database *)
Section repository.
Context `{Oracle} `{Sql}.

Record PgAuth : Type := mkPgAuth {
  pa_participants : table ParticipantRow;
  pa_roles : table RoleRow;
  pa_participant_roles : table AssignmentRow;
  pa_permission_grants : table GrantRow;
  pa_audit_events : table AuditRow;
}.

Definition integrity_error {A} : M PgAuth A := raise (IntegrityError "violates constraint").

Definition participant_exists (st : PgAuth) (id : string) : bool :=
  existsb (fun r => bool_decide (ptr_id r = id)) (sql_rows (pa_participants st)).
Definition role_exists (st : PgAuth) (id : string) : bool :=
  existsb (fun r => bool_decide (rr_id r = id)) (sql_rows (pa_roles st)).

(** A nullable foreign key. *)
Definition refers (exists_ : string -> bool) (id : option string) : bool :=
  match id with Some i => exists_ i | None => true end.

Definition insert_participant (r : ParticipantRow) : M PgAuth () :=
  st ← get;
  match sql_insert (fun a b => bool_decide (ptr_id a = ptr_id b)) r (pa_participants st) with
  | Some t => put (mkPgAuth t (pa_roles st) (pa_participant_roles st) (pa_permission_grants st) (pa_audit_events st))
  | None => integrity_error
  end.

Definition update_participant (r : ParticipantRow) : M PgAuth () :=
  modify (fun st =>
    mkPgAuth (sql_update (fun x => bool_decide (ptr_id x = ptr_id r)) (fun _ => r) (pa_participants st)).1
      (pa_roles st) (pa_participant_roles st) (pa_permission_grants st) (pa_audit_events st)).

(** The id and the name of a role are unique. *)
Definition insert_role (r : RoleRow) : M PgAuth () :=
  st ← get;
  match sql_insert (fun a b => bool_decide (rr_id a = rr_id b) || bool_decide (rr_name a = rr_name b))
          r (pa_roles st) with
  | Some t => put (mkPgAuth (pa_participants st) t (pa_participant_roles st) (pa_permission_grants st) (pa_audit_events st))
  | None => integrity_error
  end.

Definition insert_assignment (r : AssignmentRow) : M PgAuth () :=
  st ← get;
  if negb (participant_exists st (asr_participant_id r) && role_exists st (asr_role_id r) &&
           refers (participant_exists st) (asr_assigned_by r))
  then integrity_error
  else
    match sql_insert (fun a b => bool_decide (asr_id a = asr_id b)) r (pa_participant_roles st) with
    | Some t => put (mkPgAuth (pa_participants st) (pa_roles st) t (pa_permission_grants st) (pa_audit_events st))
    | None => integrity_error
    end.

(** The check constraint: exactly one target. *)
Definition one_target (r : GrantRow) : bool :=
  match gr_participant_id r, gr_role_id r with Some _, None | None, Some _ => true | _, _ => false end.

Definition insert_grant (r : GrantRow) : M PgAuth () :=
  st ← get;
  if negb (one_target r && refers (participant_exists st) (gr_participant_id r) &&
           refers (role_exists st) (gr_role_id r) && refers (participant_exists st) (gr_granted_by r))
  then integrity_error
  else
    match sql_insert (fun a b => bool_decide (gr_id a = gr_id b)) r (pa_permission_grants st) with
    | Some t => put (mkPgAuth (pa_participants st) (pa_roles st) (pa_participant_roles st) t (pa_audit_events st))
    | None => integrity_error
    end.

Definition insert_audit (r : AuditRow) : M PgAuth () :=
  st ← get;
  if negb (refers (participant_exists st) (aur_participant_id r)) then integrity_error
  else
    match sql_insert (fun a b => bool_decide (aur_id a = aur_id b)) r (pa_audit_events st) with
    | Some t => put (mkPgAuth (pa_participants st) (pa_roles st) (pa_participant_roles st) (pa_permission_grants st) t)
    | None => integrity_error
    end.

(** [with Session(...) as session, session.begin()]. *)
Definition in_transaction {A} (m : M PgAuth A) : M PgAuth A := fun s =>
  match m s with
  | (Ok a, s') => (Ok a, s')
  | (Raise x, s') => (Raise x, (s.1, s'.2))
  end.

(** [[f(row) for row in rows if p(row)]]. *)
Fixpoint comprehend {A B} (p : A -> res bool) (f : A -> res B) (l : list A) : res (list B) :=
  match l with
  | [] => Ok []
  | a :: l' =>
      keep ← p a;
      if (keep : bool) then b ← f a; bs ← comprehend p f l'; Ok (b :: bs) else comprehend p f l'
  end.

(** ** The methods *)
Definition pa_get_participant (participant_id : string) : M PgAuth (option Participant) :=
  st ← get;
  match sql_select (fun r => bool_decide (ptr_id r = participant_id)) (pa_participants st) with
  | [] => mret None
  | r :: _ => p ← lift_res (_participant_from_row r); mret (Some p)
  end.

Definition pa_list_participants : M PgAuth (list Participant) :=
  st ← get; lift_res (map_res _participant_from_row (sql_rows (pa_participants st))).

Definition pa_upsert_participant (p : Participant) : M PgAuth () :=
  let values := participant_values p in
  in_transaction (
    st ← get;
    match sql_select (fun r => bool_decide (ptr_id r = part_id p)) (pa_participants st) with
    | _ :: _ => update_participant values
    | [] => insert_participant values
    end).

(** [get_role_template(RoleName(role_name))], [None] on a [ValueError]. *)
Definition role_template_of (role_id : string) : res (option RoleTemplate) :=
  match (name ← RoleName_of_value (removeprefix "builtin:" role_id); get_role_template name) with
  | Ok t => Ok (Some t)
  | Raise x => if is_value_error x then Ok None else Raise x
  end.

Definition pa_add_role_assignment (a : RoleAssignment) : M PgAuth () :=
  template ← lift_res (role_template_of (ra_role_id a));
  in_transaction (
    _ ← (match template with
         | Some t =>
             st ← get;
             match sql_select (fun r => bool_decide (rr_id r = template_id t)) (pa_roles st) with
             | [] => role ← to_role t; insert_role (role_values role)
             | _ => mret tt
             end
         | None => mret tt
         end);
    insert_assignment (assignment_values a)).

(** [row["expires_at"] is None or row["expires_at"] > now]. *)
Definition row_unexpired (t : datetime) (expires_at : option datetime) : res bool :=
  match expires_at with None => Ok true | Some e => dt_gt e t end.

(** [.where(participant_id == ..., revoked_at.is_(None))]. *)
Definition held_by (participant_id : string) (r : AssignmentRow) : bool :=
  bool_decide (asr_participant_id r = participant_id) && bool_decide (asr_revoked_at r = None).

Definition pa_list_role_assignments (participant_id : string) : M PgAuth (list RoleAssignment) :=
  t ← now; st ← get;
  lift_res (comprehend (fun r => row_unexpired t (asr_expires_at r)) _role_assignment_from_row
              (sql_select (held_by participant_id) (pa_participant_roles st))).

Definition pa_add_permission_grant (g : PermissionGrant) : M PgAuth () :=
  in_transaction (insert_grant (grant_values g)).

(** The loop over the grants: each is built, then tested. *)
Fixpoint grants_of (participant_id : string) (role_ids : list string) (t : datetime)
    (rows : list GrantRow) : res (list PermissionGrant) :=
  match rows with
  | [] => Ok []
  | r :: rows' =>
      g ← _permission_grant_from_row r;
      ok ← granted participant_id role_ids t g;
      grants ← grants_of participant_id role_ids t rows';
      Ok (if (ok : bool) then g :: grants else grants)
  end.

Definition pa_list_permission_grants (participant_id : string) : M PgAuth (list PermissionGrant) :=
  t ← now; st ← get;
  lift_res (
    role_ids ← comprehend (fun r => row_unexpired t (asr_expires_at r)) (fun r => Ok (asr_role_id r))
                 (sql_select (held_by participant_id) (pa_participant_roles st));
    grants_of participant_id role_ids t
      (sql_select (fun r => bool_decide (gr_revoked_at r = None)) (pa_permission_grants st))).

Definition pa_record_audit_event (ev : AuthorizationAuditEvent) : M PgAuth () :=
  in_transaction (insert_audit (audit_values ev)).

#[export] Instance postgres_repository : AuthorizationRepository PgAuth := {|
  ar_get_participant := pa_get_participant;
  ar_list_participants := pa_list_participants;
  ar_upsert_participant := pa_upsert_participant;
  ar_add_role_assignment := pa_add_role_assignment;
  ar_list_role_assignments := pa_list_role_assignments;
  ar_add_permission_grant := pa_add_permission_grant;
  ar_list_permission_grants := pa_list_permission_grants;
  ar_record_audit_event := pa_record_audit_event;
|}.
End repository.
