(* ===== verification/PostgresAuthTheorems.v ===== *)
(** * The repository on PostgreSQL refines the one in memory

    [represents] relates the tables to the abstract state of
    [RepositorySpec]. Lookups answer what the state says; writes that respect
    the foreign keys have the effect of the state's; the others raise and
    change nothing. *)
From Stdlib Require Import ZArith Ascii String.
From S2P Require Import Prelude Values Authority Auth Catalog AuthSpec Pydantic Sql PostgresAuth.
Open Scope string_scope.
Open Scope list_scope.

(** ** Values that survive the columns *)
Definition aware_opt (o : option datetime) : Prop := forall t, o = Some t -> is_aware t.

Record storable_participant (p : Participant) : Prop := {
  sp_created : is_aware (part_created_at p);
  sp_archived : aware_opt (part_archived_at p);
}.
Record storable_assignment (a : RoleAssignment) : Prop := {
  sa_scope : validate_scope_id (ra_scope a) = Ok (ra_scope a);
  sa_expires : aware_opt (ra_expires_at a);
  sa_created : is_aware (ra_created_at a);
  sa_revoked : aware_opt (ra_revoked_at a);
}.
Record storable_grant (g : PermissionGrant) : Prop := {
  sg_scope : validate_scope_id (pg_scope g) = Ok (pg_scope g);
  sg_target : validate_grant_target g = Ok g;
  sg_expires : aware_opt (pg_expires_at g);
  sg_created : is_aware (pg_created_at g);
  sg_revoked : aware_opt (pg_revoked_at g);
}.

Lemma aware_same t : is_aware t -> aware t = t.
Proof. by intros [us ->]. Qed.
Lemma aware_opt_same o : aware_opt o -> aware <$> o = o.
Proof. destruct o as [t|]; [|done]. intros Ha. cbn. by rewrite aware_same; [|apply Ha]. Qed.

Lemma participant_roundtrip p : storable_participant p -> _participant_from_row (participant_values p) = Ok p.
Proof.
  intros [Hc Ha]. unfold _participant_from_row, participant_values. cbn.
  rewrite ParticipantType_roundtrip. cbn. rewrite ParticipantStatus_roundtrip. cbn.
  rewrite aware_same, aware_opt_same by done. by destruct p.
Qed.

Lemma scope_roundtrip sc : validate_scope_id sc = Ok sc ->
  scope_from_row (ScopeType_value (scope_type sc)) (scope_id sc) = Ok sc.
Proof.
  intros Hs. unfold scope_from_row. rewrite ScopeType_roundtrip. cbn. destruct sc as [ty i]. cbn in *. by rewrite Hs.
Qed.

Lemma assignment_roundtrip a : storable_assignment a -> _role_assignment_from_row (assignment_values a) = Ok a.
Proof.
  intros [Hs He Hc Hr]. unfold _role_assignment_from_row, assignment_values. cbn.
  rewrite scope_roundtrip by done. cbn. rewrite aware_same, !aware_opt_same by done. by destruct a.
Qed.

Lemma grant_roundtrip g : storable_grant g -> _permission_grant_from_row (grant_values g) = Ok g.
Proof.
  intros [Hs Ht He Hc Hr]. unfold _permission_grant_from_row, grant_values. cbn.
  rewrite PermissionName_roundtrip. cbn. rewrite scope_roundtrip by done. cbn.
  rewrite aware_same, !aware_opt_same by done. destruct g. cbn in *. by rewrite Ht.
Qed.

Lemma comprehend_total {A B} (p : A -> res bool) (f : A -> res B) (q : A -> bool) (g : A -> B) l :
  (forall a, a ∈ l -> p a = Ok (q a) /\ f a = Ok (g a)) ->
  comprehend p f l = Ok (map g (py_filter q l)).
Proof.
  induction l as [|a l IH]; intros Hl; [done|]. cbn [comprehend].
  destruct (Hl a) as [Hp Hf]; [by left|]. rewrite Hp. cbn. rewrite IH by (intros b Hb; apply Hl; by right).
  unfold py_filter. destruct (q a); cbn; [by rewrite Hf | done].
Qed.


(** ** The relation *)
Section refinement.
Context `{Oracle} `{SqlLaws}.
Implicit Types (st : PgAuth) (a : AuthState) (s : PgAuth * Env).

Record represents st a : Prop := {
  rp_keys : NoDup (dict_keys (participants a));
  rp_ids i p : (i, p) ∈ participants a -> part_id p = i;
  rp_participants : sql_rows (pa_participants st) ≡ₚ map participant_values (dict_values (participants a));
  rp_assignments : sql_rows (pa_participant_roles st) ≡ₚ map assignment_values (role_assignments a);
  rp_grants : sql_rows (pa_permission_grants st) ≡ₚ map grant_values (permission_grants a);
  rp_audits : sql_rows (pa_audit_events st) ≡ₚ map audit_values (audit_events a);
  rp_roles r : r ∈ sql_rows (pa_roles st) -> rr_id r = "builtin:" +:+ rr_name r;
  rp_ok_participants p : p ∈ dict_values (participants a) -> storable_participant p;
  rp_ok_assignments x : x ∈ role_assignments a -> storable_assignment x;
  rp_ok_grants g : g ∈ permission_grants a -> storable_grant g;
}.

Lemma represents_wf st a : represents st a -> auth_wf a.
Proof.
  intros Hr. split.
  - intros x e Hx. apply (sa_expires _ (rp_ok_assignments _ _ Hr x Hx)).
  - intros g e Hg. apply (sg_expires _ (rp_ok_grants _ _ Hr g Hg)).
Qed.

(** ** Lookups *)
Lemma participant_rows st a pid : represents st a ->
  sql_select (fun r => bool_decide (ptr_id r = pid)) (pa_participants st) =
    match dict_get pid (participants a) with Some p => [participant_values p] | None => [] end.
Proof.
  intros Hr.
  assert (Hp : sql_select (fun r => bool_decide (ptr_id r = pid)) (pa_participants st) ≡ₚ
    map participant_values (py_filter (fun p => bool_decide (part_id p = pid)) (dict_values (participants a)))).
  { rewrite sql_select_perm. etrans; [apply py_filter_perm, rp_participants, Hr|]. by rewrite py_filter_map. }
  assert (Hf : py_filter (fun p => bool_decide (part_id p = pid)) (dict_values (participants a)) =
    match dict_get pid (participants a) with Some p => [p] | None => [] end).
  { pose proof (rp_keys _ _ Hr) as Hnd. pose proof (rp_ids _ _ Hr) as Hid. clear Hp Hr.
    unfold py_filter, dict_values, dict_keys in *.
    induction (participants a) as [|[k p] d IH]; [done|]. cbn in Hnd |- *.
    apply NoDup_cons in Hnd as [Hk Hnd].
    assert (Hpk : part_id p = k) by (apply Hid; by left). specialize (IH Hnd).
    rewrite IH by (intros i q Hq; apply Hid; by right).
    case_bool_decide as Hb; case_decide as Hd; subst; try done.
    destruct (dict_get (part_id p) d) eqn:E; [|done]. by apply dict_get_key in E. }
  rewrite Hf in Hp. destruct (dict_get pid (participants a)) as [p|]; cbn in Hp.
  - by apply Permutation_singleton_r in Hp.
  - by apply Permutation_nil_r in Hp.
Qed.

Lemma pa_get_participant_run st a e pid : represents st a ->
  pa_get_participant pid (st, e) = (Ok (dict_get pid (participants a)), (st, e)).
Proof.
  intros Hr. unfold pa_get_participant, get, mbind, M_bind. cbn [fst].
  rewrite (participant_rows st a pid Hr). destruct (dict_get pid (participants a)) as [p|] eqn:E; [|done].
  unfold lift_res. rewrite participant_roundtrip; [done|]. apply (rp_ok_participants _ _ Hr). by eapply dict_get_value.
Qed.

(** A permutation of mapped rows comes from a permutation of the values. *)
Lemma rows_of {Row A} (t : table Row) (f : A -> Row) (p : Row -> bool) (l : list A) :
  sql_rows t ≡ₚ map f l -> exists l', sql_select p t = map f l' /\ l' ≡ₚ py_filter (fun x => p (f x)) l.
Proof.
  intros Hp. assert (Hs : sql_select p t ≡ₚ map f (py_filter (fun x => p (f x)) l)).
  { rewrite sql_select_perm. etrans; [by apply py_filter_perm|]. by rewrite py_filter_map. }
  apply Permutation_map_inv in Hs as (l' & -> & Hl'). by exists l'.
Qed.

Definition unexpired (t : Z) (e : option datetime) : bool := liveb None e t.
#[local] Arguments unexpired : simpl never.

Lemma row_unexpired_spec t e : aware_opt e -> row_unexpired (Aware t) e = Ok (unexpired t e).
Proof. intros Ha. unfold row_unexpired. destruct e as [x|]; [|done]. by destruct (Ha x eq_refl) as [us ->]. Qed.

Lemma aware_opt_aware o : aware_opt (aware <$> o).
Proof. intros t. destruct o as [[us|us]|]; intros [= <-]; by eexists. Qed.

Lemma held_unexpired pid t x :
  bool_decide (ra_participant_id x = pid) && liveb (ra_revoked_at x) (ra_expires_at x) t =
  held_by pid (assignment_values x) && unexpired t (ra_expires_at x).
Proof.
  unfold held_by, unexpired, assignment_values. cbn. destruct (ra_revoked_at x) as [r|]; cbn.
  - by rewrite !andb_false_r.
  - by rewrite andb_true_r.
Qed.

(** The assignments both repositories find. *)
Lemma assignments_found st a pid t : represents st a -> exists xs l,
  sql_select (held_by pid) (pa_participant_roles st) = map assignment_values xs /\
  (forall x, x ∈ xs -> x ∈ role_assignments a) /\
  active_assignments pid (Aware t) a = Ok l /\
  py_filter (fun x => unexpired t (ra_expires_at x)) xs ≡ₚ l.
Proof.
  intros Hr. destruct (rows_of _ assignment_values (held_by pid) _ (rp_assignments _ _ Hr)) as (xs & Hxs & Hp).
  set (q := fun x => bool_decide (ra_participant_id x = pid) && liveb (ra_revoked_at x) (ra_expires_at x) t).
  exists xs, (py_filter q (role_assignments a)). split; [done|].
  split; [intros x; rewrite Hp; by intros [? _]%elem_of_py_filter|]. split.
  - apply filter_res_total. intros x Hx. unfold assigned, q. case_bool_decide; [|done].
    apply active_at_live. intros e. by apply (wf_assignments _ (represents_wf _ _ Hr)).
  - transitivity (py_filter (fun x => unexpired t (ra_expires_at x))
      (py_filter (fun x => held_by pid (assignment_values x)) (role_assignments a))).
    { by apply py_filter_perm. }
    clear. unfold py_filter. induction (role_assignments a) as [|x l IH]; cbn; [done|].
    unfold q. rewrite held_unexpired. destruct (held_by pid (assignment_values x)); cbn; [|done].
    destruct (unexpired t (ra_expires_at x)); [by apply perm_skip | done].
Qed.

Lemma pa_list_role_assignments_run st a e pid : represents st a -> exists l l',
  active_assignments pid (Aware (clock_at (now_ctr e))) a = Ok l /\ l' ≡ₚ l /\
  pa_list_role_assignments pid (st, e) = (Ok l', (st, mkEnv (S (now_ctr e)) (uuid_ctr e))).
Proof.
  intros Hr. set (t := clock_at (now_ctr e)). destruct (assignments_found st a pid t Hr) as (xs & l & Hxs & Hin & Hl & Hp).
  exists l, (py_filter (fun x => unexpired t (ra_expires_at x)) xs). split; [done|]. split; [done|].
  unfold pa_list_role_assignments, now, get, lift_res, mbind, M_bind. cbn [fst snd]. fold t. rewrite Hxs.
  assert (Hdec : forall x, x ∈ xs -> storable_assignment x) by (intros x Hx; by apply (rp_ok_assignments _ _ Hr), Hin).
  clear -Hdec. f_equal. induction xs as [|x xs IH]; [done|]. cbn [map comprehend].
  assert (Hx : storable_assignment x) by (apply Hdec; by left).
  change (asr_expires_at (assignment_values x)) with (aware <$> ra_expires_at x).
  rewrite aware_opt_same, row_unexpired_spec by apply (sa_expires _ Hx). unfold mbind at 1, res_bind at 1.
  rewrite IH by (intros y Hy; apply Hdec; by right).
  unfold py_filter. cbn. destruct (unexpired t (ra_expires_at x)); [|done].
  rewrite assignment_roundtrip by done. done.
Qed.

(** Grants are found whatever the order of the rows and of the role ids. *)
Lemma role_in_perm r ids ids' : ids ≡ₚ ids' -> role_in r ids = role_in r ids'.
Proof.
  intros Hp. unfold role_in, str_in. destruct r as [i|]; [|done]. apply bool_decide_ext. by rewrite Hp.
Qed.

Lemma pa_list_permission_grants_run st a e pid : represents st a -> exists l l',
  active_grants pid (Aware (clock_at (now_ctr e))) a = Ok l /\ l' ≡ₚ l /\
  pa_list_permission_grants pid (st, e) = (Ok l', (st, mkEnv (S (now_ctr e)) (uuid_ctr e))).
Proof.
  intros Hr. set (t := clock_at (now_ctr e)).
  destruct (assignments_found st a pid t Hr) as (xs & asg & Hxs & Hin & Hasg & Hp).
  destruct (rows_of _ grant_values (fun r => bool_decide (gr_revoked_at r = None)) _ (rp_grants _ _ Hr)) as (gs & Hgs & Hpg).
  set (q := fun ids g => liveb (pg_revoked_at g) (pg_expires_at g) t
              && (bool_decide (pg_participant_id g = Some pid) || role_in (pg_role_id g) ids)).
  set (ids := map ra_role_id (py_filter (fun x => unexpired t (ra_expires_at x)) xs)).
  exists (py_filter (q (map ra_role_id asg)) (permission_grants a)), (py_filter (q ids) gs).
  split; [|split].
  - unfold active_grants. rewrite Hasg. cbn [mbind res_bind]. apply filter_res_total. intros g Hg.
    unfold granted, q, grant_is_active. rewrite active_at_live; [done|]. intros x.
    by apply (wf_grants _ (represents_wf _ _ Hr)).
  - etrans; [apply py_filter_perm, Hpg|]. rewrite py_filter_and.
    2: { intros g _ [Hl _]%andb_true_iff. apply liveb_true in Hl as [Hl _]. cbn. rewrite Hl. done. }
    assert (Hq : forall g, q ids g = q (map ra_role_id asg) g).
    { intros g. unfold q. f_equal. f_equal. apply role_in_perm. unfold ids. by apply Permutation_map. }
    unfold py_filter. by rewrite (filter_ext _ _ Hq).
  - unfold pa_list_permission_grants, now, get, lift_res, mbind, M_bind. cbn [fst snd]. fold t. rewrite Hxs, Hgs. f_equal.
    assert (Hids : comprehend (fun r => row_unexpired (Aware t) (asr_expires_at r)) (fun r => Ok (asr_role_id r))
      (map assignment_values xs) = Ok ids).
    { assert (Hdec : forall x, x ∈ xs -> storable_assignment x) by (intros x Hx; by apply (rp_ok_assignments _ _ Hr), Hin).
      clear -Hdec. unfold ids. clear ids. induction xs as [|x xs IH]; [done|]. cbn [map comprehend].
      assert (Hx : storable_assignment x) by (apply Hdec; by left).
      change (asr_expires_at (assignment_values x)) with (aware <$> ra_expires_at x).
      rewrite aware_opt_same, row_unexpired_spec by apply (sa_expires _ Hx). unfold mbind at 1, res_bind at 1.
      rewrite IH by (intros y Hy; apply Hdec; by right).
      unfold py_filter. cbn. by destruct (unexpired t (ra_expires_at x)). }
    unfold mbind, res_bind in *. rewrite Hids.
    assert (Hok : forall g, g ∈ gs -> storable_grant g).
    { intros g Hg. apply (rp_ok_grants _ _ Hr). rewrite Hpg in Hg. by apply elem_of_py_filter in Hg as [? _]. }
    clear -Hok. clearbody ids. induction gs as [|g gs IH]; [done|]. cbn [map grants_of].
    assert (Hg : storable_grant g) by (apply Hok; by left).
    unfold mbind, res_bind in *. rewrite grant_roundtrip by done.
    rewrite IH by (intros y Hy; apply Hok; by right).
    unfold granted, grant_is_active. rewrite active_at_live by apply (sg_expires _ Hg). cbn. unfold py_filter. cbn.
    fold (q ids g). by destruct (q ids g).
Qed.

(** ** Writes *)
Lemma participant_exists_spec st a i : represents st a ->
  participant_exists st i = true <-> i ∈ dict_keys (participants a).
Proof.
  intros Hr. unfold participant_exists. rewrite existsb_true. setoid_rewrite (rp_participants _ _ Hr).
  setoid_rewrite list_elem_of_fmap. setoid_rewrite bool_decide_eq_true. split.
  - intros (r & (p & -> & Hp) & <-). apply list_elem_of_fmap in Hp as ([k p'] & -> & Hin). cbn.
    exists (k, p'). split; [by apply (rp_ids _ _ Hr) | done].
  - intros ([k p] & -> & Hin). exists (participant_values p).
    split; [|by apply (rp_ids _ _ Hr)]. exists p. split; [done|]. apply list_elem_of_fmap. by exists (k, p).
Qed.

(** The audit event of an authorization: its participant must be stored and
    its id new. *)
Definition audit_admitted a ev : Prop :=
  (forall i, aud_participant_id ev = Some i -> i ∈ dict_keys (participants a)) /\
  aud_id ev ∉ map aud_id (audit_events a).

Lemma refers_spec st a o : represents st a ->
  refers (participant_exists st) o = true <-> forall i, o = Some i -> i ∈ dict_keys (participants a).
Proof.
  intros Hr. destruct o as [i|]; cbn; [|naive_solver]. rewrite (participant_exists_spec st a i Hr). naive_solver.
Qed.

Lemma pa_record_audit_admitted st a e ev : represents st a -> audit_admitted a ev ->
  exists st', pa_record_audit_event ev (st, e) = (Ok tt, (st', e)) /\ represents st' (with_audit ev a).
Proof.
  intros Hr [Hp Hid]. unfold pa_record_audit_event, in_transaction, insert_audit, get, mbind, M_bind. cbn [fst snd].
  rewrite (proj2 (refers_spec st a (aur_participant_id (audit_values ev)) Hr)) by done. cbn [negb].
  destruct (sql_insert _ _ (pa_audit_events st)) as [t|] eqn:E.
  - eexists. split; [done|]. destruct Hr. split; try done. cbn. apply sql_insert_rows in E.
    by rewrite E, rp_audits0, map_app, Permutation_app_comm.
  - apply sql_insert_conflict in E as (x & Hx & Hk%bool_decide_eq_true). destruct Hid.
    rewrite (rp_audits _ _ Hr) in Hx. apply list_elem_of_fmap in Hx as (y & -> & Hy).
    cbn in Hk. rewrite Hk. apply list_elem_of_fmap. by exists y.
Qed.

Lemma pa_record_audit_refused st a e ev i : represents st a -> aud_participant_id ev = Some i ->
  i ∉ dict_keys (participants a) ->
  pa_record_audit_event ev (st, e) = (Raise (IntegrityError "violates constraint"), (st, e)).
Proof.
  intros Hr Hi Hn. unfold pa_record_audit_event, in_transaction, insert_audit, get, mbind, M_bind. cbn [fst snd].
  assert (Hf : refers (participant_exists st) (aur_participant_id (audit_values ev)) = false).
  { apply not_true_iff_false. rewrite (refers_spec st a _ Hr). cbn. intros Hall. by apply Hn, Hall. }
  by rewrite Hf.
Qed.

Lemma dict_set_new {V} k (v : V) (d : list (string * V)) : dict_get k d = None -> dict_set k v d = d ++ [(k, v)].
Proof.
  induction d as [|[k' v'] d IH]; cbn; [done|]. case_decide; [done|]. intros Hn. by rewrite IH.
Qed.

Lemma dict_set_old (p : Participant) (d : list (string * Participant)) :
  NoDup (dict_keys d) -> (forall i q, (i, q) ∈ d -> part_id q = i) -> part_id p ∈ dict_keys d ->
  dict_values (dict_set (part_id p) p d) =
    map (fun q => if bool_decide (part_id q = part_id p) then p else q) (dict_values d).
Proof.
  unfold dict_values, dict_keys. induction d as [|[k q] d IH]; cbn; [by intros _ _ ?%elem_of_nil|].
  intros [Hk Hnd]%NoDup_cons Hid Hin. assert (Hq : part_id q = k) by (apply Hid; by left).
  assert (Hid' : forall i x, (i, x) ∈ d -> part_id x = i) by (intros i x Hx; apply Hid; by right).
  case_decide as Hd; cbn.
  - subst k. rewrite bool_decide_eq_true_2 by done. f_equal. symmetry.
    transitivity (map id (d.*2)); [|by rewrite map_id]. apply map_ext_in. intros x Hx%list_elem_of_In.
    rewrite bool_decide_eq_false_2; [done|]. intros Hx'. apply Hk.
    apply list_elem_of_fmap in Hx as ([i y] & -> & Hy). apply list_elem_of_fmap. exists (i, y). split; [|done].
    cbn in *. rewrite <- (Hid' _ _ Hy). congruence.
  - rewrite bool_decide_eq_false_2 by congruence. f_equal. apply IH; [done | done|].
    apply elem_of_cons in Hin as [|]; done.
Qed.

Lemma pa_upsert_run st a e p : represents st a -> storable_participant p ->
  exists st', pa_upsert_participant p (st, e) = (Ok tt, (st', e)) /\
    represents st' (with_participant p a) /\ pa_roles st' = pa_roles st.
Proof.
  intros Hr Hp. unfold pa_upsert_participant, in_transaction, get, mbind, M_bind. cbn [fst snd].
  rewrite (participant_rows st a _ Hr).
  assert (Hkeys : NoDup (dict_keys (dict_set (part_id p) p (participants a)))) by apply dict_set_NoDup, (rp_keys _ _ Hr).
  assert (Hids : forall i q, (i, q) ∈ dict_set (part_id p) p (participants a) -> part_id q = i).
  { intros i q Hq%dict_elem_get; [|done]. rewrite dict_get_set in Hq. case_decide; [by simplify_eq|].
    by apply dict_get_elem, (rp_ids _ _ Hr) in Hq. }
  assert (Hok : forall q, q ∈ dict_values (dict_set (part_id p) p (participants a)) -> storable_participant q).
  { intros q [->|Hq]%dict_set_values_elem; [done | by apply (rp_ok_participants _ _ Hr)]. }
  destruct (dict_get (part_id p) (participants a)) as [p0|] eqn:E.
  - eexists. split; [done|]. split; [|done]. destruct Hr. split; try done. cbn [pa_participants participants with_participant].
    rewrite sql_update_rows, rp_participants0, dict_set_old, !map_map by (done || by eapply dict_get_key).
    apply Permutation_refl', map_ext. intros q. cbn. by case_bool_decide.
  - unfold insert_participant, get, mbind, M_bind. cbn [fst snd].
    destruct (sql_insert _ _ (pa_participants st)) as [t|] eqn:Ei.
    + eexists. split; [done|]. split; [|done]. destruct Hr. split; try done. cbn [pa_participants participants with_participant].
      apply sql_insert_rows in Ei. rewrite Ei, rp_participants0, dict_set_new by done.
      unfold dict_values. by rewrite fmap_app, map_app, Permutation_app_comm.
    + apply sql_insert_conflict in Ei as (x & Hx & Hk%bool_decide_eq_true).
      assert (Hin : x ∈ sql_select (fun r => bool_decide (ptr_id r = part_id p)) (pa_participants st)).
      { apply elem_of_select. split; [done|]. by apply bool_decide_eq_true. }
      rewrite (participant_rows st a _ Hr), E in Hin. by apply elem_of_nil in Hin.
Qed.

(** A grant whose references are stored, to one target, with a new id. *)
Definition grant_admitted st a g : Prop :=
  storable_grant g /\
  (forall i, pg_participant_id g = Some i -> i ∈ dict_keys (participants a)) /\
  (forall i, pg_role_id g = Some i -> role_exists st i = true) /\
  (forall i, pg_granted_by g = Some i -> i ∈ dict_keys (participants a)) /\
  pg_id g ∉ map pg_id (permission_grants a).

Lemma storable_one_target g : storable_grant g -> one_target (grant_values g) = true.
Proof.
  intros Hg. pose proof (sg_target _ Hg) as Ht. unfold validate_grant_target in Ht. unfold one_target. cbn.
  destruct (pg_participant_id g), (pg_role_id g); done.
Qed.

Lemma pa_add_grant_admitted st a e g : represents st a -> grant_admitted st a g ->
  exists st', pa_add_permission_grant g (st, e) = (Ok tt, (st', e)) /\ represents st' (with_grant g a) /\
    pa_roles st' = pa_roles st.
Proof.
  intros Hr (Hg & Hp & Hro & Hby & Hid).
  unfold pa_add_permission_grant, in_transaction, insert_grant, get, mbind, M_bind. cbn [fst snd].
  rewrite (storable_one_target _ Hg).
  rewrite (proj2 (refers_spec st a (gr_participant_id (grant_values g)) Hr)) by done.
  rewrite (proj2 (refers_spec st a (gr_granted_by (grant_values g)) Hr)) by done.
  assert (Hrole : refers (role_exists st) (gr_role_id (grant_values g)) = true).
  { cbn. unfold refers. destruct (pg_role_id g); [by apply Hro | done]. }
  rewrite Hrole. cbn [negb andb].
  destruct (sql_insert _ _ (pa_permission_grants st)) as [t|] eqn:E.
  - eexists. split; [done|]. split; [|done]. destruct Hr. split; try done; cbn [pa_permission_grants permission_grants with_grant].
    + apply sql_insert_rows in E. by rewrite E, rp_grants0, map_app, Permutation_app_comm.
    + intros x [Hx| ->%list_elem_of_singleton]%elem_of_app; [by apply rp_ok_grants0 | done].
  - apply sql_insert_conflict in E as (x & Hx & Hk%bool_decide_eq_true). destruct Hid.
    rewrite (rp_grants _ _ Hr) in Hx. apply list_elem_of_fmap in Hx as (y & -> & Hy).
    cbn in Hk. rewrite Hk. apply list_elem_of_fmap. by exists y.
Qed.

(** ** Assignments of built-in roles *)
Lemma role_template_builtin n : exists t,
  role_template_of ("builtin:" +:+ RoleName_value n) = Ok (Some t) /\ template_id t = "builtin:" +:+ RoleName_value n /\
  tpl_name t = n.
Proof. destruct n; eexists; (split; [vm_compute; reflexivity | split; reflexivity]). Qed.

Definition assignment_admitted a x : Prop :=
  storable_assignment x /\ (exists n, ra_role_id x = "builtin:" +:+ RoleName_value n) /\
  ra_participant_id x ∈ dict_keys (participants a) /\
  (forall i, ra_assigned_by x = Some i -> i ∈ dict_keys (participants a)) /\
  ra_id x ∉ map ra_id (role_assignments a).

Lemma insert_assignment_run st a e x : represents st a -> assignment_admitted a x ->
  role_exists st (ra_role_id x) = true ->
  exists st', insert_assignment (assignment_values x) (st, e) = (Ok tt, (st', e)) /\
    represents st' (with_assignment x a) /\ pa_roles st' = pa_roles st.
Proof.
  intros Hr (Hx & _ & Hp & Hby & Hid) Hrole. unfold insert_assignment, get, mbind, M_bind. cbn [fst snd].
  rewrite (proj2 (participant_exists_spec st a (asr_participant_id (assignment_values x)) Hr)) by done.
  rewrite (proj2 (refers_spec st a (asr_assigned_by (assignment_values x)) Hr)) by done.
  change (asr_role_id (assignment_values x)) with (ra_role_id x). rewrite Hrole. cbn [negb andb].
  destruct (sql_insert _ _ (pa_participant_roles st)) as [t|] eqn:E.
  - eexists. split; [done|]. split; [|done]. destruct Hr. split; try done; cbn [pa_participant_roles role_assignments with_assignment].
    + apply sql_insert_rows in E. by rewrite E, rp_assignments0, map_app, Permutation_app_comm.
    + intros y [Hy| ->%list_elem_of_singleton]%elem_of_app; [by apply rp_ok_assignments0 | done].
  - apply sql_insert_conflict in E as (y & Hy & Hk%bool_decide_eq_true). destruct Hid.
    rewrite (rp_assignments _ _ Hr) in Hy. apply list_elem_of_fmap in Hy as (z & -> & Hz).
    cbn in Hk. rewrite Hk. apply list_elem_of_fmap. by exists z.
Qed.

(** The role of a template is inserted when it is missing. *)
Lemma insert_role_run st a e r : represents st a -> rr_id r = "builtin:" +:+ rr_name r ->
  sql_select (fun x => bool_decide (rr_id x = rr_id r)) (pa_roles st) = [] ->
  exists st', insert_role r (st, e) = (Ok tt, (st', e)) /\ represents st' a /\
    forall i, role_exists st' i = true <-> i = rr_id r \/ role_exists st i = true.
Proof.
  intros Hr Hid Hnone. unfold insert_role, get, mbind, M_bind. cbn [fst snd].
  destruct (sql_insert _ _ (pa_roles st)) as [t|] eqn:E.
  - apply sql_insert_rows in E. eexists. split; [done|]. split.
    + destruct Hr. split; try done. cbn [pa_roles]. intros x. rewrite E. intros [->|Hx]%elem_of_cons; [done | by apply rp_roles0].
    + intros i. unfold role_exists. cbn [pa_roles]. rewrite !existsb_true. setoid_rewrite E.
      setoid_rewrite elem_of_cons. setoid_rewrite bool_decide_eq_true. naive_solver.
  - apply sql_insert_conflict in E as (x & Hx & Hk).
    assert (rr_id x = rr_id r) as Hxr.
    { apply orb_true_iff in Hk as [Hk%bool_decide_eq_true | Hk%bool_decide_eq_true]; [done|].
      rewrite (rp_roles _ _ Hr x Hx), Hid. by rewrite Hk. }
    pose proof (proj1 (select_none _ _) Hnone x Hx) as Hf. by apply bool_decide_eq_false in Hf.
Qed.

Lemma pa_add_assignment_admitted st a e x : represents st a -> assignment_admitted a x ->
  exists st' e', pa_add_role_assignment x (st, e) = (Ok tt, (st', e')) /\
    represents st' (with_assignment x a) /\ env_le e e' /\ uuid_ctr e' = uuid_ctr e /\
    forall i, role_exists st' i = true <-> i = ra_role_id x \/ role_exists st i = true.
Proof.
  intros Hr Hx. pose proof Hx as (_ & (n & Hn) & _). destruct (role_template_builtin n) as (t & Ht & Htid & Htn).
  unfold pa_add_role_assignment. unfold mbind at 1, M_bind at 1, lift_res. rewrite Hn, Ht.
  assert (Hexists : forall st1, (exists r, r ∈ sql_rows (pa_roles st1) /\ rr_id r = ra_role_id x) -> role_exists st1 (ra_role_id x) = true).
  { intros st1 (r & Hin & Hid). apply existsb_true. exists r. split; [done | by apply bool_decide_eq_true]. }
  unfold in_transaction, mbind, M_bind, get. cbn [fst snd].
  destruct (sql_select (fun r => bool_decide (rr_id r = template_id t)) (pa_roles st)) as [|r rows] eqn:E.
  - unfold to_role, now, mbind, M_bind, mret, M_ret. cbn [fst snd].
    set (role := role_values _).
    destruct (insert_role_run st a (mkEnv (S (now_ctr e)) (uuid_ctr e)) role Hr) as (st1 & Hrun & Hr1 & Hex);
      [by unfold role; cbn; rewrite Htn, Htid | done|].
    rewrite Hrun. cbn [fst snd]. change (rr_id role) with (template_id t) in Hex. rewrite Htid, <- Hn in Hex.
    assert (Hnew : role_exists st1 (ra_role_id x) = true) by (apply Hex; by left).
    destruct (insert_assignment_run st1 a (mkEnv (S (now_ctr e)) (uuid_ctr e)) x Hr1 Hx Hnew) as (st2 & Hrun2 & Hr2 & Hroles).
    rewrite Hrun2. eexists _, _. split; [done|]. split; [done|]. split; [split; cbn; lia|]. split; [done|].
    intros i. unfold role_exists in *. by rewrite Hroles, Hex, <- Hn.
  - assert (Hex : role_exists st (ra_role_id x) = true).
    { apply Hexists. exists r. assert (Hin : r ∈ sql_select (fun r => bool_decide (rr_id r = template_id t)) (pa_roles st))
        by (rewrite E; by left).
      apply elem_of_select in Hin as [Hin Hid%bool_decide_eq_true]. split; [done|]. by rewrite Hid, Htid, Hn. }
    cbn [mret M_ret]. unfold mret, M_ret.
    destruct (insert_assignment_run st a e x Hr Hx Hex) as (st2 & Hrun2 & Hr2 & Hroles).
    rewrite Hrun2. eexists _, _. split; [done|]. split; [done|]. split; [split; cbn; lia|]. split; [done|].
    intros i. unfold role_exists in *. rewrite Hroles, <- Hn. split; [by right|].
    intros [->|]; done.
Qed.

(** ** The service on these tables *)
Definition decide_and_record (pid : string) (perm : PermissionName) (scope : Scope) (allowed : bool)
    (reason : string) (ids : list UUID) (meta : doc) : M PgAuth AuthorizationDecision :=
  d ← new_decision pid perm scope allowed reason ids meta; _record d.

Lemma decide_known st a e pid perm scope allowed reason ids meta :
  represents st a -> pid ∈ dict_keys (participants a) ->
  uuid_at (S (uuid_ctr e)) ∉ map aud_id (audit_events a) ->
  exists d ev st' e', decide_and_record pid perm scope allowed reason ids meta (st, e) = (Ok d, (st', e')) /\
    (dec_participant_id d = pid /\ dec_permission d = perm /\ dec_scope d = scope /\ dec_metadata d = meta /\
     dec_allowed d = allowed /\ dec_matched_grant_ids d = ids) /\
    audits d ev /\ represents st' (with_audit ev a).
Proof.
  intros Hr Hp Hid. unfold decide_and_record, new_decision, _record, from_decision, uuid4, now, mbind, M_bind, mret, M_ret.
  cbn [fst snd uuid_ctr now_ctr]. set (d := mkDecision _ _ _ _ _ _ _ _ _). set (ev := mkAuditEvent _ _ _ _ _ _ _ _ _ _ _).
  destruct (pa_record_audit_admitted st a (mkEnv (S (S (now_ctr e))) (S (S (uuid_ctr e)))) ev Hr) as (st' & Hrun & Hr').
  { split; [by intros i [= <-] | exact Hid]. }
  change (ar_record_audit_event ev) with (pa_record_audit_event ev). rewrite Hrun.
  by eexists d, ev, st', _.
Qed.

Lemma decide_unknown st a e pid perm scope allowed reason ids meta :
  represents st a -> pid ∉ dict_keys (participants a) ->
  exists e', decide_and_record pid perm scope allowed reason ids meta (st, e) =
    (Raise (IntegrityError "violates constraint"), (st, e')).
Proof.
  intros Hr Hp. unfold decide_and_record, new_decision, _record, from_decision, uuid4, now, mbind, M_bind, mret, M_ret.
  cbn [fst snd uuid_ctr now_ctr]. set (ev := mkAuditEvent _ _ _ _ _ _ _ _ _ _ _).
  change (ar_record_audit_event ev) with (pa_record_audit_event ev).
  rewrite (pa_record_audit_refused st a _ ev pid Hr) by done. by eexists.
Qed.

Lemma authorize_known st a e pid perm scope ctx p : represents st a ->
  dict_get pid (participants a) = Some p -> uuid_at (S (uuid_ctr e)) ∉ map aud_id (audit_events a) ->
  exists d ev st' e', authorize (R := PgAuth) pid perm scope ctx (st, e) = (Ok d, (st', e')) /\
    decided a (clock_at (now_ctr e)) pid perm scope ctx d /\ audits d ev /\ represents st' (with_audit ev a).
Proof.
  intros Hr Hp Hid. assert (Hkey : pid ∈ dict_keys (participants a)) by by eapply dict_get_key.
  set (t := clock_at (now_ctr e)).
  assert (Hdec : forall e1 allowed reason ids, uuid_ctr e1 = uuid_ctr e ->
    (forall d, dec_participant_id d = pid /\ dec_permission d = perm /\ dec_scope d = scope /\
       dec_metadata d = default [] ctx /\ dec_allowed d = allowed /\ dec_matched_grant_ids d = ids ->
       decided a t pid perm scope ctx d) ->
    exists d ev st' e', decide_and_record pid perm scope allowed reason ids (default [] ctx) (st, e1) = (Ok d, (st', e')) /\
      decided a t pid perm scope ctx d /\ audits d ev /\ represents st' (with_audit ev a)).
  { intros e1 allowed reason ids Hu Hd. rewrite <- Hu in Hid.
    destruct (decide_known st a e1 pid perm scope allowed reason ids (default [] ctx) Hr Hkey Hid)
      as (d & ev & st' & e' & Hrun & Hf & Hau & Hr'). exists d, ev, st', e'. auto. }
  unfold authorize. unfold mbind at 1, M_bind at 1.
  change (ar_get_participant pid) with (pa_get_participant pid). rewrite (pa_get_participant_run st a e pid Hr), Hp.
  destruct (decide (part_status p = PS_ACTIVE)) as [Hact|Hna].
  2: { rewrite bool_decide_eq_false_2 by done. apply Hdec; [done|]. intros d Hd. apply decided_denied; [done|].
       intros (p' & g & Hpp & Hst & _). congruence. }
  rewrite bool_decide_eq_true_2 by done. cbn [negb].
  destruct (pa_list_permission_grants_run st a e pid Hr) as (gs0 & gs & Hgs0 & Hperm & Hrun0).
  destruct (active_grants_spec a pid t (represents_wf _ _ Hr)) as (gs1 & Hgs1 & Hin).
  assert (gs1 = gs0) as -> by (unfold t in Hgs1; congruence).
  unfold mbind at 1, M_bind at 1. change (ar_list_permission_grants pid) with (pa_list_permission_grants pid).
  rewrite Hrun0. cbn iota.
  assert (Hmatch : forall g, g ∈ py_filter (grant_matches perm scope ctx) gs <->
            grant_of a t pid g /\ pg_permission g = perm /\ scope_matches (pg_scope g) scope ctx = true).
  { intros g. rewrite elem_of_py_filter, Hperm, Hin. unfold grant_matches.
    by rewrite andb_true_iff, bool_decide_eq_true. }
  destruct (py_filter (grant_matches perm scope ctx) gs) as [|g0 l] eqn:El; (apply Hdec; [done|]; intros d Hd).
  - apply decided_denied; [done|]. intros (p' & g & _ & _ & Hg & Hgp & Hgs').
    assert (g ∈ []) as ?%elem_of_nil by by apply Hmatch. done.
  - eapply decided_allowed; [exact Hd | done | done | done | exact Hmatch].
Qed.

(** C33. Authorization on the PostgreSQL tables: for a stored participant
    the decision is positive exactly for the entitled, and one audit row is
    written for it; for a participant that is not stored the audit row
    violates its foreign key, so the service raises [IntegrityError] instead
    of answering the denial it answers in memory, and nothing is recorded. *)
Theorem postgres_authorize st a e pid perm scope ctx : represents st a ->
  uuid_at (S (uuid_ctr e)) ∉ map aud_id (audit_events a) ->
  let run := authorize (R := PgAuth) pid perm scope ctx (st, e) in
  match dict_get pid (participants a) with
  | Some _ => exists d ev, run.1 = Ok d /\ decided a (clock_at (now_ctr e)) pid perm scope ctx d /\
      audits d ev /\ represents run.2.1 (with_audit ev a)
  | None => run.1 = Raise (IntegrityError "violates constraint") /\ run.2.1 = st
  end.
Proof.
  intros Hr Hid. cbv zeta. destruct (dict_get pid (participants a)) as [p|] eqn:Ep.
  - destruct (authorize_known st a e pid perm scope ctx p Hr Ep Hid) as (d & ev & st' & e' & Hrun & Hd & Hau & Hr').
    exists d, ev. by rewrite Hrun.
  - destruct (decide_unknown st a e pid perm scope false "participant not found" [] (default [] ctx) Hr) as [e' Hrun].
    { intros [p Hp]%dict_key_get. congruence. }
    enough (authorize pid perm scope ctx (st, e) =
      (Raise (IntegrityError "violates constraint"), (st, e'))) as -> by done.
    unfold authorize. unfold mbind at 1, M_bind at 1.
    change (ar_get_participant pid) with (pa_get_participant pid).
    by rewrite (pa_get_participant_run st a e pid Hr), Ep.
Qed.

Definition empty_pg_auth : PgAuth := mkPgAuth sql_create sql_create sql_create sql_create sql_create.

Lemma empty_represents : represents empty_pg_auth (new_auth_state [] [] []).
Proof.
  split; cbn; rewrite ?sql_rows_create; try done; try apply NoDup_nil_2; intros; exfalso; by eapply not_elem_of_nil.
Qed.
End refinement.

(** ** An evaluated instance *)
Section witness.
#[local] Existing Instance tick_oracle.
#[local] Existing Instance ListSql.sql.
#[local] Existing Instance ListSql.sql_laws.

Definition demo_participant : Participant :=
  mkParticipant "w1" PT_AGENT None PS_ACTIVE None None [] (Aware 0) None.

Lemma demo_storable : storable_participant demo_participant.
Proof. split; [by eexists | done]. Qed.

(** A stored participant without grants is denied, a stranger makes it raise. *)
Lemma postgres_authorize_witness : exists st,
  (exists d, (authorize "w1" CARD_VIEW global_scope None (st, mkEnv 0 0)).1 = Ok d /\
     (dec_allowed d = true <->
      entitled (with_participant demo_participant empty_auth_state) 0 "w1" CARD_VIEW global_scope None)) /\
  (authorize "stranger" CARD_VIEW global_scope None (st, mkEnv 0 0)).1 =
    Raise (IntegrityError "violates constraint").
Proof.
  destruct (pa_upsert_run empty_pg_auth _ (mkEnv 0 0) demo_participant empty_represents demo_storable)
    as (st & _ & Hst & _). exists st.
  assert (Hfresh : uuid_at 1 ∉ map aud_id (audit_events (with_participant demo_participant empty_auth_state)))
    by apply not_elem_of_nil.
  destruct (postgres_authorize st _ (mkEnv 0 0) "w1" CARD_VIEW global_scope None Hst Hfresh)
    as (d & ev & Hrun & Hd & _).
  destruct (postgres_authorize st _ (mkEnv 0 0) "stranger" CARD_VIEW global_scope None Hst Hfresh) as [Hno _].
  split; [|exact Hno]. exists d. split; [exact Hrun | apply Hd].
Defined.
End witness.
