(* ===== verification/Boundaries.v ===== *)
(** * Boundary adapters ([boundaries.py])

    [BoundaryAdapterService] admits external payloads through source nodes
    and lets work leave through sink nodes, under the contract of the node's
    configuration: tokens, mappings of payloads, deduplication and
    idempotency keys. *)
From Stdlib Require Import ZArith Ascii String.
From S2P Require Import Prelude Values Authority Models Graph PanelValidator Artifacts.
From S2P Require Import RuntimeService Auth Registry Pydantic Executor.
Open Scope string_scope.
Open Scope list_scope.

(** ** Contracts, requests, results *)
Record BoundaryAuth : Type := mkBoundaryAuth {
  ba_token : option string;
  ba_tokens : list string;
}.

Record SourceBoundaryContract : Type := mkSourceContract {
  sc_adapter : string;
  sc_auth : option BoundaryAuth;
  sc_payload_map : list (string * string);
  sc_metadata_map : list (string * string);
  sc_deduplication_key : option string;
  sc_target_workflow_version : option string;
}.

Record SinkBoundaryContract : Type := mkSinkContract {
  kc_adapter : string;
  kc_auth : option BoundaryAuth;
  kc_payload_map : list (string * string);
  kc_idempotency_key : option string;
  kc_external_reference_path : option string;
}.

Record BoundarySourceRequest : Type := mkSourceRequest {
  bs_patch_panel_id : string;
  bs_source_id : string;
  bs_external_payload : doc;
  bs_headers : doc;
  bs_actor_token : option string;
}.

Record BoundarySinkRequest : Type := mkSinkRequest {
  bk_patch_panel_id : string;
  bk_sink_id : string;
  bk_card_id : UUID;
  bk_external_response : doc;
  bk_actor_token : option string;
}.

Record SourceBoundaryResult : Type := mkSourceResult {
  sr_card : Card;
  sr_deduplication_key : option string;
  sr_adapter : string;
}.

Record SinkBoundaryResult : Type := mkSinkBoundaryResult {
  kr_event : CardEvent;
  kr_external_reference : option string;
  kr_egress_idempotency_key : option string;
  kr_adapter : string;
}.

(** What the service takes from pydantic, and the fields of [str.format]
    that are not plain names. *)
Class BoundaryModels : Type := {
  source_contract_validate : value -> res SourceBoundaryContract;
  sink_contract_validate : value -> res SinkBoundaryContract;
  card_dump : Card -> value;
  format_field : string -> list (string * string) -> res string;
}.

(** ** Helpers *)
Definition boundary_allowed (auth : BoundaryAuth) : list string :=
  ba_tokens auth ++ (if truthy (ba_token auth) then [str_or (ba_token auth) ""] else []).

Definition _ensure_authorized (auth : option BoundaryAuth) (actor_token : option string) : res () :=
  match auth with
  | None => Ok tt
  | Some a =>
      match boundary_allowed a with
      | [] => Ok tt
      | allowed =>
          if match actor_token with Some t => str_in t allowed | None => false end then Ok tt
          else Raise (InvalidOperationError "boundary adapter authorization failed")
      end
  end.

Definition _envelope (payload headers : doc) : value :=
  VDict [("payload", VDict payload); ("headers", VDict headers)].

Fixpoint walk_path (path : string) (v : value) (parts : list string) : res value :=
  match parts with
  | [] => Ok v
  | part :: parts' =>
      let missing := Raise (InvalidOperationError ("boundary mapping path '" +:+ path +:+ "' was not found")) in
      match v with
      | VDict d =>
          match dict_get part d with Some v' => walk_path path v' parts' | None => missing end
      | _ => missing
      end
  end.

Definition _extract_path (envelope : value) (path : option string) : res value :=
  if truthy path then walk_path (str_or path "") envelope (split_all "." (str_or path ""))
  else Ok VNone.

Definition _map_payload (envelope : value) (mapping : list (string * string)) : res doc :=
  items ← map_res (fun m => v ← _extract_path envelope (Some m.2); Ok (m.1, v)) mapping;
  Ok (dict_of_list items).

(** [template.format( **values)]: [{name}] is replaced, doubled braces are
    braces. *)
Definition special_field (field : string) : bool :=
  bool_decide (field = "") ||
  (fix any s := match s with
                | EmptyString => false
                | String c s' => str_in (String c "") ["."; "["; "!"; ":"; "{"] || any s'
                end) field ||
  (fix digits s := match s with
                   | EmptyString => true
                   | String c s' => N.leb 48 (N_of_ascii c) && N.leb (N_of_ascii c) 57 && digits s'
                   end) field.

Section format.
Context `{BoundaryModels} (values : list (string * string)).

Definition render_field (field : string) : res string :=
  if special_field field then format_field field values
  else match dict_get field values with Some v => Ok v | None => Raise (KeyError field) end.

(** [field] is the replacement field being read, [depth] the braces open
    inside it. *)
Fixpoint str_format (s : string) (field : option string) (depth : nat) : res string :=
  match s, field with
  | EmptyString, None => Ok ""
  | EmptyString, Some _ => Raise (ValueError "expected '}' before end of string")
  | String c s', None =>
      if decide (c = "{"%char) then
        match s' with
        | EmptyString => Raise (ValueError "Single '{' encountered in format string")
        | String c' s'' =>
            if decide (c' = "{"%char) then r ← str_format s'' None 0; Ok (String "{" r)
            else str_format s' (Some "") 0
        end
      else if decide (c = "}"%char) then
        match s' with
        | String c' s'' =>
            if decide (c' = "}"%char) then r ← str_format s'' None 0; Ok (String "}" r)
            else Raise (ValueError "Single '}' encountered in format string")
        | EmptyString => Raise (ValueError "Single '}' encountered in format string")
        end
      else r ← str_format s' None 0; Ok (String c r)
  | String c s', Some acc =>
      if decide (c = "}"%char) then
        match depth with
        | 0 => v ← render_field acc; r ← str_format s' None 0; Ok (v +:+ r)
        | S d => str_format s' (Some (acc +:+ "}")) d
        end
      else str_format s' (Some (acc +:+ String c "")) (if decide (c = "{"%char) then S depth else depth)
  end.
End format.

Definition _render_template `{BoundaryModels} (template : string) (card : Card) (sink_id : string)
    (external_reference : option string) : res string :=
  let values := [("card_id", uuid_str (cd_id card)); ("sink_id", sink_id);
                 ("workflow_version", cd_workflow_version card);
                 ("external_reference", str_or external_reference "")] in
  match dict_get template values with
  | Some v => Ok v
  | None =>
      let parts := map strip (split_all "+" template) in
      if Nat.ltb 1 (length parts) && forallb (fun part => dict_mem part values) parts
      then Ok (str_concat ":" (omap (fun part => dict_get part values) parts))
      else str_format values template None 0
  end.

(** ** The service *)
Section service.
Context `{Oracle} `{Networkx} `{Pydantic} `{BoundaryModels} {R : Type} `{CardRuntime R}.

Definition boundary_panel (patch_panel_id : string) (panels : list PatchPanel) : res PatchPanel :=
  match py_next (fun pp => bool_decide (pp_id pp = patch_panel_id)) panels with
  | Some pp => Ok pp
  | None => Raise (NotFoundError ("Patch Panel '" +:+ patch_panel_id +:+ "' is not registered"))
  end.

(** [NodeExecutor(patch_panel=..., runtime=self.runtime)]: without a registry
    and a repository. *)
Definition with_executor {B} (m : M (World R RegistryState AuthState) B) : M R B :=
  zoom (fun r => mkWorld r None None) (fun w _ => w_runtime w) m.

(** [node.config.get("boundary_contract", node.config.get(key, {}))]. *)
Definition contract_of (node : NodeDefinition) (key : string) : value :=
  vget_default "boundary_contract" (vget_default key (VDict []) (nd_config node)) (nd_config node).

(** What a source request is turned into, before the runtime is called: the
    node, the contract, the payload, the metadata, the deduplication key. *)
Definition ingress (pp : PatchPanel) (request : BoundarySourceRequest) :
    res (NodeDefinition * SourceBoundaryContract * doc * doc * option string) :=
  node ← _node pp (bs_source_id request) SOURCE;
  contract ← source_contract_validate (contract_of node "ingress_contract");
  _ ← _ensure_authorized (sc_auth contract) (bs_actor_token request);
  _ ← (match sc_target_workflow_version contract with
       | Some target =>
           if negb (bool_decide (target = workflow_version_id pp))
           then Raise (InvalidOperationError
                         ("source '" +:+ nd_id node +:+ "' targets workflow '" +:+ target +:+
                          "', not '" +:+ workflow_version_id pp +:+ "'"))
           else Ok tt
       | None => Ok tt
       end);
  let envelope := _envelope (bs_external_payload request) (bs_headers request) in
  mapped ← _map_payload envelope (sc_payload_map contract);
  let payload := match mapped with [] => bs_external_payload request | _ => mapped end in
  metadata ← _map_payload envelope (sc_metadata_map contract);
  let metadata := dict_update metadata [("boundary_adapter", VStr (sc_adapter contract));
                                        ("boundary_source", VStr (nd_id node))] in
  deduplication_key ← (if truthy (sc_deduplication_key contract)
                       then v ← _extract_path envelope (sc_deduplication_key contract); Ok (Some (v_str v))
                       else Ok None);
  let metadata := if truthy deduplication_key
                  then dict_set "deduplication_key" (v_opt_str deduplication_key) metadata
                  else metadata in
  Ok (node, contract, payload, metadata, deduplication_key).

Definition source_key (pp : PatchPanel) (node : NodeDefinition) (deduplication_key : option string) :
    option string :=
  if truthy deduplication_key
  then Some ("boundary-source:" +:+ pp_id pp +:+ ":" +:+ nd_id node +:+ ":" +:+ str_or deduplication_key "")
  else None.

Definition boundary_execute_source (request : BoundarySourceRequest) : M R SourceBoundaryResult :=
  panels ← rt_list_patch_panels;
  patch_panel ← lift_res (boundary_panel (bs_patch_panel_id request) panels);
  plan ← lift_res (ingress patch_panel request);
  let '(node, contract, payload, metadata, deduplication_key) := plan in
  card ← with_executor (execute_source patch_panel (nd_id node) payload (Some metadata)
                          (source_key patch_panel node deduplication_key));
  _ ← rt_record_event (cd_id card) "boundary_source_received" (Some (nd_id node))
        (Some [("adapter", VStr (sc_adapter contract)); ("source_id", VStr (nd_id node));
               ("deduplication_key", v_opt_str deduplication_key);
               ("headers", VDict (bs_headers request))])
        (key_suffix (source_key patch_panel node deduplication_key) "event");
  mret (mkSourceResult card deduplication_key (sc_adapter contract)).

Definition boundary_execute_sink (request : BoundarySinkRequest) : M R SinkBoundaryResult :=
  panels ← rt_list_patch_panels;
  patch_panel ← lift_res (boundary_panel (bk_patch_panel_id request) panels);
  node ← lift_res (_node patch_panel (bk_sink_id request) SINK);
  contract ← lift_res (sink_contract_validate (contract_of node "egress_contract"));
  _ ← lift_res (_ensure_authorized (kc_auth contract) (bk_actor_token request));
  card ← rt_get_card (bk_card_id request);
  let envelope := VDict [("card", card_dump card); ("external_response", VDict (bk_external_response request))] in
  external_payload ← lift_res (_map_payload envelope (kc_payload_map contract));
  external_reference ← lift_res (
    if truthy (kc_external_reference_path contract)
    then v ← _extract_path envelope (kc_external_reference_path contract); Ok (Some (v_str v))
    else match vget "external_reference" (bk_external_response request) with
         | VNone => Ok None
         | v => Ok (Some (v_str v))
         end);
  egress_idempotency_key ← lift_res (_render_template (str_or (kc_idempotency_key contract) "card_id + sink_id")
    card (nd_id node) external_reference);
  let key := "boundary-sink:" +:+ pp_id patch_panel +:+ ":" +:+ nd_id node +:+ ":" +:+ egress_idempotency_key in
  result ← with_executor (execute_sink patch_panel (cd_id card) (nd_id node) external_reference (Some key));
  _ ← rt_record_event (cd_id card) "boundary_sink_egressed" (Some (nd_id node))
        (Some [("adapter", VStr (kc_adapter contract)); ("sink_id", VStr (nd_id node));
               ("external_payload", VDict external_payload);
               ("external_reference", v_opt_str (sink_external_reference result));
               ("egress_idempotency_key", VStr egress_idempotency_key)])
        (Some (key +:+ ":event"));
  mret (mkSinkBoundaryResult (sink_event result) (sink_external_reference result)
          (Some egress_idempotency_key) (kc_adapter contract)).
End service.
