(* ===== verification/BoundaryTheorems.v ===== *)
(** * What the boundary adapters guarantee

    On the in-memory runtime: a payload with a deduplication key is admitted
    once, and only with a token the contract allows. *)
From Stdlib Require Import ZArith Ascii String.
From S2P Require Import Prelude Values Authority Models Graph PanelValidator SystemPanels Artifacts.
From S2P Require Import RuntimeService MemoryRuntime MemorySpec MemoryInvariant MemoryRefine MemoryReplay.
From S2P Require Import Auth Registry Pydantic Executor Boundaries.
Open Scope string_scope.
Open Scope list_scope.

(** ** Runs that answer *)
Lemma bind_inv {S A B} (m : M S A) (f : A -> M S B) (s : S * Env) b (s' : S * Env) :
  (m ≫= f) s = (Ok b, s') -> exists a s1, m s = (Ok a, s1) /\ f a s1 = (Ok b, s').
Proof. unfold mbind, M_bind. destruct (m s) as [[a|x] s1]; [eauto | done]. Qed.

Lemma lift_inv {S A} (r : res A) (s : S * Env) a (s' : S * Env) : lift_res r s = (Ok a, s') -> r = Ok a /\ s' = s.
Proof. by intros [= -> ->]. Qed.

Section ingress.
Context `{OracleLaws} `{NetworkxLaws} `{Pydantic} `{BoundaryModels}.
Implicit Types (s : Runtime * Env).

(** ** Keys that have answered *)
Lemma create_hit pid payload metadata key card s s1 later pid' payload' metadata' :
  create_card pid payload metadata key s = (Ok card, s1) -> truthy key = true -> grows s1.1 later.1 ->
  create_card pid' payload' metadata' key later = (Ok card, later).
Proof.
  intros Hc Hk Hg. pose proof (create_stores pid payload metadata key s Hk) as Hst.
  unfold wp in Hst. rewrite Hc in Hst. destruct (Hst card eq_refl) as (ch & Hch & Htr & Hty).
  pose proof (grow_keys _ _ Hg key ch Hch Htr) as Hch2.
  unfold create_card. rewrite (with_cached_hit _ _ _ _ ch) by done. by rewrite Hty.
Qed.

Lemma event_hit cid typ actor payload key ev s s1 later cid' typ' actor' payload' :
  MemoryRuntime.record_event cid typ actor payload key s = (Ok ev, s1) -> truthy key = true -> grows s1.1 later.1 ->
  MemoryRuntime.record_event cid' typ' actor' payload' key later = (Ok ev, later).
Proof.
  intros Hc Hk Hg.
  assert (Hst : wp (MemoryRuntime.record_event cid typ actor payload key) (stored key _typed_event) s)
    by (apply wp_stored_cached; stored_walk).
  unfold wp in Hst. rewrite Hc in Hst. destruct (Hst ev eq_refl) as (ch & Hch & Htr & Hty).
  pose proof (grow_keys _ _ Hg key ch Hch Htr) as Hch2.
  unfold MemoryRuntime.record_event. rewrite (with_cached_hit _ _ _ _ ch) by done. by rewrite Hty.
Qed.

(** ** The executor runs on the runtime it is given *)
Lemma with_executor_source pp id payload metadata key s :
  with_executor (execute_source pp id payload metadata key) s =
  (node ← lift_res (_node pp id SOURCE);
   card ← create_card (pp_id pp) payload (Some (default [] metadata)) key;
   _ ← MemoryRuntime.record_event (cd_id card) "source_executed" (Some (nd_id node))
         (Some [("source_id", VStr (nd_id node))]) (key_suffix key "source");
   mret card) s.
Proof.
  unfold with_executor, execute_source, on_runtime, zoom, mbind, M_bind, lift_res. cbn.
  destruct (_node pp id SOURCE) as [node|x]; [|by destruct s]. cbn.
  destruct s as [st e]. cbn. destruct (create_card _ _ _ _ (st, e)) as [[card|x] [st1 e1]]; cbn; [|done].
  destruct (MemoryRuntime.record_event _ _ _ _ _ (st1, e1)) as [[ev|x] [st2 e2]]; done.
Qed.

Lemma node_id pp id ty node : _node pp id ty = Ok node -> nd_id node = id.
Proof.
  unfold _node. destruct (py_next _ _) as [n|] eqn:E; [|done].
  apply py_next_some in E as [_ Hid%bool_decide_eq_true]. destruct (negb _); [done|]. by intros [= <-].
Qed.

Lemma boundary_panel_id pid panels pp : boundary_panel pid panels = Ok pp -> pp_id pp = pid.
Proof.
  unfold boundary_panel. destruct (py_next _ _) as [p|] eqn:E; [|done].
  apply py_next_some in E as [_ Hid%bool_decide_eq_true]. by intros [= <-].
Qed.

(** The token is one the contract lists, when it lists any. *)
Definition token_allowed (auth : option BoundaryAuth) (token : option string) : Prop :=
  forall a, auth = Some a -> boundary_allowed a <> [] -> exists t, token = Some t /\ t ∈ boundary_allowed a.

Lemma ensure_authorized_ok auth token : _ensure_authorized auth token = Ok tt -> token_allowed auth token.
Proof.
  intros Ha a -> Hne. unfold _ensure_authorized in Ha. destruct (boundary_allowed a) as [|x l]; [done|].
  destruct token as [t|]; [|done]. exists t. split; [done|]. apply str_in_true. by destruct (str_in t (x :: l)).
Qed.

Lemma ingress_inv pp req node contract payload metadata d :
  ingress pp req = Ok (node, contract, payload, metadata, d) ->
  _node pp (bs_source_id req) SOURCE = Ok node /\
  source_contract_validate (contract_of node "ingress_contract") = Ok contract /\
  token_allowed (sc_auth contract) (bs_actor_token req).
Proof.
  unfold ingress, mbind, res_bind. destruct (_node _ _ _) as [n|] eqn:En; [|done].
  destruct (source_contract_validate _) as [c|] eqn:Ec; [|done].
  destruct (_ensure_authorized _ _) as [[]|] eqn:Ea; [|done].
  destruct (match sc_target_workflow_version c with Some _ => _ | None => _ end); [|done].
  destruct (_map_payload _ (sc_payload_map c)); [|done]. destruct (_map_payload _ (sc_metadata_map c)); [|done].
  destruct (if truthy (sc_deduplication_key c) then _ else _); [|done].
  intros [= <- <- _ _ _]. split; [done|]. split; [done|]. by apply ensure_authorized_ok.
Qed.

(** The runtime calls of a request that is answered. *)
Lemma boundary_source_inv req s r s1 : boundary_execute_source req s = (Ok r, s1) ->
  exists pp node contract payload metadata s2 s3 ev1 ev2,
    boundary_panel (bs_patch_panel_id req) (dict_values (_patch_panels s.1)) = Ok pp /\
    ingress pp req = Ok (node, contract, payload, metadata, sr_deduplication_key r) /\
    let key := source_key pp node (sr_deduplication_key r) in
    create_card (pp_id pp) payload (Some metadata) key s = (Ok (sr_card r), s2) /\
    MemoryRuntime.record_event (cd_id (sr_card r)) "source_executed" (Some (nd_id node))
      (Some [("source_id", VStr (nd_id node))]) (key_suffix key "source") s2 = (Ok ev1, s3) /\
    MemoryRuntime.record_event (cd_id (sr_card r)) "boundary_source_received" (Some (nd_id node))
      (Some [("adapter", VStr (sc_adapter contract)); ("source_id", VStr (nd_id node));
             ("deduplication_key", v_opt_str (sr_deduplication_key r));
             ("headers", VDict (bs_headers req))]) (key_suffix key "event") s3 = (Ok ev2, s1).
Proof.
  intros Hrun. apply bind_inv in Hrun as (panels & s0 & [= <- <-] & Hrun).
  apply bind_inv in Hrun as (pp & s0 & [Hpp ->]%lift_inv & Hrun).
  apply bind_inv in Hrun as ([[[[node contract] payload] metadata] d] & s0 & [Hin ->]%lift_inv & Hrun).
  apply bind_inv in Hrun as (card & s3 & Hex & Hrun). rewrite with_executor_source in Hex.
  apply bind_inv in Hex as (node' & s0 & [Hnode ->]%lift_inv & Hex).
  apply bind_inv in Hex as (card' & s2 & Hc & Hex). apply bind_inv in Hex as (ev1 & s3' & He1 & [= <- <-]).
  apply bind_inv in Hrun as (ev2 & s4 & He2 & [= <- <-]). cbn [sr_card sr_deduplication_key].
  destruct (ingress_inv _ _ _ _ _ _ _ Hin) as (Hnode0 & _).
  pose proof (node_id _ _ _ _ Hnode0) as Hid. rewrite <- Hid in Hnode0. assert (node' = node) as -> by congruence.
  by exists pp, node, contract, payload, metadata, s2, s3', ev1, ev2.
Qed.

Lemma op_next {B} o (f : B -> answer) (m : M Runtime B) s b s' : run_op o = mapM f m -> m s = (Ok b, s') ->
  Inv s.1 s.2 -> Inv s'.1 s'.2 /\ grows s.1 s'.1.
Proof.
  intros Ho Hm Hi. assert (Hs' : (run_op o s).2 = s').
  { rewrite Ho. unfold mapM, mbind, M_bind. by rewrite Hm. }
  rewrite <- Hs'. split; [by apply run_op_Inv | by apply run_op_grows].
Qed.

Lemma source_key_truthy pp node d : truthy d = true -> truthy (source_key pp node d) = true /\
  forall x, truthy (key_suffix (source_key pp node d) x) = true.
Proof.
  intros Hd. unfold source_key. rewrite Hd.
  assert (Hk : forall y, truthy (Some ("boundary-source:" +:+ y)) = true) by done.
  split; [apply Hk|]. intros x. unfold key_suffix. rewrite Hk. apply Hk.
Qed.

(** C34. Ingress through a boundary source is authorized and happens once:
    a request is answered only when its token is one the contract of the
    source allows (if it lists any); and after a request with a
    deduplication key was answered, any later request to the same source
    that carries the same key answers the same card, whatever its payload,
    and changes nothing. *)
Theorem boundary_ingress_once req s r s1 : reachable s -> boundary_execute_source req s = (Ok r, s1) ->
  (exists pp node contract, boundary_panel (bs_patch_panel_id req) (dict_values (_patch_panels s.1)) = Ok pp /\
     source_contract_validate (contract_of node "ingress_contract") = Ok contract /\
     _node pp (bs_source_id req) SOURCE = Ok node /\ token_allowed (sc_auth contract) (bs_actor_token req)) /\
  (truthy (sr_deduplication_key r) = true ->
   forall os req2 pp2 node2 contract2 payload2 metadata2, let later := run_ops os s1 in
   bs_patch_panel_id req2 = bs_patch_panel_id req -> bs_source_id req2 = bs_source_id req ->
   boundary_panel (bs_patch_panel_id req2) (dict_values (_patch_panels later.1)) = Ok pp2 ->
   ingress pp2 req2 = Ok (node2, contract2, payload2, metadata2, sr_deduplication_key r) ->
   boundary_execute_source req2 later =
     (Ok (mkSourceResult (sr_card r) (sr_deduplication_key r) (sc_adapter contract2)), later)).
Proof.
  intros Hr Hrun. pose proof (reachable_Inv s Hr) as Hi.
  destruct (boundary_source_inv _ _ _ _ Hrun) as
    (pp & node & contract & payload & metadata & s2 & s3 & ev1 & ev2 & Hpp & Hin & Hc & He1 & He2).
  destruct (ingress_inv _ _ _ _ _ _ _ Hin) as (Hnode & Hcon & Htok).
  split; [by exists pp, node, contract|]. intros Hd os req2 pp2 node2 contract2 payload2 metadata2 later Hp Hs Hpp2 Hin2.
  set (d := sr_deduplication_key r) in *. set (key := source_key pp node d) in *.
  destruct (source_key_truthy pp node d Hd) as [Hk Hks]. fold key in Hk, Hks.
  destruct (op_next (CreateCard (pp_id pp) payload (Some metadata) key) _ _ _ _ _ eq_refl Hc Hi) as [Hi2 Hg2].
  destruct (op_next (RecordEvent _ _ _ _ (key_suffix key "source")) _ _ _ _ _ eq_refl He1 Hi2) as [Hi3 Hg3].
  destruct (op_next (RecordEvent _ _ _ _ (key_suffix key "event")) _ _ _ _ _ eq_refl He2 Hi3) as [Hi1 Hg1].
  pose proof (run_ops_grows os s1 Hi1) as Hg. fold later in Hg.
  assert (Hkey : source_key pp2 node2 d = key).
  { destruct (ingress_inv _ _ _ _ _ _ _ Hin2) as (Hnode2 & _).
    unfold key, source_key. rewrite (boundary_panel_id _ _ _ Hpp), (boundary_panel_id _ _ _ Hpp2), Hp.
    by rewrite (node_id _ _ _ _ Hnode), (node_id _ _ _ _ Hnode2), Hs. }
  destruct (ingress_inv _ _ _ _ _ _ _ Hin2) as (Hnode2 & _). pose proof (node_id _ _ _ _ Hnode2) as Hid2.
  rewrite <- Hid2 in Hnode2.
  unfold boundary_execute_source. unfold mbind at 1, M_bind at 1. cbn [rt_list_patch_panels card_runtime].
  change (list_patch_panels later) with (@Ok (list PatchPanel) (dict_values (_patch_panels later.1)), later). cbn iota.
  unfold mbind at 1, M_bind at 1, lift_res at 1. rewrite Hpp2.
  unfold mbind at 1, M_bind at 1, lift_res at 1. rewrite Hin2.
  unfold mbind at 1, M_bind at 1. rewrite with_executor_source, Hkey. cbn [default].
  unfold mbind at 1, M_bind at 1, lift_res at 1. rewrite Hnode2.
  unfold mbind at 1, M_bind at 1.
  erewrite (create_hit _ _ _ _ _ _ _ later); [|exact Hc | done | by do 2 (etransitivity; [eassumption|])].
  unfold mbind at 1, M_bind at 1.
  erewrite (event_hit _ _ _ _ _ _ _ _ later); [|exact He1 | done | by etransitivity].
  unfold mbind at 1, M_bind at 1. cbn [rt_record_event card_runtime mret M_ret].
  by erewrite (event_hit _ _ _ _ _ _ _ _ later); [|exact He2 | done |].
Qed.
End ingress.

(** ** An evaluated instance *)
Section witness.
#[local] Existing Instance tick_oracle.
#[local] Existing Instance tick_oracle_laws.
#[local] Existing Instance ListGraph.networkx.
#[local] Existing Instance ListGraph.networkx_laws.

#[local] Instance no_pydantic : Pydantic := {|
  patch_panel_fields _ := Raise (ValidationError "not a panel");
  registry_metadata_fields _ := Raise (ValidationError "not metadata");
  onboarding_fields _ := Raise (ValidationError "not an onboarding request");
  patch_panel_dump_by_alias _ := VNone; bucket_dump _ := VNone;
  patch_panel_dump _ := VNone; registry_metadata_dump _ := VNone; constraints_dump _ := VNone;
|}.

(** Contracts with a token and a deduplication key. *)
#[local] Instance token_contracts : BoundaryModels := {|
  source_contract_validate v :=
    match v with
    | VDict d =>
        Ok (mkSourceContract "webhook"
              (match vget "token" d with VStr t => Some (mkBoundaryAuth (Some t) []) | _ => None end)
              [] [] (dict_str "deduplication_key" v) None)
    | _ => Raise (ValidationError "not a contract")
    end;
  sink_contract_validate _ := Raise (ValidationError "not a contract");
  card_dump c := VStr (uuid_str (cd_id c));
  format_field _ _ := Raise (ValueError "not a plain name");
|}.

Definition gate_panel : PatchPanel :=
  mkPatchPanel "work" "1" None (pp_buckets work_panel)
    (mkNode "inbox" SOURCE None None [] ["created"] None
       [("boundary_contract", VDict [("token", VStr "t"); ("deduplication_key", VStr "payload.id")])]
     :: tail (pp_nodes work_panel))
    (pp_edges work_panel) (pp_pipe_bindings work_panel) (pp_acceptance_contracts work_panel) [].

Definition gated : Runtime * Env := run_ops [Register gate_panel] start.

Definition order (name : string) : BoundarySourceRequest :=
  mkSourceRequest "work" "inbox" [("id", VStr "o-1"); ("name", VStr name)] [] (Some "t").

Lemma gated_reachable : reachable gated.
Proof. apply reach_op, reach_start. Qed.

(** The first order is admitted; the second resolves to the same key. *)
Lemma two_orders : exists r s1 pp node contract payload metadata,
  boundary_execute_source (order "first") gated = (Ok r, s1) /\ sr_deduplication_key r = Some "o-1" /\
  boundary_panel (bs_patch_panel_id (order "second"))
    (dict_values (_patch_panels (run_ops [ClaimCard "take" "w1" 60 None] s1).1)) = Ok pp /\
  ingress pp (order "second") = Ok (node, contract, payload, metadata, sr_deduplication_key r) /\
  sc_adapter contract = "webhook".
Proof.
  eexists _, _, _, _, _, _, _. split; [vm_compute; reflexivity|]. split; [reflexivity|].
  split; [vm_compute; reflexivity|]. split; [vm_compute; reflexivity | reflexivity].
Qed.

(** The same order again, after its card was claimed. *)
Lemma boundary_ingress_once_witness : exists r s1,
  boundary_execute_source (order "first") gated = (Ok r, s1) /\
  let later := run_ops [ClaimCard "take" "w1" 60 None] s1 in
  boundary_execute_source (order "second") later = (Ok (mkSourceResult (sr_card r) (Some "o-1") "webhook"), later).
Proof.
  destruct two_orders as (r & s1 & pp & node & contract & payload & metadata & Hrun & Hd & Hpp & Hin & Ha).
  exists r, s1. split; [exact Hrun|].
  destruct (boundary_ingress_once (order "first") gated r s1 gated_reachable Hrun) as [_ Honce].
  assert (Ht : truthy (sr_deduplication_key r) = true) by (rewrite Hd; reflexivity).
  pose proof (Honce Ht [ClaimCard "take" "w1" 60 None] (order "second") pp node contract payload
    metadata eq_refl eq_refl Hpp Hin) as Hagain.
  rewrite Hd, Ha in Hagain. exact Hagain.
Defined.
End witness.
