(* ===== verification/Loader.v ===== *)
(** * The panel loader ([patchpanel/loader.py])

    Reads a Patch Panel from a YAML or JSON file. The files and the two
    parsers are the interface [Files]; paths are pathlib's, as the parts
    between the slashes. *)
From Stdlib Require Import ZArith QArith Ascii String.
From S2P Require Import Prelude Values UuidText Authority Models Graph PanelValidator Pydantic.
Open Scope string_scope.
Open Scope list_scope.

(** ** Paths ([pathlib.PurePosixPath]) *)
Record Path : Type := mkPath { path_root : string; path_parts : list string }.

(** A leading slash is the root (exactly two are kept); empty parts and
    [.] are dropped. *)
Definition root_of (s : string) : string :=
  if startswith s "///" then "/" else if startswith s "//" then "//"
  else if startswith s "/" then "/" else "".
Definition path_of (s : string) : Path :=
  mkPath (root_of s)
    (py_filter (fun p => negb (str_in p ["" ; "."])) (split_all "/" s)).

(** [str(path)]. *)
Definition path_str (p : Path) : string :=
  match path_root p +:+ str_concat "/" (path_parts p) with "" => "." | s => s end.
Definition is_absolute (p : Path) : bool := negb (bool_decide (path_root p = "")).
Definition path_name (p : Path) : string := default "" (last (path_parts p)).
(** [p / s] for a relative [s]. *)
Definition path_join (p : Path) (s : string) : Path :=
  mkPath (path_root p) (path_parts p ++ path_parts (path_of s)).
(** [p.suffix]: the part of the name from its last dot, when the dot is
    neither its first nor its last character. *)
Definition path_suffix (p : Path) : string :=
  match split_last "." (path_name p) with
  | ("", _) | (_, Some "") | (_, None) => ""
  | (_, Some ext) => "." +:+ ext
  end.

(** ** Parsed data *)

(** A key of a parsed mapping: YAML has keys that are not strings. *)
Inductive data_key : Type :=
  | KStr (s : string)
  | KBool (b : bool)
  | KInt (z : Z)
  | KOther (repr : string).

Inductive data : Type :=
  | DScalar (v : value)
  | DList (l : list data)
  | DMap (d : list (data_key * data))
  | DOther (repr : string).

#[export] Instance data_key_eq_dec : EqDecision data_key.
Proof. solve_decision. Defined.

(** Python's [True == 1], for keys too. *)
Definition is_true_key (k : data_key) : bool :=
  match k with KBool true => true | KInt z => bool_decide (z = 1%Z) | _ => false end.

(** [if True in edge and "on" not in edge: edge["on"] = edge.pop(True)]. *)
Definition _normalize_edge (edge : data) : data :=
  match edge with
  | DMap d =>
      match py_next (fun kv => is_true_key kv.1) d, dict_get (KStr "on") d with
      | Some (_, v), None => DMap (py_filter (fun kv => negb (is_true_key kv.1)) d ++ [(KStr "on", v)])
      | _, _ => edge
      end
  | _ => edge
  end.

Definition _normalize_yaml_keys (d : list (data_key * data)) : list (data_key * data) :=
  match dict_get (KStr "edges") d with
  | Some (DList edges) => dict_set (KStr "edges") (DList (map _normalize_edge edges)) d
  | _ => d
  end.

(** ** The files and the parsers *)
Inductive read_result : Type :=
  | Text (s : string)
  | ReadError (msg : string)
  | UndecodableText (msg : string).

Class Files : Type := {
  path_exists : Path -> bool;
  read_text : Path -> read_result;
  json_loads : string -> string + data;
  safe_load : string -> string + data;
  (** The fields of a [PatchPanel] from parsed data. *)
  patch_panel_data_fields : list (data_key * data) -> res PatchPanel;
  (** The directory of [defaults/bootstrap.py]. *)
  package_dir : Path;
}.

Section loader.
Context `{Files} `{Networkx}.

Definition _parse (path : Path) (text : string) : res data :=
  let suffix := lower (path_suffix path) in
  parsed ← (if bool_decide (suffix = ".json") then Ok (json_loads text)
            else if str_in suffix [".yaml"; ".yml"] then Ok (safe_load text)
            else Raise (PatchPanelLoadError (path_str path +:+ ": unsupported Patch Panel file type")));
  match parsed with
  | inr d => Ok d
  | inl exc => Raise (PatchPanelLoadError (path_str path +:+ ": could not parse Patch Panel: " +:+ exc))
  end.

Definition _load_mapping (path : Path) : res (list (data_key * data)) :=
  if negb (path_exists path)
  then Raise (PatchPanelLoadError (path_str path +:+ ": file does not exist"))
  else
    match read_text path with
    | ReadError exc =>
        Raise (PatchPanelLoadError (path_str path +:+ ": could not read file: " +:+ exc))
    | UndecodableText exc => Raise (ValueError exc)
    | Text text =>
        d ← _parse path text;
        match d with
        | DMap m => Ok (_normalize_yaml_keys m)
        | _ => Raise (PatchPanelLoadError (path_str path +:+ ": Patch Panel root must be a mapping"))
        end
    end.

(** [PatchPanel.model_validate(raw)] of parsed data. *)
Definition model_validate_data (raw : list (data_key * data)) : res PatchPanel :=
  pp ← patch_panel_data_fields raw; as_validation_error (validate_unique_local_ids pp).

Definition load_patch_panel (path : Path) (validate_graph : bool) : res PatchPanel :=
  raw ← _load_mapping path;
  patch_panel ←
    (match model_validate_data raw with
     | Raise (ValidationError exc) =>
         Raise (PatchPanelLoadError (path_str path +:+ ": schema validation failed: " +:+ exc))
     | r => r
     end);
  if validate_graph then _ ← validate patch_panel; Ok patch_panel else Ok patch_panel.
End loader.

(** ** Lemmas *)
(** What is loaded has unique ids and a valid graph. *)
Lemma load_patch_panel_valid `{Files} `{Networkx} path pp :
  load_patch_panel path true = Ok pp ->
  validate_unique_local_ids pp = Ok pp /\ is_ok (validate pp).
Proof.
  unfold load_patch_panel, mbind, res_bind. destruct (_load_mapping path) as [raw|]; [|done].
  destruct (model_validate_data raw) as [q|[]] eqn:Em; try done.
  destruct (validate q) eqn:Ev; [|done]. intros [= ->]. split; [|by eexists].
  revert Em. unfold model_validate_data, mbind, res_bind.
  destruct (patch_panel_data_fields raw) as [p|]; [|done].
  destruct (validate_unique_local_ids p) as [q|x] eqn:Eu; [|by destruct x].
  simpl. intros [= ->]. by pose proof (validate_unique_local_ids_same _ _ Eu) as ->.
Qed.

(** An edge whose [on] key YAML has read as [True] becomes the edge with
    the key [on], and an edge that has an [on] key is left alone. *)
Lemma normalize_edge_on pre v post :
  (forall kv, kv ∈ pre ++ post -> is_true_key kv.1 = false) ->
  dict_get (KStr "on") (pre ++ post) = None ->
  _normalize_edge (DMap (pre ++ (KBool true, v) :: post)) = DMap (pre ++ post ++ [(KStr "on", v)]).
Proof.
  intros Hk Hon. unfold _normalize_edge.
  assert (py_next (fun kv => is_true_key kv.1) (pre ++ (KBool true, v) :: post) = Some (KBool true, v)) as ->.
  { induction pre as [|kv pre IH]; simpl in *; [done|]. rewrite (Hk kv) by left.
    apply IH; [intros; apply Hk; by right|]. destruct kv. by case_decide. }
  assert (dict_get (KStr "on") (pre ++ (KBool true, v) :: post) = None) as ->.
  { clear Hk. induction pre as [|[k w] pre IH]; simpl in *; [done|]. case_decide; [done | auto]. }
  assert (Hid : forall l : list (data_key * data), (forall kv, kv ∈ l -> is_true_key kv.1 = false) ->
            py_filter (fun kv => negb (is_true_key kv.1)) l = l).
  { clear. induction l as [|kv l IH]; intros Hl; [done|]. unfold py_filter in *. cbn.
    rewrite (Hl kv) by left. cbn. rewrite IH; [done|]. intros; apply Hl; by right. }
  assert (Happ : forall l l' : list (data_key * data),
            py_filter (fun kv => negb (is_true_key kv.1)) (l ++ l') =
            py_filter (fun kv => negb (is_true_key kv.1)) l ++ py_filter (fun kv => negb (is_true_key kv.1)) l').
  { intros. apply List.filter_app. }
  rewrite Happ. change ((KBool true, v) :: post) with ([(KBool true, v)] ++ post). rewrite Happ.
  rewrite (Hid pre), (Hid post) by (intros kv ?; apply Hk, elem_of_app; auto).
  cbn. by rewrite <- app_assoc.
Qed.
