(* ===== verification/Bootstrap.v ===== *)
(** * Start-up of the packaged panels ([defaults/bootstrap.py])

    [SystemWorkflowBootstrapper] loads the configured panels into the
    runtime and the registry. The state is the pair of both. [PanelStore] is
    what it needs from a runtime: which panels it lists and what registering
    a valid panel adds. *)
From Stdlib Require Import ZArith Ascii String.
From S2P Require Import Prelude Values Authority Models Graph PanelValidator Artifacts.
From S2P Require Import RuntimeService MemorySpec Registry Pydantic Loader.
Open Scope string_scope.
Open Scope list_scope.

Record BootstrapResult : Type := mkBootstrapResult {
  br_patch_panel_id : string;
  br_version : string;
  br_registered_runtime : bool;
  br_registered_registry : bool;
}.

Definition default_registry_metadata : PatchPanelRegistryMetadata :=
  mkRegistryMetadata "System Patch Panel Approval"
    (Some "System workflow for Patch Panel proposal validation and governance.")
    ["system"; "governance"; "patch-panel-approval"] ["patch_panel_proposal"]
    ["patch_panel_registry_entry"] [] [] (Some "medium") None None None PUBLISHED.

(** The search that sees every entry. *)
Definition every_entry : PatchPanelRegistrySearch :=
  mkSearch None None None None None None true true.

(** [existing.id == pp.id and existing.version == pp.version]. *)
Definition same_version (pp existing : PatchPanel) : bool :=
  bool_decide (pp_id existing = pp_id pp) && bool_decide (pp_version existing = pp_version pp).
Definition entry_of (pp : PatchPanel) (entry : PatchPanelRegistryEntry) : bool :=
  bool_decide (re_patch_panel_id entry = pp_id pp) && bool_decide (re_version entry = pp_version pp).

Section bootstrap.
Context `{Oracle} `{Networkx} `{Pydantic} `{Files} {R G : Type} `{CardRuntime R}
  `{PatchPanelRegistry G}.
Notation W := (R * G)%type.

Definition on_runtime {B} (m : M R B) : M W B := zoom fst (fun r w => (r, w.2)) m.
Definition on_registry {B} (m : M G B) : M W B := zoom snd (fun g w => (w.1, g)) m.

Definition _resolve_path (configured_path : string) : Path :=
  let path := path_of configured_path in
  if path_exists path || is_absolute path then path
  else
    let packaged_default := path_join (path_join package_dir "patchpanels") (path_name path) in
    if path_exists packaged_default then packaged_default else path.

Definition _registry_metadata_for (raw : value) : res PatchPanelRegistryMetadata :=
  match raw with
  | VDict raw =>
      registry_metadata_model_validate (VDict (dict_update [("status", VStr "published")] raw))
  | _ => Ok default_registry_metadata
  end.

(** [patch_panel.metadata.get("registry")]. *)
Definition panel_registry_metadata (pp : PatchPanel) : res PatchPanelRegistryMetadata :=
  _registry_metadata_for (vget "registry" (pp_metadata pp)).

(** The body of the loop. *)
Definition register_entry (path : Path) (pp : PatchPanel) : M W () :=
  metadata ← lift_res (panel_registry_metadata pp);
  entry ← from_patch_panel pp metadata None
            [("system_workflow", VBool true); ("source_path", VStr (path_str path))];
  _ ← on_registry (rg_register entry);
  mret tt.

Definition bootstrap_one (configured_path : string) : M W BootstrapResult :=
  let path := _resolve_path configured_path in
  patch_panel ← lift_res (load_patch_panel path true);
  existing ← on_runtime rt_list_patch_panels;
  let runtime_registered := existsb (same_version patch_panel) existing in
  _ ← (if runtime_registered then mret tt
       else _ ← on_runtime (rt_register_patch_panel patch_panel); mret tt);
  entries ← on_registry (rg_search every_entry);
  let registry_registered := existsb (entry_of patch_panel) entries in
  _ ← (if registry_registered then mret tt else register_entry path patch_panel);
  mret (mkBootstrapResult (pp_id patch_panel) (pp_version patch_panel)
          (negb runtime_registered) (negb registry_registered)).

Definition bootstrap (patch_panel_paths : list string) : M W (list BootstrapResult) :=
  mapE bootstrap_one patch_panel_paths.
End bootstrap.

(** ** What start-up needs from a runtime

    Listing changes nothing; registering a valid panel that the store can
    hold and that is not listed at its version adds it, and can only displace
    another version of it. *)
Class PanelStore (R : Type) `{Oracle} `{Networkx} `{CardRuntime R} : Type := {
  ps_inv : R * Env -> Prop;
  ps_panels : R -> list PatchPanel;
  ps_admits : PatchPanel -> Prop;
  ps_list s : ps_inv s -> rt_list_patch_panels s = (Ok (ps_panels s.1), s);
  ps_env r e e' : env_le e e' -> ps_inv (r, e) -> ps_inv (r, e');
  ps_register pp s :
    ps_inv s -> ps_admits pp -> validate_unique_local_ids pp = Ok pp -> is_ok (validate pp) ->
    existsb (same_version pp) (ps_panels s.1) = false ->
    wp (rt_register_patch_panel pp) (fun r s' => r = Ok pp /\ ps_inv s' /\ env_le s.2 s'.2 /\
      pp ∈ ps_panels s'.1 /\
      (forall q, q ∈ ps_panels s'.1 -> q = pp \/ q ∈ ps_panels s.1) /\
      (forall q, q ∈ ps_panels s.1 -> pp_id q <> pp_id pp -> q ∈ ps_panels s'.1)) s;
}.
