(* ===== verification/PanelStores.v ===== *)
(** * The runtimes as panel stores

    [InMemoryCardRuntime] and [PostgresCardRuntime] meet [PanelStore]. *)
From Stdlib Require Import ZArith Ascii String.
From S2P Require Import Prelude Values Authority Models Graph PanelValidator PanelTheorems Artifacts.
From S2P Require Import RuntimeService MemoryRuntime MemorySpec MemoryInvariant Pydantic Sql.
From S2P Require Import PostgresRuntime Loader Bootstrap.
Open Scope string_scope.
Open Scope list_scope.

Section memory_store.
Context `{OracleLaws} `{Networkx}.

(** The panels are stored under their ids. *)
Record panels_inv (st : Runtime) : Prop := {
  pi_keys : NoDup (dict_keys (_patch_panels st));
  pi_ids k pp : dict_get k (_patch_panels st) = Some pp -> pp_id pp = k;
}.

Lemma panels_value st pp : panels_inv st ->
  pp ∈ dict_values (_patch_panels st) <-> dict_get (pp_id pp) (_patch_panels st) = Some pp.
Proof.
  intros [Hk Hi]. split; [|apply dict_get_value].
  intros Hv. destruct (dict_value_get pp _ Hk Hv) as [k Hg]. by rewrite (Hi k pp Hg).
Qed.

#[export] Instance memory_panel_store : PanelStore Runtime.
Proof.
  refine {| ps_inv := fun s => panels_inv s.1; ps_panels := fun st => dict_values (_patch_panels st);
            ps_admits := fun _ => True |}.
  - by intros [st e] Hi.
  - done.
  - intros pp s Hi _ _ Hv _. unfold rt_register_patch_panel. cbn.
    unfold register_patch_panel, validate_patch_panel. destruct Hv as [u Hv]. rewrite Hv.
    apply wp_bind, wp_lift_res, wp_bind, wp_modify, wp_ret. cbn.
    assert (Hi' : panels_inv (put_panel pp s.1)).
    { destruct Hi as [Hk Hids]. split; cbn; [by apply dict_set_NoDup|].
      intros k q. rewrite dict_get_set. case_decide; [by intros [= ->] | apply Hids]. }
    split; [done|]. split; [done|]. split; [split; cbn; lia|]. split.
    { apply (panels_value _ _ Hi'). cbn. apply dict_get_set_eq. }
    split.
    + intros q. apply dict_set_values_elem.
    + intros q Hq Hne. apply (panels_value _ _ Hi'). cbn. rewrite dict_get_set_ne by done.
      by apply panels_value.
Defined.
End memory_store.


Section postgres_store.
Context `{Oracle} `{Networkx} `{Pydantic} `{SqlLaws}.
Implicit Types (s : PgRuntime * Env).

(** The panel comes back from the JSON column. *)
Definition survives_dump (pp : PatchPanel) : Prop :=
  patch_panel_fields (patch_panel_dump_by_alias pp) = Ok pp.

(** Every panel row holds a panel, and every bucket row belongs to a
    version row. *)
Definition row_holds (r : PanelRow) (pp : PatchPanel) : Prop :=
  pr_id r = pp_id pp /\ pr_version r = pp_version pp /\
  pr_definition r = patch_panel_dump_by_alias pp /\ validate_unique_local_ids pp = Ok pp /\
  survives_dump pp.

Record pg_panels_inv (st : PgRuntime) : Prop := {
  pp_rows r : r ∈ sql_rows (pg_patch_panels st) -> exists pp, row_holds r pp;
  pp_buckets_known b : b ∈ sql_rows (pg_buckets st) ->
    exists v, v ∈ sql_rows (pg_workflow_versions st) /\ vw_id v = br_workflow_version b;
}.

Definition row_panel (r : PanelRow) : option PatchPanel :=
  match patch_panel_model_validate (pr_definition r) with Ok pp => Some pp | Raise _ => None end.
Definition stored_panels (st : PgRuntime) : list PatchPanel :=
  omap row_panel (sql_rows (pg_patch_panels st)).

Lemma row_holds_parse r pp : row_holds r pp ->
  patch_panel_model_validate (pr_definition r) = Ok pp.
Proof.
  intros (_ & _ & -> & Hu & Hd). unfold patch_panel_model_validate.
  rewrite Hd. cbn. by rewrite Hu.
Qed.

Lemma row_holds_panel r pp : row_holds r pp -> row_panel r = Some pp.
Proof. intros Hr. unfold row_panel. by rewrite (row_holds_parse r pp). Qed.

Lemma parse_rows (l : list PanelRow) :
  (forall r, r ∈ l -> exists pp, row_holds r pp) ->
  map_res (fun r => patch_panel_model_validate (pr_definition r)) l = Ok (omap row_panel l).
Proof.
  induction l as [|r l IH]; intros Hl; [done|]. cbn [map_res].
  destruct (Hl r) as [pp Hpp]; [by left|]. rewrite (row_holds_parse r pp) by done. cbn.
  rewrite IH by (intros; apply Hl; by right). cbn. by rewrite (row_holds_panel r pp).
Qed.

Lemma elem_stored_panels st pp : pg_panels_inv st ->
  pp ∈ stored_panels st <-> exists r, r ∈ sql_rows (pg_patch_panels st) /\ row_holds r pp.
Proof.
  intros Hi. unfold stored_panels. rewrite list_elem_of_omap. split.
  - intros (r & Hr & Hp). exists r. split; [done|]. destruct (pp_rows _ Hi r Hr) as [q Hq].
    rewrite (row_holds_panel r q Hq) in Hp. by injection Hp as ->.
  - intros (r & Hr & Hp). exists r. split; [done|]. by apply row_holds_panel.
Qed.

Lemma wp_transaction_ok {A} (m : M PgRuntime A) (a : A) (Q : PgRuntime * Env -> Prop) s :
  wp m (fun r s' => r = Ok a /\ Q s') s -> wp (transaction m) (fun r s' => r = Ok a /\ Q s') s.
Proof. unfold wp, transaction. destruct (m s) as [[b|x] s']; cbn; [done|]. by intros [? _]. Qed.

Lemma wp_insert_into {Row} (p : place Row) r (Q : res () -> PgRuntime * Env -> Prop) s :
  (forall x, x ∈ sql_rows (pl_get _ p s.1) -> pl_same_key _ p r x = false) ->
  (forall t, sql_rows t ≡ₚ r :: sql_rows (pl_get _ p s.1) -> Q (Ok tt) (pl_set _ p t s.1, s.2)) ->
  wp (insert_into p r) Q s.
Proof.
  intros Hno HQ. apply wp_bind, wp_get. destruct (sql_insert _ _ _) as [t|] eqn:E.
  - apply wp_put, HQ. by eapply sql_insert_rows.
  - apply sql_insert_conflict in E as (x & Hx & Hk). by rewrite Hno in Hk.
Qed.

(** The loop over the buckets of a new version. *)
Lemma insert_buckets wv t (l : list BucketDefinition) s :
  NoDup (map bk_id l) ->
  (forall b, b ∈ sql_rows (pg_buckets s.1) -> br_workflow_version b = wv -> br_id b ∉ map bk_id l) ->
  wp (forM l (fun bucket => insert_into buckets (mkBucketRow wv (bk_id bucket) (bucket_dump bucket) t)))
    (fun r s' => r = Ok tt /\ s'.2 = s.2 /\ pg_patch_panels s'.1 = pg_patch_panels s.1 /\
       pg_workflow_versions s'.1 = pg_workflow_versions s.1 /\
       (forall b, b ∈ sql_rows (pg_buckets s'.1) ->
          b ∈ sql_rows (pg_buckets s.1) \/ br_workflow_version b = wv)) s.
Proof.
  revert s. induction l as [|b0 l IH]; intros s Hnd Hno; cbn [forM]; [apply wp_ret; repeat split; auto|].
  apply NoDup_cons in Hnd as [Hb0 Hnd]. apply wp_bind, wp_insert_into.
  { intros x Hx. cbn. apply andb_false_iff. rewrite !bool_decide_eq_false.
    destruct (decide (br_workflow_version x = wv)) as [Hw|]; [|left; congruence]. right.
    intros Heq. apply (Hno x Hx Hw). rewrite <- Heq. left. }
  intros t' Ht'. cbn. eapply wp_mono; [apply IH; [done|]|].
  - cbn. intros b. rewrite Ht'. intros [->|Hb]%elem_of_cons Hw Hin; [done|].
    apply (Hno b Hb Hw). by right.
  - cbn. intros r s' (-> & He & Hp & Hv & Hbs). split; [done|]. split; [done|]. split; [done|].
    split; [done|]. intros b [Hb|]%Hbs; [|by right]. rewrite Ht' in Hb.
    apply elem_of_cons in Hb as [->|]; [by right | by left].
Qed.

(** Recording the version of a new panel. *)
Lemma ensure_version pp t s :
  pg_panels_inv s.1 -> unique_ids pp ->
  wp (existing_version ← select_from workflow_versions
        (fun r => bool_decide (vw_id r = workflow_version_id pp));
      _ ← (match existing_version with
           | [] =>
               _ ← insert_into workflow_versions
                     (mkVersionRow (workflow_version_id pp) (pp_id pp) (pp_version pp) true t);
               forM (pp_buckets pp) (fun bucket =>
                 insert_into buckets
                   (mkBucketRow (workflow_version_id pp) (bk_id bucket) (bucket_dump bucket) t))
           | _ => mret tt
           end);
      mret pp)
    (fun r s' => r = Ok pp /\ pg_panels_inv s'.1 /\ s'.2 = s.2 /\
       pg_patch_panels s'.1 = pg_patch_panels s.1) s.
Proof.
  intros Hi (Hub & _). apply wp_bind, wp_bind, wp_get, wp_ret. cbn.
  destruct (sql_select _ _) as [|v vs] eqn:E; [|by apply wp_bind, wp_ret, wp_ret].
  rewrite select_none in E. apply wp_bind, wp_bind, wp_insert_into.
  { intros x Hx. cbn. rewrite bool_decide_eq_false. intros Heq. specialize (E x Hx).
    by rewrite bool_decide_eq_true_2 in E. }
  intros t' Ht'. cbn. eapply wp_mono; [apply insert_buckets; [done|]|].
  - cbn. intros b Hb Hw _. destruct (pp_buckets_known _ Hi b Hb) as (v & Hv & Hvb).
    specialize (E v Hv). rewrite bool_decide_eq_false in E. by rewrite Hvb, Hw in E.
  - intros r s' (-> & He & Hp & Hv & Hbs). apply wp_ret. cbn in *. split; [done|].
    split; [|by rewrite He, Hp]. split.
    + intros r. rewrite Hp. apply Hi.
    + intros b Hb. rewrite Hv. destruct (Hbs b Hb) as [Hb'|Hw].
      * destruct (pp_buckets_known _ Hi b Hb') as (v & Hin & Heq). exists v. rewrite Ht'.
        split; [by right | done].
      * exists (mkVersionRow (workflow_version_id pp) (pp_id pp) (pp_version pp) true t).
        rewrite Ht'. split; [by left | done].
Qed.

#[export] Instance postgres_panel_store : PanelStore PgRuntime.
Proof.
  refine {| ps_inv := fun s => pg_panels_inv s.1; ps_panels := stored_panels;
            ps_admits := survives_dump |}; [| done |].
  - intros [st e] Hi. change (rt_list_patch_panels (st, e)) with
      (map_res (fun r => patch_panel_model_validate (pr_definition r))
         (sql_rows (pg_patch_panels st)), (st, e)).
    by rewrite parse_rows by apply Hi.
  - intros pp s Hi Hd Hu [u Hv] Hno. unfold rt_register_patch_panel. cbn.
    unfold pg_register_patch_panel, validate_patch_panel. rewrite Hv.
    apply wp_bind, wp_lift_res, wp_bind, wp_now. apply wp_transaction_ok.
    rewrite existsb_false in Hno.
    assert (Hrow : forall r, r ∈ sql_rows (pg_patch_panels s.1) ->
      bool_decide (pr_id r = pp_id pp) && bool_decide (pr_version r = pp_version pp) = false).
    { intros r Hr. destruct (pp_rows _ Hi r Hr) as [q Hq].
      pose proof Hq as (Hid & Hver & _). rewrite Hid, Hver. apply (Hno q).
      apply elem_stored_panels; [done|]. by exists r. }
    apply wp_bind, wp_bind, wp_get, wp_ret. cbn.
    assert (sql_select (fun r => bool_decide (pr_id r = pp_id pp) &&
      bool_decide (pr_version r = pp_version pp)) (pg_patch_panels s.1) = []) as ->
      by by apply select_none.
    apply wp_bind, wp_insert_into.
    { intros x Hx. cbn. rewrite (bool_decide_ext _ (pr_id x = pp_id pp)) by done.
      rewrite (bool_decide_ext (pp_version pp = _) (pr_version x = pp_version pp)) by done.
      by apply Hrow. }
    intros t Ht. cbn in Ht. set (row := mkPanelRow _ _ _ _) in Ht.
    assert (Hholds : row_holds row pp) by done.
    eapply wp_mono; [apply ensure_version; [|by apply unique_ids_ok]|].
    { split; cbn; [|apply Hi]. intros r. rewrite Ht, elem_of_cons.
      intros [->|Hr]; [by exists pp | by apply Hi]. }
    intros r s' (-> & Hi' & He & Hp). cbn in Hp, He. split; [done|]. split; [done|].
    split; [rewrite He; split; cbn; lia|].
    assert (Hel : forall q, q ∈ stored_panels s'.1 <-> q = pp \/ q ∈ stored_panels s.1).
    { intros q. rewrite !elem_stored_panels by done. rewrite Hp. setoid_rewrite Ht.
      setoid_rewrite elem_of_cons. split.
      - intros (r & [->|Hr] & Hq); [|by right; exists r]. left.
        pose proof (row_holds_panel _ _ Hq) as Hq'. rewrite (row_holds_panel _ _ Hholds) in Hq'.
        by injection Hq' as ->.
      - intros [->|(r & Hr & Hq)]; [exists row; auto | exists r; auto]. }
    setoid_rewrite Hel. auto.
Defined.
End postgres_store.
