(* ===== verification/BootstrapTheorems.v ===== *)
(** * What start-up guarantees

    For every runtime that is a [PanelStore] and every registry that admits
    entries without an owner, so for the in-memory and PostgreSQL ones. *)
From Stdlib Require Import ZArith Ascii String.
From stdpp Require Import gmap.
From S2P Require Import Prelude Values Authority Models Graph PanelValidator SystemPanels Artifacts.
From S2P Require Import RuntimeService MemoryRuntime MemorySpec MemoryInvariant Registry Sql.
From S2P Require Import PostgresRegistry Pydantic PostgresRuntime Loader Bootstrap PanelStores.
Open Scope string_scope.
Open Scope list_scope.

(** Registering keeps the order of the oracles, and an entry just made, with
    no owner, that supersedes nothing is always admitted. *)
Class OwnerlessRegistry (G : Type) `{RegistrySpec G} : Type := {
  or_admits g e : re_owner_participant_id e = None -> re_supersedes_entry_id e = None ->
    is_aware (re_created_at e) -> is_aware (re_updated_at e) -> re_archived_at e = None ->
    reg_admits g e;
  or_env e (s : G * Env) : env_le s.2 (rg_register e s).2.2;
}.

Lemma env_le_S2 e : env_le e (mkEnv (S (S (now_ctr e))) (S (uuid_ctr e))).
Proof. split; cbn; lia. Qed.

Section start_up.
Context {R G : Type} `{OracleLaws} `{Networkx} `{Pydantic} `{Files} `{CardRuntime R}
  `{!PanelStore R} `{PatchPanelRegistry G} `{!RegistrySpec G} `{!OwnerlessRegistry G}.
Notation W := (R * G)%type.

(** The ids of the stored entries have been drawn. *)
Definition entries_issued (g : G) (e : Env) : Prop :=
  forall i x, reg_view g !! i = Some x -> exists n, (n < uuid_ctr e)%nat /\ i = uuid_at n.

Record boot_inv (s : W * Env) : Prop := {
  bi_runtime : ps_inv (s.1.1, s.2);
  bi_registry : reg_inv s.1.2;
  bi_issued : entries_issued s.1.2 s.2;
}.

(** The panel is loaded at its version. *)
Definition in_runtime (pp : PatchPanel) (w : W) : Prop :=
  exists q, q ∈ ps_panels w.1 /\ same_version pp q = true.
Definition in_registry (pp : PatchPanel) (w : W) : Prop :=
  exists e, reg_view w.2 !! re_id e = Some e /\ entry_of pp e = true.

(** A configured path names a panel that loads, that the runtime can hold,
    and whose metadata, without an owner, is well formed. *)
Definition configured (path : string) (pp : PatchPanel) : Prop :=
  load_patch_panel (_resolve_path path) true = Ok pp /\ ps_admits pp /\
  exists m, panel_registry_metadata pp = Ok m /\ rm_owner_participant_id m = None.

(** No two configured panels are versions of one panel. *)
Definition one_version (pps : list PatchPanel) : Prop :=
  forall pp q, pp ∈ pps -> q ∈ pps -> pp_id pp = pp_id q -> pp_version pp = pp_version q.

Lemma in_runtime_listed pp w : existsb (same_version pp) (ps_panels w.1) = true <-> in_runtime pp w.
Proof. apply existsb_true. Qed.

Lemma listed_entry pp (w : W) l :
  (forall e, e ∈ l <-> reg_view w.2 !! re_id e = Some e /\ _entry_matches e every_entry = true) ->
  existsb (entry_of pp) l = true <-> in_registry pp w.
Proof.
  intros Hl. rewrite existsb_true. unfold in_registry. split.
  - intros (e & [He _]%Hl & Hv). by exists e.
  - intros (e & He & Hv). exists e. split; [|done]. apply Hl. split; [done|].
    unfold _entry_matches. cbn. done.
Qed.

(** The two readings of the loop. *)
Lemma wp_list_panels (Q : res (list PatchPanel) -> W * Env -> Prop) s :
  boot_inv s -> Q (Ok (ps_panels s.1.1)) s -> wp (on_runtime rt_list_patch_panels) Q s.
Proof.
  intros Hi HQ. apply wp_zoom. unfold wp. rewrite ps_list by apply Hi. by destruct s as [[r g] e].
Qed.

Lemma wp_search_all (Q : res (list PatchPanelRegistryEntry) -> W * Env -> Prop) s :
  boot_inv s -> (forall l, (forall pp, existsb (entry_of pp) l = true <-> in_registry pp s.1) ->
    Q (Ok l) s) -> wp (on_registry (rg_search every_entry)) Q s.
Proof.
  intros Hi HQ. apply wp_zoom. destruct s as [[r g] e].
  eapply wp_mono; [apply (search_spec every_entry (g, e)), Hi|].
  intros rr s' (-> & l & -> & _ & Hl). cbn. apply HQ. intros pp. by apply listed_entry.
Qed.

(** What one iteration may do to the stores. *)
Record boot_step (pp : PatchPanel) (s s' : W * Env) : Prop := {
  bs_inv : boot_inv s';
  bs_env : env_le s.2 s'.2;
  bs_runtime : in_runtime pp s'.1;
  bs_registry : in_registry pp s'.1;
  bs_origin q : q ∈ ps_panels s'.1.1 -> q = pp \/ q ∈ ps_panels s.1.1;
  bs_keep_runtime q : (pp_id q = pp_id pp -> pp_version q = pp_version pp) ->
    in_runtime q s.1 -> in_runtime q s'.1;
  bs_keep_registry i e : reg_view s.1.2 !! i = Some e -> reg_view s'.1.2 !! i = Some e;
}.

Lemma same_version_eq pp q :
  same_version pp q = true <-> pp_id q = pp_id pp /\ pp_version q = pp_version pp.
Proof. unfold same_version. by rewrite andb_true_iff, !bool_decide_eq_true. Qed.

Lemma in_registry_keep pp (w w' : W) :
  (forall i e, reg_view w.2 !! i = Some e -> reg_view w'.2 !! i = Some e) ->
  in_registry pp w -> in_registry pp w'.
Proof. intros Hk (e & He & Hv). exists e. auto. Qed.

(** The first half of the body: the runtime. *)
Lemma ensure_runtime pp s :
  boot_inv s -> ps_admits pp -> validate_unique_local_ids pp = Ok pp -> is_ok (validate pp) ->
  wp (if existsb (same_version pp) (ps_panels s.1.1) then mret tt
      else _ ← on_runtime (rt_register_patch_panel pp); mret tt)
    (fun r s' => r = Ok tt /\ boot_inv s' /\ env_le s.2 s'.2 /\ s'.1.2 = s.1.2 /\
       in_runtime pp s'.1 /\ (forall q, q ∈ ps_panels s'.1.1 -> q = pp \/ q ∈ ps_panels s.1.1) /\
       (forall q, (pp_id q = pp_id pp -> pp_version q = pp_version pp) ->
          in_runtime q s.1 -> in_runtime q s'.1)) s.
Proof.
  intros Hi Had Hu Hv. destruct (existsb _ _) eqn:E.
  { apply wp_ret. split; [done|]. split; [done|]. split; [split; lia|]. split; [done|].
    split; [by apply in_runtime_listed|]. auto. }
  apply wp_bind, wp_zoom. destruct s as [[r g] e]. cbn in *.
  eapply wp_mono; [apply (ps_register pp (r, e)); [apply Hi | done..]|].
  intros rr [r' e'] (-> & Hps & Hle & Hin & Ho & Hk). apply wp_ret. cbn in *.
  split; [done|]. split.
  { destruct Hi as [_ Hr Hiss]. split; cbn in *; [done | done|].
    intros i x Hx. destruct (Hiss i x Hx) as (n & Hn & ->). exists n. split; [|done].
    destruct Hle. lia. }
  split; [done|]. split; [done|]. split.
  { exists pp. split; [done|]. by apply same_version_eq. }
  split; [done|]. intros q Hq (p & Hp & Hpv). apply same_version_eq in Hpv as [Hpi Hpv].
  destruct (decide (pp_id p = pp_id pp)) as [Heq|Hne].
  - exists pp. split; [done|]. apply same_version_eq. rewrite Hq by congruence. split; congruence.
  - exists p. split; [by apply Hk|]. by apply same_version_eq.
Qed.

(** The second half: the registry. *)
Lemma ensure_registry path pp m (b : bool) s :
  boot_inv s -> (b = true -> in_registry pp s.1) ->
  panel_registry_metadata pp = Ok m -> rm_owner_participant_id m = None ->
  wp (if b then mret tt else register_entry path pp)
    (fun r s' => r = Ok tt /\ boot_inv s' /\ env_le s.2 s'.2 /\ s'.1.1 = s.1.1 /\
       in_registry pp s'.1 /\
       (forall i e, reg_view s.1.2 !! i = Some e -> reg_view s'.1.2 !! i = Some e)) s.
Proof.
  intros Hi Hb Hm Ho. destruct b.
  { apply wp_ret. split; [done|]. split; [done|]. split; [split; lia|]. split; [done|]. auto. }
  clear Hb. unfold register_entry. rewrite Hm.
  apply wp_bind, wp_lift_res. unfold from_patch_panel.
  apply wp_bind, wp_bind, wp_uuid4, wp_bind, wp_now, wp_bind, wp_now, wp_ret.
  destruct s as [[r g] e]. cbn [fst snd] in *. apply wp_bind, wp_zoom. cbn [fst snd].
  set (en := mkRegistryEntry _ _ _ _ _ _ _ _ _ _ _ _ _ _ _ _ _ _ _ _).
  assert (Hfresh : reg_view g !! re_id en = None).
  { destruct (reg_view g !! re_id en) eqn:E; [|done].
    destruct (bi_issued _ Hi _ _ E) as (n & Hn & Hid). apply uuid_inj in Hid. cbn in *. lia. }
  set (e1 := mkEnv _ _).
  assert (Hle1 : env_le e e1) by (subst e1; split; cbn; lia).
  pose proof (or_env en (g, e1)) as Hle2.
  pose proof (register_spec en (g, e1) (bi_registry _ Hi)
                (or_admits g en Ho eq_refl (ex_intro _ _ eq_refl) (ex_intro _ _ eq_refl) eq_refl)
                Hfresh) as Hreg.
  unfold wp in *. destruct (rg_register en (g, e1)) as [rr [g' e']].
  destruct Hreg as (-> & Hi' & Hv). cbn [fst snd] in *. cbn. rewrite Hv.
  assert (Hle : env_le e e') by (by eapply env_le_trans).
  split; [done|]. split.
  { destruct Hi as [Hps _ Hiss]. split; cbn in *; [by eapply ps_env | done|].
    intros i x. rewrite Hv, lookup_insert_Some. intros [[<- _]|[_ Hx]].
    - exists (uuid_ctr e). split; [|done]. destruct Hle2; cbn in *. lia.
    - destruct (Hiss i x Hx) as (n & Hn & ->). exists n. destruct Hle. split; [lia | done]. }
  split; [done|]. split; [done|]. split.
  - exists en. cbn [snd]. rewrite Hv, lookup_insert_eq. split; [done|]. unfold entry_of. cbn.
    by rewrite !bool_decide_eq_true_2.
  - intros i x Hx. rewrite lookup_insert_ne; [done|]. intros <-. congruence.
Qed.

(** One iteration adds what is missing. *)
Lemma bootstrap_one_step path pp s :
  configured path pp -> boot_inv s ->
  wp (bootstrap_one path) (fun r s' =>
    (exists a b, r = Ok (mkBootstrapResult (pp_id pp) (pp_version pp) a b)) /\ boot_step pp s s') s.
Proof.
  intros (Hl & Had & m & Hm & Ho) Hi. destruct (load_patch_panel_valid _ _ Hl) as [Hu Hv].
  unfold bootstrap_one. rewrite Hl. apply wp_bind, wp_lift_res, wp_bind, wp_list_panels; [done|].
  apply wp_bind. eapply wp_mono; [by apply ensure_runtime|].
  intros r s1 (-> & Hi1 & Hle1 & Hg1 & Hrt & Horig & Hkeep). apply wp_bind, wp_search_all; [done|].
  intros l Hreg. apply wp_bind. eapply wp_mono; [apply (ensure_registry _ pp m); [done | |done | done]|].
  { apply Hreg. }
  intros r s2 (-> & Hi2 & Hle2 & Hr2 & Hin & Hkr). apply wp_ret.
  split; [by eexists _, _|].
  assert (Hrt2 : forall q, in_runtime q s1.1 -> in_runtime q s2.1)
    by (unfold in_runtime; by rewrite Hr2).
  split; [done | by eapply env_le_trans | by apply Hrt2 | done | by rewrite Hr2 | |].
  - intros q Hq Hs. by apply Hrt2, Hkeep.
  - intros i e He. apply Hkr. by rewrite Hg1.
Qed.

(** One iteration over what is there changes nothing. *)
Lemma bootstrap_one_stable path pp s :
  configured path pp -> boot_inv s -> in_runtime pp s.1 -> in_registry pp s.1 ->
  bootstrap_one path s = (Ok (mkBootstrapResult (pp_id pp) (pp_version pp) false false), s).
Proof.
  intros (Hl & _) Hi Hrt%in_runtime_listed Hreg.
  assert (Hwp : wp (bootstrap_one path) (fun r s' =>
    r = Ok (mkBootstrapResult (pp_id pp) (pp_version pp) false false) /\ s' = s) s).
  { unfold bootstrap_one. rewrite Hl. apply wp_bind, wp_lift_res, wp_bind, wp_list_panels; [done|].
    rewrite Hrt. apply wp_bind, wp_ret, wp_bind, wp_search_all; [done|].
    intros l Hls. apply Hls in Hreg. rewrite Hreg. by apply wp_bind, wp_ret, wp_ret. }
  destruct Hwp as [Hr Hs]. destruct (bootstrap_one path s) as [r s']. cbn in *. by subst.
Qed.

Definition result_for (pp : PatchPanel) (r : BootstrapResult) : Prop :=
  br_patch_panel_id r = pp_id pp /\ br_version r = pp_version pp.
Definition nothing_registered (pp : PatchPanel) : BootstrapResult :=
  mkBootstrapResult (pp_id pp) (pp_version pp) false false.

Lemma bootstrap_stable paths pps s :
  Forall2 configured paths pps -> boot_inv s ->
  (forall pp, pp ∈ pps -> in_runtime pp s.1 /\ in_registry pp s.1) ->
  bootstrap paths s = (Ok (map nothing_registered pps), s).
Proof.
  intros Hc Hi. unfold bootstrap. induction Hc as [|path pp paths pps Hp _ IH]; intros Hin; [done|].
  cbn [mapE map]. unfold mbind at 1, M_bind at 1.
  rewrite (bootstrap_one_stable path pp) by (done || apply Hin; left).
  unfold mbind at 1, M_bind at 1. rewrite IH; [done|]. intros q ?. apply Hin. by right.
Qed.

Lemma one_version_cons pp pps : one_version (pp :: pps) -> one_version pps.
Proof. intros Hv p q Hp Hq. apply Hv; by right. Qed.

(** The whole loop, from a state where the panels of [seen] are loaded. *)
Lemma bootstrap_loads paths pps seen s :
  Forall2 configured paths pps -> one_version (seen ++ pps) -> boot_inv s ->
  (forall pp, pp ∈ seen -> in_runtime pp s.1 /\ in_registry pp s.1) ->
  wp (bootstrap paths) (fun r s' =>
    (exists results, r = Ok results /\ Forall2 result_for pps results) /\ boot_inv s' /\
    (forall pp, pp ∈ seen ++ pps -> in_runtime pp s'.1 /\ in_registry pp s'.1) /\
    (forall q, q ∈ ps_panels s'.1.1 -> q ∈ pps \/ q ∈ ps_panels s.1.1) /\
    (forall i e, reg_view s.1.2 !! i = Some e -> reg_view s'.1.2 !! i = Some e) /\
    env_le s.2 s'.2) s.
Proof.
  intros Hc. revert seen s. unfold bootstrap.
  induction Hc as [|path pp paths pps Hp _ IH]; intros seen s Hone Hi Hseen; cbn [mapE].
  { apply wp_ret. split; [by exists []|]. split; [done|]. rewrite app_nil_r. auto with ghost. }
  apply wp_bind. eapply wp_mono; [by apply (bootstrap_one_step path pp)|].
  intros r s1 [(a & b & ->) Hst].
  apply wp_bind. eapply wp_mono; [apply (IH (seen ++ [pp]) s1)|].
  - by rewrite <- app_assoc.
  - by apply Hst.
  - intros q [Hq| ->%list_elem_of_singleton]%elem_of_app; [|split; by apply Hst].
    destruct (Hseen q Hq) as [Hqr Hqg]. split.
    + apply (bs_keep_runtime _ _ _ Hst); [|done]. apply Hone; rewrite elem_of_app; [by left|].
      right. by left.
    + eapply in_registry_keep; [|exact Hqg]. apply Hst.
  - intros r s2 ((rs & -> & Hrs) & Hi2 & Hall & Horig & Hkeep & He). apply wp_ret.
    split; [eexists; split; [done | by constructor]|]. split; [done|].
    split; [intros q Hq; apply Hall; by rewrite <- app_assoc|]. split.
    + intros q [Hq|Hq]%Horig; [left; by right|].
      destruct (bs_origin _ _ _ Hst q Hq) as [->|]; [left; by left | by right].
    + split; [|eapply env_le_trans; [apply Hst | exact He]].
      intros i e Hie. by apply Hkeep, (bs_keep_registry _ _ _ Hst).
Qed.

(** Start-up is total and idempotent: when every configured file loads,
    [bootstrap] answers one result per path; afterwards every configured
    panel is in the runtime and in the registry at its version, the runtime
    holds nothing but the configured panels and what it held before, and no
    registry entry is lost; and a second start finds everything in place,
    registers nothing and leaves both stores as they are. *)
Lemma bootstrap_idempotent paths pps s :
  Forall2 configured paths pps -> one_version pps -> boot_inv s ->
  exists results,
    let s1 := (bootstrap paths s).2 in
    (bootstrap paths s).1 = Ok results /\ Forall2 result_for pps results /\
    (forall pp, pp ∈ pps -> in_runtime pp s1.1 /\ in_registry pp s1.1) /\
    (forall q, q ∈ ps_panels s1.1.1 -> q ∈ pps \/ q ∈ ps_panels s.1.1) /\
    (forall i e, reg_view s.1.2 !! i = Some e -> reg_view s1.1.2 !! i = Some e) /\
    boot_inv s1 /\ env_le s.2 s1.2 /\
    bootstrap paths s1 = (Ok (map nothing_registered pps), s1).
Proof.
  intros Hc Hone Hi.
  destruct (bootstrap_loads paths pps [] s Hc Hone Hi) as ((rs & Hr & Hrs) & Hi' & Hin & Ho & Hk & He);
    [by intros ? ?%elem_of_nil|].
  exists rs. split; [exact Hr|]. split; [done|]. split; [exact Hin|]. split; [exact Ho|].
  split; [exact Hk|]. split; [done|]. split; [done|]. by apply bootstrap_stable.
Qed.
End start_up.

#[export] Instance memory_ownerless `{Oracle} : OwnerlessRegistry RegistryState.
Proof. split; [done|]. intros e s. exact (env_le_refl s.2). Qed.

#[export] Instance postgres_ownerless `{Oracle} `{SqlLaws} : OwnerlessRegistry PgRegistry.
Proof.
  split.
  - intros g e Ho Hs [t1 Ht1] [t2 Ht2] Ha. cbn. split; [unfold foreign_keys_ok; cbn; by rewrite Ho, Hs|].
    apply zoned_fields. by rewrite Ht1, Ht2, Ha.
  - intros e [st en]. unfold rg_register. cbn. unfold pg_register, execute_insert, mbind, M_bind. cbn.
    destruct (negb _); cbn; [split; lia|]. destruct (sql_insert _ _ _); cbn; split; lia.
Qed.
