(* ===== verification/Observability.v ===== *)
(** * Operator views ([observability.py])

    [ObservabilityService] derives read-only views from what a runtime
    answers. A dictionary the code builds is an association list in the
    order of its first insertions, a fixed dictionary a record; a quotient is
    the rational whose nearest float the code computes, and the whole seconds
    of an interval are those of its microseconds (the float in between is
    exact enough for intervals of less than a century). *)
From Stdlib Require Import ZArith QArith Ascii String.
From stdpp Require Import sorting.
From S2P Require Import Prelude Values Authority Models Graph PanelValidator Artifacts.
From S2P Require Import RuntimeService Pydantic.
Open Scope string_scope.
Open Scope list_scope.

(** ** The views *)
Record TopologyNode : Type := mkTopologyNode {
  tn_id : string;
  tn_type : NodeType;
  tn_validator_kind : option string;
  tn_input_pipes : list string;
  tn_output_pipes : list string;
}.

Record TopologyEdge : Type := mkTopologyEdge {
  te_from : string;
  te_to : string;
  te_on : string;
  te_condition : option doc;
}.

Record Topology : Type := mkTopology {
  tp_patch_panel_id : string;
  tp_version : string;
  tp_nodes : list TopologyNode;
  tp_edges : list TopologyEdge;
  tp_buckets : list value;
  tp_mermaid : string;
}.

Record ActiveLease : Type := mkActiveLease {
  al_lease : Lease;
  al_age_seconds : Z;
  al_expires_in_seconds : Z;
}.

Record ValidatorDecision : Type := mkValidatorDecision {
  vd_card_id : UUID;
  vd_validator_id : option string;
  vd_accepted : value;
  vd_reason : value;
  vd_occurred_at : datetime;
}.

Record VersionView : Type := mkVersionView {
  ver_id : string;
  ver_patch_panel_id : string;
  ver_version : string;
  ver_active : bool;
}.

Record Metrics : Type := mkMetrics {
  mt_card_count : nat;
  mt_bucket_load : list (string * nat);
  mt_active_lease_count : nat;
  mt_worker_activity : list (string * list (string * nat));
  mt_event_counts : list (string * nat);
  mt_acceptance_rate : option Q;
  mt_retry_rate : option Q;
  mt_failed_movement_count : nat;
  mt_oldest_active_lease_age_seconds : Z;
}.

Record Dashboard : Type := mkDashboard {
  db_topology : Topology;
  db_bucket_load : list (string * nat);
  db_active_leases : list ActiveLease;
  db_worker_activity : list (string * list (string * nat));
  db_validator_decisions : list ValidatorDecision;
  db_failed_movements : list CardEvent;
  db_metrics : Metrics;
}.

(** ** Pure parts *)
Definition double_quote : string := String "034" "".
(** A backslash and [n]: the line break of a Mermaid label. *)
Definition label_break : string := String "092" "n".
Definition line_feed : string := String "010" "".

Definition _node_shape (node_id : string) (node_type : NodeType) : string :=
  let label := node_id +:+ label_break +:+ NodeType_value node_type in
  let box := "[" +:+ double_quote +:+ label +:+ double_quote +:+ "]" in
  match node_type with
  | SOURCE | SINK => "(" +:+ box +:+ ")"
  | _ => box
  end.

Definition _mermaid (pp : PatchPanel) : string :=
  str_concat line_feed
    (["flowchart LR"] ++
     map (fun n => "  " +:+ nd_id n +:+ _node_shape (nd_id n) (nd_type n)) (pp_nodes pp) ++
     map (fun e => "  " +:+ from_node e +:+ " -- " +:+ ed_on e +:+ " --> " +:+ to_node e)
       (pp_edges pp)).

Definition has_type (types : list string) (ev : CardEvent) : bool := str_in (ev_event_type ev) types.

Definition failure_types : list string := ["card_move_failed"; "failed_dropoff"; "sink_failed"].
Definition retry_types : list string := ["lease_expired"; "card_move_failed"; "failed_dropoff"].
Definition activity_types : list string :=
  ["card_claimed"; "artifact_submitted"; "lease_renewed"; "lease_released"; "lease_expired"].

(** [a / b] of two counts. *)
Definition ratio (a b : nat) : Q := (inject_Z (Z.of_nat a) / inject_Z (Z.of_nat b))%Q.

Definition _retry_rate (events : list CardEvent) : option Q :=
  let retry_events := py_filter (has_type retry_types) events in
  match py_filter (has_type ["card_claimed"]) events with
  | [] => None
  | claim_events => Some (ratio (length retry_events) (length claim_events))
  end.

(** [groups[key].append(x)] of a [defaultdict(list)]. *)
Definition group_by {A} (key : A -> string) (l : list A) : list (string * list A) :=
  foldl (fun groups x => dict_set (key x) (default [] (dict_get (key x) groups) ++ [x]) groups) [] l.

(** [counter[k] += 1]. *)
Definition count_one (k : string) (counter : list (string * nat)) : list (string * nat) :=
  dict_set k (S (default 0 (dict_get k counter))) counter.
Definition counts (l : list string) : list (string * nat) := foldl (fun c k => count_one k c) [] l.

(** [activity[worker_id][event.event_type] += 1]. *)
Definition count_activity (activity : list (string * list (string * nat))) (ev : CardEvent) :
    list (string * list (string * nat)) :=
  let worker_id := str_or (ev_actor_id ev) "unknown" in
  dict_set worker_id
    (count_one (ev_event_type ev) (default [] (dict_get worker_id activity))) activity.

(** [sorted(items, key=lambda item: item[0])]. *)
Definition key_le (a b : string * nat) : Prop := String.leb a.1 b.1 = true.
#[export] Instance key_le_dec : RelDecision key_le.
Proof. intros a b. unfold key_le. apply _. Defined.

(** [sorted(events, key=lambda event: (event.occurred_at, str(event.id)))]:
    instants with and without time zone do not compare, so a list that has
    both raises. *)
Definition occurred_us (ev : CardEvent) : Z :=
  match ev_occurred_at ev with Aware us | Naive us => us end.
Definition is_naive (ev : CardEvent) : bool :=
  match ev_occurred_at ev with Naive _ => true | Aware _ => false end.
Definition happened_le (a b : CardEvent) : Prop :=
  (occurred_us a < occurred_us b)%Z \/
  (occurred_us a = occurred_us b /\ String.leb (uuid_str (ev_id a)) (uuid_str (ev_id b)) = true).
#[export] Instance happened_le_dec : RelDecision happened_le.
Proof. intros a b. unfold happened_le. apply _. Defined.

Definition sorted_events (events : list CardEvent) : res (list CardEvent) :=
  if existsb is_naive events && existsb (fun ev => negb (is_naive ev)) events
  then Raise tz_mismatch
  else Ok (merge_sort happened_le events).

(** [int((a - b).total_seconds())] of two instants with a time zone. *)
Definition seconds_between (a b : datetime) : Z :=
  match a, b with
  | Aware x, Aware y | Aware x, Naive y | Naive x, Aware y | Naive x, Naive y =>
      Z.quot (x - y) 1000000
  end.

Definition active_lease_view (t : datetime) (lease : Lease) : list ActiveLease :=
  match ls_released_at lease, dt_gt (aware (ls_expires_at lease)) t with
  | None, Ok true =>
      [mkActiveLease lease (seconds_between t (aware (ls_claimed_at lease)))
         (seconds_between (aware (ls_expires_at lease)) t)]
  | _, _ => []
  end.

Definition decision_of (ev : CardEvent) : ValidatorDecision :=
  mkValidatorDecision (ev_card_id ev) (ev_actor_id ev) (vget "accepted" (ev_payload ev))
    (vget "reason" (ev_payload ev)) (ev_occurred_at ev).

(** ** The service *)
Section service.
Context `{Oracle} `{Pydantic} {R : Type} `{CardRuntime R}.

Definition _patch_panel (patch_panel_id : string) : M R PatchPanel :=
  panels ← rt_list_patch_panels;
  match py_next (fun pp => bool_decide (pp_id pp = patch_panel_id)) panels with
  | Some pp => mret pp
  | None => raise (NotFoundError ("Patch Panel '" +:+ patch_panel_id +:+ "' is not registered"))
  end.

Definition topology (patch_panel_id : string) : M R Topology :=
  pp ← _patch_panel patch_panel_id;
  mret (mkTopology (pp_id pp) (pp_version pp)
    (map (fun n => mkTopologyNode (nd_id n) (nd_type n) (nd_validator_kind n) (nd_input_pipes n)
                     (nd_output_pipes n)) (pp_nodes pp))
    (map (fun e => mkTopologyEdge (from_node e) (to_node e) (ed_on e) (ed_condition e))
       (pp_edges pp))
    (map bucket_dump (pp_buckets pp)) (_mermaid pp)).

Definition cards_by_bucket : M R (list (string * list Card)) :=
  cards ← rt_list_cards; mret (group_by cd_current_bucket cards).

Definition bucket_load : M R (list (string * nat)) :=
  grouped ← cards_by_bucket;
  mret (merge_sort key_le (map (fun kv => (kv.1, length kv.2)) grouped)).

Definition active_leases : M R (list ActiveLease) :=
  t ← now; leases ← rt_list_leases; mret (flat_map (active_lease_view t) leases).

Definition _all_events : M R (list CardEvent) :=
  cards ← rt_list_cards;
  histories ← mapE (fun card => rt_card_history (cd_id card)) cards;
  lift_res (sorted_events (concat histories)).

Definition worker_activity : M R (list (string * list (string * nat))) :=
  events ← _all_events;
  mret (foldl count_activity [] (py_filter (has_type activity_types) events)).

Definition validator_decisions : M R (list ValidatorDecision) :=
  events ← _all_events;
  mret (map decision_of (py_filter (has_type ["card_validated"]) events)).

Definition workflow_versions : M R (list VersionView) :=
  panels ← rt_list_patch_panels;
  mret (map (fun pp => mkVersionView (pp_id pp +:+ ":" +:+ pp_version pp) (pp_id pp)
                         (pp_version pp) true) panels).

Definition failed_movements : M R (list CardEvent) :=
  events ← _all_events; mret (py_filter (has_type failure_types) events).

Definition acceptance_rate (events : list CardEvent) : option Q :=
  match py_filter (has_type ["card_validated"]) events with
  | [] => None
  | validator_events =>
      Some (ratio (length (py_filter (fun ev => v_is_true (vget "accepted" (ev_payload ev)))
                             validator_events)) (length validator_events))
  end.

Definition metrics : M R Metrics :=
  events ← _all_events;
  active ← active_leases;
  cards ← rt_list_cards;
  load ← bucket_load;
  activity ← worker_activity;
  failed ← failed_movements;
  mret (mkMetrics (length cards) load (length active) activity (counts (map ev_event_type events))
          (acceptance_rate events) (_retry_rate events) (length failed)
          (match active with [] => 0%Z
           | a :: rest => foldl (fun m l => Z.max m (al_age_seconds l)) (al_age_seconds a) rest end)).

Definition dashboard (patch_panel_id : string) : M R Dashboard :=
  tp ← topology patch_panel_id;
  load ← bucket_load;
  active ← active_leases;
  activity ← worker_activity;
  decisions ← validator_decisions;
  failed ← failed_movements;
  m ← metrics;
  mret (mkDashboard tp load active activity decisions failed m).
End service.
