(* ===== verification/ObservabilityTheorems.v ===== *)
(** * What the operator views show

    Over the in-memory runtime: the figures of [metrics] agree with the
    cards, leases and events they summarise. *)
From Stdlib Require Import ZArith QArith Ascii String Lia.
From stdpp Require Import sorting.
From S2P Require Import Prelude Values Authority Models Graph PanelValidator SystemPanels Artifacts.
From S2P Require Import RuntimeService MemoryRuntime MemorySpec MemoryInvariant MemoryRefine.
From S2P Require Import Pydantic Observability.
Open Scope string_scope.
Open Scope list_scope.

(** ** Counting *)
Section weight.
Context {V : Type} (w : V -> nat).

(** The sum of the weights of the values of a dictionary. *)
Fixpoint weight (d : list (string * V)) : nat :=
  match d with [] => 0 | (_, v) :: d' => w v + weight d' end.

Lemma weight_bump (f : V -> V) d0 k d :
  (forall v, w (f v) = S (w v)) -> w d0 = 0 ->
  weight (dict_set k (f (default d0 (dict_get k d))) d) = S (weight d).
Proof.
  intros Hf H0. induction d as [|[k' v] d IH]; cbn.
  - rewrite Hf, H0. lia.
  - case_decide; cbn; [rewrite Hf; lia|]. rewrite IH. lia.
Qed.
End weight.

Lemma weight_group {A} (key : A -> string) l : weight length (group_by key l) = length l.
Proof.
  unfold group_by. induction l as [|x l IH] using rev_ind; [done|].
  rewrite foldl_app, length_app. cbn. rewrite (weight_bump length (fun v => v ++ [x])); [|intros; rewrite length_app; cbn; lia|done].
  rewrite IH. lia.
Qed.

Lemma weight_counts l : weight id (counts l) = length l.
Proof.
  unfold counts. induction l as [|k l IH] using rev_ind; [done|].
  rewrite foldl_app, length_app. cbn [foldl length]. unfold count_one at 1.
  rewrite (weight_bump id S) by done. lia.
Qed.

Lemma group_by_get {A} (key : A -> string) l k :
  default [] (dict_get k (group_by key l)) = py_filter (fun x => bool_decide (key x = k)) l.
Proof.
  unfold group_by. induction l as [|x l IH] using rev_ind; [done|].
  rewrite foldl_app. cbn. rewrite dict_get_set. unfold py_filter in *. rewrite List.filter_app. cbn.
  case_decide as Hk.
  - subst. rewrite bool_decide_eq_true_2 by done. cbn. by rewrite IH.
  - rewrite bool_decide_eq_false_2 by congruence. rewrite IH. by rewrite app_nil_r.
Qed.

Lemma group_by_keys {A} (key : A -> string) l :
  NoDup (dict_keys (group_by key l)) /\ forall k, k ∈ dict_keys (group_by key l) <-> k ∈ map key l.
Proof.
  unfold group_by. induction l as [|x l [Hnd Hk]] using rev_ind; [split; [apply NoDup_nil_2 | done]|].
  rewrite foldl_app. cbn [foldl]. split; [by apply dict_set_NoDup|].
  intros k. rewrite dict_set_keys_elem, Hk, map_app, elem_of_app. cbn [map].
  rewrite list_elem_of_singleton. tauto.
Qed.

Lemma weight_perm {V} (w : V -> nat) d d' : d ≡ₚ d' -> weight w d = weight w d'.
Proof. induction 1 as [|[]|[] []|]; cbn; lia. Qed.

(** ** What the operations record

    The types of the events an operation appends. *)
Definition recorded_by (o : op) : list string :=
  match o with
  | Register _ => []
  | CreateCard _ _ _ _ => ["card_created"]
  | ClaimCard _ _ _ _ => ["card_claimed"]
  | SubmitArtifact _ _ _ _ => ["artifact_submitted"]
  | RenewLease _ _ _ => ["lease_renewed"]
  | ReleaseLease _ _ _ => ["lease_released"]
  | ExpireLeases => ["lease_expired"]
  | ValidateCard _ _ _ _ _ _ _ => ["card_validated"]
  | MoveCard _ _ _ _ _ => ["card_moved"]
  | RecordEvent _ typ _ _ _ => [typ]
  end.

Section events.
Context `{Oracle} `{Networkx} (P : CardEvent -> Prop).

Definition all_events (st : Runtime) : Prop := forall k ev, ev ∈ history_of k st -> P ev.
Definition keeps {A} (m : M Runtime A) : Prop := forall s, all_events s.1 -> all_events (m s).2.1.

Lemma keeps_ret {A} (a : A) : keeps (mret a). Proof. by intros s. Qed.
Lemma keeps_raise {A} x : keeps (A := A) (raise x). Proof. by intros s. Qed.
Lemma keeps_lift {A} (r : res A) : keeps (lift_res r). Proof. by intros s. Qed.
Lemma keeps_get : keeps get. Proof. by intros s. Qed.
Lemma keeps_now : keeps now. Proof. by intros s. Qed.
Lemma keeps_uuid4 : keeps uuid4. Proof. by intros s. Qed.
Lemma events_keep_bind {A B} (m : M Runtime A) (f : A -> M Runtime B) :
  keeps m -> (forall a, keeps (f a)) -> keeps (m ≫= f).
Proof.
  intros Hm Hf s Hs. unfold mbind, M_bind. specialize (Hm s Hs).
  destruct (m s) as [[a|x] s1]; cbn in *; [by apply Hf | done].
Qed.

(** A change of the other dictionaries. *)
Lemma keeps_modify f : (forall st, _events (f st) = _events st) -> keeps (modify f).
Proof. intros Hf s Hs k ev. cbn. unfold history_of. rewrite Hf. apply Hs. Qed.

Lemma keeps_record ev : P ev -> keeps (_record_event ev).
Proof.
  intros Hev s Hs k ev'. cbn. unfold history_of at 1. cbn. rewrite dict_get_set.
  case_decide as Hk; [|apply Hs]. cbn. rewrite elem_of_app, list_elem_of_singleton.
  intros [Hin| ->]; [by eapply Hs | done].
Qed.

(** The event is recorded after changes of other dictionaries. *)
Lemma keeps_new_event {B} card_id typ actor payload (f : CardEvent -> M Runtime B) :
  (forall i t, keeps (f (mkEvent i card_id typ actor payload (Aware t)))) ->
  keeps (new_event card_id typ actor payload ≫= f).
Proof. intros Hf [st e] Hs. unfold new_event, mbind, M_bind. cbn. by apply Hf. Qed.

Lemma keeps_cached {A} key (typed : cached -> res A) body : keeps body -> keeps (with_cached key typed body).
Proof.
  intros Hb. apply events_keep_bind; [by apply events_keep_bind; [apply keeps_get | intros; apply keeps_ret]|].
  intros [c|]; [|done]. destruct (truthy_cached c); [apply keeps_lift | done].
Qed.

Lemma keeps_mapM {A B} (f : A -> B) (m : M Runtime A) : keeps m -> keeps (mapM f m).
Proof. intros Hm. apply events_keep_bind; [done|]. intros a. apply keeps_ret. Qed.

Lemma keeps_nextM {A} (p : A -> M Runtime bool) l : (forall a, keeps (p a)) -> keeps (nextM p l).
Proof.
  intros Hp. induction l as [|a l IH]; cbn; [apply keeps_ret|]. apply events_keep_bind; [apply Hp|].
  intros []; [apply keeps_ret | done].
Qed.

End events.

Create HintDb keeps.
#[export] Hint Resolve keeps_ret keeps_raise keeps_lift keeps_get keeps_now keeps_uuid4 : keeps.
#[export] Hint Extern 1 (keeps _ (mapM _ _)) => apply keeps_mapM : keeps.
#[export] Hint Extern 1 (keeps _ (with_cached _ _ _)) => apply keeps_cached : keeps.
#[export] Hint Extern 1 (keeps _ (new_event _ _ _ _ ≫= _)) => apply keeps_new_event; intros : keeps.
#[export] Hint Extern 2 (keeps _ (mbind _ _)) => apply events_keep_bind; [|intros] : keeps.
#[export] Hint Extern 1 (keeps _ (_record_event _)) => apply keeps_record : keeps.
#[export] Hint Extern 1 (keeps _ (modify _)) => apply keeps_modify; intros; reflexivity : keeps.
#[export] Hint Extern 1 (keeps _ (_store_idempotent _ _)) =>
  apply keeps_modify; intros; apply put_key_events : keeps.
#[export] Hint Extern 1 (keeps _ (nextM _ _)) => apply keeps_nextM; intros : keeps.
#[export] Hint Extern 3 (keeps _ (match ?x with _ => _ end)) => destruct x : keeps.

Section run.
Context `{Oracle} `{Networkx} (P : CardEvent -> Prop).

Lemma keeps_ensure_active_lease l : keeps P (ensure_active_lease l).
Proof. unfold ensure_active_lease. auto 12 with keeps. Qed.
Lemma keeps_get_card i : keeps P (_get_card i).
Proof. unfold _get_card. auto 12 with keeps. Qed.
Lemma keeps_get_lease i : keeps P (_get_lease i).
Proof. unfold _get_lease. auto 12 with keeps. Qed.
Lemma keeps_get_patch_panel i : keeps P (_get_patch_panel i).
Proof. unfold _get_patch_panel. auto 12 with keeps. Qed.
Lemma keeps_new_lease c n w p secs : keeps P (new_lease c n w p secs).
Proof. unfold new_lease. auto 12 with keeps. Qed.
Lemma keeps_new_card wv b p m : keeps P (new_card wv b p m).
Proof. unfold new_card. auto 12 with keeps. Qed.
Lemma keeps_has_active_lease c : keeps P (_has_active_lease c).
Proof. unfold _has_active_lease. auto 12 with keeps. Qed.
#[local] Hint Resolve keeps_ensure_active_lease keeps_get_card keeps_get_lease
  keeps_get_patch_panel keeps_new_lease keeps_new_card keeps_has_active_lease : keeps.

Lemma keeps_claim_target pipe : keeps P (_claim_target pipe).
Proof.
  unfold _claim_target. apply events_keep_bind; [auto with keeps|]. intros st.
  apply events_keep_bind; [|auto with keeps].
  induction (dict_values (_patch_panels st)) as [|pp l IH]; cbn [claim_matches]; [auto with keeps|].
  apply events_keep_bind; [|auto with keeps]. unfold claim_match_in, claimable. auto 20 with keeps.
Qed.

Lemma keeps_expire_all t l :
  (forall i c a p t', P (mkEvent i c "lease_expired" a p (Aware t'))) -> keeps P (expire_all t l).
Proof.
  intros HP. induction l as [|x l IH]; cbn [expire_all]; [auto with keeps|].
  apply events_keep_bind; [|auto with keeps]. unfold expire_lease. auto 20 with keeps.
Qed.
#[local] Hint Resolve keeps_claim_target keeps_expire_all : keeps.

(** An operation appends only events of its types. *)
Lemma keeps_run_op o :
  (forall i c typ a p t, typ ∈ recorded_by o -> P (mkEvent i c typ a p (Aware t))) ->
  keeps P (run_op o).
Proof.
  intros HP. assert (HP1 : forall typ, recorded_by o = [typ] ->
    forall i c a p t, P (mkEvent i c typ a p (Aware t))).
  { intros typ Ht i c a p t. apply HP. rewrite Ht. left. }
  clear HP. destruct o; cbn [run_op recorded_by] in *; apply keeps_mapM;
    try specialize (HP1 _ eq_refl).
  - unfold register_patch_panel. auto 20 with keeps.
  - unfold create_card. auto 20 with keeps.
  - unfold claim_card. auto 20 with keeps.
  - unfold submit_artifact, _get_patch_panel_for_card. auto 30 with keeps.
  - unfold renew_lease. auto 20 with keeps.
  - unfold release_lease. auto 20 with keeps.
  - unfold expire_leases. auto 20 with keeps.
  - unfold validate_card, _get_patch_panel_for_card. auto 30 with keeps.
  - unfold move_card, _get_patch_panel_for_card. auto 30 with keeps.
  - unfold record_event. auto 20 with keeps.
Qed.
End run.

(** ** The figures *)
Lemma ratio_bounds a b : (a <= b)%nat -> b <> 0 -> (0 <= ratio a b /\ ratio a b <= 1)%Q.
Proof.
  intros Hab Hb. unfold ratio. assert (0 < inject_Z (Z.of_nat b))%Q as Hp.
  { change 0%Q with (inject_Z 0). rewrite <- Zlt_Qlt. lia. }
  split; [apply Qle_shift_div_l | apply Qle_shift_div_r]; try done.
  - rewrite Qmult_0_l. change 0%Q with (inject_Z 0). rewrite <- Zle_Qle. lia.
  - rewrite Qmult_1_l. rewrite <- Zle_Qle. lia.
Qed.

Lemma py_filter_length {A} (p : A -> bool) l : length (py_filter p l) <= length l.
Proof. unfold py_filter. induction l as [|a l IH]; cbn; [done|]. destruct (p a); cbn; lia. Qed.

Lemma acceptance_bounds events q : acceptance_rate events = Some q -> (0 <= q /\ q <= 1)%Q.
Proof.
  unfold acceptance_rate. destruct (py_filter (has_type _) events) as [|ev evs] eqn:E; [done|].
  pose proof (py_filter_length (fun ev => v_is_true (vget "accepted" (ev_payload ev))) (ev :: evs)) as Hle.
  intros [= <-]. by apply ratio_bounds.
Qed.

(** The lease is neither released nor expired at [t]. *)
Definition active_now (t : Z) (l : Lease) : bool :=
  match ls_released_at l, aware (ls_expires_at l) with
  | None, Aware us => Z.ltb t us
  | _, _ => false
  end.

Lemma active_now_true t l : active_now t l = true <-> lease_active_at l t.
Proof.
  unfold active_now, lease_active_at. destruct (ls_released_at l); [naive_solver|].
  destruct (aware_is_aware (ls_expires_at l)) as [us ->]. rewrite Z.ltb_lt. naive_solver.
Qed.

Lemma active_views t l :
  map al_lease (flat_map (active_lease_view (Aware t)) l) = py_filter (active_now t) l.
Proof.
  induction l as [|x l IH]; [done|]. cbn [flat_map]. rewrite map_app, IH.
  unfold py_filter. cbn [List.filter]. unfold active_lease_view, active_now.
  destruct (ls_released_at x); [done|].
  destruct (aware_is_aware (ls_expires_at x)) as [us ->]. cbn [dt_gt]. by destruct (Z.ltb t us).
Qed.

Section figures.
Context `{OracleLaws} `{NetworkxLaws} `{Pydantic}.

(** The events of the cards, card by card. *)
Definition events_of_cards (st : Runtime) : list CardEvent :=
  concat (map (fun c => history_of (cd_id c) st) (dict_values (_cards st))).

Definition dated (st : Runtime) : Prop := all_events (fun ev => is_naive ev = false) st.

Lemma card_by_id st e c : Inv st e -> c ∈ dict_values (_cards st) -> dict_get (cd_id c) (_cards st) = Some c.
Proof.
  intros Hi Hc. destruct (dict_value_get c _ (inv_card_keys _ _ Hi) Hc) as [k Hk].
  by destruct (inv_card _ _ Hi k c Hk) as [-> _].
Qed.

Lemma all_events_run st e : Inv st e -> dated st ->
  _all_events (st, e) = (Ok (merge_sort happened_le (events_of_cards st)), (st, e)).
Proof.
  intros Hi Hd. unfold _all_events. unfold mbind at 1, M_bind at 1.
  change (rt_list_cards (st, e)) with (Ok (dict_values (_cards st)), (st, e)). cbv beta iota.
  unfold mbind at 1, M_bind at 1.
  rewrite (mapE_reads _ (fun c => history_of (cd_id c) st)).
  - fold (events_of_cards st). unfold lift_res, sorted_events.
    assert (existsb is_naive (events_of_cards st) = false) as ->; [|done].
    apply existsb_false. intros ev (l & Hl & Hev)%elem_of_concat.
    apply list_elem_of_fmap in Hl as (c & -> & _). by apply (Hd (cd_id c)).
  - intros c Hc. unfold rt_card_history. cbn. unfold card_history, _get_card, mbind, M_bind. cbn.
    by rewrite (card_by_id st e c Hi Hc).
Qed.

Definition loads_of (st : Runtime) : list (string * nat) :=
  merge_sort key_le (map (fun kv => (kv.1, length kv.2))
    (group_by cd_current_bucket (dict_values (_cards st)))).

Lemma weight_loads st : weight id (loads_of st) = length (dict_values (_cards st)).
Proof.
  unfold loads_of. rewrite (weight_perm id _ _ (merge_sort_Permutation key_le _)).
  rewrite <- (weight_group cd_current_bucket).
  induction (group_by _ _) as [|[k v] d IH]; cbn; [done|]. by rewrite IH.
Qed.

Lemma elem_loads st b n : (b, n) ∈ loads_of st <->
  n <> 0 /\ n = length (py_filter (fun c => bool_decide (cd_current_bucket c = b)) (dict_values (_cards st))).
Proof.
  unfold loads_of. rewrite merge_sort_Permutation.
  destruct (group_by_keys cd_current_bucket (dict_values (_cards st))) as [Hnd Hk].
  pose proof (group_by_get cd_current_bucket (dict_values (_cards st)) b) as Hg.
  set (groups := group_by _ _) in *. rewrite list_elem_of_fmap. rewrite <- Hg. split.
  - intros ([k v] & [= -> ->] & Hin). apply dict_elem_get in Hin as Hin'; [|done].
    rewrite Hin' in Hg |- *. cbn in *. split; [|done]. intros Hz.
    apply length_zero_iff_nil in Hz. rewrite Hz in Hg.
    assert (k ∈ map cd_current_bucket (dict_values (_cards st))) as (c & -> & Hc)%list_elem_of_fmap.
    { apply Hk. by eapply dict_get_key. }
    assert (c ∈ []) as Hnil; [|by apply elem_of_nil in Hnil].
    rewrite Hg. apply elem_of_py_filter. split; [done|]. by rewrite bool_decide_eq_true.
  - intros [Hn ->]. destruct (dict_get b groups) as [v|] eqn:E; [|done]. cbn in *.
    exists (b, v). split; [done|]. by apply dict_get_elem.
Qed.

(** Every figure, from a state of the invariant. *)
Lemma metrics_run st e : Inv st e -> dated st ->
  let t := clock_at (now_ctr e) in
  let events := merge_sort happened_le (events_of_cards st) in
  exists m, metrics (st, e) = (Ok m, (st, mkEnv (S (now_ctr e)) (uuid_ctr e))) /\
    mt_card_count m = length (dict_values (_cards st)) /\ mt_bucket_load m = loads_of st /\
    mt_active_lease_count m = length (py_filter (active_now t) (dict_values (_leases st))) /\
    mt_event_counts m = counts (map ev_event_type events) /\
    mt_acceptance_rate m = acceptance_rate events /\ mt_retry_rate m = _retry_rate events /\
    mt_failed_movement_count m = length (py_filter (has_type failure_types) events).
Proof.
  intros Hi Hd t events. set (e1 := mkEnv (S (now_ctr e)) (uuid_ctr e)).
  assert (Hi1 : Inv st e1) by (eapply Inv_env; [|exact Hi]; split; cbn; lia).
  eexists. split.
  - unfold metrics. unfold mbind at 1, M_bind at 1. rewrite all_events_run by done.
    unfold mbind at 1, M_bind at 1.
    change (active_leases (st, e)) with
      (Ok (flat_map (active_lease_view (Aware t)) (dict_values (_leases st))), (st, e1)).
    cbv beta iota. unfold mbind at 1, M_bind at 1.
    change (rt_list_cards (st, e1)) with (Ok (dict_values (_cards st)), (st, e1)). cbv beta iota.
    unfold mbind at 1, M_bind at 1. change (bucket_load (st, e1)) with (Ok (loads_of st), (st, e1)).
    cbv beta iota. unfold mbind at 1, M_bind at 1. unfold worker_activity.
    unfold mbind at 1, M_bind at 1. rewrite all_events_run by done. unfold mret at 1, M_ret at 1.
    cbv beta iota. unfold mbind at 1, M_bind at 1. unfold failed_movements.
    unfold mbind at 1, M_bind at 1. rewrite all_events_run by done. unfold mret, M_ret. reflexivity.
  - cbn [mt_card_count mt_bucket_load mt_active_lease_count mt_event_counts mt_acceptance_rate
         mt_retry_rate mt_failed_movement_count]. fold events.
    rewrite <- active_views, length_map. done.
Qed.

Lemma run_ops_keeps (P : CardEvent -> Prop) os s :
  (forall o, o ∈ os -> forall i c typ a p t, typ ∈ recorded_by o -> P (mkEvent i c typ a p (Aware t))) ->
  all_events P s.1 -> all_events P (run_ops os s).1.
Proof.
  revert s. induction os as [|o os IH]; intros s HP Hs; cbn [run_ops]; [done|].
  apply IH; [intros o' Ho'; apply HP; by right|]. apply keeps_run_op; [|done]. apply HP. left.
Qed.

(** Each card has at most one lease that is active now. *)
Lemma active_at_most_cards st e : Inv st e ->
  length (py_filter (active_now (clock_at (now_ctr e))) (dict_values (_leases st))) <=
  length (dict_values (_cards st)).
Proof.
  intros Hi. set (t := clock_at (now_ctr e)).
  assert (Ht : time_reached e t) by (intros n Hn; apply clock_mono; lia).
  rewrite <- (length_map ls_card_id).
  replace (length (dict_values (_cards st))) with (length (dict_keys (_cards st)))
    by (unfold dict_keys, dict_values; by rewrite !length_fmap).
  apply submseteq_length, NoDup_submseteq.
  - apply (NoDup_map_on ls_id); [by apply filter_NoDup_map, (leases_by_id _ _ Hi)|].
    intros x y [Hx Ax%active_now_true]%elem_of_py_filter [Hy Ay%active_now_true]%elem_of_py_filter Hc.
    by apply (inv_exclusive _ _ Hi t).
  - intros c (l & -> & Hl)%list_elem_of_fmap. apply elem_of_py_filter in Hl as [Hl _].
    destruct (dict_value_get l _ (inv_lease_keys _ _ Hi) Hl) as [k Hk]. by apply (inv_lease _ _ Hi k l Hk).
Qed.

(** C38. The operator metrics agree with the runtime they summarise, in every
    state the runtime reaches: reading them changes nothing and always
    answers; the bucket loads are exactly the occupied buckets with their
    numbers of cards and add up to the number of cards; the event counts add
    up to the number of events; there are never more active leases than
    cards; the acceptance rate lies between 0 and 1; and as long as nothing
    but [record_event] is asked to record one of the three failure types
    (and no code of the program asks it to), no failed movement is reported. *)
Theorem metrics_agree os :
  let s := run_ops os start in
  exists m, (metrics s).1 = Ok m /\ (metrics s).2.1 = s.1 /\
    mt_card_count m = length (dict_values (_cards s.1)) /\
    (forall b n, (b, n) ∈ mt_bucket_load m <-> n <> 0 /\
       n = length (py_filter (fun c => bool_decide (cd_current_bucket c = b)) (dict_values (_cards s.1)))) /\
    weight id (mt_bucket_load m) = mt_card_count m /\
    weight id (mt_event_counts m) = length (events_of_cards s.1) /\
    mt_active_lease_count m <= mt_card_count m /\
    (forall q, mt_acceptance_rate m = Some q -> (0 <= q /\ q <= 1)%Q) /\
    ((forall o typ, o ∈ os -> typ ∈ recorded_by o -> typ ∉ failure_types) ->
       mt_failed_movement_count m = 0).
Proof.
  intros s. assert (Hi : Inv s.1 s.2) by apply run_ops_Inv, Inv_start.
  assert (Hd : dated s.1) by by apply run_ops_keeps; [|intros k ev ?%elem_of_nil].
  destruct (metrics_run s.1 s.2 Hi Hd) as (m & Hm & Hc & Hl & Ha & He & Hr & _ & Hf).
  rewrite <- (surjective_pairing s) in Hm. exists m. rewrite Hm.
  split; [done|]. split; [done|]. split; [done|].
  split; [intros; rewrite Hl; apply elem_loads|].
  split; [rewrite Hl, Hc; apply weight_loads|].
  split; [rewrite He, weight_counts, length_map; by rewrite merge_sort_Permutation|].
  split; [rewrite Ha, Hc; by apply active_at_most_cards|].
  split; [rewrite Hr; apply acceptance_bounds|].
  intros Hno. rewrite Hf, py_filter_none; [done|].
  intros ev. rewrite merge_sort_Permutation. intros (l & Hin & Hev)%elem_of_concat.
  apply list_elem_of_fmap in Hin as (c & -> & _).
  assert (Hall : all_events (fun ev => ev_event_type ev ∉ failure_types) s.1).
  { apply run_ops_keeps; [|by intros k x ?%elem_of_nil]. intros o Ho i c' typ a p t Htyp. by eapply Hno. }
  apply str_in_false. by eapply Hall.
Qed.
End figures.

(** ** Evaluated instances *)
Module Demo.
#[local] Existing Instance tick_oracle.
#[local] Existing Instance tick_oracle_laws.
#[local] Existing Instance ListGraph.networkx.
#[local] Existing Instance ListGraph.networkx_laws.

#[local] Instance pydantic : Pydantic := {|
  patch_panel_fields _ := Ok work_panel;
  registry_metadata_fields _ := Raise (ValidationError "not metadata");
  onboarding_fields _ := Raise (ValidationError "not an onboarding request");
  patch_panel_dump_by_alias pp := VStr (pp_id pp); bucket_dump b := VStr (bk_id b);
  patch_panel_dump _ := VNone; registry_metadata_dump _ := VNone; constraints_dump _ := VNone;
|}.

(** Two cards, of which a worker claims one and reports a failed movement. *)
Definition working : list op :=
  [Register work_panel; CreateCard "work" [] None None; CreateCard "work" [] None None;
   ClaimCard "take" "w1" 3600 None].
Definition failing : list op := working ++ [RecordEvent 0 "card_move_failed" (Some "w1") None None].

Definition figures_of (os : list op) : option (nat * list (string * nat) * nat * nat * option Q) :=
  match (metrics (run_ops os start)).1 with
  | Ok m => Some (mt_card_count m, mt_bucket_load m, mt_active_lease_count m,
                  mt_failed_movement_count m, mt_retry_rate m)
  | Raise _ => None
  end.

Example figures_working : figures_of working = Some (2, [("todo", 2)], 1, 0, Some (ratio 0 1)).
Proof. vm_compute. reflexivity. Qed.
Example figures_failing : figures_of failing = Some (2, [("todo", 2)], 1, 1, Some (ratio 1 1)).
Proof. vm_compute. reflexivity. Qed.

Lemma working_records o typ : o ∈ working -> typ ∈ recorded_by o -> typ ∉ failure_types.
Proof.
  intros Ho Ht. apply str_in_false.
  assert (Hall : Forall (fun o => Forall (fun t => str_in t failure_types = false) (recorded_by o)) working)
    by repeat constructor.
  rewrite Forall_forall in Hall. specialize (Hall o Ho). rewrite Forall_forall in Hall. by apply Hall.
Qed.

Lemma metrics_agree_witness :
  exists m, (metrics (run_ops working start)).1 = Ok m /\
    mt_active_lease_count m <= mt_card_count m /\ mt_failed_movement_count m = 0.
Proof.
  destruct (metrics_agree working) as (m & Hm & _ & _ & _ & _ & _ & Ha & _ & Hf).
  exists m. split; [exact Hm|]. split; [exact Ha|]. exact (Hf working_records).
Defined.
End Demo.
