(* ===== verification/Startup.v ===== *)
(** * System initialization ([bootstrap.py])

    [create_runtime], [create_registry] and [create_authorization_service]
    choose a class from the settings; [initialize_system] uses the objects it
    is given or creates them, loads the configured panels and seeds the root
    operator. An object of one of two classes is a sum, whose methods
    dispatch on the class. The tables of the database are those the stores
    of its backends use. *)
From Stdlib Require Import ZArith Ascii String.
From S2P Require Import Prelude Values Authority Models Graph PanelValidator Artifacts.
From S2P Require Import RuntimeService MemoryRuntime Registry Sql PostgresRegistry Pydantic.
From S2P Require Import PostgresRuntime Auth Catalog PostgresAuth Loader Bootstrap Config.
Open Scope string_scope.
Open Scope list_scope.

(** ** Dynamic dispatch *)
Definition dispatch {S T A} (m : M S A) (m' : M T A) : M (S + T) A := fun s =>
  match s.1 with
  | inl x => let '(r, (x', e)) := m (x, s.2) in (r, (inl x', e))
  | inr y => let '(r, (y', e)) := m' (y, s.2) in (r, (inr y', e))
  end.

Lemma wp_dispatch {S T A} (m : M S A) (m' : M T A) (Q : res A -> (S + T) * Env -> Prop) s :
  match s.1 with
  | inl x => wp m (fun r s' => Q r (inl s'.1, s'.2)) (x, s.2)
  | inr y => wp m' (fun r s' => Q r (inr s'.1, s'.2)) (y, s.2)
  end -> wp (dispatch m m') Q s.
Proof.
  destruct s as [[x|y] e]; unfold wp, dispatch; cbn;
    [destruct (m (x, e)) as [r [x' e']] | destruct (m' (y, e)) as [r [y' e']]]; done.
Qed.

(** The class of an object is known before its methods are looked up. *)
#[export] Hint Mode CardRuntime ! : typeclass_instances.
#[export] Hint Mode PatchPanelRegistry ! : typeclass_instances.
#[export] Hint Mode AuthorizationRepository ! : typeclass_instances.

#[export] Instance any_runtime {S T} `{CardRuntime S} `{CardRuntime T} : CardRuntime (S + T) := {|
  rt_register_patch_panel pp := dispatch (rt_register_patch_panel pp) (rt_register_patch_panel pp);
  rt_list_patch_panels := dispatch rt_list_patch_panels rt_list_patch_panels;
  rt_create_card i p m k := dispatch (rt_create_card i p m k) (rt_create_card i p m k);
  rt_list_cards := dispatch rt_list_cards rt_list_cards;
  rt_get_card i := dispatch (rt_get_card i) (rt_get_card i);
  rt_get_lease i := dispatch (rt_get_lease i) (rt_get_lease i);
  rt_list_leases := dispatch rt_list_leases rt_list_leases;
  rt_claim_card p w n k := dispatch (rt_claim_card p w n k) (rt_claim_card p w n k);
  rt_submit_artifact i p l k := dispatch (rt_submit_artifact i p l k) (rt_submit_artifact i p l k);
  rt_renew_lease i n k := dispatch (rt_renew_lease i n k) (rt_renew_lease i n k);
  rt_release_lease i a k := dispatch (rt_release_lease i a k) (rt_release_lease i a k);
  rt_expire_leases := dispatch rt_expire_leases rt_expire_leases;
  rt_validate_card i v b r o p k := dispatch (rt_validate_card i v b r o p k) (rt_validate_card i v b r o p k);
  rt_move_card i b a r k := dispatch (rt_move_card i b a r k) (rt_move_card i b a r k);
  rt_card_history i := dispatch (rt_card_history i) (rt_card_history i);
  rt_record_event i t a p k := dispatch (rt_record_event i t a p k) (rt_record_event i t a p k);
|}.

#[export] Instance any_registry {S T} `{PatchPanelRegistry S} `{PatchPanelRegistry T} :
    PatchPanelRegistry (S + T) := {|
  rg_register e := dispatch (rg_register e) (rg_register e);
  rg_get i := dispatch (rg_get i) (rg_get i);
  rg_search f := dispatch (rg_search f) (rg_search f);
  rg_update_metadata i m := dispatch (rg_update_metadata i m) (rg_update_metadata i m);
  rg_archive i := dispatch (rg_archive i) (rg_archive i);
  rg_supersede i j := dispatch (rg_supersede i j) (rg_supersede i j);
|}.

#[export] Instance any_repository {S T} `{AuthorizationRepository S} `{AuthorizationRepository T} :
    AuthorizationRepository (S + T) := {|
  ar_get_participant i := dispatch (ar_get_participant i) (ar_get_participant i);
  ar_list_participants := dispatch ar_list_participants ar_list_participants;
  ar_upsert_participant p := dispatch (ar_upsert_participant p) (ar_upsert_participant p);
  ar_add_role_assignment a := dispatch (ar_add_role_assignment a) (ar_add_role_assignment a);
  ar_list_role_assignments i := dispatch (ar_list_role_assignments i) (ar_list_role_assignments i);
  ar_add_permission_grant g := dispatch (ar_add_permission_grant g) (ar_add_permission_grant g);
  ar_list_permission_grants i := dispatch (ar_list_permission_grants i) (ar_list_permission_grants i);
  ar_record_audit_event ev := dispatch (ar_record_audit_event ev) (ar_record_audit_event ev);
|}.

(** ** Creation *)
Section startup.
Context `{Oracle} `{Networkx} `{Pydantic} `{Sql} `{Files}.

Definition AnyRuntime : Type := Runtime + PgRuntime.
Definition AnyRegistry : Type := RegistryState + PgRegistry.
Definition AnyRepository : Type := AuthState + PgAuth.

(** What the database at [settings.database_url] holds. *)
Record Database : Type := mkDatabase {
  db_runtime : PgRuntime;
  db_registry : PgRegistry;
  db_authority : PgAuth;
}.

Definition create_runtime (settings : Settings) (db : Database) : AnyRuntime :=
  if bool_decide (runtime_backend settings = "postgres") then inr (db_runtime db)
  else inl empty_runtime.

Definition create_registry (settings : Settings) (db : Database) : AnyRegistry :=
  if bool_decide (registry_backend settings = "postgres") then inr (db_registry db) else inl [].

Definition create_authorization_service {S} (settings : Settings) (db : Database) :
    M S AnyRepository :=
  if bool_decide (authorization_repository settings = "postgres") then mret (inr (db_authority db))
  else if development_authority_enabled settings then
    repository ← seed_development_authority (development_participant_id settings)
                   (Some development_global);
    mret (inl repository)
  else mret (inl empty_auth_state).

(** ** Initialization *)
Record System : Type := mkSystem {
  sys_runtime : AnyRuntime;
  sys_registry : AnyRegistry;
  sys_repository : AnyRepository;
}.

(** The stores are the state. *)
Record SystemInitialization : Type := mkSystemInitialization {
  bootstrap_results : list BootstrapResult;
  si_root_participant_id : string;
}.

Definition on_stores {A} (m : M (AnyRuntime * AnyRegistry) A) : M System A :=
  zoom (fun w => (sys_runtime w, sys_registry w))
    (fun s w => mkSystem s.1 s.2 (sys_repository w)) m.
Definition on_repository {A} (m : M AnyRepository A) : M System A :=
  zoom sys_repository (fun r w => mkSystem (sys_runtime w) (sys_registry w) r) m.

(** The rest of [initialize_system], once there are objects. *)
Definition load_system (settings : Settings) : M System SystemInitialization :=
  results ← on_stores (bootstrap (system_patch_panel_paths settings));
  _ ← on_repository (seed_root_operator (root_participant_id settings));
  mret (mkSystemInitialization results (root_participant_id settings)).

Definition resolve_auth_service (settings : Settings) (db : Database)
    (auth_service : option AnyRepository) : M System () :=
  resolved_auth_service ←
    match auth_service with
    | Some a => mret a
    | None => create_authorization_service settings db
    end;
  modify (fun w => mkSystem (sys_runtime w) (sys_registry w) resolved_auth_service).

(** [settings] are given; [get_settings()] is the default of the caller. *)
Definition initialize_system (settings : Settings) (db : Database)
    (runtime : option AnyRuntime) (registry : option AnyRegistry)
    (auth_service : option AnyRepository) (e : Env) : res SystemInitialization * (System * Env) :=
  (_ ← resolve_auth_service settings db auth_service; load_system settings)
    (mkSystem (default (create_runtime settings db) runtime)
       (default (create_registry settings db) registry) (inl empty_auth_state), e).

(** The database after the stores of [w] were used. *)
Definition persisted (db : Database) (w : System) : Database :=
  mkDatabase
    (match sys_runtime w with inl _ => db_runtime db | inr t => t end)
    (match sys_registry w with inl _ => db_registry db | inr t => t end)
    (match sys_repository w with inl _ => db_authority db | inr t => t end).
End startup.
