(* ===== verification/AuthorityStore.v ===== *)
(** * What seeding needs from a repository

    [AuthorityStore] is a weaker promise than [RepositorySpec], which both
    repositories keep: the store stands for an abstract state, lists it in
    any order, and takes the additions whose references are stored and whose
    ids are new. Proved from it: a built-in role is assigned at most once. *)
From Stdlib Require Import ZArith Ascii String.
From S2P Require Import Prelude Values Authority Auth Catalog AuthSpec AuthTheorems Sql.
From S2P Require Import PostgresAuth PostgresAuthTheorems Startup.
Open Scope string_scope.
Open Scope list_scope.

(** The references of a grant are stored, and its id is new. *)
Definition grant_known (a : AuthState) (g : PermissionGrant) : Prop :=
  storable_grant g /\
  (forall i, pg_participant_id g = Some i -> i ∈ dict_keys (participants a)) /\
  (forall i, pg_role_id g = Some i -> exists x, x ∈ role_assignments a /\ ra_role_id x = i) /\
  (forall i, pg_granted_by g = Some i -> i ∈ dict_keys (participants a)) /\
  pg_id g ∉ map pg_id (permission_grants a).

Class AuthorityStore (R : Type) `{Oracle} `{AuthorizationRepository R} : Type := {
  as_holds : R -> AuthState -> Prop;
  as_assignments pid a (s : R * Env) : as_holds s.1 a -> perpetual a ->
    wp (ar_list_role_assignments pid) (fun r s' => exists l l', r = Ok l' /\ l' ≡ₚ l /\
      active_assignments pid (Aware (clock_at (now_ctr s.2))) a = Ok l /\
      as_holds s'.1 a /\ s'.2 = mkEnv (S (now_ctr s.2)) (uuid_ctr s.2)) s;
  as_grants pid a (s : R * Env) : as_holds s.1 a -> perpetual a ->
    wp (ar_list_permission_grants pid) (fun r s' => exists l l', r = Ok l' /\ l' ≡ₚ l /\
      active_grants pid (Aware (clock_at (now_ctr s.2))) a = Ok l /\
      as_holds s'.1 a /\ s'.2 = mkEnv (S (now_ctr s.2)) (uuid_ctr s.2)) s;
  as_upsert p a (s : R * Env) : as_holds s.1 a -> storable_participant p ->
    wp (ar_upsert_participant p) (fun r s' => r = Ok tt /\
      as_holds s'.1 (with_participant p a) /\ s'.2 = s.2) s;
  as_assign x a (s : R * Env) : as_holds s.1 a -> assignment_admitted a x ->
    wp (ar_add_role_assignment x) (fun r s' => r = Ok tt /\
      as_holds s'.1 (with_assignment x a) /\ env_le s.2 s'.2 /\ uuid_ctr s'.2 = uuid_ctr s.2) s;
  as_grant g a (s : R * Env) : as_holds s.1 a -> grant_known a g ->
    wp (ar_add_permission_grant g) (fun r s' => r = Ok tt /\
      as_holds s'.1 (with_grant g a) /\ s'.2 = s.2) s;
}.

(** ** The repositories *)
#[export] Instance memory_authority_store `{Oracle} : AuthorityStore AuthState.
Proof.
  refine {| as_holds := fun r a => r = a |}; intros ? ? [st e]; cbn; intros <-.
  - intros Hp. destruct (active_assignments_spec st pid (clock_at (now_ctr e)) (perpetual_wf _ Hp)) as (l & Hl & _).
    by exists l, l; rewrite <- Hl.
  - intros Hp. destruct (active_grants_spec st pid (clock_at (now_ctr e)) (perpetual_wf _ Hp)) as (l & Hl & _).
    by exists l, l; rewrite <- Hl.
  - done.
  - intros _. split; [done|]. split; [done|]. split; [apply env_le_refl | done].
  - done.
Defined.

Lemma role_exists_same `{Sql} st st' i : pa_roles st' = pa_roles st -> role_exists st' i = role_exists st i.
Proof. unfold role_exists. by intros ->. Qed.

#[export] Instance postgres_authority_store `{Oracle} `{SqlLaws} : AuthorityStore PgAuth.
Proof.
  refine {| as_holds := fun st a => represents st a /\
    forall x, x ∈ role_assignments a -> role_exists st (ra_role_id x) = true |};
    intros ? a [st e]; cbn; intros [Hr Hro].
  - intros _. destruct (pa_list_role_assignments_run st a e pid Hr) as (l & l' & Hl & Hp & Hrun).
    exists l, l'. unfold wp. cbn. by rewrite Hrun.
  - intros _. destruct (pa_list_permission_grants_run st a e pid Hr) as (l & l' & Hl & Hp & Hrun).
    exists l, l'. unfold wp. cbn. by rewrite Hrun.
  - intros Hst. destruct (pa_upsert_run st a e p Hr Hst) as (st' & Hrun & Hr' & Hroles).
    unfold wp. cbn. rewrite Hrun. split; [done|]. split; [|done]. split; [done|].
    intros x Hx. rewrite (role_exists_same _ _ _ Hroles). by apply Hro.
  - intros Hx. destruct (pa_add_assignment_admitted st a e x Hr Hx) as (st' & e' & Hrun & Hr' & He & Hu & Hroles).
    unfold wp. cbn. rewrite Hrun. split; [done|]. split; [|done]. split; [done|].
    intros y. cbn. rewrite Hroles, elem_of_app, list_elem_of_singleton. intros [Hy| ->]; auto.
  - intros (Hg & Hp & Hrole & Hby & Hid).
    destruct (pa_add_grant_admitted st a e g Hr) as (st' & Hrun & Hr' & Hroles).
    { split; [done|]. split; [done|]. split; [|done]. intros i Hi.
      destruct (Hrole i Hi) as (x & Hx & <-). by apply Hro. }
    unfold wp. cbn. rewrite Hrun. split; [done|]. split; [|done]. split; [done|].
    intros x Hx. rewrite (role_exists_same _ _ _ Hroles). by apply Hro.
Defined.

#[export] Instance any_authority_store {S T} `{AuthorityStore S} `{!AuthorizationRepository T}
    `{!AuthorityStore T} : AuthorityStore (S + T).
Proof.
  refine {| as_holds := fun r a => match r with inl x => as_holds x a | inr y => as_holds y a end |};
    intros ? a [[x|y] e]; cbn; intros Hh.
  all: first [ intros Hp; apply wp_dispatch; cbn;
    first [ by apply (as_assignments pid a (_, e)) | by apply (as_grants pid a (_, e))
          | by apply (as_upsert p a (_, e)) | by apply (as_assign _ a (_, e)) | by apply (as_grant g a (_, e)) ] ].
Defined.

(** ** Seeding *)
Section seeding.
Context {R : Type} `{AuthorityStore R} `{!OracleLaws}.
Implicit Types (a : AuthState) (s : R * Env).

(** The ids of the stored objects have been drawn. *)
Record issued a (e : Env) : Prop := {
  iss_assignments x : x ∈ role_assignments a -> exists n, (n < uuid_ctr e)%nat /\ ra_id x = uuid_at n;
  iss_grants g : g ∈ permission_grants a -> exists n, (n < uuid_ctr e)%nat /\ pg_id g = uuid_at n;
}.

(** The store stands for [a], whose entries never expire. *)
Record settled s a : Prop := {
  st_holds : as_holds s.1 a;
  st_perpetual : perpetual a;
  st_issued : issued a s.2;
}.

Lemma issued_later a e e' : uuid_ctr e <= uuid_ctr e' -> issued a e -> issued a e'.
Proof.
  intros Hle [Ha Hg]. split; [intros x (n & ? & ?)%Ha | intros g (n & ? & ?)%Hg]; exists n; (split; [lia | done]).
Qed.

Lemma fresh_assignment a e n : issued a e -> uuid_ctr e <= n -> uuid_at n ∉ map ra_id (role_assignments a).
Proof.
  intros Hi Hn (x & Hx & Hin)%list_elem_of_fmap. apply (iss_assignments _ _ Hi) in Hin as (m & Hm & E).
  rewrite E in Hx. apply uuid_inj in Hx. lia.
Qed.

Lemma fresh_grant a e n : issued a e -> uuid_ctr e <= n -> uuid_at n ∉ map pg_id (permission_grants a).
Proof.
  intros Hi Hn (x & Hx & Hin)%list_elem_of_fmap. apply (iss_grants _ _ Hi) in Hin as (m & Hm & E).
  rewrite E in Hx. apply uuid_inj in Hx. lia.
Qed.

(** The grants of a template, with their ids. *)
Definition template_grant (tid : string) (scope : Scope) (by_ : option string) (perm : PermissionName)
    (g : PermissionGrant) : Prop :=
  role_grant tid scope perm g /\ storable_grant g /\ pg_granted_by g = by_.

Lemma template_grants_drawn tpl scope by_ s : validate_scope_id scope = Ok scope ->
  wp (template_grants tpl scope by_ None) (fun r s' => exists gs, r = Ok gs /\
    Forall2 (template_grant (template_id tpl) scope by_) (tpl_permissions tpl) gs /\
    map pg_id gs = map uuid_at (seq (uuid_ctr s.2) (length gs)) /\
    s'.1 = s.1 /\ uuid_ctr s'.2 = uuid_ctr s.2 + length gs /\ env_le s.2 s'.2) s.
Proof.
  intros Hsc. apply wp_bind, wp_now. set (t := clock_at _).
  enough (Hgen : forall l (s : R * Env), wp (mapE (fun permission => i ← uuid4;
      lift_res (validate_grant_target
        (mkPermissionGrant i permission scope None (Some (template_id tpl)) by_ None (Aware t) None
           [("builtin_role", VStr (RoleName_value (tpl_name tpl)))]))) l)
    (fun r s' => exists gs, r = Ok gs /\ Forall2 (template_grant (template_id tpl) scope by_) l gs /\
      map pg_id gs = map uuid_at (seq (uuid_ctr s.2) (length gs)) /\
      s'.1 = s.1 /\ uuid_ctr s'.2 = uuid_ctr s.2 + length gs /\ env_le s.2 s'.2) s).
  { eapply wp_mono; [apply Hgen|]. intros r s' (gs & -> & Hf & Hid & Hs & Hu & He). exists gs.
    repeat (split; [done|]). split; cbn in *; unfold env_le in He; cbn in He; lia. }
  induction l as [|perm l IH]; intros s0.
  { apply wp_ret. exists []. split; [done|]. split; [by constructor|]. split; [done|]. split; [done|]. split; [cbn; lia | apply env_le_refl]. }
  cbn [mapE]. apply wp_bind, wp_bind, wp_uuid4, wp_lift_res. cbn.
  apply wp_bind. eapply wp_mono; [apply IH|]. cbn. intros r s' (gs & -> & Hf & Hid & Hs & Hu & He).
  apply wp_ret. eexists (_ :: gs). split; [done|]. split.
  { constructor; [|done]. split; [done|]. split; [|done]. by split; cbn; try done; eexists. }
  cbn. rewrite Hid. split; [done|]. split; [done|]. unfold env_le in *. cbn in *. lia.
Qed.

(** They can all be added. *)
Lemma template_grants_known a e tpl scope by_ gs x :
  issued a e -> Forall2 (template_grant (template_id tpl) scope by_) (tpl_permissions tpl) gs ->
  map pg_id gs = map uuid_at (seq (uuid_ctr e) (length gs)) ->
  (forall i, by_ = Some i -> i ∈ dict_keys (participants a)) ->
  x ∈ role_assignments a /\ ra_role_id x = template_id tpl ->
  Forall (grant_known a) gs /\ NoDup (map pg_id gs) /\
  forall g, g ∈ gs -> exists n, (n < uuid_ctr e + length gs)%nat /\ pg_id g = uuid_at n.
Proof.
  intros Hi Hgs Hids Hby [Hx Hxr].
  assert (Hdrawn : forall g, g ∈ gs -> exists n, (uuid_ctr e <= n < uuid_ctr e + length gs)%nat /\ pg_id g = uuid_at n).
  { intros g Hg. assert (Hgid : pg_id g ∈ map pg_id gs) by (apply list_elem_of_fmap; by exists g).
    rewrite Hids in Hgid. apply list_elem_of_fmap in Hgid as (n & -> & Hn). apply elem_of_seq in Hn.
    by exists n. }
  split; [|split].
  - apply Forall_forall. intros g Hg. destruct (Forall2_in_r _ _ _ _ Hgs Hg) as (perm & _ & Hrg & Hst & Hgb).
    split; [done|]. destruct Hrg as (-> & -> & _). split; [done|].
    split; [intros i [= <-]; by exists x|]. rewrite Hgb. split; [exact Hby|].
    destruct (Hdrawn g Hg) as (n & Hn & ->). apply (fresh_grant _ _ _ Hi). lia.
  - rewrite Hids. apply NoDup_fmap_2_strong; [intros n m _ _; apply uuid_inj | apply NoDup_seq].
  - intros g (n & Hn & Hg)%Hdrawn. exists n. split; [lia | done].
Qed.

(** Adding the missing ones of a list of known grants. *)
Lemma add_missing_store (active gs : list PermissionGrant) a s :
  as_holds s.1 a -> Forall (grant_known a) gs -> NoDup (map pg_id gs) ->
  wp (forM gs (fun g => if _has_matching_grant active g then mret tt else ar_add_permission_grant g))
    (fun r s' => r = Ok tt /\ s'.2 = s.2 /\
       as_holds s'.1 (add_grants (py_filter (fun g => negb (_has_matching_grant active g)) gs) a)) s.
Proof.
  revert a s. induction gs as [|g gs IH]; intros a s Hh Hk Hnd; cbn [forM py_filter List.filter].
  { apply wp_ret. split; [done|]. split; [done|]. unfold add_grants. rewrite app_nil_r. by destruct a. }
  apply Forall_cons in Hk as [Hg Hk]. cbn in Hnd. apply NoDup_cons in Hnd as [Hn Hnd].
  apply wp_bind. destruct (_has_matching_grant active g); cbn [negb]; [by apply wp_ret, IH|].
  eapply wp_mono; [by apply as_grant|]. intros r s1 (-> & Hh1 & He).
  eapply wp_mono; [apply (IH (with_grant g a)); [done | | done]|].
  - apply Forall_forall. intros x Hx. rewrite Forall_forall in Hk. destruct (Hk x Hx) as (? & ? & ? & ? & Hid).
    repeat (split; [done|]). cbn. rewrite map_app. cbn. rewrite elem_of_app, list_elem_of_singleton.
    intros [?| Heq]; [done|]. apply Hn. rewrite <- Heq. apply list_elem_of_fmap. by exists x.
  - intros r s2 (-> & He2 & Hh2). split; [done|]. split; [by rewrite He2|].
    unfold add_grants, with_grant in *. cbn in *. by rewrite <- app_assoc in Hh2.
Qed.

Definition add_assignments (xs : list RoleAssignment) a : AuthState :=
  mkAuthState (participants a) (role_assignments a ++ xs) (permission_grants a) (audit_events a).

Definition has_role a pid tid scope : Prop :=
  exists x, x ∈ role_assignments a /\ role_assignment pid tid scope x.

(** There is an assignment afterwards. *)
Lemma ensure_assignment_store pid name scope by_ meta tpl a l l' t s :
  settled s a -> get_role_template name = Ok tpl -> validate_scope_id scope = Ok scope ->
  pid ∈ dict_keys (participants a) -> (forall i, by_ = Some i -> i ∈ dict_keys (participants a)) ->
  active_assignments pid (Aware t) a = Ok l -> l' ≡ₚ l ->
  wp (match py_next (fun x => bool_decide (ra_role_id x = template_id tpl) &&
                              bool_decide (ra_scope x = scope)) l' with
      | Some x => mret x
      | None => x ← new_role_assignment pid (template_id tpl) scope by_ meta;
                _ ← ar_add_role_assignment x; mret x
      end)
    (fun r s' => exists x xs, r = Ok x /\ settled s' (add_assignments xs a) /\
       has_role (add_assignments xs a) pid (template_id tpl) scope /\ env_le s.2 s'.2 /\
       (has_role a pid (template_id tpl) scope -> xs = [])) s.
Proof.
  intros [Hh Hp Hi] Htpl Hsc Hpid Hby Hl Hperm.
  destruct (active_assignments_spec a pid t (perpetual_wf _ Hp)) as (l0 & Hl0 & Hin).
  assert (l0 = l) as -> by congruence. clear Hl0.
  assert (Hin' : forall x, x ∈ l' <-> x ∈ role_assignments a /\ ra_participant_id x = pid /\
    live (ra_revoked_at x) (ra_expires_at x) t) by (intros x; rewrite Hperm; apply Hin).
  destruct (py_next _ l') as [x|] eqn:E.
  - apply py_next_some in E as [Hx [Hr%bool_decide_eq_true Hs%bool_decide_eq_true]%andb_true_iff].
    apply Hin' in Hx as (Hxa & Hxp & Hlive). apply wp_ret. exists x, [].
    assert (add_assignments [] a = a) as -> by (unfold add_assignments; rewrite app_nil_r; by destruct a).
    split; [done|]. split; [done|]. split; [|split; [apply env_le_refl | done]]. exists x. split; [done|].
    pose proof (perp_assignments _ Hp x Hxa) as He. rewrite He in Hlive. apply live_perpetual in Hlive. done.
  - unfold new_role_assignment. apply wp_bind, wp_bind, wp_uuid4, wp_bind, wp_now, wp_ret. cbn.
    set (x := mkRoleAssignment _ _ _ _ _ _ _ _ _). apply wp_bind.
    eapply wp_mono; [apply (as_assign x a); [done|]|].
    + split; [by split; cbn; try done; eexists|].
      split; [exists name; by apply template_of_name|]. split; [done|]. split; [done|].
      by apply (fresh_assignment _ _ _ Hi).
    + intros r s' (-> & Hh' & He & Hu). cbn in He, Hu. apply wp_ret. exists x, [x]. split; [done|].
      assert (Hset : settled s' (add_assignments [x] a)).
      { split; [done| |].
        - split; [|apply Hp]. intros y [Hy| ->%list_elem_of_singleton]%elem_of_app; [by apply Hp | done].
        - apply (issued_later _ _ s'.2) in Hi; [|lia]. split; [|apply Hi].
          intros y [Hy| ->%list_elem_of_singleton]%elem_of_app; [by apply Hi|].
          exists (uuid_ctr s.2). split; [lia | done]. }
      split; [done|]. split; [exists x; split; [apply elem_of_app; right; by left | done]|].
      split; [unfold env_le in *; cbn in *; lia|]. intros (y & Hy & Hry). exfalso. rewrite py_next_none in E. specialize (E y).
      rewrite !bool_decide_eq_true_2 in E by apply Hry. discriminate E. apply Hin'.
      split; [done|]. split; [apply Hry | by eapply role_assignment_live].
Qed.

(** [ensure_builtin_role_assignment] on any store. *)
Lemma ensure_store pid name scope by_ tpl a s :
  settled s a -> get_role_template name = Ok tpl -> validate_scope_id scope = Ok scope ->
  pid ∈ dict_keys (participants a) -> (forall i, by_ = Some i -> i ∈ dict_keys (participants a)) ->
  wp (ensure_builtin_role_assignment pid name scope by_) (fun r s' => is_ok r /\
    env_le s.2 s'.2 /\ exists a', settled s' a' /\ ensured a pid tpl scope a') s.
Proof.
  intros Hs Htpl Hsc Hpid Hby. unfold ensure_builtin_role_assignment.
  apply wp_bind, wp_lift_res. rewrite Htpl. cbn beta iota.
  apply wp_bind. eapply wp_mono; [apply (as_assignments pid a); apply Hs|].
  intros r s1 (l & l' & -> & Hperm & Hl & Hh1 & He1). apply wp_bind.
  eapply wp_mono; [eapply (ensure_assignment_store pid name scope _ _ tpl a l l'); try done|].
  { split; [done | apply Hs|]. eapply issued_later; [|apply Hs]. by rewrite He1. }
  intros r s2 (x & xs & -> & [Hh2 Hp2 Hi2] & Hrole & He2 & Hnone). set (a2 := add_assignments xs a) in *.
  apply wp_bind. eapply wp_mono; [by apply (as_grants pid a2)|].
  intros r s3 (gl & gl' & -> & Hgp & Hgl & Hh3 & He3). set (t := clock_at _) in Hgl.
  destruct (active_grants_spec a2 pid t (perpetual_wf _ Hp2)) as (gl0 & Hgl0 & Hgin).
  assert (gl0 = gl) as -> by congruence.
  apply wp_bind. eapply wp_mono; [by apply template_grants_drawn|].
  intros r s4 (gs & -> & Hgs & Hids & Hs4 & Hu4 & He4). apply wp_bind.
  assert (Hi3 : issued a2 s3.2) by (eapply issued_later; [|exact Hi2]; by rewrite He3).
  destruct Hrole as (y & Hy & Hry).
  destruct (template_grants_known a2 s3.2 tpl scope by_ gs y Hi3) as (Hknown & Hnd & Hiss);
    [done..| by split; [|apply Hry] |].
  assert (Hrole' : has_role a2 pid (template_id tpl) scope) by by exists y.
  eapply wp_mono; [apply (add_missing_store gl' gs a2 s4); [by rewrite Hs4 | done | done]|].
  intros r s5 (-> & He5 & Hh5). apply wp_ret. split; [by eexists|].
  split; [rewrite He5; rewrite He1 in He2; rewrite He3 in He4; unfold env_le in *; cbn in *; lia|].
  assert (Hgs' : Forall2 (role_grant (template_id tpl) scope) (tpl_permissions tpl) gs).
  { eapply Forall2_impl; [exact Hgs|]. by intros perm g (? & _). }
  assert (Hact : forall g, g ∈ gl' <-> grant_of a2 t pid g) by (intros g; rewrite Hgp; apply Hgin).
  destruct (missing_grants a2 pid tpl scope t gl' gs Hp2 Hrole' Hact Hgs') as (Hpp & Hpr & Hid).
  set (extra := py_filter _ gs) in *. exists (add_grants extra a2).
  split.
  - split; [done | done|]. rewrite He5. apply (issued_later _ _ s4.2) in Hi3; [|lia].
    split; [apply Hi3|]. intros g [Hg|[Hg _]%elem_of_py_filter]%elem_of_app; [by apply Hi3|].
    rewrite Hu4. by apply Hiss.
  - exists xs, extra. split; [done|]. split; [done|]. split; [done|].
    intros [Hasg Hgr]. assert (Hx : xs = []) by by apply Hnone. split; [done|]. apply Hid.
    split; [done|]. intros perm Hperm'. apply Hgr in Hperm' as (g & Hg & Hrg). by exists g.
Qed.

(** Assigning a role: the assignment and the grants of the template. *)
Lemma assign_role_store pid name scope by_ tpl a s :
  settled s a -> get_role_template name = Ok tpl -> validate_scope_id scope = Ok scope ->
  pid ∈ dict_keys (participants a) -> (forall i, by_ = Some i -> i ∈ dict_keys (participants a)) ->
  wp (assign_role_to_participant pid name scope by_) (fun r s' => exists x gs, r = Ok x /\
    role_assignment pid (template_id tpl) scope x /\
    Forall2 (role_grant (template_id tpl) scope) (tpl_permissions tpl) gs /\
    settled s' (add_grants gs (with_assignment x a)) /\ env_le s.2 s'.2) s.
Proof.
  intros [Hh Hp Hi] Htpl Hsc Hpid Hby. apply wp_bind, wp_lift_res. rewrite Htpl. cbn beta iota.
  unfold new_role_assignment. apply wp_bind, wp_bind, wp_uuid4, wp_bind, wp_now, wp_ret. cbn.
  set (x := mkRoleAssignment _ _ _ _ _ _ _ _ _).
  assert (Hx : role_assignment pid (template_id tpl) scope x) by done.
  apply wp_bind. eapply wp_mono; [apply (as_assign x a); [done|]|].
  { split; [by split; cbn; try done; eexists|]. split; [exists name; by apply template_of_name|].
    split; [done|]. split; [done|]. by apply (fresh_assignment _ _ _ Hi). }
  intros r s1 (-> & Hh1 & He1 & Hu1). cbn in Hu1. set (a1 := with_assignment x a) in *.
  assert (Hi1 : issued a1 s1.2).
  { apply (issued_later _ _ s1.2) in Hi; [|lia]. split; [|apply Hi].
    intros y [Hy| ->%list_elem_of_singleton]%elem_of_app; [by apply Hi|]. exists (uuid_ctr s.2). split; [lia | done]. }
  assert (Hp1 : perpetual a1).
  { split; [|apply Hp]. intros y [Hy| ->%list_elem_of_singleton]%elem_of_app; [by apply Hp | done]. }
  apply wp_bind. eapply wp_mono; [by apply template_grants_drawn|].
  intros r s2 (gs & -> & Hgs & Hids & Hs2 & Hu2 & He2). apply wp_bind.
  destruct (template_grants_known a1 s1.2 tpl scope by_ gs x Hi1) as (Hk & Hnd & Hiss); [done..| |].
  { split; [cbn; apply elem_of_app; right; by left | done]. }
  change (forM gs ar_add_permission_grant)
    with (forM gs (fun g => if _has_matching_grant [] g then mret tt
                            else ar_add_permission_grant (R := R) g)).
  eapply wp_mono; [apply (add_missing_store [] gs a1 s2); [by rewrite Hs2 | done | done]|].
  intros r s3 (-> & He3 & Hh3). apply wp_ret. exists x, gs. split; [done|]. split; [done|].
  assert (Hgs' : Forall2 (role_grant (template_id tpl) scope) (tpl_permissions tpl) gs).
  { eapply Forall2_impl; [exact Hgs|]. by intros perm g (? & _). }
  split; [done|].
  assert (Hall : py_filter (fun g => negb (_has_matching_grant [] g)) gs = gs).
  { clear. induction gs as [|g gs IH]; [done|]. unfold py_filter in *. cbn. f_equal. exact IH. }
  rewrite Hall in Hh3. split; [|rewrite He3; unfold env_le in *; cbn in *; lia]. split; [done| |].
  - split; [apply Hp1|]. intros g [Hg|Hg]%elem_of_app; [by apply Hp1|].
    by destruct (Forall2_in_r _ _ _ _ Hgs' Hg) as (perm & _ & Hrg); apply Hrg.
  - rewrite He3. apply (issued_later _ _ s2.2) in Hi1; [|lia]. split; [apply Hi1|].
    intros g [Hg|Hg]%elem_of_app; [by apply Hi1|]. rewrite Hu2. by apply Hiss.
Qed.

(** The root operator afterwards: active, with every permission everywhere. *)
Definition rooted a pid : Prop :=
  forall t perm scope ctx, entitled a t pid perm scope ctx.

Lemma provisioned_rooted a pid tpl p :
  tpl_permissions tpl = all_permissions -> dict_get pid (participants a) = Some p ->
  part_status p = PS_ACTIVE -> provisioned a pid tpl global_scope -> rooted a pid.
Proof.
  intros Hall Hp Hact [(x & Hx & Hrx) Hg] t perm scope ctx.
  destruct (Hg perm) as (g & Hgin & Hrg); [rewrite Hall; apply all_permissions_complete|].
  exists p, g. split; [done|]. split; [done|]. split; [|split; [apply Hrg|]].
  - split; [done|]. split; [by eapply role_grant_live|]. right. exists (template_id tpl).
    split; [apply Hrg|]. exists x. split; [done|]. split; [apply Hrx|]. split; [apply Hrx|].
    by eapply role_assignment_live.
  - destruct Hrg as (_ & _ & _ & -> & _). done.
Qed.

(** [seed_root_operator] on any store: complete, and idempotent but for the
    participant, which is written again. *)
Lemma seed_root_operator_correct pid a s : settled s a ->
  wp (seed_root_operator pid) (fun r s' => r = Ok tt /\ env_le s.2 s'.2 /\
    exists a', settled s' a' /\ rooted a' pid /\
    (forall q, q <> pid -> dict_get q (participants a') = dict_get q (participants a)) /\
    wp (seed_root_operator pid) (fun r2 s2 => r2 = Ok tt /\ exists a2, settled s2 a2 /\
      rooted a2 pid /\ role_assignments a2 = role_assignments a' /\
      permission_grants a2 = permission_grants a') s') s.
Proof.
  assert (Hadmin : exists tpl, get_role_template ADMIN = Ok tpl /\ tpl_permissions tpl = all_permissions)
    by (eexists; split; reflexivity).
  destruct Hadmin as (tpl & Htpl & Hall).
  assert (Hseed : forall a s, settled s a ->
    wp (seed_root_operator pid) (fun r s' => r = Ok tt /\ env_le s.2 s'.2 /\ exists p a', settled s' a' /\
      part_id p = pid /\ part_status p = PS_ACTIVE /\
      ensured (with_participant p a) pid tpl global_scope a') s).
  { clear a s. intros a s Hs. apply wp_bind. unfold new_participant. apply wp_bind, wp_now, wp_ret. cbn.
    set (p := mkParticipant _ _ _ _ _ _ _ _ _). apply wp_bind.
    eapply wp_mono; [apply (as_upsert p a); [apply Hs | by split; [eexists|]]|].
    intros r s1 (-> & Hh1 & He1). apply wp_bind.
    eapply wp_mono; [apply (ensure_store pid ADMIN global_scope _ tpl (with_participant p a)); try done|].
    - destruct Hs as [_ Hp Hi]. split; [done | split; apply Hp|]. split; cbn; rewrite He1; apply Hi.
    - cbn. apply (dict_get_key pid p). apply dict_get_set_eq.
    - intros i [= <-]. cbn. apply (dict_get_key pid p). apply dict_get_set_eq.
    - intros r s2 ([y ->] & He2 & a' & Hs' & Hens). apply wp_ret. split; [done|].
      split; [rewrite He1 in He2; unfold env_le in *; cbn in *; lia|]. by exists p, a'. }
  assert (Hrooted : forall a p a', part_id p = pid -> part_status p = PS_ACTIVE ->
    ensured (with_participant p a) pid tpl global_scope a' -> rooted a' pid).
  { intros a0 p a' Hid Hact (xs & gs & -> & _ & Hpr & _).
    eapply (provisioned_rooted _ pid tpl p); try done. cbn. rewrite <- Hid. apply dict_get_set_eq. }
  intros Hs. eapply wp_mono; [by apply Hseed|]. intros r s1 (-> & He & p & a1 & Hs1 & Hid & Hact & Hens).
  split; [done|]. split; [done|]. exists a1. split; [done|]. split; [by eapply Hrooted|].
  destruct Hens as (xs & gs & -> & _ & Hpr & _). split.
  { intros q Hq. cbn. apply dict_get_set_ne. by rewrite Hid. }
  eapply wp_mono; [by apply Hseed|]. intros r s2 (-> & _ & p2 & a2 & Hs2 & Hid2 & Hact2 & Hens2).
  split; [done|]. exists a2. split; [done|]. split; [by eapply Hrooted|].
  destruct Hens2 as (xs2 & gs2 & -> & _ & _ & Hidem). destruct Hidem as [-> ->]; [exact Hpr|].
  cbn. by rewrite !app_nil_r.
Qed.
End seeding.
