(* ===== verification/StartupTheorems.v ===== *)
(** * What initialization guarantees

    Whatever backends the settings choose and whatever objects the caller
    supplies. *)
From Stdlib Require Import ZArith Ascii String.
From stdpp Require Import gmap.
From S2P Require Import Prelude Values Authority Models Graph PanelValidator SystemPanels Artifacts.
From S2P Require Import RuntimeService MemoryRuntime Registry Sql PostgresRegistry RegistryTheorems.
From S2P Require Import Pydantic PostgresRuntime Auth Catalog AuthSpec AuthTheorems.
From S2P Require Import PostgresAuth PostgresAuthTheorems Loader Bootstrap PanelStores BootstrapTheorems.
From S2P Require Import Config Startup AuthorityStore.
Open Scope string_scope.
Open Scope list_scope.

(** ** The promises of an object of one of two classes *)
#[export] Instance any_panel_store {S T} `{PanelStore S} `{!CardRuntime T} `{!PanelStore T} :
  PanelStore (S + T).
Proof.
  refine {| ps_inv := fun s => match s.1 with inl x => ps_inv (x, s.2) | inr y => ps_inv (y, s.2) end;
            ps_panels := fun r => match r with inl x => ps_panels x | inr y => ps_panels y end;
            ps_admits := fun pp => @ps_admits S _ _ _ _ pp /\ @ps_admits T _ _ _ _ pp |}.
  - intros [[x|y] e] Hi; cbn in *; unfold dispatch; cbn; by rewrite ps_list.
  - intros [x|y] e e'; cbn; apply ps_env.
  - intros pp [[x|y] e] Hi [Hx Hy] Hu Hv Hn; apply wp_dispatch; cbn in *;
      (eapply wp_mono; [by apply ps_register|]; intros r [z e'] Hr; exact Hr).
Defined.

#[export] Instance any_registry_spec {S T} `{RegistrySpec S} `{!PatchPanelRegistry T} `{!RegistrySpec T} :
  RegistrySpec (S + T).
Proof.
  refine {| reg_view := fun r => match r with inl x => reg_view x | inr y => reg_view y end;
            reg_inv := fun r => match r with inl x => reg_inv x | inr y => reg_inv y end;
            reg_admits := fun r e => match r with inl x => reg_admits x e | inr y => reg_admits y e end |}.
  - intros en [[x|y] e] Hi Ha Hn; apply wp_dispatch; cbn in *; by apply register_spec.
  - intros i [[x|y] e] Hi; apply wp_dispatch; cbn in *;
      (eapply wp_mono; [by apply get_spec|]); intros r [z e'] [[= -> ->] Hr]; done.
  - intros f [[x|y] e] Hi; apply wp_dispatch; cbn in *;
      (eapply wp_mono; [by apply search_spec|]); intros r [z e'] [[= -> ->] Hr]; done.
  - intros i m [[x|y] e] Hi Ha; apply wp_dispatch; cbn in *; by apply update_spec.
  - intros i [[x|y] e] Hi; apply wp_dispatch; cbn in *; by apply archive_spec.
  - intros i j [[x|y] e] Hi Ha; apply wp_dispatch; cbn in *; by apply supersede_spec.
Defined.

#[export] Instance any_ownerless {S T} `{OwnerlessRegistry S} `{!PatchPanelRegistry T}
  `{!RegistrySpec T} `{!OwnerlessRegistry T} : OwnerlessRegistry (S + T).
Proof.
  split.
  - intros [x|y] e; cbn; apply or_admits.
  - intros en [[x|y] e]; cbn; unfold dispatch; cbn.
    + pose proof (or_env en (x, e)). by destruct (rg_register en (x, e)) as [? []].
    + pose proof (or_env en (y, e)). by destruct (rg_register en (y, e)) as [? []].
Defined.

(** ** Initialization *)
Section initialization.
Context `{OracleLaws} `{Networkx} `{Pydantic} `{SqlLaws} `{Files}.
Implicit Types (db : Database) (w : System) (settings : Settings).

Lemma empty_settled e : settled (empty_auth_state, e) empty_auth_state.
Proof. split; [done| |]; split; by intros ? ?%elem_of_nil. Qed.

(** The development authority is a sound store. *)
Lemma seed_development_settled {S : Type} pid (s : S * Env) :
  wp (seed_development_authority pid (Some development_global))
    (fun r s' => exists a, r = Ok a /\ settled (a, s'.2) a /\ s'.1 = s.1 /\ env_le s.2 s'.2) s.
Proof.
  assert (Hadmin : exists tpl, get_role_template ADMIN = Ok tpl) by by eexists.
  destruct Hadmin as [tpl Htpl]. unfold seed_development_authority. apply wp_zoom. destruct s as [x e]. cbn [fst snd].
  unfold new_participant. apply wp_bind, wp_bind, wp_now, wp_ret. cbn [fst snd].
  set (p := mkParticipant _ _ _ _ _ _ _ _ _). set (e1 := mkEnv _ _).
  change (upsert_participant p) with (ar_upsert_participant (R := AuthState) p).
  apply wp_bind. eapply wp_mono;
    [apply (as_upsert p empty_auth_state (empty_auth_state, e1)); [done | by split; [eexists|]]|].
  intros r [r1 e2] (-> & Hh & He). cbn in Hh, He. subst r1 e2.
  assert (Hs1 : settled (with_participant p empty_auth_state, e1) (with_participant p empty_auth_state))
    by (split; [done| |]; split; by intros ? ?%elem_of_nil).
  assert (Hkey : pid ∈ dict_keys (participants (with_participant p empty_auth_state))) by by left.
  apply wp_bind. eapply wp_mono; [by apply (assign_role_store pid ADMIN development_global _ tpl _ _ Hs1 Htpl);
    [| | intros i [= <-]]|].
  intros r [a e3] (y & gs & -> & _ & _ & Hs2 & He). apply wp_get. cbn [fst snd].
  eexists. split; [done|]. pose proof Hs2 as [Hh _ _]. cbn in Hh. subst a.
  split; [exact Hs2|]. split; [done|]. unfold env_le in *. cbn in *. lia.
Qed.

(** The stores of a system are sound: the panels and entries of the first two,
    and the third stands for an abstract state. *)
Record system_ok w (e : Env) : Prop := {
  so_boot : boot_inv ((sys_runtime w, sys_registry w), e);
  so_authority : exists a, settled (sys_repository w, e) a;
}.
Record database_ok db (e : Env) : Prop := {
  do_panels : pg_panels_inv (db_runtime db);
  do_registry : reg_inv (db_registry db);
  do_issued : entries_issued (db_registry db) e;
  do_authority : exists a, settled (db_authority db, e) a;
}.

(** The objects a caller supplies are sound. *)
Record given_ok (runtime : option AnyRuntime) (registry : option AnyRegistry)
    (auth_service : option AnyRepository) (e : Env) : Prop := {
  go_runtime r : runtime = Some r -> ps_inv (r, e);
  go_registry g : registry = Some g -> reg_inv g /\ entries_issued g e;
  go_authority r : auth_service = Some r -> exists a, settled (r, e) a;
}.

Lemma boot_later (rt : AnyRuntime) (reg : AnyRegistry) e e' : env_le e e' -> boot_inv ((rt, reg), e) -> boot_inv ((rt, reg), e').
Proof.
  intros Hle [Hr Hg Hi]. split; [by eapply ps_env | done |].
  intros i x Hx. destruct (Hi i x Hx) as (n & Hn & ->). exists n. split; [|done]. destruct Hle. cbn in *. lia.
Qed.

Lemma resolve_ok settings db runtime registry auth_service e :
  database_ok db e -> given_ok runtime registry auth_service e ->
  wp (resolve_auth_service settings db auth_service) (fun r s' => r = Ok tt /\
      env_le e s'.2 /\ system_ok s'.1 s'.2)
    (mkSystem (default (create_runtime settings db) runtime)
       (default (create_registry settings db) registry) (inl empty_auth_state), e).
Proof.
  intros Hdb Hgiven.
  assert (Hb : boot_inv ((default (create_runtime settings db) runtime,
                          default (create_registry settings db) registry), e)).
  { split; cbn [fst snd].
    - destruct runtime as [r|]; [by apply (go_runtime _ _ _ _ Hgiven)|]. cbn. unfold create_runtime.
      case_bool_decide; [apply Hdb|]. split; [apply NoDup_nil_2 | done].
    - destruct registry as [g|]; [by apply (go_registry _ _ _ _ Hgiven)|]. cbn. unfold create_registry.
      case_bool_decide; [apply Hdb|]. split; [apply NoDup_nil_2 | done].
    - destruct registry as [g|]; [by apply (go_registry _ _ _ _ Hgiven)|]. cbn. unfold create_registry.
      case_bool_decide; [apply (do_issued _ _ Hdb)|]. intros i x Hx. cbn in Hx. by rewrite lookup_empty in Hx. }
  set (w := mkSystem _ _ _). unfold resolve_auth_service. apply wp_bind.
  assert (Hdone : forall r e', env_le e e' -> (exists a, settled (r, e') a) ->
    wp (modify (fun w => mkSystem (sys_runtime w) (sys_registry w) r))
      (fun r s' => r = Ok tt /\ env_le e s'.2 /\ system_ok s'.1 s'.2) (w, e')).
  { intros r e' He Ha. apply wp_modify. split; [done|]. split; [done|]. split; [by eapply boot_later | done]. }
  destruct auth_service as [r|].
  { apply wp_ret, Hdone; [apply env_le_refl | by apply (go_authority _ _ _ _ Hgiven)]. }
  unfold create_authorization_service. case_bool_decide.
  { apply wp_ret, Hdone; [apply env_le_refl|]. destruct (do_authority _ _ Hdb) as [a [? ? ?]]. by exists a. }
  destruct (development_authority_enabled settings).
  - apply wp_bind. eapply wp_mono; [apply seed_development_settled|].
    intros r [w' e'] (a & -> & [? ? ?] & Hw & He). cbn in *. subst w'. apply wp_ret, Hdone; [done|]. by exists a.
  - apply wp_ret, Hdone; [apply env_le_refl|]. destruct (empty_settled e) as [? ? ?]. by exists empty_auth_state.
Qed.

(** The panels are in place. *)
Definition loaded (pps : list PatchPanel) w : Prop := forall pp, pp ∈ pps ->
  in_runtime pp (sys_runtime w, sys_registry w) /\ in_registry pp (sys_runtime w, sys_registry w).

(** The tables a system leaves are sound. *)
Lemma persisted_ok db w e e' : env_le e e' -> database_ok db e -> system_ok w e' -> database_ok (persisted db w) e'.
Proof.
  intros Hle [Hp Hr Hi [a Ha]] [[Hbr Hbg Hbi] [b Hb]].
  assert (Hlater : entries_issued (db_registry db) e').
  { intros i x (n & Hn & ->)%Hi. exists n. split; [|done]. destruct Hle. lia. }
  assert (Ha' : settled (db_authority db, e') a).
  { destruct Ha as [? ? Hs]. split; [done | done|]. eapply issued_later; [|exact Hs]. apply Hle. }
  destruct w as [[x|x] [g|g] [r|r]]; cbn in *; split; try done; try (by exists a);
    destruct Hb as [? ? ?]; by exists b.
Qed.

Lemma load_system_ready settings pps w e :
  Forall2 (configured (R := AnyRuntime)) (system_patch_panel_paths settings) pps -> one_version pps -> system_ok w e ->
  let root := root_participant_id settings in
  wp (load_system settings) (fun r s1 => exists results a,
    r = Ok (mkSystemInitialization results root) /\ Forall2 result_for pps results /\
    loaded pps s1.1 /\ env_le e s1.2 /\ system_ok s1.1 s1.2 /\ settled (sys_repository s1.1, s1.2) a /\ rooted a root /\
    wp (load_system settings) (fun r2 s2 => exists a2,
      r2 = Ok (mkSystemInitialization (map nothing_registered pps) root) /\
      sys_runtime s2.1 = sys_runtime s1.1 /\ sys_registry s2.1 = sys_registry s1.1 /\
      settled (sys_repository s2.1, s2.2) a2 /\ rooted a2 root /\
      role_assignments a2 = role_assignments a /\ permission_grants a2 = permission_grants a) s1) (w, e).
Proof.
  intros Hc Hone [Hb [a0 Ha0]] root.
  destruct (bootstrap_idempotent _ pps _ Hc Hone Hb) as (results & Hr & Hrs & Hin & _ & _ & Hb1 & He1 & Hagain).
  destruct (bootstrap _ ((sys_runtime w, sys_registry w), e)) as [r0 [[rt1 reg1] e1]] eqn:Eb. cbn in *. subst r0.
  assert (Ha1 : settled (sys_repository w, e1) a0).
  { destruct Ha0 as [? ? Hi]. split; [done | done|]. eapply issued_later; [|exact Hi]. apply He1. }
  assert (Hseed := seed_root_operator_correct root a0 _ Ha1). unfold wp at 1 in Hseed.
  destruct (seed_root_operator root (sys_repository w, e1)) as [r1 [rep1 e2]] eqn:Es. cbn in Hseed.
  destruct Hseed as (-> & He2 & a1 & Hs1 & Hroot & _ & Hseed2).
  unfold load_system at 1. apply wp_bind, wp_zoom. cbn [fst snd]. unfold wp at 1. rewrite Eb. cbn.
  apply wp_bind, wp_zoom. unfold wp at 1. cbn. fold root. rewrite Es. cbn. apply wp_ret. cbn.
  exists results, a1. split; [done|]. split; [done|]. split; [exact Hin|].
  assert (Hb2 : boot_inv ((rt1, reg1), e2)) by by eapply boot_later.
  split; [by eapply env_le_trans|]. split; [split; [done | by exists a1]|]. split; [done|]. split; [done|].
  unfold load_system. apply wp_bind, wp_zoom. unfold wp at 1. cbn.
  rewrite (bootstrap_stable _ pps ((rt1, reg1), e2) Hc Hb2 Hin). cbn.
  apply wp_bind, wp_zoom. cbn. fold root. eapply wp_mono; [exact Hseed2|].
  intros r2 [rep2 e3] (-> & a2 & Hs2 & Hroot2 & Hra & Hpg). cbn. apply wp_ret. cbn. by exists a2.
Qed.

(** Initialization, on any backends. *)
Definition ready_after (settings : Settings) (db : Database) (pps : list PatchPanel)
    (run : res SystemInitialization * (System * Env)) : Prop :=
  let root := root_participant_id settings in
  let w := run.2.1 in
  exists results a, run.1 = Ok (mkSystemInitialization results root) /\ Forall2 result_for pps results /\
    loaded pps w /\ settled (sys_repository w, run.2.2) a /\ rooted a root /\
    database_ok (persisted db w) run.2.2 /\
    forall db', let again := initialize_system settings db' (Some (sys_runtime w)) (Some (sys_registry w))
                               (Some (sys_repository w)) run.2.2 in
    exists a2, again.1 = Ok (mkSystemInitialization (map nothing_registered pps) root) /\
      sys_runtime again.2.1 = sys_runtime w /\ sys_registry again.2.1 = sys_registry w /\
      settled (sys_repository again.2.1, again.2.2) a2 /\ rooted a2 root /\
      role_assignments a2 = role_assignments a /\ permission_grants a2 = permission_grants a.

Lemma initialize_ready settings db runtime registry auth_service e pps :
  Forall2 (configured (R := AnyRuntime)) (system_patch_panel_paths settings) pps -> one_version pps ->
  database_ok db e -> given_ok runtime registry auth_service e ->
  ready_after settings db pps (initialize_system settings db runtime registry auth_service e).
Proof.
  intros Hc Hone Hdb Hgiven. unfold ready_after.
  set (root := root_participant_id settings). set (run := initialize_system _ _ _ _ _ _). set (w := run.2.1).
  assert (Hres := resolve_ok settings db _ _ _ e Hdb Hgiven). unfold wp in Hres.
  destruct (resolve_auth_service _ _ _ _) as [r0 [w0 e0]] eqn:E0. cbn in Hres. destruct Hres as (-> & He0 & Hok).
  assert (Hl := load_system_ready settings pps w0 e0 Hc Hone Hok). cbv zeta in Hl. unfold wp at 1 in Hl.
  destruct (load_system settings (w0, e0)) as [r1 [w1 e1]] eqn:E1. cbn in Hl.
  destruct Hl as (results & a & -> & Hrs & Hin & He1 & Hok1 & Hs & Hroot & Hagain).
  assert (Hrun : run = (Ok (mkSystemInitialization results root), (w1, e1))).
  { unfold run, initialize_system, mbind, M_bind. by rewrite E0, E1. }
  clearbody run. subst run. unfold w. cbn. clear w.
  exists results, a. split; [done|]. split; [done|]. split; [done|]. split; [done|]. split; [done|].
  split; [eapply persisted_ok; [|exact Hdb | exact Hok1]; by eapply env_le_trans|].
  intros db'. unfold initialize_system, resolve_auth_service, modify, mbind, M_bind, mret, M_ret. cbn.
  unfold wp in Hagain. by destruct w1.
Qed.

(** C37. Initialization makes the system ready, whatever backends the
    settings choose. Let every configured file load, each panel at one
    version only (two configured versions of a panel replace each other in
    the in-memory runtime), survive its dump to JSON, and carry no owner in
    its registry metadata; let the database and the objects the caller
    supplies, if any, be sound: their panels and registry entries well
    formed, the identifiers of entries, assignments and grants drawn before,
    and no assignment or grant with an expiry date. Then
    [initialize_system] answers; afterwards every configured panel is in the
    runtime and in the registry at its version, and the root operator is
    entitled to every permission on every scope at every instant. It is
    idempotent: initializing the same objects again registers nothing, adds
    no assignment and no grant, and leaves runtime and registry as they are.
    And the database it leaves behind is sound again, so that the system can
    start from it. *)
Theorem initialize_system_ready settings db runtime registry auth_service e pps :
  Forall2 (configured (R := AnyRuntime)) (system_patch_panel_paths settings) pps -> one_version pps ->
  database_ok db e -> given_ok runtime registry auth_service e ->
  let root := root_participant_id settings in
  let run := initialize_system settings db runtime registry auth_service e in
  let w := run.2.1 in
  exists results a, run.1 = Ok (mkSystemInitialization results root) /\ Forall2 result_for pps results /\
    loaded pps w /\ settled (sys_repository w, run.2.2) a /\ rooted a root /\
    database_ok (persisted db w) run.2.2 /\
    forall db', let again := initialize_system settings db' (Some (sys_runtime w)) (Some (sys_registry w))
                               (Some (sys_repository w)) run.2.2 in
    exists a2, again.1 = Ok (mkSystemInitialization (map nothing_registered pps) root) /\
      sys_runtime again.2.1 = sys_runtime w /\ sys_registry again.2.1 = sys_registry w /\
      settled (sys_repository again.2.1, again.2.2) a2 /\ rooted a2 root /\
      role_assignments a2 = role_assignments a /\ permission_grants a2 = permission_grants a.
Proof. intros Hc Hone Hdb Hgiven. by apply initialize_ready. Qed.
End initialization.

(** ** Evaluated instances *)
Module Demo.
#[local] Existing Instance tick_oracle.
#[local] Existing Instance tick_oracle_laws.
#[local] Existing Instance ListGraph.networkx.
#[local] Existing Instance ListSql.sql.
#[local] Existing Instance ListSql.sql_laws.

Definition load_demo (text : string) : string + data :=
  inr (DMap [(KStr "id", DScalar (VStr text))]).
Definition demo_fields (raw : list (data_key * data)) : res PatchPanel :=
  match dict_get (KStr "id") raw with
  | Some (DScalar (VStr "system-pp-approval.yaml")) => Ok system_pp_approval
  | Some (DScalar (VStr "system-agent-registration.yaml")) => Ok system_agent_registration
  | _ => Raise (ValidationError "id")
  end.

(** The two packaged files, holding their names. *)
#[local] Instance files : Files := {|
  path_exists p := str_in (path_str p)
    ["/pkg/patchpanels/system-pp-approval.yaml"; "/pkg/patchpanels/system-agent-registration.yaml"];
  read_text p := Text (path_name p);
  json_loads := load_demo;
  safe_load := load_demo;
  patch_panel_data_fields := demo_fields;
  package_dir := path_of "/pkg";
|}.

(** Panels are stored by their ids; documents with a name, for the metadata. *)
#[local] Instance pydantic : Pydantic := {|
  patch_panel_fields v :=
    if v_eq_str v "system_pp_approval" then Ok system_pp_approval
    else if v_eq_str v "system_agent_registration" then Ok system_agent_registration
    else Raise (ValidationError "id");
  registry_metadata_fields v :=
    match v with
    | VDict d => Ok (mkRegistryMetadata (v_str (vget "name" d)) None [] [] [] [] [] None None None
                       None PUBLISHED)
    | _ => Raise (ValidationError "dict")
    end;
  onboarding_fields _ := Raise (ValidationError "");
  patch_panel_dump _ := VNone; patch_panel_dump_by_alias pp := VStr (pp_id pp); bucket_dump _ := VNone;
  registry_metadata_dump _ := VNone; constraints_dump _ := VNone;
|}.

(** The runtime in memory, registry and authority on PostgreSQL, which is
    empty. *)
Definition demo_settings : Settings := get_settings (fun name =>
  if str_in name ["GHOSTMESH_REGISTRY_BACKEND"; "GHOSTMESH_AUTHORIZATION_REPOSITORY"]
  then Some "postgres" else None).
Definition packaged : list PatchPanel := [system_pp_approval; system_agent_registration].
Definition empty_db : Database := mkDatabase empty_database empty_pg empty_pg_auth.
Definition e0 : Env := mkEnv 0 0.

Lemma empty_database_ok : database_ok empty_db e0.
Proof.
  split.
  - split; cbn; rewrite ?sql_rows_create; by intros ? ?%elem_of_nil.
  - exists []. split; [done | apply NoDup_nil_2 | |]; by intros ? ?%elem_of_nil.
  - intros i x Hx. vm_compute in Hx. done.
  - exists empty_auth_state. split; [split; [apply empty_represents|] | |]; try split; by intros ? ?%elem_of_nil.
Qed.

Lemma nothing_given : given_ok None None None e0.
Proof. by split. Qed.

Lemma packaged_configured : Forall2 (configured (R := AnyRuntime)) (system_patch_panel_paths demo_settings) packaged.
Proof.
  apply Forall2_cons; split; [|apply Forall2_cons; split; [|by constructor]];
    (split; [vm_compute; reflexivity|]; split; [split; [exact I | vm_compute; reflexivity]|];
     eexists; split; vm_compute; reflexivity).
Qed.

Lemma packaged_one_version : one_version packaged.
Proof.
  intros p q. unfold packaged. rewrite !elem_of_cons, !elem_of_nil. intros [->|[->|[]]] [->|[->|[]]]; done.
Qed.

Lemma initialize_system_ready_witness : exists results a,
  let run := initialize_system demo_settings empty_db None None None e0 in
  run.1 = Ok (mkSystemInitialization results "root-operator") /\
  settled (sys_repository run.2.1, run.2.2) a /\ rooted a "root-operator".
Proof.
  destruct (initialize_system_ready demo_settings empty_db None None None e0 packaged packaged_configured
              packaged_one_version empty_database_ok nothing_given)
    as (results & a & Hr & _ & _ & Hs & Hroot & _).
  exists results, a. split; [exact Hr|]. split; [exact Hs | exact Hroot].
Defined.
End Demo.
