(* ===== verification/Api.v ===== *)
(** * The HTTP API ([api/main.py])

    One definition per route, over the state of the application: the runtime,
    the registry, the services of genesis and shadows, and the authority.
    What FastAPI does before a handler runs (parsing, the constraints of the
    request models) is [valid_request]; the response models are the values
    the handlers return. [handle] is the application. *)
From Stdlib Require Import ZArith QArith Ascii String.
From S2P Require Import Prelude Values UuidText Authority Models Graph PanelValidator Artifacts.
From S2P Require Import RuntimeService Auth Catalog Registry Pydantic Executor Boundaries.
From S2P Require Import Shadow Genesis Observability Loader Config.
Open Scope string_scope.
Open Scope list_scope.

(** ** Request models *)
Record CreateCardRequest : Type := mkCreateCard {
  cc_patch_panel_id : string; cc_payload : doc; cc_metadata : doc;
}.
Record ClaimCardRequest : Type := mkClaimCard {
  cl_input_pipe : string; cl_worker_id : string; cl_lease_seconds : Z;
}.
Record SubmitArtifactRequest : Type := mkSubmitArtifact {
  sa_lease_id : UUID; sa_output_pipe : string; sa_artifact_refs : list ArtifactReference;
}.
Record RenewLeaseRequest : Type := mkRenewLease { rl_lease_seconds : Z }.
Record ReleaseLeaseRequest : Type := mkReleaseLease { rr_actor_id : option string }.
Record ValidateCardRequest : Type := mkValidateCard {
  vc_validator_id : string; vc_accepted : bool; vc_reason : option string;
  vc_output_pipe : option string;
}.
Record MoveCardRequest : Type := mkMoveCard {
  mc_to_bucket : string; mc_actor_id : option string; mc_reason : option string;
}.
Record SourceExecutionRequest : Type := mkSourceExecution {
  se_patch_panel_id : string; se_source_id : string; se_payload : doc; se_metadata : doc;
}.
Record WorkerExecutionRequest : Type := mkWorkerExecution {
  we_patch_panel_id : string; we_input_pipe : string; we_output_pipe : string;
  we_worker_id : string; we_artifact_refs : list ArtifactReference; we_lease_seconds : Z;
}.
Record ValidatorExecutionRequest : Type := mkValidatorExecution {
  ve_patch_panel_id : string; ve_card_id : UUID; ve_validator_id : string;
  ve_accepted : option bool; ve_selected_exit : option string; ve_score : option Z;
  ve_reason : option string; ve_payload : doc;
}.
Record SinkExecutionRequest : Type := mkSinkExecution {
  ke_patch_panel_id : string; ke_card_id : UUID; ke_sink_id : string;
  ke_external_reference : option string;
}.
Record CreateShadowRequest : Type := mkCreateShadow {
  cs_production_card_id : UUID; cs_candidate_id : string; cs_sample_rate : Q;
  cs_max_parallel : Z;
}.
Record CompleteShadowRequest : Type := mkCompleteShadow { cp_metrics : doc }.
Record ProposedMutationRequest : Type := mkProposedMutation {
  pm_mutation_type : string; pm_proposed_by : string; pm_payload : doc;
}.
Record MutationValidationRequest : Type := mkMutationValidation {
  mv_accepted : bool; mv_validator_id : string; mv_reason : option string;
}.
Record MutationPromotionRequest : Type := mkMutationPromotion { mp_patch_panel : PatchPanel }.
Record HumanValidatorDecisionRequest : Type := mkHumanDecision {
  hd_patch_panel_id : string; hd_accepted : bool; hd_selected_exit : option string;
  hd_score : option Z; hd_reason : option string;
}.
Record RegisterPatchPanelRegistryRequest : Type := mkRegisterRegistry {
  rp_patch_panel : PatchPanel; rp_registry_metadata : PatchPanelRegistryMetadata;
  rp_metadata : doc;
}.
Record SupersedeRegistryEntryRequest : Type := mkSupersede { su_superseded_by_entry_id : UUID }.
Record CreateParticipantRequest : Type := mkCreateParticipant {
  cr_id : string; cr_type : ParticipantType; cr_display_name : option string;
  cr_status : ParticipantStatus; cr_trust_level : option string; cr_auth_method : option string;
  cr_metadata : doc;
}.
Record AssignRoleRequest : Type := mkAssignRole {
  as_role_name : RoleName; as_scope : Scope; as_assigned_by : option string;
}.
Record GrantPermissionRequest : Type := mkGrantPermission {
  gp_permission : PermissionName; gp_scope : Scope; gp_granted_by : option string;
}.
Record GenesisIntentRequest : Type := mkGenesisIntent {
  gr_requested_by : string; gr_deduplication_key : string; gr_goal : string;
  gr_input_type : string; gr_desired_outputs : list string; gr_tags : list string;
  gr_constraints : GenesisIntentConstraints; gr_launch_if_existing : bool;
  gr_propose_if_missing : bool; gr_metadata : doc;
}.
Record LaunchGenesisIntentRequest : Type := mkLaunchIntent { li_registry_entry_id : option UUID }.
Record ProposeGenesisIntentRequest : Type := mkProposeIntent {
  pi_proposed_by : string; pi_candidate_definition : PatchPanel;
  pi_registry_metadata : PatchPanelRegistryMetadata; pi_base_patch_panel_id : option string;
  pi_base_version : option string;
}.

(** ** The application *)
Record App (R G A : Type) : Type := mkApp {
  app_runtime : R;
  app_registry : G;
  app_authority : A;
  app_genesis : GenesisState;
  app_shadow : ShadowState;
}.
Arguments mkApp {R G A}.
Arguments app_runtime {R G A}.
Arguments app_registry {R G A}.
Arguments app_authority {R G A}.
Arguments app_genesis {R G A}.
Arguments app_shadow {R G A}.

(** The headers the routes read. *)
Record Headers : Type := mkHeaders {
  participant_header : option string;
  idempotency_header : option string;
}.

(** [Scope(type=..., id=...)]. *)
Definition scope_at (type : ScopeType) (id : string) : res Scope :=
  as_validation_error (validate_scope_id (mkScope type (Some id))).

Section api.
Context `{Oracle} `{Networkx} `{Pydantic} `{BoundaryModels} {R G A : Type} `{CardRuntime R}
  `{PatchPanelRegistry G} `{AuthorizationRepository A}.
Notation W := (App R G A).

(** The parts of the application a service works on. *)
Definition on_rt {B} (m : M R B) : M W B :=
  zoom app_runtime (fun r w => mkApp r (app_registry w) (app_authority w) (app_genesis w) (app_shadow w)) m.
Definition on_reg {B} (m : M G B) : M W B :=
  zoom app_registry (fun g w => mkApp (app_runtime w) g (app_authority w) (app_genesis w) (app_shadow w)) m.
Definition on_authority {B} (m : M A B) : M W B :=
  zoom app_authority (fun a w => mkApp (app_runtime w) (app_registry w) a (app_genesis w) (app_shadow w)) m.
Definition on_genesis {B} (m : M (R * G * GenesisState) B) : M W B :=
  zoom (fun w => (app_runtime w, app_registry w, app_genesis w))
    (fun t w => mkApp t.1.1 t.1.2 (app_authority w) t.2 (app_shadow w)) m.
Definition on_shadows {B} (m : M (R * ShadowState) B) : M W B :=
  zoom (fun w => (app_runtime w, app_shadow w))
    (fun t w => mkApp t.1 (app_registry w) (app_authority w) (app_genesis w) t.2) m.
Definition on_nodes {B} (m : M (World R G A) B) : M W B :=
  zoom (fun w => mkWorld (app_runtime w) (Some (app_registry w)) (Some (app_authority w)))
    (fun t w => mkApp (w_runtime t) (default (app_registry w) (w_registry t))
                  (default (app_authority w) (w_auth t)) (app_genesis w) (app_shadow w)) m.

Context (settings : Settings) (http_request : Headers).

(** ** Helpers *)
Definition _authorize (permission : PermissionName) (scope : Scope)
    (participant_id : option string) (context : doc) : M W (option string) :=
  on_authority (authorize_request (authorization_enabled settings)
                  (participant_header http_request) permission scope (Some context) participant_id).

Definition _authorize_ops_read (patch_panel_id : option string) : M W (option string) :=
  scope ← (if truthy patch_panel_id
           then lift_res (scope_at ST_PATCH_PANEL (str_or patch_panel_id ""))
           else mret global_scope);
  _authorize AUDIT_VIEW scope None
    (if truthy patch_panel_id then [("patch_panel_id", v_opt_str patch_panel_id)] else []).

Definition _resolved_actor (fallback : option string) : string :=
  str_or (opt_or (participant_header http_request) fallback) "unknown".

Definition _record_audit (action : AuditAction) (participant_id : string)
    (permission : PermissionName) (scope : Scope) (target_ref : string) (metadata : doc) : M W () :=
  _ ← on_authority (Auth.record_event action (Some participant_id) (Some permission) (Some scope)
                      (Some true) None None (Some target_ref) (Some metadata));
  mret tt.

Definition _api_patch_panel (patch_panel_id : string) : M W PatchPanel :=
  on_rt (Observability._patch_panel patch_panel_id).

(** [_executor(...)]: a [NodeExecutor] for the panel. *)
Definition with_api_executor {B} (patch_panel_id : string) (m : PatchPanel -> M (World R G A) B) :
    M W B :=
  patch_panel ← _api_patch_panel patch_panel_id; on_nodes (m patch_panel).

Definition _validator_input_buckets (pp : PatchPanel) (validator_id : string) : res (list string) :=
  match py_next (fun n => bool_decide (nd_id n = validator_id)) (pp_nodes pp) with
  | None => Raise (NotFoundError ("validator '" +:+ validator_id +:+ "' is not registered"))
  | Some node => Ok (remove_dups (sink_input_buckets pp node))
  end.

(** ** Participants *)
Definition list_participants : M W (list Participant) :=
  _ ← _authorize PARTICIPANT_MANAGE global_scope None [("operation", VStr "participants.list")];
  on_authority ar_list_participants.

Definition create_participant (request : CreateParticipantRequest) : M W Participant :=
  _ ← _authorize PARTICIPANT_MANAGE global_scope None
        [("operation", VStr "participants.create"); ("participant_id", VStr (cr_id request))];
  t ← now;
  let participant := mkParticipant (cr_id request) (cr_type request) (cr_display_name request)
    (cr_status request) (cr_trust_level request) (cr_auth_method request) (cr_metadata request)
    t None in
  _ ← on_authority (ar_upsert_participant participant);
  mret participant.

Definition assign_participant_role (participant_id : string) (request : AssignRoleRequest) :
    M W RoleAssignment :=
  _ ← _authorize PERMISSION_GRANT (as_scope request) (as_assigned_by request)
        [("operation", VStr "participants.assign_role"); ("participant_id", VStr participant_id);
         ("role_name", VStr (RoleName_value (as_role_name request)))];
  template ← lift_res (get_role_template (as_role_name request));
  let actor := Some (_resolved_actor (as_assigned_by request)) in
  assignment ← new_role_assignment participant_id (template_id template) (as_scope request) actor
                 [("builtin_role", VStr (RoleName_value (as_role_name request)))];
  _ ← on_authority (ar_add_role_assignment assignment);
  grants ← template_grants template (as_scope request) actor None;
  _ ← forM grants (fun grant => on_authority (ar_add_permission_grant grant));
  mret assignment.

Definition grant_participant_permission (participant_id : string)
    (request : GrantPermissionRequest) : M W PermissionGrant :=
  _ ← _authorize PERMISSION_GRANT (gp_scope request) (gp_granted_by request)
        [("operation", VStr "participants.grant_permission"); ("participant_id", VStr participant_id);
         ("permission", VStr (PermissionName_value (gp_permission request)))];
  i ← uuid4; t ← now;
  let grant := mkPermissionGrant i (gp_permission request) (gp_scope request)
    (Some participant_id) None (Some (_resolved_actor (gp_granted_by request))) None t None [] in
  _ ← on_authority (ar_add_permission_grant grant);
  mret grant.

Definition inspect_participant_permissions (participant_id : string) : M W (list PermissionGrant) :=
  _ ← _authorize PERMISSION_GRANT global_scope None
        [("operation", VStr "participants.inspect_permissions");
         ("participant_id", VStr participant_id)];
  on_authority (ar_list_permission_grants participant_id).

(** ** Operators *)
Definition operator_view {B} (patch_panel_id : option string) (m : M R B) : M W B :=
  _ ← _authorize_ops_read patch_panel_id; on_rt m.

Definition operator_topology (patch_panel_id : string) : M W Topology :=
  operator_view (Some patch_panel_id) (topology patch_panel_id).
Definition operator_cards_by_bucket : M W (list (string * list Card)) :=
  operator_view None cards_by_bucket.
Definition operator_bucket_load : M W (list (string * nat)) := operator_view None bucket_load.
Definition operator_active_leases : M W (list ActiveLease) := operator_view None active_leases.
Definition operator_worker_activity : M W (list (string * list (string * nat))) :=
  operator_view None worker_activity.
Definition operator_validator_decisions : M W (list ValidatorDecision) :=
  operator_view None validator_decisions.
Definition operator_workflow_versions : M W (list VersionView) :=
  operator_view None workflow_versions.
Definition operator_failed_movements : M W (list CardEvent) := operator_view None failed_movements.
Definition operator_metrics : M W Metrics := operator_view None metrics.
Definition operator_dashboard (patch_panel_id : string) : M W Dashboard :=
  operator_view (Some patch_panel_id) (dashboard patch_panel_id).

(** ** Panels and the registry *)
Definition list_patch_panels : M W (list PatchPanel) := on_rt rt_list_patch_panels.

Definition register_patch_panel (patch_panel : PatchPanel) : M W PatchPanel :=
  scope ← lift_res (scope_at ST_PATCH_PANEL (pp_id patch_panel));
  _ ← _authorize PATCH_PANEL_CREATE scope None [("patch_panel_id", VStr (pp_id patch_panel))];
  on_rt (rt_register_patch_panel patch_panel).

Definition search_patch_panel_registry (filters : PatchPanelRegistrySearch) :
    M W (list PatchPanelRegistryEntry) :=
  _ ← _authorize PATCH_PANEL_DISCOVER global_scope None
        [("tag", v_opt_str (sr_tag filters)); ("input_type", v_opt_str (sr_input_type filters));
         ("output_type", v_opt_str (sr_output_type filters));
         ("required_tool", v_opt_str (sr_required_tool filters));
         ("risk_level", v_opt_str (sr_risk_level filters));
         ("owner_participant_id", v_opt_str (sr_owner_participant_id filters))];
  on_reg (rg_search filters).

Definition register_patch_panel_registry_entry (request : RegisterPatchPanelRegistryRequest) :
    M W PatchPanelRegistryEntry :=
  scope ← lift_res (scope_at ST_PATCH_PANEL (pp_id (rp_patch_panel request)));
  _ ← _authorize PATCH_PANEL_CREATE scope None
        [("patch_panel_id", VStr (pp_id (rp_patch_panel request)))];
  patch_panel ← on_rt (rt_register_patch_panel (rp_patch_panel request));
  entry ← from_patch_panel patch_panel (rp_registry_metadata request) None (rp_metadata request);
  on_reg (rg_register entry).

(** The guard of the routes of one entry, after reading it. *)
Definition entry_guard (permission : PermissionName) (entry_id : UUID)
    (context : PatchPanelRegistryEntry -> doc) : M W PatchPanelRegistryEntry :=
  entry ← on_reg (rg_get entry_id);
  scope ← lift_res (scope_at ST_PATCH_PANEL (re_patch_panel_id entry));
  _ ← _authorize permission scope None
        ([("patch_panel_id", VStr (re_patch_panel_id entry))] ++ context entry);
  mret entry.

Definition get_patch_panel_registry_entry (entry_id : UUID) : M W PatchPanelRegistryEntry :=
  entry_guard PATCH_PANEL_DISCOVER entry_id (fun _ => []).

Definition update_patch_panel_registry_entry (entry_id : UUID)
    (request : PatchPanelRegistryMetadata) : M W PatchPanelRegistryEntry :=
  _ ← entry_guard PATCH_PANEL_EDIT_DRAFT entry_id (fun _ => []);
  on_reg (rg_update_metadata entry_id request).

Definition archive_patch_panel_registry_entry (entry_id : UUID) : M W PatchPanelRegistryEntry :=
  _ ← entry_guard PATCH_PANEL_ARCHIVE entry_id (fun _ => []);
  on_reg (rg_archive entry_id).

Definition supersede_patch_panel_registry_entry (entry_id : UUID)
    (request : SupersedeRegistryEntryRequest) : M W PatchPanelRegistryEntry :=
  _ ← entry_guard PATCH_PANEL_ARCHIVE entry_id (fun _ =>
        [("superseded_by_entry_id", VStr (uuid_str (su_superseded_by_entry_id request)))]);
  on_reg (rg_supersede entry_id (su_superseded_by_entry_id request)).

(** ** Genesis *)
Definition receive_genesis_intent (request : GenesisIntentRequest) : M W GenesisIntent :=
  _ ← _authorize PATCH_PANEL_DISCOVER global_scope (Some (gr_requested_by request))
        [("deduplication_key", VStr (gr_deduplication_key request));
         ("input_type", VStr (gr_input_type request));
         ("tags", VList (map VStr (gr_tags request)))];
  intent ← on_genesis (receive_intent (gr_requested_by request) (gr_deduplication_key request)
    (gr_goal request) (gr_input_type request) (gr_desired_outputs request) (gr_tags request)
    (gr_constraints request) (gr_launch_if_existing request) (gr_propose_if_missing request)
    (Some (gr_metadata request)));
  let actor := _resolved_actor (Some (gr_requested_by request)) in
  let target := uuid_str (gi_id intent) in
  let candidates := gi_candidate_registry_entry_ids intent in
  _ ← _record_audit GENESIS_INTENT_RECEIVED actor PATCH_PANEL_DISCOVER global_scope target
        [("candidate_count", VInt (Z.of_nat (length candidates)))];
  _ ← _record_audit GENESIS_REGISTRY_SEARCHED actor PATCH_PANEL_DISCOVER global_scope target
        [("candidate_registry_entry_ids", VList (map (fun i => VStr (uuid_str i)) candidates))];
  _ ← (match candidates with
       | [] =>
           if gr_propose_if_missing request
           then _record_audit GENESIS_DESIGN_REQUIRED actor MUTATION_PROPOSE global_scope target
                  [("input_type", VStr (gi_input_type intent));
                   ("tags", VList (map VStr (gi_tags intent)))]
           else mret tt
       | _ => mret tt
       end);
  mret intent.

Definition get_genesis_intent (intent_id : UUID) : M W GenesisIntent :=
  intent ← on_genesis (get_intent intent_id);
  _ ← _authorize PATCH_PANEL_DISCOVER global_scope (Some (gi_requested_by intent))
        [("genesis_intent_id", VStr (uuid_str intent_id))];
  mret intent.

Definition launch_genesis_intent (intent_id : UUID) (request : LaunchGenesisIntentRequest) :
    M W Card :=
  intent ← on_genesis (get_intent intent_id);
  match (match li_registry_entry_id request with
         | Some i => Some i
         | None => head (gi_candidate_registry_entry_ids intent)
         end) with
  | None => raise (ConflictError "genesis intent has no registry candidate to launch")
  | Some selected_id =>
      entry ← on_reg (rg_get selected_id);
      scope ← lift_res (scope_at ST_PATCH_PANEL (re_patch_panel_id entry));
      _ ← _authorize CARD_CREATE scope (Some (gi_requested_by intent))
            [("genesis_intent_id", VStr (uuid_str intent_id));
             ("patch_panel_id", VStr (re_patch_panel_id entry))];
      card ← on_genesis (launch intent_id (Some selected_id));
      let actor := _resolved_actor (Some (gi_requested_by intent)) in
      _ ← _record_audit GENESIS_CANDIDATE_SELECTED actor PATCH_PANEL_DISCOVER scope
            (uuid_str (re_id entry)) [("genesis_intent_id", VStr (uuid_str intent_id))];
      _ ← _record_audit GENESIS_CARD_CREATED actor CARD_CREATE scope
            (uuid_str (cd_id card)) [("genesis_intent_id", VStr (uuid_str intent_id))];
      mret card
  end.

Definition propose_genesis_intent (intent_id : UUID) (request : ProposeGenesisIntentRequest) :
    M W Card :=
  scope ← lift_res (scope_at ST_PATCH_PANEL (pp_id (pi_candidate_definition request)));
  _ ← _authorize MUTATION_PROPOSE scope (Some (pi_proposed_by request))
        [("genesis_intent_id", VStr (uuid_str intent_id))];
  card ← on_genesis (propose intent_id (pi_proposed_by request) (pi_candidate_definition request)
           (pi_registry_metadata request) (pi_base_patch_panel_id request) (pi_base_version request));
  _ ← _record_audit GENESIS_PROPOSAL_SUBMITTED (_resolved_actor (Some (pi_proposed_by request)))
        MUTATION_PROPOSE scope (uuid_str (cd_id card))
        [("genesis_intent_id", VStr (uuid_str intent_id))];
  mret card.

(** ** Cards and leases *)
Definition list_cards : M W (list Card) := on_rt rt_list_cards.

Definition create_card (request : CreateCardRequest) : M W Card :=
  scope ← lift_res (scope_at ST_PATCH_PANEL (cc_patch_panel_id request));
  _ ← _authorize CARD_CREATE scope None [("patch_panel_id", VStr (cc_patch_panel_id request))];
  on_rt (rt_create_card (cc_patch_panel_id request) (cc_payload request)
           (Some (cc_metadata request)) (idempotency_header http_request)).

Definition claim_card (request : ClaimCardRequest) : M W Lease :=
  scope ← lift_res (scope_at ST_BUCKET (cl_input_pipe request));
  _ ← _authorize CARD_CLAIM scope None
        [("input_pipe", VStr (cl_input_pipe request)); ("worker_id", VStr (cl_worker_id request))];
  on_rt (rt_claim_card (cl_input_pipe request) (cl_worker_id request) (cl_lease_seconds request)
           (idempotency_header http_request)).

Definition submit_artifact (request : SubmitArtifactRequest) : M W (list ArtifactReference) :=
  lease ← on_rt (rt_get_lease (sa_lease_id request));
  scope ← lift_res (scope_at ST_CARD (uuid_str (ls_card_id lease)));
  _ ← _authorize CARD_SUBMIT_ARTIFACT scope None
        [("lease_id", VStr (uuid_str (sa_lease_id request)));
         ("output_pipe", VStr (sa_output_pipe request))];
  on_rt (rt_submit_artifact (sa_lease_id request) (sa_output_pipe request)
           (sa_artifact_refs request) (idempotency_header http_request)).

Definition renew_lease (lease_id : UUID) (request : RenewLeaseRequest) : M W Lease :=
  on_rt (rt_renew_lease lease_id (rl_lease_seconds request) (idempotency_header http_request)).

Definition release_lease (lease_id : UUID) (request : ReleaseLeaseRequest) : M W Lease :=
  lease ← on_rt (rt_get_lease lease_id);
  scope ← lift_res (scope_at ST_CARD (uuid_str (ls_card_id lease)));
  _ ← _authorize CARD_RELEASE scope (rr_actor_id request)
        [("lease_id", VStr (uuid_str lease_id))];
  on_rt (rt_release_lease lease_id (rr_actor_id request) (idempotency_header http_request)).

Definition expire_leases : M W (list Lease) := on_rt rt_expire_leases.

Definition validate_card (card_id : UUID) (request : ValidateCardRequest) : M W CardEvent :=
  scope ← lift_res (scope_at ST_CARD (uuid_str card_id));
  _ ← _authorize VALIDATION_SUBMIT scope (Some (vc_validator_id request))
        [("validator_id", VStr (vc_validator_id request))];
  on_rt (rt_validate_card card_id (vc_validator_id request) (vc_accepted request)
           (vc_reason request) (vc_output_pipe request) None (idempotency_header http_request)).

Definition move_card (card_id : UUID) (request : MoveCardRequest) : M W Card :=
  on_rt (rt_move_card card_id (mc_to_bucket request) (mc_actor_id request) (mc_reason request)
           (idempotency_header http_request)).

Definition card_history (card_id : UUID) : M W (list CardEvent) := on_rt (rt_card_history card_id).

(** ** Workers and validators *)
Definition worker_lease_context (lease_id : UUID) : M W (Lease * Card * list CardEvent) :=
  lease ← on_rt (rt_get_lease lease_id);
  card ← on_rt (rt_get_card (ls_card_id lease));
  history ← on_rt (rt_card_history (cd_id card));
  mret (lease, card, history).

Definition list_validator_cards (validator_id patch_panel_id : string) : M W (list Card) :=
  patch_panel ← _api_patch_panel patch_panel_id;
  buckets ← lift_res (_validator_input_buckets patch_panel validator_id);
  cards ← on_rt rt_list_cards;
  mret (py_filter (fun card => str_in (cd_current_bucket card) buckets) cards).

Definition inspect_validator_card (card_id : UUID) : M W (Card * list CardEvent) :=
  card ← on_rt (rt_get_card card_id);
  history ← on_rt (rt_card_history (cd_id card));
  mret (card, history).

Definition submit_validator_decision (validator_id : string) (card_id : UUID)
    (request : HumanValidatorDecisionRequest) : M W CardEvent :=
  scope ← lift_res (scope_at ST_CARD (uuid_str card_id));
  _ ← _authorize VALIDATION_SUBMIT scope (Some validator_id)
        [("patch_panel_id", VStr (hd_patch_panel_id request)); ("validator_id", VStr validator_id)];
  with_api_executor (hd_patch_panel_id request) (fun pp =>
    Executor.execute_validator pp
      (mkValidatorInput card_id validator_id (hd_selected_exit request) (Some (hd_accepted request))
         (hd_score request) (hd_reason request) [] (idempotency_header http_request))).

(** ** Nodes and boundaries *)
Definition execute_source (request : SourceExecutionRequest) : M W Card :=
  scope ← lift_res (scope_at ST_PATCH_PANEL (se_patch_panel_id request));
  _ ← _authorize BOUNDARY_SOURCE_INGRESS scope None
        [("patch_panel_id", VStr (se_patch_panel_id request));
         ("source_id", VStr (se_source_id request))];
  with_api_executor (se_patch_panel_id request) (fun pp =>
    Executor.execute_source pp (se_source_id request) (se_payload request)
      (Some (se_metadata request)) (idempotency_header http_request)).

Definition execute_worker (request : WorkerExecutionRequest) : M W (list ArtifactReference) :=
  scope ← lift_res (scope_at ST_PATCH_PANEL (we_patch_panel_id request));
  _ ← _authorize CARD_SUBMIT_ARTIFACT scope (Some (we_worker_id request))
        [("patch_panel_id", VStr (we_patch_panel_id request));
         ("worker_id", VStr (we_worker_id request))];
  with_api_executor (we_patch_panel_id request) (fun pp =>
    Executor.execute_worker pp
      (mkWorkerInput (we_input_pipe request) (we_output_pipe request) (we_worker_id request)
         (we_artifact_refs request) (we_lease_seconds request) (idempotency_header http_request))).

Definition execute_validator (request : ValidatorExecutionRequest) : M W CardEvent :=
  scope ← lift_res (scope_at ST_CARD (uuid_str (ve_card_id request)));
  _ ← _authorize VALIDATION_SUBMIT scope (Some (ve_validator_id request))
        [("patch_panel_id", VStr (ve_patch_panel_id request));
         ("validator_id", VStr (ve_validator_id request))];
  with_api_executor (ve_patch_panel_id request) (fun pp =>
    Executor.execute_validator pp
      (mkValidatorInput (ve_card_id request) (ve_validator_id request) (ve_selected_exit request)
         (ve_accepted request) (ve_score request) (ve_reason request) (ve_payload request)
         (idempotency_header http_request))).

Definition execute_sink (request : SinkExecutionRequest) : M W SinkResult :=
  scope ← lift_res (scope_at ST_PATCH_PANEL (ke_patch_panel_id request));
  _ ← _authorize SINK_EXECUTE scope None
        [("patch_panel_id", VStr (ke_patch_panel_id request)); ("sink_id", VStr (ke_sink_id request))];
  with_api_executor (ke_patch_panel_id request) (fun pp =>
    Executor.execute_sink pp (ke_card_id request) (ke_sink_id request)
      (ke_external_reference request) (idempotency_header http_request)).

Definition execute_boundary_source (request : BoundarySourceRequest) : M W SourceBoundaryResult :=
  scope ← lift_res (scope_at ST_PATCH_PANEL (bs_patch_panel_id request));
  _ ← _authorize BOUNDARY_SOURCE_INGRESS scope None
        [("patch_panel_id", VStr (bs_patch_panel_id request))];
  on_rt (boundary_execute_source request).

Definition execute_boundary_sink (request : BoundarySinkRequest) : M W SinkBoundaryResult :=
  scope ← lift_res (scope_at ST_PATCH_PANEL (bk_patch_panel_id request));
  _ ← _authorize BOUNDARY_SINK_EGRESS scope None
        [("patch_panel_id", VStr (bk_patch_panel_id request))];
  on_rt (boundary_execute_sink request).

(** ** Shadows and mutations *)
Definition create_shadow (request : CreateShadowRequest) : M W ShadowRun :=
  scope ← lift_res (scope_at ST_CARD (uuid_str (cs_production_card_id request)));
  _ ← _authorize SHADOW_CREATE scope None [("candidate_id", VStr (cs_candidate_id request))];
  production_card ← on_rt (rt_get_card (cs_production_card_id request));
  on_shadows (create_shadow_card production_card (cs_candidate_id request)
    (Some (mkPolicy (cs_sample_rate request) (cs_max_parallel request)))
    (idempotency_header http_request)).

Definition complete_shadow (link_id : UUID) (request : CompleteShadowRequest) :
    M W ShadowCardLink :=
  _ ← _authorize SHADOW_COMPLETE global_scope None [("shadow_link_id", VStr (uuid_str link_id))];
  on_shadows (Shadow.complete_shadow link_id (cp_metrics request)).

Definition propose_mutation (request : ProposedMutationRequest) : M W ProposedMutation :=
  _ ← _authorize MUTATION_PROPOSE global_scope (Some (pm_proposed_by request))
        [("mutation_type", VStr (pm_mutation_type request))];
  on_shadows (Shadow.propose_mutation (pm_mutation_type request) (pm_proposed_by request)
                (pm_payload request)).

Definition validate_mutation (mutation_id : UUID) (request : MutationValidationRequest) :
    M W ProposedMutation :=
  _ ← _authorize MUTATION_VALIDATE global_scope (Some (mv_validator_id request))
        [("mutation_id", VStr (uuid_str mutation_id))];
  on_shadows (Shadow.validate_mutation mutation_id (mv_accepted request) (mv_validator_id request)
                (mv_reason request)).

Definition promote_mutation (mutation_id : UUID) (request : MutationPromotionRequest) :
    M W ProposedMutation :=
  let context := [("mutation_id", VStr (uuid_str mutation_id));
                  ("patch_panel_id", VStr (pp_id (mp_patch_panel request)))] in
  scope ← lift_res (scope_at ST_PATCH_PANEL (pp_id (mp_patch_panel request)));
  _ ← _authorize MUTATION_PROMOTE scope None context;
  _ ← _authorize PATCH_PANEL_PUBLISH_VERSION scope None context;
  on_shadows (Shadow.promote_mutation mutation_id (mp_patch_panel request)).

(** ** Health *)
Definition health : M W (list (string * string)) := mret [("status", "ok")].
Definition health_config : M W (list (string * string)) :=
  mret [("environment", environment settings);
        ("database_configured", lower (str_bool (negb (bool_decide (database_url settings = "")))))].
End api.

(** ** The routes *)
Inductive ApiRequest : Type :=
  | GetHealth
  | GetHealthConfig
  | ListParticipants
  | CreateParticipant (request : CreateParticipantRequest)
  | AssignParticipantRole (participant_id : string) (request : AssignRoleRequest)
  | GrantParticipantPermission (participant_id : string) (request : GrantPermissionRequest)
  | InspectParticipantPermissions (participant_id : string)
  | OperatorTopology (patch_panel_id : string)
  | OperatorCardsByBucket
  | OperatorBucketLoad
  | OperatorActiveLeases
  | OperatorWorkerActivity
  | OperatorValidatorDecisions
  | OperatorWorkflowVersions
  | OperatorFailedMovements
  | OperatorMetrics
  | OperatorDashboard (patch_panel_id : string)
  | ListPatchPanels
  | RegisterPatchPanel (patch_panel : PatchPanel)
  | SearchRegistry (filters : PatchPanelRegistrySearch)
  | RegisterRegistryEntry (request : RegisterPatchPanelRegistryRequest)
  | GetRegistryEntry (entry_id : UUID)
  | UpdateRegistryEntry (entry_id : UUID) (request : PatchPanelRegistryMetadata)
  | ArchiveRegistryEntry (entry_id : UUID)
  | SupersedeRegistryEntry (entry_id : UUID) (request : SupersedeRegistryEntryRequest)
  | ReceiveGenesisIntent (request : GenesisIntentRequest)
  | GetGenesisIntent (intent_id : UUID)
  | LaunchGenesisIntent (intent_id : UUID) (request : LaunchGenesisIntentRequest)
  | ProposeGenesisIntent (intent_id : UUID) (request : ProposeGenesisIntentRequest)
  | ListCards
  | CreateCard (request : CreateCardRequest)
  | ClaimCard (request : ClaimCardRequest)
  | SubmitArtifact (request : SubmitArtifactRequest)
  | RenewLease (lease_id : UUID) (request : RenewLeaseRequest)
  | ReleaseLease (lease_id : UUID) (request : ReleaseLeaseRequest)
  | ExpireLeases
  | ValidateCard (card_id : UUID) (request : ValidateCardRequest)
  | MoveCard (card_id : UUID) (request : MoveCardRequest)
  | CardHistory (card_id : UUID)
  | WorkerLeaseContext (lease_id : UUID)
  | ListValidatorCards (validator_id patch_panel_id : string)
  | InspectValidatorCard (card_id : UUID)
  | SubmitValidatorDecision (validator_id : string) (card_id : UUID)
      (request : HumanValidatorDecisionRequest)
  | ExecuteSource (request : SourceExecutionRequest)
  | ExecuteWorker (request : WorkerExecutionRequest)
  | ExecuteValidator (request : ValidatorExecutionRequest)
  | ExecuteSink (request : SinkExecutionRequest)
  | ExecuteBoundarySource (request : BoundarySourceRequest)
  | ExecuteBoundarySink (request : BoundarySinkRequest)
  | CreateShadow (request : CreateShadowRequest)
  | CompleteShadow (link_id : UUID) (request : CompleteShadowRequest)
  | ProposeMutation (request : ProposedMutationRequest)
  | ValidateMutation (mutation_id : UUID) (request : MutationValidationRequest)
  | PromoteMutation (mutation_id : UUID) (request : MutationPromotionRequest).

Inductive ApiResponse : Type :=
  | J_strings (d : list (string * string))
  | J_participants (ps : list Participant)
  | J_participant (p : Participant)
  | J_assignment (a : RoleAssignment)
  | J_grant (g : PermissionGrant)
  | J_grants (gs : list PermissionGrant)
  | J_topology (t : Topology)
  | J_cards_by_bucket (d : list (string * list Card))
  | J_counts (d : list (string * nat))
  | J_active_leases (ls : list ActiveLease)
  | J_activity (d : list (string * list (string * nat)))
  | J_decisions (ds : list ValidatorDecision)
  | J_versions (vs : list VersionView)
  | J_events (evs : list CardEvent)
  | J_metrics (m : Metrics)
  | J_dashboard (d : Dashboard)
  | J_panels (pps : list PatchPanel)
  | J_panel (pp : PatchPanel)
  | J_entries (es : list PatchPanelRegistryEntry)
  | J_entry (e : PatchPanelRegistryEntry)
  | J_intent (i : GenesisIntent)
  | J_cards (cs : list Card)
  | J_card (c : Card)
  | J_lease (l : Lease)
  | J_leases (ls : list Lease)
  | J_artifacts (refs : list ArtifactReference)
  | J_event (ev : CardEvent)
  | J_lease_context (context : Lease * Card * list CardEvent)
  | J_card_context (context : Card * list CardEvent)
  | J_sink (r : SinkResult)
  | J_boundary_source (r : SourceBoundaryResult)
  | J_boundary_sink (r : SinkBoundaryResult)
  | J_shadow (r : ShadowRun)
  | J_link (l : ShadowCardLink)
  | J_mutation (m : ProposedMutation).

(** What the request models demand beyond their types. *)
Definition score_ok (score : option Z) : bool :=
  match score with Some z => Z.leb 0 z && Z.leb z 10 | None => true end.
Definition non_empty (s : string) : bool := negb (bool_decide (s = "")).
Definition scope_ok (scope : Scope) : bool :=
  match validate_scope_id scope with Ok _ => true | Raise _ => false end.
Definition panel_ids_ok (pp : PatchPanel) : bool :=
  match validate_unique_local_ids pp with Ok _ => true | Raise _ => false end.

Definition valid_request (req : ApiRequest) : bool :=
  match req with
  | AssignParticipantRole _ request => scope_ok (as_scope request)
  | GrantParticipantPermission _ request => scope_ok (gp_scope request)
  | RegisterPatchPanel pp => panel_ids_ok pp
  | RegisterRegistryEntry request => panel_ids_ok (rp_patch_panel request)
  | ReceiveGenesisIntent request =>
      non_empty (gr_deduplication_key request) && non_empty (gr_goal request)
  | ProposeGenesisIntent _ request => panel_ids_ok (pi_candidate_definition request)
  | SubmitValidatorDecision _ _ request => score_ok (hd_score request)
  | ExecuteValidator request => score_ok (ve_score request)
  | CreateShadow request =>
      Qle_bool 0 (cs_sample_rate request) && Qle_bool (cs_sample_rate request) 1 &&
      Z.leb 1 (cs_max_parallel request)
  | PromoteMutation _ request => panel_ids_ok (mp_patch_panel request)
  | _ => true
  end.

(** The status of a response: the exception handlers of the application,
    [HTTPException]s, and 500 for what nothing handles. *)
Definition status_of {B} (r : res B) : Z :=
  match r with
  | Ok _ => 200
  | Raise (NotFoundError _) => 404
  | Raise (ConflictError _) => 409
  | Raise (InvalidOperationError _) => 422
  | Raise (HTTPException status _) => status
  | Raise _ => 500
  end.

Section handle.
Context `{Oracle} `{Networkx} `{Pydantic} `{BoundaryModels} {R G A : Type} `{CardRuntime R}
  `{PatchPanelRegistry G} `{AuthorizationRepository A}.
Notation W := (App R G A).
Context (settings : Settings) (headers : Headers).

(** [return x] of a handler. *)
Definition respond {B} (f : B -> ApiResponse) (m : M W B) : M W ApiResponse := b ← m; mret (f b).

Definition run_route (req : ApiRequest) : M W ApiResponse :=
  match req with
  | GetHealth => respond J_strings health
  | GetHealthConfig => respond J_strings (health_config settings)
  | ListParticipants => respond J_participants (list_participants settings headers)
  | CreateParticipant r => respond J_participant (create_participant settings headers r)
  | AssignParticipantRole p r => respond J_assignment (assign_participant_role settings headers p r)
  | GrantParticipantPermission p r =>
      respond J_grant (grant_participant_permission settings headers p r)
  | InspectParticipantPermissions p =>
      respond J_grants (inspect_participant_permissions settings headers p)
  | OperatorTopology i => respond J_topology (operator_topology settings headers i)
  | OperatorCardsByBucket => respond J_cards_by_bucket (operator_cards_by_bucket settings headers)
  | OperatorBucketLoad => respond J_counts (operator_bucket_load settings headers)
  | OperatorActiveLeases => respond J_active_leases (operator_active_leases settings headers)
  | OperatorWorkerActivity => respond J_activity (operator_worker_activity settings headers)
  | OperatorValidatorDecisions => respond J_decisions (operator_validator_decisions settings headers)
  | OperatorWorkflowVersions => respond J_versions (operator_workflow_versions settings headers)
  | OperatorFailedMovements => respond J_events (operator_failed_movements settings headers)
  | OperatorMetrics => respond J_metrics (operator_metrics settings headers)
  | OperatorDashboard i => respond J_dashboard (operator_dashboard settings headers i)
  | ListPatchPanels => respond J_panels list_patch_panels
  | RegisterPatchPanel pp => respond J_panel (register_patch_panel settings headers pp)
  | SearchRegistry f => respond J_entries (search_patch_panel_registry settings headers f)
  | RegisterRegistryEntry r =>
      respond J_entry (register_patch_panel_registry_entry settings headers r)
  | GetRegistryEntry i => respond J_entry (get_patch_panel_registry_entry settings headers i)
  | UpdateRegistryEntry i r => respond J_entry (update_patch_panel_registry_entry settings headers i r)
  | ArchiveRegistryEntry i => respond J_entry (archive_patch_panel_registry_entry settings headers i)
  | SupersedeRegistryEntry i r =>
      respond J_entry (supersede_patch_panel_registry_entry settings headers i r)
  | ReceiveGenesisIntent r => respond J_intent (receive_genesis_intent settings headers r)
  | GetGenesisIntent i => respond J_intent (get_genesis_intent settings headers i)
  | LaunchGenesisIntent i r => respond J_card (launch_genesis_intent settings headers i r)
  | ProposeGenesisIntent i r => respond J_card (propose_genesis_intent settings headers i r)
  | ListCards => respond J_cards list_cards
  | CreateCard r => respond J_card (create_card settings headers r)
  | ClaimCard r => respond J_lease (claim_card settings headers r)
  | SubmitArtifact r => respond J_artifacts (submit_artifact settings headers r)
  | RenewLease i r => respond J_lease (renew_lease headers i r)
  | ReleaseLease i r => respond J_lease (release_lease settings headers i r)
  | ExpireLeases => respond J_leases expire_leases
  | ValidateCard i r => respond J_event (validate_card settings headers i r)
  | MoveCard i r => respond J_card (move_card headers i r)
  | CardHistory i => respond J_events (card_history i)
  | WorkerLeaseContext i => respond J_lease_context (worker_lease_context i)
  | ListValidatorCards v p => respond J_cards (list_validator_cards v p)
  | InspectValidatorCard i => respond J_card_context (inspect_validator_card i)
  | SubmitValidatorDecision v i r => respond J_event (submit_validator_decision settings headers v i r)
  | ExecuteSource r => respond J_card (execute_source settings headers r)
  | ExecuteWorker r => respond J_artifacts (execute_worker settings headers r)
  | ExecuteValidator r => respond J_event (execute_validator settings headers r)
  | ExecuteSink r => respond J_sink (execute_sink settings headers r)
  | ExecuteBoundarySource r => respond J_boundary_source (execute_boundary_source settings headers r)
  | ExecuteBoundarySink r => respond J_boundary_sink (execute_boundary_sink settings headers r)
  | CreateShadow r => respond J_shadow (create_shadow settings headers r)
  | CompleteShadow i r => respond J_link (complete_shadow settings headers i r)
  | ProposeMutation r => respond J_mutation (propose_mutation settings headers r)
  | ValidateMutation i r => respond J_mutation (validate_mutation settings headers i r)
  | PromoteMutation i r => respond J_mutation (promote_mutation settings headers i r)
  end.

Definition handle (req : ApiRequest) : M W ApiResponse :=
  if valid_request req then run_route req
  else raise (HTTPException 422 "request validation failed").
End handle.
