(* ===== verification/ApiTheorems.v ===== *)
(** * Who may do what over HTTP

    [policy] names, for every guarded route, the permissions it requires, the
    scope on which they must be held, and the context that is matched with
    the grants. *)
From Stdlib Require Import ZArith QArith Ascii String.
From S2P Require Import Prelude Values Authority Models Graph PanelValidator Artifacts.
From S2P Require Import RuntimeService Auth AuthSpec Catalog Registry Pydantic Executor Boundaries.
From S2P Require Import Shadow Genesis Observability Loader Config.
From S2P Require Import MemoryRuntime MemorySpec MemoryRefine Sql PostgresRegistry PostgresRuntime.
From S2P Require Import ExecutorTheorems Api.
Open Scope string_scope.
Open Scope list_scope.

(** ** Reading changes nothing *)
Class QuietRuntime (R : Type) `{CardRuntime R} : Prop := {
  quiet_panels s : (rt_list_patch_panels s).2 = s;
  quiet_cards s : (rt_list_cards s).2 = s;
  quiet_card i s : (rt_get_card i s).2 = s;
  quiet_lease i s : (rt_get_lease i s).2 = s;
  quiet_history i s : (rt_card_history i s).2 = s;
}.
Class QuietRegistry (G : Type) `{PatchPanelRegistry G} : Prop := {
  quiet_entry i s : (rg_get i s).2 = s;
}.

(** What a route requires: the permissions, the scope, the participant the
    request names besides the header, and the context. *)
Record Guard : Type := mkGuard {
  gd_permissions : list PermissionName;
  gd_scope : Scope;
  gd_participant : option string;
  gd_context : doc;
}.

Section policy.
Context `{Oracle} `{Networkx} `{Pydantic} `{BoundaryModels} {R G A : Type} `{CardRuntime R}
  `{PatchPanelRegistry G} `{AuthorizationRepository A}.
Notation W := (App R G A).

Definition on_card (i : UUID) : Scope := mkScope ST_CARD (Some (uuid_str i)).
Definition on_panel (i : string) : Scope := mkScope ST_PATCH_PANEL (Some i).

(** The lease, entry or intent a route reads before its guard. *)
Definition stored_lease (i : UUID) (s : W * Env) : option Lease :=
  match (rt_get_lease i (app_runtime s.1, s.2)).1 with Ok l => Some l | Raise _ => None end.
Definition stored_entry (i : UUID) (s : W * Env) : option PatchPanelRegistryEntry :=
  match (rg_get i (app_registry s.1, s.2)).1 with Ok e => Some e | Raise _ => None end.
Definition stored_intent (i : UUID) (s : W * Env) : option GenesisIntent :=
  dict_get i (intents (app_genesis s.1)).

Definition panel_ctx (i : string) : doc := [("patch_panel_id", VStr i)].

Definition entry_policy (p : PermissionName) (i : UUID) (context : doc) (s : W * Env) : option Guard :=
  e ← stored_entry i s;
  Some (mkGuard [p] (on_panel (re_patch_panel_id e)) None
          (panel_ctx (re_patch_panel_id e) ++ context)).
Definition ops_policy (panel : option string) : option Guard :=
  if truthy panel
  then Some (mkGuard [AUDIT_VIEW] (on_panel (str_or panel "")) None (panel_ctx (str_or panel "")))
  else Some (mkGuard [AUDIT_VIEW] global_scope None []).

Definition policy (req : ApiRequest) (s : W * Env) : option Guard :=
  match req with
  | GetHealth | GetHealthConfig | ListPatchPanels | ListCards | RenewLease _ _ | ExpireLeases
  | MoveCard _ _ | CardHistory _ | WorkerLeaseContext _ | ListValidatorCards _ _
  | InspectValidatorCard _ => None
  | ListParticipants => Some (mkGuard [PARTICIPANT_MANAGE] global_scope None
      [("operation", VStr "participants.list")])
  | CreateParticipant r => Some (mkGuard [PARTICIPANT_MANAGE] global_scope None
      [("operation", VStr "participants.create"); ("participant_id", VStr (cr_id r))])
  | AssignParticipantRole p r => Some (mkGuard [PERMISSION_GRANT] (as_scope r) (as_assigned_by r)
      [("operation", VStr "participants.assign_role"); ("participant_id", VStr p);
       ("role_name", VStr (RoleName_value (as_role_name r)))])
  | GrantParticipantPermission p r => Some (mkGuard [PERMISSION_GRANT] (gp_scope r) (gp_granted_by r)
      [("operation", VStr "participants.grant_permission"); ("participant_id", VStr p);
       ("permission", VStr (PermissionName_value (gp_permission r)))])
  | InspectParticipantPermissions p => Some (mkGuard [PERMISSION_GRANT] global_scope None
      [("operation", VStr "participants.inspect_permissions"); ("participant_id", VStr p)])
  | OperatorTopology i | OperatorDashboard i => ops_policy (Some i)
  | OperatorCardsByBucket | OperatorBucketLoad | OperatorActiveLeases | OperatorWorkerActivity
  | OperatorValidatorDecisions | OperatorWorkflowVersions | OperatorFailedMovements
  | OperatorMetrics => ops_policy None
  | RegisterPatchPanel pp =>
      Some (mkGuard [PATCH_PANEL_CREATE] (on_panel (pp_id pp)) None (panel_ctx (pp_id pp)))
  | SearchRegistry f => Some (mkGuard [PATCH_PANEL_DISCOVER] global_scope None
      [("tag", v_opt_str (sr_tag f)); ("input_type", v_opt_str (sr_input_type f));
       ("output_type", v_opt_str (sr_output_type f));
       ("required_tool", v_opt_str (sr_required_tool f));
       ("risk_level", v_opt_str (sr_risk_level f));
       ("owner_participant_id", v_opt_str (sr_owner_participant_id f))])
  | RegisterRegistryEntry r =>
      Some (mkGuard [PATCH_PANEL_CREATE] (on_panel (pp_id (rp_patch_panel r))) None
              (panel_ctx (pp_id (rp_patch_panel r))))
  | GetRegistryEntry i => entry_policy PATCH_PANEL_DISCOVER i [] s
  | UpdateRegistryEntry i _ => entry_policy PATCH_PANEL_EDIT_DRAFT i [] s
  | ArchiveRegistryEntry i => entry_policy PATCH_PANEL_ARCHIVE i [] s
  | SupersedeRegistryEntry i r => entry_policy PATCH_PANEL_ARCHIVE i
      [("superseded_by_entry_id", VStr (uuid_str (su_superseded_by_entry_id r)))] s
  | ReceiveGenesisIntent r =>
      Some (mkGuard [PATCH_PANEL_DISCOVER] global_scope (Some (gr_requested_by r))
        [("deduplication_key", VStr (gr_deduplication_key r)); ("input_type", VStr (gr_input_type r));
         ("tags", VList (map VStr (gr_tags r)))])
  | GetGenesisIntent i =>
      it ← stored_intent i s;
      Some (mkGuard [PATCH_PANEL_DISCOVER] global_scope (Some (gi_requested_by it))
              [("genesis_intent_id", VStr (uuid_str i))])
  | LaunchGenesisIntent i r =>
      it ← stored_intent i s;
      selected ← (match li_registry_entry_id r with
                  | Some j => Some j
                  | None => head (gi_candidate_registry_entry_ids it)
                  end);
      e ← stored_entry selected s;
      Some (mkGuard [CARD_CREATE] (on_panel (re_patch_panel_id e)) (Some (gi_requested_by it))
              [("genesis_intent_id", VStr (uuid_str i));
               ("patch_panel_id", VStr (re_patch_panel_id e))])
  | ProposeGenesisIntent i r =>
      Some (mkGuard [MUTATION_PROPOSE] (on_panel (pp_id (pi_candidate_definition r)))
              (Some (pi_proposed_by r)) [("genesis_intent_id", VStr (uuid_str i))])
  | CreateCard r => Some (mkGuard [CARD_CREATE] (on_panel (cc_patch_panel_id r)) None
                            (panel_ctx (cc_patch_panel_id r)))
  | ClaimCard r =>
      Some (mkGuard [CARD_CLAIM] (mkScope ST_BUCKET (Some (cl_input_pipe r))) None
        [("input_pipe", VStr (cl_input_pipe r)); ("worker_id", VStr (cl_worker_id r))])
  | SubmitArtifact r =>
      l ← stored_lease (sa_lease_id r) s;
      Some (mkGuard [CARD_SUBMIT_ARTIFACT] (on_card (ls_card_id l)) None
        [("lease_id", VStr (uuid_str (sa_lease_id r))); ("output_pipe", VStr (sa_output_pipe r))])
  | ReleaseLease i r =>
      l ← stored_lease i s;
      Some (mkGuard [CARD_RELEASE] (on_card (ls_card_id l)) (rr_actor_id r)
              [("lease_id", VStr (uuid_str i))])
  | ValidateCard i r => Some (mkGuard [VALIDATION_SUBMIT] (on_card i) (Some (vc_validator_id r))
                                [("validator_id", VStr (vc_validator_id r))])
  | SubmitValidatorDecision v i r => Some (mkGuard [VALIDATION_SUBMIT] (on_card i) (Some v)
      [("patch_panel_id", VStr (hd_patch_panel_id r)); ("validator_id", VStr v)])
  | ExecuteSource r =>
      Some (mkGuard [BOUNDARY_SOURCE_INGRESS] (on_panel (se_patch_panel_id r)) None
        [("patch_panel_id", VStr (se_patch_panel_id r)); ("source_id", VStr (se_source_id r))])
  | ExecuteWorker r =>
      Some (mkGuard [CARD_SUBMIT_ARTIFACT] (on_panel (we_patch_panel_id r)) (Some (we_worker_id r))
        [("patch_panel_id", VStr (we_patch_panel_id r)); ("worker_id", VStr (we_worker_id r))])
  | ExecuteValidator r =>
      Some (mkGuard [VALIDATION_SUBMIT] (on_card (ve_card_id r)) (Some (ve_validator_id r))
        [("patch_panel_id", VStr (ve_patch_panel_id r)); ("validator_id", VStr (ve_validator_id r))])
  | ExecuteSink r =>
      Some (mkGuard [SINK_EXECUTE] (on_panel (ke_patch_panel_id r)) None
        [("patch_panel_id", VStr (ke_patch_panel_id r)); ("sink_id", VStr (ke_sink_id r))])
  | ExecuteBoundarySource r =>
      Some (mkGuard [BOUNDARY_SOURCE_INGRESS] (on_panel (bs_patch_panel_id r)) None
              (panel_ctx (bs_patch_panel_id r)))
  | ExecuteBoundarySink r =>
      Some (mkGuard [BOUNDARY_SINK_EGRESS] (on_panel (bk_patch_panel_id r)) None
              (panel_ctx (bk_patch_panel_id r)))
  | CreateShadow r => Some (mkGuard [SHADOW_CREATE] (on_card (cs_production_card_id r)) None
                              [("candidate_id", VStr (cs_candidate_id r))])
  | CompleteShadow i _ => Some (mkGuard [SHADOW_COMPLETE] global_scope None
                                  [("shadow_link_id", VStr (uuid_str i))])
  | ProposeMutation r => Some (mkGuard [MUTATION_PROPOSE] global_scope (Some (pm_proposed_by r))
                                 [("mutation_type", VStr (pm_mutation_type r))])
  | ValidateMutation i r => Some (mkGuard [MUTATION_VALIDATE] global_scope (Some (mv_validator_id r))
                                    [("mutation_id", VStr (uuid_str i))])
  | PromoteMutation i r =>
      Some (mkGuard [MUTATION_PROMOTE; PATCH_PANEL_PUBLISH_VERSION]
              (on_panel (pp_id (mp_patch_panel r))) None
              [("mutation_id", VStr (uuid_str i)); ("patch_panel_id", VStr (pp_id (mp_patch_panel r)))])
  end.

(** The routes that change the runtime and have no guard. *)
Definition unguarded (req : ApiRequest) : bool :=
  match req with RenewLease _ _ | ExpireLeases | MoveCard _ _ => true | _ => false end.
End policy.

Section guards.
Context {R G A : Type} `{Oracle} `{Networkx} `{Pydantic} `{BoundaryModels} `{CardRuntime R}
  `{!QuietRuntime R} `{PatchPanelRegistry G} `{!QuietRegistry G} `{AuthorizationRepository A}
  `{!RepositorySpec A}.
Notation W := (App R G A).
Context (settings : Settings) (headers : Headers).

(** The abstract authority of the application. *)
Definition authority_of (w : W) : AuthState := auth_view (app_authority w).

(** At most audit events have been added. *)
Record unchanged (w w' : W) : Prop := {
  un_runtime : app_runtime w' = app_runtime w;
  un_registry : app_registry w' = app_registry w;
  un_genesis : app_genesis w' = app_genesis w;
  un_shadow : app_shadow w' = app_shadow w;
  un_participants : participants (authority_of w') = participants (authority_of w);
  un_roles : role_assignments (authority_of w') = role_assignments (authority_of w);
  un_grants : permission_grants (authority_of w') = permission_grants (authority_of w);
}.

(** The participant the request acts as holds what the guard requires, now
    or at a later reading of the clock. *)
Definition allowed (g : Guard) (s : W * Env) : Prop :=
  forall p, p ∈ gd_permissions g -> exists n, (now_ctr s.2 <= n)%nat /\
    entitled (authority_of s.1) (clock_at n)
      (str_or (opt_or (participant_header headers) (gd_participant g)) "") p (gd_scope g)
      (Some (gd_context g)).

Definition outcome (req : ApiRequest) (s s' : W * Env) : Prop :=
  unchanged s.1 s'.1 \/ unguarded req = true \/
  exists g, policy req s = Some g /\ allowed g s.

Lemma unchanged_refl w : unchanged w w.
Proof. by split. Qed.
#[local] Hint Resolve unchanged_refl : core.

(** ** The guard *)
Lemma authorize_later pid perm scope ctx (s : A * Env) :
  wp (authorize pid perm scope ctx) (fun _ s' => (now_ctr s.2 <= now_ctr s'.2)%nat) s.
Proof.
  assert (Hdec : forall allowed reason ids meta (s1 : A * Env), (now_ctr s.2 <= now_ctr s1.2)%nat ->
    wp (d ← new_decision pid perm scope allowed reason ids meta; _record d)
      (fun _ s' => (now_ctr s.2 <= now_ctr s'.2)%nat) s1).
  { intros al reason ids meta s1 Hle. apply wp_bind. unfold new_decision.
    apply wp_bind, wp_uuid4, wp_bind, wp_now, wp_ret, wp_bind. unfold from_decision.
    apply wp_bind, wp_uuid4, wp_bind, wp_now, wp_ret, wp_bind.
    eapply wp_mono; [apply record_audit_event_spec|]. intros r s' (-> & _ & Hs). apply wp_ret.
    rewrite Hs. cbn. lia. }
  unfold authorize. apply wp_bind. eapply wp_mono; [apply get_participant_spec|]. intros r s0 (-> & ->).
  destruct (dict_get _ _) as [p|]; [|by apply Hdec]. destruct (negb _); [by apply Hdec|].
  apply wp_bind. eapply wp_mono; [apply list_permission_grants_spec|]. intros r s1 (-> & _ & Hs).
  assert (now_ctr s.2 <= now_ctr s1.2)%nat by (rewrite Hs; cbn; lia).
  destruct (active_grants _ _ _); [|done]. destruct (py_filter _ _); by apply Hdec.
Qed.

Lemma wp_authorize perm scope pid ctx (s : W * Env) :
  authorization_enabled settings = true -> auth_wf (authority_of s.1) ->
  wp (_authorize settings headers perm scope pid ctx) (fun r s' =>
    unchanged s.1 s'.1 /\ (now_ctr s.2 <= now_ctr s'.2)%nat /\
    (is_ok r -> entitled (authority_of s.1) (clock_at (now_ctr s.2))
       (str_or (opt_or (participant_header headers) pid) "") perm scope (Some ctx))) s.
Proof.
  intros Hen Hwf. unfold _authorize. apply wp_zoom. rewrite Hen. unfold authorize_request. cbn [negb].
  destruct (truthy _); cbn [negb].
  2: { apply wp_raise. split; [by destruct s as [[]]|]. split; [done|]. by intros [? ?]. }
  apply wp_bind. eapply wp_mono.
  { apply wp_conj; [by apply authorize_spec | apply authorize_later]. }
  intros r s' ((d & ev & -> & (_ & _ & _ & _ & Hal & _) & _ & Hv) & Hle).
  assert (Hun : unchanged s.1 (mkApp (app_runtime s.1) (app_registry s.1) s'.1 (app_genesis s.1) (app_shadow s.1))).
  { split; unfold authority_of; cbn; rewrite ?Hv; done. }
  destruct (dec_allowed d); cbn [negb].
  - apply wp_ret. split; [done|]. split; [done|]. intros _. by apply Hal.
  - apply wp_raise. split; [done|]. split; [done|]. by intros [? ?].
Qed.

(** A route that runs anything behind the guard. *)
Lemma wp_guarded {B} req p sc pid ctx (k : option string -> M W B) s :
  authorization_enabled settings = true -> auth_wf (authority_of s.1) ->
  policy req s = Some (mkGuard [p] sc pid ctx) ->
  wp (who ← _authorize settings headers p sc pid ctx; k who) (fun _ s' => outcome req s s') s.
Proof.
  intros Hen Hwf Hp. apply wp_bind. eapply wp_mono; [by apply wp_authorize|].
  intros r s' (Hun & _ & He). destruct r as [who|x]; [|by left].
  unfold wp. right. right. eexists. split; [exact Hp|]. intros q Hq.
  apply list_elem_of_singleton in Hq as ->. exists (now_ctr s.2). split; [done|]. cbn. apply He. by eexists.
Qed.

(** ** What a route does before its guard *)
Lemma wp_respond {B} (f : B -> ApiResponse) (m : M W B) (P : W * Env -> Prop) s :
  wp m (fun _ s' => P s') s -> wp (respond f m) (fun _ s' => P s') s.
Proof. intros Hm. apply wp_bind. eapply wp_mono; [exact Hm|]. intros [b|x] s' HP; [by apply wp_ret | done]. Qed.

Lemma scope_at_ok type id sc : scope_at type id = Ok sc -> sc = mkScope type (Some id).
Proof.
  unfold scope_at, validate_scope_id. destruct (_ || _); cbn; [done|].
  destruct (negb _); cbn; [done|]. by intros [= <-].
Qed.

Lemma wp_scope {B} type id (k : Scope -> M W B) (P : W * Env -> Prop) s :
  P s -> wp (k (mkScope type (Some id))) (fun _ s' => P s') s ->
  wp (scope ← lift_res (scope_at type id); k scope) (fun _ s' => P s') s.
Proof.
  intros HP Hk. apply wp_bind, wp_lift_res. destruct (scope_at type id) as [sc|x] eqn:E; [|done].
  by apply scope_at_ok in E as ->.
Qed.

Lemma on_rt_quiet {B} (m : M R B) (w : W) e r :
  m (app_runtime w, e) = (r, (app_runtime w, e)) -> on_rt m (w, e) = (r, (w, e)).
Proof. intros Hm. unfold on_rt, zoom. cbn. rewrite Hm. by destruct w. Qed.

Lemma wp_quiet_rt {B} (m : M R B) (Q : res B -> W * Env -> Prop) s :
  (m (app_runtime s.1, s.2)).2 = (app_runtime s.1, s.2) ->
  Q (m (app_runtime s.1, s.2)).1 s -> wp (on_rt m) Q s.
Proof.
  destruct s as [w e]. cbn. destruct (m (app_runtime w, e)) as [r t] eqn:E. cbn. intros -> HQ.
  unfold wp. by rewrite (on_rt_quiet m w e r).
Qed.

Lemma wp_lease {B} i (k : Lease -> M W B) (P : W * Env -> Prop) s :
  P s -> (forall l, stored_lease i s = Some l -> wp (k l) (fun _ s' => P s') s) ->
  wp (l ← on_rt (rt_get_lease i); k l) (fun _ s' => P s') s.
Proof.
  intros HP Hk. apply wp_bind, wp_quiet_rt; [apply quiet_lease|]. unfold stored_lease in Hk.
  destruct (rt_get_lease i _).1; [by apply Hk | done].
Qed.

Lemma wp_entry {B} i (k : PatchPanelRegistryEntry -> M W B) (P : W * Env -> Prop) s :
  P s -> (forall e, stored_entry i s = Some e -> wp (k e) (fun _ s' => P s') s) ->
  wp (e ← on_reg (rg_get i); k e) (fun _ s' => P s') s.
Proof.
  intros HP Hk. apply wp_bind, wp_zoom. destruct s as [w e]. unfold stored_entry, wp in *. cbn in *.
  pose proof (quiet_entry i (app_registry w, e)) as Hq. destruct (rg_get i _) as [r t].
  cbn in *. rewrite Hq. cbn. replace (mkApp _ _ _ _ _) with w by (by destruct w).
  destruct r; [by apply Hk | done].
Qed.

Lemma wp_intent {B} i (k : GenesisIntent -> M W B) (P : W * Env -> Prop) s :
  P s -> (forall it, stored_intent i s = Some it -> wp (k it) (fun _ s' => P s') s) ->
  wp (it ← on_genesis (get_intent i); k it) (fun _ s' => P s') s.
Proof.
  intros HP Hk. apply wp_bind, wp_zoom. destruct s as [w e]. unfold get_intent.
  apply wp_bind, wp_get. cbn. unfold stored_intent in Hk. cbn in Hk.
  assert (Hw : mkApp (app_runtime w) (app_registry w) (app_authority w) (app_genesis w) (app_shadow w) = w)
    by (by destruct w).
  destruct (dict_get i _) as [it|]; [apply wp_ret | apply wp_raise]; cbn; rewrite Hw; [by apply Hk | done].
Qed.

Lemma wp_ops {B} req panel (m : M R B) s :
  authorization_enabled settings = true -> auth_wf (authority_of s.1) ->
  policy req s = ops_policy panel ->
  wp (operator_view settings headers panel m) (fun _ s' => outcome req s s') s.
Proof.
  intros Hen Hwf Hp. unfold operator_view, _authorize_ops_read, ops_policy, panel_ctx in *.
  apply wp_bind. destruct (truthy panel) eqn:Et.
  - apply wp_bind, wp_lift_res. destruct (scope_at _ _) as [sc|x] eqn:E; [|by left].
    apply scope_at_ok in E as ->. eapply wp_mono; [by apply wp_authorize|].
    intros r s' (Hun & _ & He). destruct r as [who|x]; [|by left].
    unfold wp. right. right. eexists. split; [exact Hp|]. intros q Hq.
    apply list_elem_of_singleton in Hq as ->. exists (now_ctr s.2). split; [done|].
    destruct panel as [i|]; [|done]. unfold str_or in *. rewrite Et in *. apply He. by eexists.
  - apply wp_bind, wp_ret. eapply wp_mono; [by apply wp_authorize|].
    intros r s' (Hun & _ & He). destruct r as [who|x]; [|by left].
    unfold wp. right. right. eexists. split; [exact Hp|]. intros q Hq.
    apply list_elem_of_singleton in Hq as ->. exists (now_ctr s.2). split; [done|]. apply He. by eexists.
Qed.

(** The guard of the routes of one entry. *)
Lemma wp_entry_guard req p i context s :
  authorization_enabled settings = true -> auth_wf (authority_of s.1) ->
  policy req s = entry_policy p i context s ->
  wp (entry_guard settings headers p i (fun _ => context)) (fun r s' =>
    match r with Ok _ => exists g, policy req s = Some g /\ allowed g s | Raise _ => unchanged s.1 s'.1 end) s.
Proof.
  intros Hen Hwf Hp. unfold entry_guard, entry_policy in *.
  apply wp_bind, wp_zoom. destruct s as [w e]. unfold stored_entry, wp in *.
  cbn in *. pose proof (quiet_entry i (app_registry w, e)) as Hq.
  destruct (rg_get i _) as [r t]. cbn in *. rewrite Hq. cbn.
  replace (mkApp _ _ _ _ _) with w by (by destruct w). destruct r as [en|x]; [|done].
  apply wp_bind, wp_lift_res. destruct (scope_at _ _) as [sc|x] eqn:E; [|by cbn].
  apply scope_at_ok in E as ->. apply wp_bind. eapply wp_mono; [by apply wp_authorize|].
  intros r s' (Hun & _ & He). destruct r as [who|x]; [|done]. apply wp_ret.
  eexists. split; [exact Hp|]. intros q Hq'. apply list_elem_of_singleton in Hq' as ->.
  exists (now_ctr e). split; [done|]. apply He. by eexists.
Qed.

Lemma wp_entry_route {B} req p i context (k : PatchPanelRegistryEntry -> M W B) s :
  authorization_enabled settings = true -> auth_wf (authority_of s.1) ->
  policy req s = entry_policy p i context s ->
  wp (e ← entry_guard settings headers p i (fun _ => context); k e) (fun _ s' => outcome req s s') s.
Proof.
  intros Hen Hwf Hp. apply wp_bind. eapply wp_mono; [by apply wp_entry_guard|].
  intros [en|x] s' Hg; [unfold wp; by right; right | by left].
Qed.

Lemma entitled_same st st' t pid perm scope ctx :
  participants st' = participants st -> role_assignments st' = role_assignments st ->
  permission_grants st' = permission_grants st ->
  entitled st' t pid perm scope ctx -> entitled st t pid perm scope ctx.
Proof. unfold entitled, grant_of, holds_role. by intros -> -> ->. Qed.

Lemma unchanged_wf w w' : unchanged w w' -> auth_wf (authority_of w) -> auth_wf (authority_of w').
Proof. intros Hun [Ha Hg]. split; [rewrite (un_roles _ _ Hun) | rewrite (un_grants _ _ Hun)]; done. Qed.

Lemma unchanged_trans w1 w2 w3 : unchanged w1 w2 -> unchanged w2 w3 -> unchanged w1 w3.
Proof. intros [] []. split; congruence. Qed.

(** Two permissions on one scope. *)
Lemma wp_guarded_twice {B} req p1 p2 sc pid ctx (k : M W B) s :
  authorization_enabled settings = true -> auth_wf (authority_of s.1) ->
  policy req s = Some (mkGuard [p1; p2] sc pid ctx) ->
  wp (_ ← _authorize settings headers p1 sc pid ctx;
      _ ← _authorize settings headers p2 sc pid ctx; k) (fun _ s' => outcome req s s') s.
Proof.
  intros Hen Hwf Hp. apply wp_bind. eapply wp_mono; [by apply wp_authorize|].
  intros r s1 (Hun & Hle & He). destruct r as [who|x]; [|by left].
  apply wp_bind. eapply wp_mono; [apply wp_authorize; [done | by eapply unchanged_wf]|].
  intros r s2 (Hun2 & _ & He2). destruct r as [who2|x]; [|by left; eapply unchanged_trans].
  unfold wp. right. right. eexists. split; [exact Hp|]. cbn. intros q Hq.
  apply elem_of_cons in Hq as [->|Hq%list_elem_of_singleton].
  - exists (now_ctr s.2). split; [done|]. apply He. by eexists.
  - subst q. exists (now_ctr s1.2). split; [done|].
    eapply entitled_same; [apply (un_participants _ _ Hun) | apply (un_roles _ _ Hun) |
      apply (un_grants _ _ Hun)|]. apply He2. by eexists.
Qed.

(** C35. The access policy of the HTTP API. With authorization enabled, a
    request to any route ends in one of three ways: nothing has changed but
    the audit log; or the participant the request acts as (the header before
    the field the request names) holds every permission [policy] demands for
    the route, on its scope; or the route is one of the three that have no
    guard although they change the runtime: renewing a lease, expiring
    leases and moving a card. *)
Theorem guarded_routes req s :
  authorization_enabled settings = true -> auth_wf (authority_of s.1) ->
  outcome req s (handle settings headers req s).2.
Proof.
  intros Hen Hwf.
  enough (wp (handle settings headers req) (fun _ s' => outcome req s s') s) by done.
  assert (Hsame : outcome req s s) by by left.
  unfold handle. destruct (valid_request req); [|by apply wp_raise].
  destruct req; cbn [run_route]; apply wp_respond;
    first
      [ by right; left
      | by apply wp_ret
      | by apply wp_guarded
      | by apply wp_ops
      | by apply wp_scope; [|apply wp_guarded]
      | by apply wp_scope; [|apply wp_guarded_twice]
      | by apply wp_lease; [|intros l Hl; apply wp_scope; [|apply wp_guarded; [..|cbn; rewrite Hl]]]
      | by apply wp_intent; [|intros it Hit; apply wp_guarded; [..|cbn; rewrite Hit]]
      | by apply wp_entry_route
      | by apply wp_quiet_rt; [apply quiet_panels || apply quiet_cards || apply quiet_history|]
      | idtac ].
  - eapply wp_mono; [by apply (wp_entry_guard (GetRegistryEntry entry_id))|].
    intros [en|x] s' Hg; [by right; right | by left].
  - apply wp_intent; [done|]. intros it Hit. unfold launch_genesis_intent.
    destruct (match li_registry_entry_id request with Some j => _ | None => _ end) as [sel|] eqn:Esel;
      [|by apply wp_raise].
    apply wp_entry; [done|]. intros en Hen'. apply wp_scope; [done|].
    apply wp_guarded; [done | done|]. cbn. rewrite Hit. cbn. rewrite Esel. cbn. by rewrite Hen'.
  - apply wp_lease; [done|]. intros l _.
    apply wp_bind, wp_quiet_rt; [apply quiet_card|]. destruct (rt_get_card _ _).1 as [c|]; [|done].
    apply wp_bind, wp_quiet_rt; [apply quiet_history|]. by destruct (rt_card_history _ _).1.
  - unfold list_validator_cards, _api_patch_panel. apply wp_bind, wp_quiet_rt.
    { unfold Observability._patch_panel, mbind, M_bind.
      pose proof (quiet_panels (app_runtime s.1, s.2)) as Hq.
      destruct (rt_list_patch_panels _) as [[l|x] t]; cbn in *; subst; [|done].
      by destruct (py_next _ _). }
    destruct (Observability._patch_panel _ _).1 as [pp|]; [|done].
    apply wp_bind, wp_lift_res. destruct (_validator_input_buckets _ _) as [b|]; [|done].
    apply wp_bind, wp_quiet_rt; [apply quiet_cards|]. by destruct (rt_list_cards _).1.
  - apply wp_bind, wp_quiet_rt; [apply quiet_card|]. destruct (rt_get_card _ _).1 as [c|]; [|done].
    apply wp_bind, wp_quiet_rt; [apply quiet_history|]. by destruct (rt_card_history _ _).1.
Qed.
End guards.

(** ** The stores read quietly *)
Section quiet.
Context `{Oracle}.

#[export] Instance memory_quiet `{Networkx} : QuietRuntime Runtime.
Proof.
  split; try done.
  - intros i [st e]. unfold rt_get_card. cbn. unfold MemoryRuntime.get_card, _get_card, mbind, M_bind. cbn.
    by destruct (dict_get i (_cards st)).
  - intros i [st e]. unfold rt_get_lease. cbn. unfold MemoryRuntime.get_lease, _get_lease, mbind, M_bind. cbn.
    by destruct (dict_get i (_leases st)).
  - intros i [st e]. unfold rt_card_history. cbn. unfold MemoryRuntime.card_history, _get_card, mbind, M_bind. cbn.
    by destruct (dict_get i (_cards st)).
Qed.

#[export] Instance postgres_quiet `{Networkx} `{Pydantic} `{Sql} : QuietRuntime PgRuntime.
Proof.
  split; try done.
  - intros i [st e]. unfold rt_get_card. cbn.
    unfold pg_get_card, _pg_get_card, select_from, mbind, M_bind. cbn. by destruct (sql_select _ _).
  - intros i [st e]. unfold rt_get_lease. cbn.
    unfold pg_get_lease, _pg_get_lease, select_from, mbind, M_bind. cbn. by destruct (sql_select _ _).
  - intros i [st e]. unfold rt_card_history. cbn.
    unfold pg_card_history, _pg_get_card, select_from, mbind, M_bind. cbn. by destruct (sql_select _ _).
Qed.

#[export] Instance memory_registry_quiet : QuietRegistry RegistryState.
Proof.
  split. intros i [st e]. unfold rg_get. cbn. unfold get_entry, mbind, M_bind. cbn.
  by destruct (dict_get i st).
Qed.

#[export] Instance postgres_registry_quiet `{Sql} : QuietRegistry PgRegistry.
Proof.
  split. intros i [st e]. unfold rg_get. cbn. unfold pg_get, mbind, M_bind. cbn.
  by destruct (sql_select _ _).
Qed.
End quiet.

(** ** Evaluated instances *)
Module Demo.
#[local] Existing Instance tick_oracle.
#[local] Existing Instance tick_oracle_laws.
#[local] Existing Instance ListGraph.networkx.
#[local] Existing Instance Proposal.pydantic.

#[local] Instance no_contracts : BoundaryModels := {|
  source_contract_validate _ := Raise (ValidationError "not a contract");
  sink_contract_validate _ := Raise (ValidationError "not a contract");
  card_dump c := VStr (uuid_str (cd_id c));
  format_field _ _ := Raise (ValueError "not a plain name");
|}.

Definition getenv (name : string) : option string :=
  if bool_decide (name = "GHOSTMESH_AUTHORIZATION_ENABLED") then Some "Yes" else None.
Definition guarded : Settings := get_settings getenv.

Definition mallory : Participant :=
  mkParticipant "mallory" PT_HUMAN None PS_ACTIVE None None [] (Aware 0) None.
Definition grant_to_mallory (i : UUID) (p : PermissionName) : PermissionGrant :=
  mkPermissionGrant i p global_scope (Some "mallory") None None None (Aware 0) None [].

(** A proposal waits in the approval panel; [mallory] may submit validations
    and execute sinks. *)
Definition app : App Runtime RegistryState AuthState * Env :=
  let '(rt, e) := run_ops Proposal.ops start in
  (mkApp rt [] (new_auth_state [mallory] []
                  [grant_to_mallory 900 VALIDATION_SUBMIT; grant_to_mallory 901 SINK_EXECUTE])
     (mkGenesisState [] []) (mkShadowState [] []), e).

Definition anonymous : Headers := mkHeaders None None.
Definition as_mallory : Headers := mkHeaders (Some "mallory") None.

Lemma app_wf : auth_wf (authority_of app.1).
Proof.
  apply perpetual_wf. split.
  - intros a Ha. vm_compute in Ha. by apply elem_of_nil in Ha.
  - intros g Hg. assert (pg_expires_at g = None); [|done].
    vm_compute in Hg. repeat (apply elem_of_cons in Hg as [->|Hg]; [done|]). by apply elem_of_nil in Hg.
Qed.

(** Nobody without a grant archives, and the policy says what it takes. *)
Lemma guarded_routes_witness :
  authorization_enabled guarded = true /\ auth_wf (authority_of app.1) /\
  outcome as_mallory (CreateCard (mkCreateCard "system_pp_approval" [] [])) app
    (handle guarded as_mallory (CreateCard (mkCreateCard "system_pp_approval" [] [])) app).2.
Proof.
  split; [vm_compute; reflexivity|]. split; [exact app_wf|].
  apply (guarded_routes guarded as_mallory); [vm_compute; reflexivity | exact app_wf].
Defined.

(** Without a grant: a 403, before and after. *)
Example create_denied :
  status_of (handle guarded as_mallory (CreateCard (mkCreateCard "system_pp_approval" [] [])) app).1
    = 403%Z /\
  status_of (handle guarded anonymous (CreateCard (mkCreateCard "system_pp_approval" [] [])) app).1
    = 403%Z.
Proof. split; vm_compute; reflexivity. Qed.

(** The three routes without a guard: an anonymous caller moves the proposal
    past its validators. *)
Example anonymous_moves :
  let r := handle guarded anonymous (MoveCard 0 (mkMoveCard "registry_publication" None None)) app in
  status_of r.1 = 200%Z /\
  option_map cd_current_bucket (dict_get 0%N (_cards (app_runtime r.2.1))) = Some "registry_publication".
Proof. split; vm_compute; reflexivity. Qed.

(** One participant who may submit validations records the decisions of both
    validators of the proposal, which the route takes from the body, and
    publishes it. *)
Definition forge (validator pipe : string) : ApiRequest :=
  ValidateCard 0 (mkValidateCard validator true None (Some pipe)).
Example forged_publication :
  let run req s := (handle guarded as_mallory req s).2 in
  let s := run (forge "governance_reviewer" "proposal_approved")
             (run (forge "topological_validator" "topology_valid") app) in
  let r := handle guarded as_mallory
             (ExecuteSink (mkSinkExecution "system_pp_approval" 0 "registry_publication_sink" None)) s in
  status_of r.1 = 200%Z /\
  map (fun e => (re_patch_panel_id e, re_status e)) (dict_values (app_registry r.2.1)) = [("work", PUBLISHED)].
Proof. split; vm_compute; reflexivity. Qed.
End Demo.
