(* ===== verification/Mcp.v ===== *)
(** * The MCP server ([mcp/server.py])

    The tools over the state of the application, each behind its own guard.
    FastMCP delivers typed arguments and the context of a call; what a tool
    returns is here the objects it dumps. *)
From Stdlib Require Import ZArith QArith Ascii String.
From S2P Require Import Prelude Values UuidText Authority Models Graph PanelValidator Artifacts.
From S2P Require Import RuntimeService Auth Catalog Registry Pydantic Executor Boundaries.
From S2P Require Import Shadow Genesis Observability Loader Config Api.
Open Scope string_scope.
Open Scope list_scope.

(** ** Contexts *)

(** What a call carries: the participant header of its HTTP request, when
    there is one, and the attributes of its metadata. *)
Record ToolContext : Type := mkToolContext {
  request_header : option string;
  request_meta : option (list (string * value));
}.

Definition meta_names : list string := ["ghostmesh_participant"; "participant_id"; "client_id"].

Definition _participant_from_context (ctx : option ToolContext) : option string :=
  match ctx with
  | None => None
  | Some c =>
      if truthy (request_header c) then request_header c
      else match request_meta c with
           | None => None
           | Some meta =>
               option_map (fun name => v_str (vget name meta))
                 (py_next (fun name => v_truthy (vget name meta)) meta_names)
           end
  end.

(** What the tools take from pydantic. *)
Class McpModels : Type := {
  artifact_reference_validate : doc -> res ArtifactReference;
  (** A string in a field of type [UUID]. *)
  uuid_field : string -> res UUID;
}.

Section mcp.
Context `{Oracle} `{Networkx} `{Pydantic} `{BoundaryModels} `{McpModels} {R G A : Type}
  `{CardRuntime R} `{PatchPanelRegistry G} `{AuthorizationRepository A}.
Notation W := (App R G A).

(** [bound]: [bind_app] has run; [enabled]: [authorization_enabled]. *)
Context (bound enabled : bool) (ctx : option ToolContext).

Definition _require_state : M W () :=
  if bound then mret tt
  else raise (RuntimeError "Ghost Mesh MCP server is not bound to application state").

Definition _mcp_authorize (permission : PermissionName) (scope : Scope)
    (participant_id : option string) (context : doc) : M W (option string) :=
  if negb enabled then mret participant_id
  else
    let resolved := opt_or (_participant_from_context ctx) participant_id in
    if negb (truthy resolved) then raise (PermissionError "missing Ghost Mesh participant")
    else
      decision ← on_authority (authorize (str_or resolved "") permission scope (Some context));
      if negb (dec_allowed decision) then raise (PermissionError (dec_reason decision))
      else mret resolved.

Definition _mcp_patch_panel (patch_panel_id : string) : M W PatchPanel :=
  panels ← on_rt rt_list_patch_panels;
  match py_next (fun pp => bool_decide (pp_id pp = patch_panel_id)) panels with
  | Some pp => mret pp
  | None => raise (LookupError ("Patch Panel '" +:+ patch_panel_id +:+ "' is not registered"))
  end.

Definition mcp_claim_card (worker_id input_pipe : string) (lease_seconds : Z)
    (idempotency_key participant_id : option string) : M W Lease :=
  _ ← _require_state;
  scope ← lift_res (scope_at ST_BUCKET input_pipe);
  _ ← _mcp_authorize CARD_CLAIM scope (opt_or participant_id (Some worker_id))
        [("input_pipe", VStr input_pipe); ("worker_id", VStr worker_id)];
  on_rt (rt_claim_card input_pipe worker_id lease_seconds idempotency_key).

Definition mcp_submit_artifact (lease_id output_pipe : string) (artifact_refs : list doc)
    (idempotency_key participant_id : option string) : M W (list ArtifactReference) :=
  _ ← _require_state;
  lease_uuid ← lift_res (UUID_of_text lease_id);
  lease ← on_rt (rt_get_lease lease_uuid);
  scope ← lift_res (scope_at ST_CARD (uuid_str (ls_card_id lease)));
  _ ← _mcp_authorize CARD_SUBMIT_ARTIFACT scope (opt_or participant_id (Some (ls_worker_id lease)))
        [("lease_id", VStr (uuid_str lease_uuid)); ("output_pipe", VStr output_pipe)];
  refs ← lift_res (map_res artifact_reference_validate artifact_refs);
  on_rt (rt_submit_artifact lease_uuid output_pipe refs idempotency_key).

Definition mcp_submit_validator_decision (validator_id card_id patch_panel_id : string)
    (accepted : option bool) (selected_exit : option string) (score : option Z)
    (reason idempotency_key participant_id : option string) : M W CardEvent :=
  _ ← _require_state;
  card_uuid ← lift_res (UUID_of_text card_id);
  scope ← lift_res (scope_at ST_CARD (uuid_str card_uuid));
  _ ← _mcp_authorize VALIDATION_SUBMIT scope (opt_or participant_id (Some validator_id))
        [("patch_panel_id", VStr patch_panel_id); ("validator_id", VStr validator_id)];
  patch_panel ← _mcp_patch_panel patch_panel_id;
  request ← lift_res (if score_ok score
    then Ok (mkValidatorInput card_uuid validator_id selected_exit accepted score reason []
               idempotency_key)
    else Raise (ValidationError "score: Input should be between 0 and 10"));
  on_nodes (Executor.execute_validator patch_panel request).

Definition mcp_boundary_source (patch_panel_id source_id : string) (external_payload : doc)
    (headers : option doc) (actor_token participant_id : option string) : M W SourceBoundaryResult :=
  _ ← _require_state;
  scope ← lift_res (scope_at ST_PATCH_PANEL patch_panel_id);
  _ ← _mcp_authorize BOUNDARY_SOURCE_INGRESS scope participant_id
        [("patch_panel_id", VStr patch_panel_id); ("source_id", VStr source_id)];
  on_rt (boundary_execute_source
           (mkSourceRequest patch_panel_id source_id external_payload (default [] headers) actor_token)).

Definition mcp_boundary_sink (patch_panel_id sink_id card_id : string)
    (external_response : option doc) (actor_token participant_id : option string) :
    M W SinkBoundaryResult :=
  _ ← _require_state;
  scope ← lift_res (scope_at ST_PATCH_PANEL patch_panel_id);
  _ ← _mcp_authorize BOUNDARY_SINK_EGRESS scope participant_id
        [("patch_panel_id", VStr patch_panel_id); ("sink_id", VStr sink_id)];
  card_uuid ← lift_res (uuid_field card_id);
  on_rt (boundary_execute_sink
           (mkSinkRequest patch_panel_id sink_id card_uuid (default [] external_response) actor_token)).
End mcp.

(** ** The tools *)
Inductive ToolCall : Type :=
  | ToolClaimCard (worker_id input_pipe : string) (lease_seconds : Z)
  | ToolSubmitArtifact (lease_id output_pipe : string) (artifact_refs : list doc)
  | ToolSubmitValidatorDecision (validator_id card_id patch_panel_id : string)
      (accepted : option bool) (selected_exit : option string) (score : option Z)
      (reason : option string)
  | ToolBoundarySource (patch_panel_id source_id : string) (external_payload : doc)
      (headers : option doc) (actor_token : option string)
  | ToolBoundarySink (patch_panel_id sink_id card_id : string) (external_response : option doc)
      (actor_token : option string).

(** A call with its idempotency key and the participant it names; the two
    boundary tools take no key. *)
Definition run_tool `{Oracle} `{Networkx} `{Pydantic} `{BoundaryModels} `{McpModels} {R G A : Type}
    `{CardRuntime R} `{PatchPanelRegistry G} `{AuthorizationRepository A}
    (bound enabled : bool) (ctx : option ToolContext) (key participant_id : option string)
    (t : ToolCall) : M (App R G A) ApiResponse :=
  match t with
  | ToolClaimCard worker pipe seconds =>
      respond J_lease (mcp_claim_card bound enabled ctx worker pipe seconds key participant_id)
  | ToolSubmitArtifact lease pipe refs =>
      respond J_artifacts (mcp_submit_artifact bound enabled ctx lease pipe refs key participant_id)
  | ToolSubmitValidatorDecision v card panel accepted exit score reason =>
      respond J_event (mcp_submit_validator_decision bound enabled ctx v card panel accepted exit
                         score reason key participant_id)
  | ToolBoundarySource panel source payload headers token =>
      respond J_boundary_source (mcp_boundary_source bound enabled ctx panel source payload headers
                                   token participant_id)
  | ToolBoundarySink panel sink card response token =>
      respond J_boundary_sink (mcp_boundary_sink bound enabled ctx panel sink card response token
                                 participant_id)
  end.
