(* ===== verification/McpTheorems.v ===== *)
(** * The tools and the routes agree

    A tool call runs the route of the HTTP API that serves the same purpose,
    under the same guard. *)
From Stdlib Require Import ZArith QArith Ascii String.
From S2P Require Import Prelude Values UuidText Authority Models Graph PanelValidator Artifacts.
From S2P Require Import RuntimeService Auth AuthSpec Catalog Registry Pydantic Executor Boundaries.
From S2P Require Import Shadow Genesis Observability Loader Config.
From S2P Require Import MemoryRuntime MemorySpec MemoryRefine ExecutorTheorems Api ApiTheorems Mcp.
Open Scope string_scope.
Open Scope list_scope.






Section agree.
Context {R G A : Type} `{Oracle} `{Networkx} `{Pydantic} `{BoundaryModels} `{McpModels}
  `{CardRuntime R} `{PatchPanelRegistry G} `{AuthorizationRepository A} `{!RepositorySpec A}.
Notation W := (App R G A).












(** ** Guards under two contexts *)












End agree.

(** ** Evaluated instances *)
Module Demo.
#[local] Existing Instance tick_oracle.
#[local] Existing Instance tick_oracle_laws.
#[local] Existing Instance ListGraph.networkx.
#[local] Existing Instance Proposal.pydantic.
#[local] Existing Instance ApiTheorems.Demo.no_contracts.
Import ApiTheorems.Demo.

#[local] Instance no_references : McpModels := {|
  artifact_reference_validate _ := Raise (ValidationError "not a reference");
  uuid_field := UUID_of_text;
|}.

(** The forms of a UUID that [UUID] reads. *)
Example uuid_forms :
  UUID_of_text "urn:uuid:00000000-0000-0000-0000-00000000000A" = Ok 10%N /\
  UUID_of_text "{0000000000000000000000000000000a}" = Ok 10%N /\
  UUID_of_text "a" = Raise (ValueError "badly formed hexadecimal UUID string").
Proof. repeat split; vm_compute; reflexivity. Qed.

Definition decision : ToolCall :=
  ToolSubmitValidatorDecision "governance_reviewer" "00000000-0000-0000-0000-000000000000"
    "system_pp_approval" None (Some "proposal_approved") None None.
(** The metadata of the call names the participant. *)
Definition by_mallory : option ToolContext :=
  Some (mkToolContext None (Some [("participant_id", VStr "mallory")])).


(** It succeeds. *)
Example tool_decision_recorded :
  status_of (run_tool true true by_mallory None None decision app).1 = 200%Z.
Proof. vm_compute. reflexivity. Qed.
End Demo.
