(* ===== verification/Application.v ===== *)
(** * The application ([api/main.py], [mcp/server.py], [cli.py])

    [create_app] initializes the system and gives its stores to the routes
    and to the MCP tools; [main] does the same for the stdio server. FastAPI
    and FastMCP, which deliver requests and calls, are not part of the
    program: an application is its state and its handlers. *)
From Stdlib Require Import ZArith QArith Ascii String.
From S2P Require Import Prelude Values UuidText Authority Models Graph PanelValidator Artifacts.
From S2P Require Import RuntimeService MemoryRuntime Registry RegistryTheorems Sql PostgresRegistry Pydantic.
From S2P Require Import PostgresRuntime Auth Catalog PostgresAuth Loader Bootstrap Config Startup.
From S2P Require Import PanelStores BootstrapTheorems AuthorityStore StartupTheorems.
From S2P Require Import Executor Boundaries Shadow Genesis Observability Api Mcp.
Open Scope string_scope.
Open Scope list_scope.

Section application.
Context `{Oracle} `{Networkx} `{Pydantic} `{BoundaryModels} `{Sql} `{Files}.

(** The stores, shared by the routes and the tools. *)
Abbreviation Stores := (App AnyRuntime AnyRegistry AnyRepository).

(** [MCPState], whose stores are the application's. *)
Record MCPState : Type := mkMCPState { ms_authorization_enabled : bool }.

(** [app.state]. [None]: the server is not bound. *)
Record Application : Type := mkApplication {
  state_stores : Stores;
  state_system_bootstrap_results : list BootstrapResult;
  state_root_participant_id : string;
  state_authorization_enabled : bool;
  mcp_state : option MCPState;
}.

(** [ShadowService(runtime)] and [GenesisService(...)] start empty. *)
Definition stores_of (w : System) : Stores :=
  mkApp (sys_runtime w) (sys_registry w) (sys_repository w) (mkGenesisState [] []) (mkShadowState [] []).

Definition bind_app (app : Application) : Application :=
  mkApplication (state_stores app) (state_system_bootstrap_results app) (state_root_participant_id app)
    (state_authorization_enabled app) (Some (mkMCPState (state_authorization_enabled app))).

(** [mount_mcp_endpoints]: the mount itself is FastMCP's. *)
Definition mount_mcp_endpoints (app : Application) : Application := bind_app app.

Definition new_application (settings : Settings) (initialized : SystemInitialization) (w : System) : Application :=
  mkApplication (stores_of w) (bootstrap_results initialized) (si_root_participant_id initialized)
    (authorization_enabled settings) None.

(** The stores are in the application when there is one, and in the
    database in any case. *)
Definition create_app (settings : Settings) (db : Database) (runtime : option AnyRuntime)
    (authorization_service : option AnyRepository) (registry : option AnyRegistry) (e : Env) :
    res Application * (Database * Env) :=
  let '(r, (w, e')) := initialize_system settings db runtime registry authorization_service e in
  (initialized ← r; Ok (mount_mcp_endpoints (new_application settings initialized w)),
   (persisted db w, e')).

(** A request to the application, and a tool call. *)
Definition on_stores_of {B} (app : Application) (e : Env) (m : M Stores B) : res B * (Application * Env) :=
  let '(r, (st, e')) := m (state_stores app, e) in
  (r, (mkApplication st (state_system_bootstrap_results app) (state_root_participant_id app)
         (state_authorization_enabled app) (mcp_state app), e')).

Definition tool_bound (app : Application) : bool := match mcp_state app with Some _ => true | None => false end.
Definition tool_enabled (app : Application) : bool :=
  match mcp_state app with Some st => ms_authorization_enabled st | None => false end.

Definition mcp_claim `{McpModels} (app : Application) (ctx : option ToolContext) (worker_id input_pipe : string)
    (lease_seconds : Z) (idempotency_key participant_id : option string) (e : Env) :
    res Lease * (Application * Env) :=
  on_stores_of app e (mcp_claim_card (tool_bound app) (tool_enabled app) ctx worker_id input_pipe
                        lease_seconds idempotency_key participant_id).

(** ** The command line *)

(** [run_stdio]: what the server does until its input ends. *)
Definition main (settings : Settings) (db : Database)
    (run_stdio : Application -> Env -> res () * (Application * Env)) (args : list string) (e : Env) :
    res Z * (Database * Env) :=
  if decide (args = ["mcp-server"]) then
    let '(r, (w, e1)) := initialize_system settings db None None None e in
    match r with
    | Raise x => (Raise x, (persisted db w, e1))
    | Ok initialized =>
        let '(r2, (app, e2)) := run_stdio (bind_app (new_application settings initialized w)) e1 in
        let st := state_stores app in
        (_ ← r2; Ok 0%Z,
         (persisted db (mkSystem (app_runtime st) (app_registry st) (app_authority st)), e2))
    end
  else
    let command := match args with [] => "<none>" | _ => str_concat " " args end in
    (Raise (SystemExit ("unknown ghostmesh command: " +:+ command)), (db, e)).
End application.

(** ** An application is ready when it is made *)
Section ready.
Context `{OracleLaws} `{Networkx} `{Pydantic} `{BoundaryModels} `{SqlLaws} `{Files}.

(** The configured panels are loaded, the root operator holds every
    permission, the tools are bound with the guard of the routes, and the
    database can be started from again. *)
Lemma create_app_ready settings db runtime registry auth_service e pps :
  Forall2 (configured (R := AnyRuntime)) (system_patch_panel_paths settings) pps -> one_version pps ->
  database_ok db e -> given_ok runtime registry auth_service e ->
  let run := create_app settings db runtime auth_service registry e in
  exists app a, run.1 = Ok app /\
    mcp_state app = Some (mkMCPState (authorization_enabled settings)) /\
    state_root_participant_id app = root_participant_id settings /\
    Forall2 result_for pps (state_system_bootstrap_results app) /\
    loaded pps (mkSystem (app_runtime (state_stores app)) (app_registry (state_stores app))
                  (app_authority (state_stores app))) /\
    settled (app_authority (state_stores app), run.2.2) a /\ rooted a (root_participant_id settings) /\
    database_ok run.2.1 run.2.2.
Proof.
  intros Hc Hone Hdb Hgiven run. unfold run, create_app. clear run.
  destruct (initialize_ready settings db runtime registry auth_service e pps Hc Hone Hdb Hgiven)
    as (results & a & Hrun & Hrs & Hin & Hs & Hroot & Hok & _).
  destruct (initialize_system _ _ _ _ _ _) as [r [w e1]]. cbn in *. subst r.
  exists (mount_mcp_endpoints (new_application settings (mkSystemInitialization results (root_participant_id settings)) w)), a.
  do 4 (split; [done|]). split; [by destruct w|]. by split.
Qed.

(** An unknown command starts nothing. *)
Lemma unknown_command settings db run_stdio args e : args <> ["mcp-server"] ->
  exists msg, main settings db run_stdio args e = (Raise (SystemExit msg), (db, e)).
Proof. intros Hargs. unfold main. rewrite decide_False by done. by eexists. Qed.
End ready.
