(* ===== verification/ArtifactStores.v ===== *)
(** * Artifact stores and the worker client ([artifacts/store.py], [sdk/worker.py])

    [LocalGitArtifactStore] writes an artifact below its root,
    [S3CompatibleArtifactStore] puts it into a bucket; both answer a
    reference that names the place and the digest. The file system, the S3
    client, the digest and HTTP are interfaces. [WorkerClient] turns calls
    into requests. *)
From Stdlib Require Import ZArith QArith Ascii String Strings.Byte.
From S2P Require Import Prelude Values UuidText Authority Models Graph PanelValidator Loader.
Open Scope string_scope.
Open Scope list_scope.

Abbreviation bytes := (list byte).

(** ** Paths and URIs *)
Definition path_parent (p : Path) : Path := mkPath (path_root p) (removelast (path_parts p)).

(** [p.parents]. *)
Fixpoint ancestors (n : nat) (p : Path) : list Path :=
  match n with
  | O => []
  | S n' => path_parent p :: ancestors n' (path_parent p)
  end.
Definition path_parents (p : Path) : list Path := ancestors (length (path_parts p)) p.

(** [p.relative_to(base)], [None] for the [ValueError]. *)
Fixpoint drop_prefix (base l : list string) : option (list string) :=
  match base, l with
  | [], _ => Some l
  | b :: base', x :: l' => if decide (b = x) then drop_prefix base' l' else None
  | _ :: _, [] => None
  end.
Definition relative_to (p base : Path) : option Path :=
  if decide (path_root p = path_root base)
  then option_map (mkPath "") (drop_prefix (path_parts base) (path_parts p))
  else None.

(** [urllib.parse.quote_from_bytes]: the characters that stand for
    themselves, and the slash. *)
Definition always_safe (c : ascii) : bool :=
  let n := N_of_ascii c in
  (N.leb 48 n && N.leb n 57) || (N.leb 65 n && N.leb n 90) || (N.leb 97 n && N.leb n 122) ||
  bool_decide (c ∈ ["_"%char; "."%char; "-"%char; "~"%char; "/"%char]).
Definition upper_hex (n : N) : ascii := ascii_of_N (if N.ltb n 10 then n + 48 else n + 55).
Fixpoint quote (s : string) : string :=
  match s with
  | EmptyString => ""
  | String c s' =>
      if always_safe c then String c (quote s')
      else String "%" (String (upper_hex (N_of_ascii c / 16)) (String (upper_hex (N_of_ascii c mod 16))
             (quote s')))
  end.
(** [p.as_uri()] of an absolute path. *)
Definition as_uri (p : Path) : string := "file://" +:+ quote (path_str p).

Definition is_slash (c : ascii) : bool := bool_decide (c = "/"%char).

(** ** The interfaces *)

(** [hashlib.sha256(data).hexdigest()]. *)
Class Sha256 : Type := { sha256_hexdigest : bytes -> string }.

(** The file system: [Path.resolve], [Path.exists],
    [Path.mkdir(parents=True, exist_ok=True)] and [Path.write_bytes]. *)
Class Disk (D : Type) : Type := {
  dk_resolve : D -> Path -> Path;
  dk_exists : D -> Path -> bool;
  dk_mkdir : Path -> M D ();
  dk_write_bytes : Path -> bytes -> M D ();
}.

(** A boto3 client: [put_object] of one bucket. *)
Class ObjectStore (C : Type) : Type := {
  ob_put_object (Bucket Key : string) (Body : bytes) (ContentType : string)
    (Metadata : list (string * string)) : M C ();
}.

(** The protocol [ArtifactStore]. *)
Class ArtifactStore (S : Type) : Type := {
  put_bytes (card_id : UUID) (data : bytes) (filename content_type : string)
    (metadata : option doc) : M S ArtifactReference;
}.

Section stores.
Context `{Oracle} `{Sha256}.

Definition _sha256 (data : bytes) : string := "sha256:" +:+ sha256_hexdigest data.

(** [Path(filename).name or "artifact.bin"]. *)
Definition safe_name (filename : string) : string :=
  match path_name (path_of filename) with "" => "artifact.bin" | name => name end.

Definition artifact_name (artifact_id : UUID) (filename : string) : string :=
  uuid_str artifact_id +:+ "-" +:+ safe_name filename.

(** The constructor of the reference: three strings must not be empty. *)
Definition new_reference {S} (artifact_id card_id : UUID) (storage_ref : string) (data : bytes)
    (content_type : string) (metadata : option doc) : M S ArtifactReference :=
  created_at ← now;
  if bool_decide (storage_ref = "") || bool_decide (content_type = "")
  then raise (ValidationError "String should have at least 1 character")
  else mret (mkArtifact artifact_id card_id None storage_ref (_sha256 data) content_type
               (Z.of_nat (length data)) (default [] metadata) created_at).

(** ** [LocalGitArtifactStore] *)
Section local.
Context {D : Type} `{Disk D}.

Record LocalGitArtifactStore : Type := mkLocalStore {
  lg_root : Path;
  lg_repo_root : option Path;
}.

Definition _discover_git_root (d : D) (path : Path) : option Path :=
  let current := dk_resolve d path in
  py_next (fun candidate => dk_exists d (path_join candidate ".git")) (current :: path_parents current).

(** A path argument: a string, or a [Path], which is always true. *)
Inductive PathArg : Type := StrArg (s : string) | PathObj (p : Path).
Definition to_path (a : PathArg) : Path := match a with StrArg s => path_of s | PathObj p => p end.

Definition new_local_store (d : D) (root : PathArg) (repo_root : option PathArg) :
    LocalGitArtifactStore :=
  mkLocalStore (to_path root)
    (match repo_root with
     | Some (StrArg "") | None => _discover_git_root d (to_path root)
     | Some a => Some (dk_resolve d (to_path a))
     end).

Context (store : LocalGitArtifactStore).

Definition _storage_ref (d : D) (path : Path) : string :=
  let resolved := dk_resolve d path in
  match lg_repo_root store with
  | Some repo_root =>
      match relative_to resolved repo_root with
      | Some rel_path => "git:working-tree:" +:+ path_str rel_path
      | None => as_uri resolved
      end
  | None => as_uri resolved
  end.

Definition artifact_path (card_id artifact_id : UUID) (filename : string) : Path :=
  path_join (path_join (lg_root store) (uuid_str card_id)) (artifact_name artifact_id filename).

Definition local_put_bytes (card_id : UUID) (data : bytes) (filename content_type : string)
    (metadata : option doc) : M D ArtifactReference :=
  artifact_id ← uuid4;
  let path := artifact_path card_id artifact_id filename in
  _ ← dk_mkdir (path_parent path);
  _ ← dk_write_bytes path data;
  d ← get;
  new_reference artifact_id card_id (_storage_ref d path) data content_type metadata.
End local.

(** ** [S3CompatibleArtifactStore] *)
Section s3.
Context {C : Type} `{ObjectStore C}.

Record S3CompatibleArtifactStore : Type := mkS3Store { s3_bucket : string; s3_prefix : string }.

(** [boto3]: the client the library makes, when it is installed. *)
Definition _boto3_client (boto3 : option C) : res C :=
  match boto3 with
  | None => Raise (RuntimeError
      "boto3 is required for S3CompatibleArtifactStore unless a client is injected")
  | Some c => Ok c
  end.

Definition new_s3_store (boto3 : option C) (bucket prefix : string) (client : option C) :
    res (S3CompatibleArtifactStore * C) :=
  c ← (match client with Some c => Ok c | None => _boto3_client boto3 end);
  Ok (mkS3Store bucket (strip_by is_slash prefix), c).

Context (store : S3CompatibleArtifactStore).

Definition object_key (card_id artifact_id : UUID) (filename : string) : string :=
  s3_prefix store +:+ "/" +:+ uuid_str card_id +:+ "/" +:+ artifact_name artifact_id filename.

Definition s3_put_bytes (card_id : UUID) (data : bytes) (filename content_type : string)
    (metadata : option doc) : M C ArtifactReference :=
  artifact_id ← uuid4;
  let key := object_key card_id artifact_id filename in
  _ ← ob_put_object (s3_bucket store) key data content_type
        (map (fun kv => (kv.1, v_str kv.2)) (default [] metadata));
  new_reference artifact_id card_id ("s3://" +:+ s3_bucket store +:+ "/" +:+ key) data
    content_type metadata.
End s3.
End stores.

Definition local_store `{Oracle} `{Sha256} {D} `{Disk D} (store : LocalGitArtifactStore) :
    ArtifactStore D := {| put_bytes := local_put_bytes store |}.
Definition s3_store `{Oracle} `{Sha256} {C} `{ObjectStore C} (store : S3CompatibleArtifactStore) :
    ArtifactStore C := {| put_bytes := s3_put_bytes store |}.

(** ** [WorkerClient] *)

Record HttpRequest : Type := mkHttpRequest {
  hr_method : string;
  hr_url : string;
  hr_json : option doc;
  hr_headers : list (string * string);
  hr_timeout : Q;
}.
Record HttpResponse : Type := mkHttpResponse {
  rs_status_code : Z;
  rs_json : res value;
}.

(** httpx: sending a request; the text of a status error. *)
Class Http (N : Type) : Type := {
  ht_send : HttpRequest -> M N HttpResponse;
  ht_status_message : HttpRequest -> HttpResponse -> string;
  (** [ref.model_dump(mode="json")]. *)
  ht_artifact_dump : ArtifactReference -> value;
}.

Section sdk.
Context {N : Type} `{Http N}.

Record WorkerClient : Type := mkWorkerClient {
  wk_base_url : string;
  wk_worker_id : string;
  wk_timeout : Q;
  wk_auth_token : option string;
  wk_participant_id : option string;
}.

Definition new_worker_client (base_url worker_id : string) (timeout : Q)
    (auth_token participant_id : option string) : WorkerClient :=
  mkWorkerClient (rstrip_by is_slash base_url) worker_id timeout auth_token participant_id.

Definition _idempotency_headers (idempotency_key : option string) : list (string * string) :=
  if truthy idempotency_key then [("Idempotency-Key", str_or idempotency_key "")] else [].

Context (self : WorkerClient).

Definition _headers (idempotency_key : option string) : list (string * string) :=
  let headers := _idempotency_headers idempotency_key in
  let headers :=
    if truthy (wk_auth_token self)
    then dict_set "Authorization" ("Bearer " +:+ str_or (wk_auth_token self) "") headers
    else headers in
  if truthy (wk_participant_id self)
  then dict_set "X-Ghostmesh-Participant" (str_or (wk_participant_id self) "") headers
  else headers.

(** [response.raise_for_status()]. *)
Definition raise_for_status (request : HttpRequest) (response : HttpResponse) : M N () :=
  if Z.leb 200 (rs_status_code response) && Z.leb (rs_status_code response) 299 then mret tt
  else raise (HTTPStatusError (rs_status_code response) (ht_status_message request response)).

Definition exchange (request : HttpRequest) : M N value :=
  response ← ht_send request;
  _ ← raise_for_status request response;
  lift_res (rs_json response).

Definition post (path : string) (json : doc) (idempotency_key : option string) : M N value :=
  exchange (mkHttpRequest "POST" (wk_base_url self +:+ path) (Some json) (_headers idempotency_key)
              (wk_timeout self)).

Definition claim (input_pipe : string) (lease_seconds : Z) (idempotency_key : option string) :
    M N value :=
  post "/cards/claim"
    [("input_pipe", VStr input_pipe); ("worker_id", VStr (wk_worker_id self));
     ("lease_seconds", VInt lease_seconds)] idempotency_key.

(** An artifact reference is given as an object or as a document. *)
Definition submit (lease_id output_pipe : string) (artifact_refs : list (ArtifactReference + doc))
    (idempotency_key : option string) : M N value :=
  let serialized_refs :=
    map (fun ref => match ref with inl r => ht_artifact_dump r | inr d => VDict d end) artifact_refs in
  post "/cards/submit"
    [("lease_id", VStr lease_id); ("output_pipe", VStr output_pipe);
     ("artifact_refs", VList serialized_refs)] idempotency_key.

Definition renew (lease_id : string) (lease_seconds : Z) (idempotency_key : option string) :
    M N value :=
  post ("/leases/" +:+ lease_id +:+ "/renew") [("lease_seconds", VInt lease_seconds)] idempotency_key.

Definition release (lease_id : string) (idempotency_key : option string) : M N value :=
  post ("/leases/" +:+ lease_id +:+ "/release") [("actor_id", VStr (wk_worker_id self))] idempotency_key.

Definition context (lease_id : string) : M N value :=
  exchange (mkHttpRequest "GET" (wk_base_url self +:+ "/workers/leases/" +:+ lease_id +:+ "/context")
              None (_headers None) (wk_timeout self)).
End sdk.

(** [card_id] is a string or a [UUID]; [UUID(str(card_id))]. *)
Definition upload_bytes {S} `{ArtifactStore S} (card_id : string + UUID) (data : bytes)
    (filename content_type : string) (metadata : option doc) : M S ArtifactReference :=
  i ← lift_res (UUID_of_text (match card_id with inl s => s | inr u => uuid_str u end));
  put_bytes i data filename content_type metadata.
