(* ===== verification/ArtifactStoreTheorems.v ===== *)
(** * Uploads are kept

    What an artifact store promises ([UploadStore]): an upload answers a
    reference with the digest and size of its bytes under a new id, the
    bytes are where the reference says, and no earlier upload is touched.
    Both stores keep it; whatever is uploaded in whatever order, every
    answered reference still holds its bytes. *)
From Stdlib Require Import ZArith QArith Ascii String Strings.Byte.
From S2P Require Import Prelude Values UuidText UuidTheorems Authority Models Graph PanelValidator Loader.
From S2P Require Import ArtifactStores.
Open Scope string_scope.
Open Scope list_scope.

(** ** The contract of a store *)
Record Upload : Type := mkUpload {
  up_card : UUID;
  up_data : bytes;
  up_filename : string;
  up_content_type : string;
  up_metadata : option doc;
}.

Section contract.
Context `{Oracle} `{Sha256}.

(** The reference of an upload, but for its place and time. *)
Record refers_to (i : UUID) (u : Upload) (ref : ArtifactReference) : Prop := {
  rf_id : ar_id ref = i;
  rf_card : ar_card_id ref = up_card u;
  rf_hash : ar_content_hash ref = "sha256:" +:+ sha256_hexdigest (up_data u);
  rf_type : ar_content_type ref = up_content_type u;
  rf_size : ar_size_bytes ref = Z.of_nat (length (up_data u));
  rf_event : ar_event_id ref = None;
  rf_metadata : ar_metadata ref = default [] (up_metadata u);
}.

Class UploadStore (S : Type) `{ArtifactStore S} : Type := {
  (** The bytes are at the place the reference names. *)
  us_holds : S -> ArtifactReference -> bytes -> Prop;
  us_put u (s : S * Env) :
    is_uuid (uuid_at (uuid_ctr s.2)) ->
    wp (put_bytes (up_card u) (up_data u) (up_filename u) (up_content_type u) (up_metadata u))
      (fun r s' =>
         uuid_ctr s'.2 = Datatypes.S (uuid_ctr s.2) /\
         (forall ref data, us_holds s.1 ref data -> is_uuid (ar_id ref) ->
            ar_id ref <> uuid_at (uuid_ctr s.2) -> us_holds s'.1 ref data) /\
         match r with
         | Ok ref => refers_to (uuid_at (uuid_ctr s.2)) u ref /\ us_holds s'.1 ref (up_data u)
         | Raise _ => True
         end) s;
}.

(** ** Any sequence of uploads *)
Section uploads.
Context {S : Type} `{UploadStore S}.

(** The outcomes of a worker's uploads one after the other, failures
    included. *)
Fixpoint uploads (us : list Upload) (s : S * Env) : list (res ArtifactReference) * (S * Env) :=
  match us with
  | [] => ([], s)
  | u :: us' =>
      let (r, s1) := upload_bytes (inr (up_card u)) (up_data u) (up_filename u) (up_content_type u)
                       (up_metadata u) s in
      let (rs, s2) := uploads us' s1 in (r :: rs, s2)
  end.

(** An answered upload: its reference is right and holds its bytes. *)
Definition kept (s : S * Env) (i : UUID) (u : Upload) (r : res ArtifactReference) : Prop :=
  forall ref, r = Ok ref -> refers_to i u ref /\ us_holds s.1 ref (up_data u).

(** The first [k] identifiers are UUIDs and differ. *)
Definition good_ids (k : nat) : Prop :=
  (forall n, n < k -> is_uuid (uuid_at n))%nat /\
  (forall n m, n < k -> m < k -> uuid_at n = uuid_at m -> n = m)%nat.

Lemma upload_bytes_uuid i data filename ty metadata (s : S * Env) : is_uuid i ->
  upload_bytes (inr i) data filename ty metadata s = put_bytes i data filename ty metadata s.
Proof. intros Hi. unfold upload_bytes. by rewrite UUID_of_uuid_str. Qed.

Lemma uploads_spec k us s : Forall (fun u => is_uuid (up_card u)) us -> good_ids k ->
  (uuid_ctr s.2 + length us <= k)%nat -> let run := uploads us s in
  Forall2 (fun nu r => kept run.2 (uuid_at nu.1) nu.2 r) (zip (seq (uuid_ctr s.2) (length us)) us) run.1 /\
  forall ref data n, us_holds s.1 ref data -> ar_id ref = uuid_at n -> (n < uuid_ctr s.2)%nat ->
    us_holds run.2.1 ref data.
Proof.
  intros Hcards [Huuid Hinj]. revert s Hcards. induction us as [|u us IH]; intros s Hcards Hk; cbn [uploads].
  { cbn. by split; [constructor|]. }
  apply Forall_cons in Hcards as [Hcard Hcards]. rewrite upload_bytes_uuid by done. cbn [length] in Hk.
  pose proof (us_put u s (Huuid (uuid_ctr s.2) ltac:(lia))) as Hput. unfold wp in Hput.
  destruct (put_bytes _ _ _ _ _ s) as [r s1]. cbn in Hput. destruct Hput as (Hctr & Hkeep & Hr).
  specialize (IH s1 Hcards). destruct (uploads us s1) as [rs s2]. cbn in IH |- *. rewrite Hctr in IH.
  destruct IH as [Hrs Hkeep2]; [lia|]. split.
  - constructor; [|done]. intros ref ->. destruct Hr as [Href Hholds]. split; [done|].
    apply (Hkeep2 ref (up_data u) (uuid_ctr s.2)); [done|apply (rf_id _ _ _ Href)|lia].
  - intros ref data n Hholds Hid Hn. apply (Hkeep2 ref data n); [|done|lia].
    apply Hkeep; [done|rewrite Hid; apply Huuid; lia|].
    rewrite Hid. intros Heq. apply Hinj in Heq; lia.
Qed.

(** Every answered upload is kept to the end, under an id of its own, and
    earlier references keep their bytes. *)
Definition keeps_uploads : Prop := forall us s, Forall (fun u => is_uuid (up_card u)) us ->
  good_ids (uuid_ctr s.2 + length us) -> let run := uploads us s in
  length run.1 = length us /\
  (forall k u ref, us !! k = Some u -> run.1 !! k = Some (Ok ref) ->
     refers_to (uuid_at (uuid_ctr s.2 + k)) u ref /\ us_holds run.2.1 ref (up_data u)) /\
  (forall ref data n, us_holds s.1 ref data -> ar_id ref = uuid_at n -> (n < uuid_ctr s.2)%nat ->
     us_holds run.2.1 ref data).

Lemma uploads_kept : keeps_uploads.
Proof.
  intros us s Hcards Hids. destruct (uploads_spec _ us s Hcards Hids (le_n _)) as [Hall Hkeep].
  cbn. split; [|split; [|exact Hkeep]].
  - apply Forall2_length in Hall. rewrite length_zip_with, length_seq in Hall. lia.
  - intros k u ref Hu Hr. destruct (Forall2_lookup_r _ _ _ _ _ Hall Hr) as ([n u'] & Hzip & Hkept).
    apply lookup_zip_with_Some in Hzip as (n' & u'' & [= <- <-] & Hn & Hu').
    apply lookup_seq in Hn as [-> _]. rewrite Hu in Hu'. injection Hu' as <-. by apply Hkept.
Qed.
End uploads.
End contract.

(** ** The disk *)

(** What the code relies on of the file system: a written file holds its
    bytes; making directories and writing a file change no file of another
    name (there are no links between files), nor where a path leads. *)
Class DiskLaws (D : Type) `{Disk D} : Type := {
  dk_read : D -> Path -> option bytes;
  dk_mkdir_keeps p s : wp (dk_mkdir p) (fun _ s' => s'.2 = s.2 /\
    (forall q, dk_read s'.1 q = dk_read s.1 q) /\ forall q, dk_resolve s'.1 q = dk_resolve s.1 q) s;
  dk_write_holds p data s : wp (dk_write_bytes p data) (fun r s' => s'.2 = s.2 /\
    (r = Ok tt -> dk_read s'.1 p = Some data) /\
    (forall q, path_name q <> path_name p -> dk_read s'.1 q = dk_read s.1 q) /\
    forall q, dk_resolve s'.1 q = dk_resolve s.1 q) s;
}.

(** *** The name of an artifact *)
Lemma path_of_plain s : all_chars (fun c => c <> "/"%char) s -> s <> "" -> s <> "." -> path_parts (path_of s) = [s].
Proof.
  intros Hs Hne Hdot. unfold path_of. cbn [path_parts]. rewrite split_all_none by done. cbn.
  unfold str_in. rewrite bool_decide_eq_false_2; [done|]. set_solver.
Qed.

Lemma path_name_chars s : all_chars (fun c => c <> "/"%char) (path_name (path_of s)).
Proof.
  unfold path_name, path_of. cbn [path_parts].
  assert (Forall (all_chars (fun c => c <> "/"%char)) (py_filter (fun p => negb (str_in p ["" ; "."])) (split_all "/" s))) as Hall.
  { apply Forall_forall. intros x [Hx _]%elem_of_py_filter. revert x Hx. apply Forall_forall, split_all_parts. }
  destruct (last _) as [x|] eqn:E; [|done]. apply last_Some_elem_of in E. cbn.
  revert x E. by apply Forall_forall.
Qed.

Lemma artifact_name_plain i filename : path_parts (path_of (artifact_name i filename)) = [artifact_name i filename].
Proof.
  apply path_of_plain.
  - unfold artifact_name. apply all_chars_app. split; [by apply uuid_str_not|]. apply all_chars_app. split; [done|].
    unfold safe_name. pose proof (path_name_chars filename) as Hn. by destruct (path_name _).
  - intros Heq. apply (f_equal String.length) in Heq. unfold artifact_name in Heq.
    rewrite !length_app_str, uuid_str_length in Heq. done.
  - intros Heq. apply (f_equal String.length) in Heq. unfold artifact_name in Heq.
    rewrite !length_app_str, uuid_str_length in Heq. done.
Qed.

Lemma artifact_path_name store card i filename :
  path_name (artifact_path store card i filename) = artifact_name i filename.
Proof.
  unfold artifact_path, path_join, path_name. cbn [path_parts]. rewrite artifact_name_plain.
  by rewrite last_snoc.
Qed.

Lemma artifact_name_inj i j f g : is_uuid i -> is_uuid j -> artifact_name i f = artifact_name j g -> i = j.
Proof. intros Hi Hj. by intros [? _]%uuid_str_app_inj. Qed.
(** *** The local store *)
Section local.
Context `{Oracle} `{Sha256} {D : Type} `{DiskLaws D} (store : LocalGitArtifactStore).
#[local] Instance this_disk_store : ArtifactStore D := local_store store.

Lemma new_reference_spec {T} i u place (s : T * Env) (Q : res ArtifactReference -> T * Env -> Prop) :
  (forall t, let s' := (s.1, mkEnv t (uuid_ctr s.2)) in
     (forall e, Q (Raise e) s') /\
     (forall ref, refers_to i u ref -> ar_storage_ref ref = place -> Q (Ok ref) s')) ->
  wp (new_reference i (up_card u) place (up_data u) (up_content_type u) (up_metadata u)) Q s.
Proof.
  intros HQ. unfold new_reference. apply wp_bind, wp_now.
  destruct (HQ (Datatypes.S (now_ctr s.2))) as [Hraise Hok].
  destruct (_ || _); [apply wp_raise, Hraise | apply wp_ret; by apply Hok].
Qed.

Definition local_holds (d : D) (ref : ArtifactReference) (data : bytes) : Prop :=
  exists filename, let path := artifact_path store (ar_card_id ref) (ar_id ref) filename in
    ar_storage_ref ref = _storage_ref store d path /\ dk_read d path = Some data.

Lemma local_holds_keeps (d d' : D) ref data :
  (forall q, dk_resolve d' q = dk_resolve d q) ->
  (forall filename, let path := artifact_path store (ar_card_id ref) (ar_id ref) filename in
     dk_read d' path = dk_read d path) ->
  local_holds d ref data -> local_holds d' ref data.
Proof.
  intros Hres Hread (filename & Hplace & Hdata). exists filename. cbn in *. rewrite Hread.
  unfold _storage_ref in *. by rewrite Hres.
Qed.

#[export] Program Instance local_uploads : UploadStore D := {| us_holds := local_holds |}.
Next Obligation.
  intros u [d e] uuids. unfold put_bytes, this_disk_store, local_store, local_put_bytes. cbn [fst snd].
  set (i := uuid_at (uuid_ctr e)). set (path := artifact_path store (up_card u) i (up_filename u)).
  apply wp_bind, wp_uuid4, wp_bind. cbn [fst snd]. fold i path.
  eapply wp_mono; [apply dk_mkdir_keeps|]. intros r1 [d1 e1] (He1 & Hread1 & Hres1).
  cbn [fst snd] in He1, Hread1, Hres1. subst e1.
  assert (forall ref data, local_holds d ref data -> is_uuid (ar_id ref) -> ar_id ref <> i -> local_holds d1 ref data) as Hkeep1.
  { intros ref data Hholds _ _. by apply (local_holds_keeps d). }
  destruct r1 as [[]|]; [|done]. apply wp_bind.
  eapply wp_mono; [apply dk_write_holds|]. intros r2 [d2 e2] (He2 & Hwritten & Hread2 & Hres2).
  cbn [fst snd] in He2, Hwritten, Hread2, Hres2. subst e2.
  assert (forall ref data, local_holds d ref data -> is_uuid (ar_id ref) -> ar_id ref <> i -> local_holds d2 ref data) as Hkeep2.
  { intros ref data Hholds Hu Hne. apply (local_holds_keeps d1); [done| |by apply Hkeep1].
    intros filename path'. apply Hread2. unfold path'. unfold path. rewrite !artifact_path_name. intros Hname.
    apply Hne. eapply artifact_name_inj; [done|exact uuids|exact Hname]. }
  destruct r2 as [[]|]; [|done]. apply wp_bind, wp_get. cbn [fst snd].
  apply new_reference_spec. intros t. cbn. split; [done|]. intros ref Href Hplace.
  split; [done|]. split; [done|]. split; [done|]. exists (up_filename u). cbn.
  rewrite (rf_id _ _ _ Href), (rf_card _ _ _ Href). fold path. split; [exact Hplace | by apply Hwritten].
Qed.
End local.

(** ** The bucket *)

(** What the code relies on of the object store: a key that was put holds
    its object, and the other keys theirs. *)
Class ObjectStoreLaws (C : Type) `{ObjectStore C} : Type := {
  ob_get : C -> string -> string -> option bytes;
  ob_put_holds bucket key data ty metadata s : wp (ob_put_object bucket key data ty metadata) (fun r s' =>
    s'.2 = s.2 /\ (r = Ok tt -> ob_get s'.1 bucket key = Some data) /\
    forall b k, (b, k) <> (bucket, key) -> ob_get s'.1 b k = ob_get s.1 b k) s;
}.

Section s3.
Context `{Oracle} `{Sha256} {C : Type} `{ObjectStoreLaws C} (store : S3CompatibleArtifactStore).
#[local] Instance this_bucket_store : ArtifactStore C := s3_store store.

Definition s3_holds (c : C) (ref : ArtifactReference) (data : bytes) : Prop :=
  exists filename, let key := object_key store (ar_card_id ref) (ar_id ref) filename in
    ar_storage_ref ref = "s3://" +:+ s3_bucket store +:+ "/" +:+ key /\ ob_get c (s3_bucket store) key = Some data.

Lemma object_key_inj card card' i j f g : is_uuid i -> is_uuid j ->
  object_key store card i f = object_key store card' j g -> i = j.
Proof.
  intros Hi Hj Hkey. unfold object_key in Hkey. apply str_app_inj_l, str_app_inj_l in Hkey.
  apply str_app_inj in Hkey as [_ Hkey]; [|by rewrite !uuid_str_length].
  apply str_app_inj_l in Hkey. by eapply artifact_name_inj.
Qed.

#[export] Program Instance s3_uploads : UploadStore C := {| us_holds := s3_holds |}.
Next Obligation.
  intros u [c e] uuids. unfold put_bytes, this_bucket_store, s3_store, s3_put_bytes. cbn [fst snd].
  set (i := uuid_at (uuid_ctr e)). set (key := object_key store (up_card u) i (up_filename u)).
  apply wp_bind, wp_uuid4, wp_bind. cbn [fst snd]. fold i key.
  eapply wp_mono; [apply ob_put_holds|]. intros r [c1 e1] (He1 & Hput & Hget).
  cbn [fst snd] in He1, Hput, Hget. subst e1.
  assert (forall ref data, s3_holds c ref data -> is_uuid (ar_id ref) -> ar_id ref <> i -> s3_holds c1 ref data) as Hkeep.
  { intros ref data (filename & Hplace & Hdata) Hu Hne. exists filename. cbn in *. split; [done|].
    rewrite Hget; [done|]. intros [= Hkey]. apply Hne. eapply object_key_inj; [done|exact uuids|exact Hkey]. }
  destruct r as [[]|]; [|done].
  apply new_reference_spec. intros t. cbn. split; [done|]. intros ref Href Hplace.
  split; [done|]. split; [done|]. split; [done|]. exists (up_filename u). cbn.
  rewrite (rf_id _ _ _ Href), (rf_card _ _ _ Href). fold key. split; [exact Hplace | by apply Hput].
Qed.
End s3.

(** C39. Uploads are never lost or mixed up, on both stores: whatever a
    worker uploads in whatever order, equal file names and failed uploads
    included, every answered reference has a new id, the card, type, size
    and SHA-256 digest of its upload, and at the end names the file, or the
    object, that holds exactly its bytes; references made before keep
    theirs. *)
Theorem uploads_are_kept `{Oracle} `{Sha256} {D C : Type} `{DiskLaws D} `{ObjectStoreLaws C}
    (disk : LocalGitArtifactStore) (bucket : S3CompatibleArtifactStore) :
  @keeps_uploads _ _ D (local_store disk) (local_uploads disk) /\
  @keeps_uploads _ _ C (s3_store bucket) (s3_uploads bucket).
Proof. split; apply uploads_kept. Qed.

(** ** A concrete disk, bucket and run *)
Module Demo.

#[local] Instance digest : Sha256 := {| sha256_hexdigest data := "00" |}.
#[local] Existing Instance tick_oracle.

(** Files by name; paths are absolute and plain. *)
Abbreviation Files := (list (string * bytes)).

#[local] Instance plain_disk : Disk Files := {|
  dk_resolve _ p := p;
  dk_exists d p := bool_decide (is_Some (dict_get (path_name p) d));
  dk_mkdir _ := mret tt;
  dk_write_bytes p data := modify (dict_set (path_name p) data);
|}.

#[local] Program Instance plain_disk_laws : DiskLaws Files := {| dk_read d p := dict_get (path_name p) d |}.
Next Obligation. done. Qed.
Next Obligation.
  intros p data s. apply wp_modify. cbn. split; [done|]. split; [intros _; apply dict_get_set_eq|].
  split; [|done]. intros q Hq. by apply dict_get_set_ne.
Qed.

Abbreviation Objects := (list ((string * string) * bytes)).

#[local] Instance memory_bucket : ObjectStore Objects := {|
  ob_put_object bucket key data _ _ := modify (dict_set (bucket, key) data);
|}.

#[local] Program Instance memory_bucket_laws : ObjectStoreLaws Objects := {|
  ob_get c bucket key := dict_get (bucket, key) c;
|}.
Next Obligation.
  intros bucket key data ty metadata s. apply wp_modify. cbn. split; [done|].
  split; [intros _; apply dict_get_set_eq|]. intros b k Hk. by apply dict_get_set_ne.
Qed.

Lemma lookup_nth {A} (l : list A) n : l !! n = nth_error l n.
Proof. revert n. induction l as [|x l IH]; intros [|n]; cbn; [done..|apply IH]. Qed.

Definition disk : LocalGitArtifactStore := new_local_store [(".git", [])] (StrArg "/data") (Some (StrArg "/")).
Definition bucket : S3CompatibleArtifactStore := mkS3Store "artifacts" "ghostmesh".

(** The same name twice, and an upload that is refused for its type after
    its bytes were written. *)
Definition three : list Upload := [
  mkUpload 5 [x61] "out/report.txt" "text/plain" None;
  mkUpload 5 [] ".." "" None;
  mkUpload 5 [x62; x63] "report.txt" "text/plain" None].
#[local] Instance files_store : ArtifactStore Files := local_store disk.
Definition run_disk : list (res ArtifactReference) * (Files * Env) :=
  uploads three ([], mkEnv 0 0).

Example refused_upload_stays :
  match run_disk with
  | ([Ok a; Raise (ValidationError _); Ok b], (files, _)) =>
      ar_storage_ref a = "git:working-tree:data/00000000-0000-0000-0000-000000000005/00000000-0000-0000-0000-000000000000-report.txt" /\
      map snd files = [[x61]; []; [x62; x63]]
  | _ => False
  end.
Proof. vm_compute. split; reflexivity. Qed.

Lemma three_cards : Forall (fun u => is_uuid (up_card u)) three.
Proof. repeat constructor. Qed.
Lemma three_ids : good_ids 3.
Proof.
  split; cbn; [|intros; lia]. intros n Hn. unfold is_uuid. assert (N.of_nat n < 3)%N as Hlt by lia.
  eapply N.lt_trans; [exact Hlt|]. done.
Qed.
Lemma first_answer : exists ref, nth_error run_disk.1 0 = Some (Ok ref).
Proof. eexists. vm_compute. reflexivity. Qed.

(** The first report is still there after the second. *)
Lemma uploads_are_kept_witness : exists ref, nth_error run_disk.1 0 = Some (Ok ref) /\
  local_holds disk run_disk.2.1 ref [x61].
Proof.
  destruct first_answer as [ref Href]. exists ref. split; [exact Href|].
  destruct (uploads_are_kept disk bucket) as [Hdisk _].
  destruct (Hdisk three ([], mkEnv 0 0) three_cards three_ids) as (_ & Hkept & _).
  exact (proj2 (Hkept 0%nat _ ref eq_refl (eq_trans (lookup_nth run_disk.1 0) Href))).
Defined.
End Demo.
