(* ===== verification/Ddl.v ===== *)
(** * Tables and their definition ([sqlalchemy], [alembic.op])

    Tables with their constraints, rows, and the operations of Alembic the
    revisions call. Running an operation is the business of Alembic,
    SQLAlchemy and PostgreSQL: the interface [Alembic], whose law says what
    the documented effect of an operation is where nothing forbids it. *)
From Stdlib Require Import ZArith Ascii String.
From stdpp Require Import gmap strings.
From S2P Require Import Prelude Values UuidText.
Open Scope string_scope.
Open Scope list_scope.

(** ** Tables *)

(** [String] and [Text] both hold text; [postgresql.UUID(as_uuid=True)] and
    [Uuid] are one type. *)
Inductive ColumnType : Type :=
  | TString | TText | TJSON | TDateTime | TUuid | TBoolean | TInteger.

Record Column : Type := mkColumn { cl_type : ColumnType; cl_nullable : bool }.

Record ForeignKey : Type := mkForeignKey {
  fk_columns : list string;
  fk_table : string;
  fk_referred : list string;
}.

(** The condition of a check. *)
Inductive Condition : Type :=
  | IsNull (column : string)
  | IsNotNull (column : string)
  | And (a b : Condition)
  | Or (a b : Condition).

Record Table : Type := mkTable {
  tb_columns : gmap string Column;
  tb_primary_key : list string;
  tb_uniques : list (list string);
  tb_checks : gmap string Condition;
  tb_foreign_keys : gmap string ForeignKey;
}.

#[export] Instance ColumnType_eq_dec : EqDecision ColumnType.
Proof. solve_decision. Defined.
#[export] Instance Column_eq_dec : EqDecision Column.
Proof. solve_decision. Defined.
#[export] Instance ForeignKey_eq_dec : EqDecision ForeignKey.
Proof. solve_decision. Defined.
#[export] Instance Condition_eq_dec : EqDecision Condition.
Proof. solve_decision. Defined.
#[export] Instance Table_eq_dec : EqDecision Table.
Proof. solve_decision. Defined.

(** ** Rows *)
Inductive SqlValue : Type :=
  | SNull
  | SText (s : string)
  | SJson (v : value)
  | STime (t : datetime)
  | SUuid (u : UUID)
  | SBool (b : bool)
  | SInt (z : Z).

Abbreviation Row := (gmap string SqlValue).
(** The tables of a database, each with its rows. *)
Abbreviation Tables := (gmap string (Table * list Row)).

(** ** The operations of [alembic.op] *)
Inductive Expr : Type :=
  | Lit (v : SqlValue)
  | TextOf (prefix column : string).

Inductive Op : Type :=
  | create_table (name : string) (t : Table)
  | drop_table (name : string)
  | add_column (table column : string) (c : Column)
  | drop_column (table column : string)
  | alter_column (table column : string) (nullable : bool)
  | create_foreign_key (name source : string) (fk : ForeignKey)
  | drop_constraint (name table : string)
  (** [UPDATE table SET ...] of every row, made of SQL texts (those given to
      [sa.text], or the whole statement). *)
  | execute_update (table : string) (values : list (string * Expr)) (texts : list string).

(** The constraints of [op.create_table]. PostgreSQL names a foreign key
    after its table and columns. *)
Inductive Constraint : Type :=
  | ForeignKeyConstraint (columns : list string) (table : string) (referred : list string)
  | UniqueConstraint (columns : list string)
  | CheckConstraint (condition : Condition) (name : string).

Definition column (name : string) (ty : ColumnType) (nullable : bool) : string * Column :=
  (name, mkColumn ty nullable).

Definition foreign_key_name (table : string) (columns : list string) : string :=
  table +:+ "_" +:+ str_concat "_" columns +:+ "_fkey".

Definition add_constraint (name : string) (t : Table) (c : Constraint) : Table :=
  match t, c with
  | mkTable cols pk us ks fks, ForeignKeyConstraint fcols ref refs =>
      mkTable cols pk us ks (<[foreign_key_name name fcols := mkForeignKey fcols ref refs]> fks)
  | mkTable cols pk us ks fks, UniqueConstraint ucols => mkTable cols pk (us ++ [ucols]) ks fks
  | mkTable cols pk us ks fks, CheckConstraint cond cname => mkTable cols pk us (<[cname := cond]> ks) fks
  end.

Definition new_table (name : string) (columns : list (string * Column)) (primary_key : list string)
    (constraints : list Constraint) : Op :=
  create_table name
    (fold_left (add_constraint name) constraints
       (mkTable (list_to_map columns) primary_key [] ∅ ∅)).

(** ** What PostgreSQL documents of an operation

    [apply_op o d]: the tables after [o], when the catalogue and the rows
    allow it. *)
Definition eval (r : Row) (e : Expr) : SqlValue :=
  match e with
  | Lit v => v
  | TextOf prefix c =>
      match r !! c with Some (SUuid u) => SText (prefix +:+ uuid_str u) | _ => SNull end
  end.

Definition set_columns (values : list (string * Expr)) (r : Row) : Row :=
  fold_left (fun r' kv => <[kv.1 := eval r kv.2]> r') values r.

(** The columns a foreign key can refer to. *)
Definition is_key (t : Table) (columns : list string) : bool :=
  bool_decide (columns = tb_primary_key t) || bool_decide (columns ∈ tb_uniques t).

Definition foreign_key_ok (tables : gmap string Table) (t : Table) (fk : ForeignKey) : bool :=
  forallb (fun c => bool_decide (is_Some (tb_columns t !! c))) (fk_columns fk) &&
  match tables !! fk_table fk with Some ref => is_key ref (fk_referred fk) | None => false end.

Fixpoint condition_columns (c : Condition) : list string :=
  match c with
  | IsNull x | IsNotNull x => [x]
  | And a b | Or a b => condition_columns a ++ condition_columns b
  end.

Definition table_ok (tables : gmap string Table) (t : Table) : bool :=
  forallb (fun key => forallb (fun c => bool_decide (is_Some (tb_columns t !! c))) key)
    (tb_primary_key t :: tb_uniques t ++ map (fun kv => condition_columns kv.2) (map_to_list (tb_checks t))) &&
  forallb (fun c => match tb_columns t !! c with Some col => negb (cl_nullable col) | None => false end)
    (tb_primary_key t) &&
  forallb (fun kv => foreign_key_ok tables t kv.2) (map_to_list (tb_foreign_keys t)).

(** Another table has a foreign key to [name]. *)
Definition referred_to (tables : gmap string Table) (name : string) : bool :=
  existsb (fun nt => negb (bool_decide (nt.1 = name)) &&
    existsb (fun kv => bool_decide (fk_table kv.2 = name)) (map_to_list (tb_foreign_keys nt.2)))
    (map_to_list tables).

(** Nothing but its type and nullability constrains a column. *)
Definition unconstrained (tables : gmap string Table) (name : string) (t : Table) (c : string) : bool :=
  negb (existsb (fun key => str_in c key)
    (tb_primary_key t :: tb_uniques t ++ map (fun kv => condition_columns kv.2) (map_to_list (tb_checks t)) ++
     map (fun kv => fk_columns kv.2) (map_to_list (tb_foreign_keys t)))) &&
  negb (existsb (fun nt =>
    existsb (fun kv => bool_decide (fk_table kv.2 = name) && str_in c (fk_referred kv.2))
      (map_to_list (tb_foreign_keys nt.2))) (map_to_list tables)).

Definition has_null (c : string) (r : Row) : bool :=
  match r !! c with Some SNull | None => true | Some _ => false end.

Definition with_columns (f : gmap string Column -> gmap string Column) (t : Table) : Table :=
  mkTable (f (tb_columns t)) (tb_primary_key t) (tb_uniques t) (tb_checks t) (tb_foreign_keys t).
Definition with_foreign_keys (f : gmap string ForeignKey -> gmap string ForeignKey) (t : Table) : Table :=
  mkTable (tb_columns t) (tb_primary_key t) (tb_uniques t) (tb_checks t) (f (tb_foreign_keys t)).

Definition text_like (ty : ColumnType) : bool :=
  match ty with TString | TText => true | _ => false end.

(** A 32-bit integer. *)
Definition has_type (ty : ColumnType) (v : SqlValue) : bool :=
  match ty, v with
  | _, SNull | TJSON, SJson _ | TDateTime, STime _ | TUuid, SUuid _ | TBoolean, SBool _ => true
  | (TString | TText), SText _ => true
  | TInteger, SInt z => (-2 ^ 31 <=? z)%Z && (z <? 2 ^ 31)%Z
  | _, _ => false
  end.

(** The expression can be assigned to a column of the type. *)
Definition expr_ok (t : Table) (e : Expr) (col : Column) : bool :=
  match e with
  | Lit v => has_type (cl_type col) v && (cl_nullable col || negb (match v with SNull => true | _ => false end))
  | TextOf _ c =>
      text_like (cl_type col) &&
      match tb_columns t !! c with
      | Some src => bool_decide (cl_type src = TUuid) && negb (cl_nullable src)
      | None => false
      end
  end.

Definition schema_of (d : Tables) : gmap string Table := fst <$> d.

(** Whether the catalogue allows an operation, and the tables after it. *)
Definition schema_op (o : Op) (s : gmap string Table) : option (gmap string Table) :=
  match o with
  | create_table name t =>
      let s' := <[name := t]> s in
      if bool_decide (s !! name = None) && table_ok s' t then Some s' else None
  | drop_table name =>
      if bool_decide (is_Some (s !! name)) && negb (referred_to s name) then Some (delete name s) else None
  | add_column table c col =>
      t ← s !! table;
      if bool_decide (tb_columns t !! c = None) && unconstrained s table t c
      then Some (<[table := with_columns <[c := col]> t]> s) else None
  | drop_column table c =>
      t ← s !! table;
      if bool_decide (is_Some (tb_columns t !! c)) && unconstrained s table t c
      then Some (<[table := with_columns (delete c) t]> s) else None
  | alter_column table c nullable =>
      t ← s !! table; col ← tb_columns t !! c;
      if nullable && str_in c (tb_primary_key t) then None
      else Some (<[table := with_columns <[c := mkColumn (cl_type col) nullable]> t]> s)
  | create_foreign_key name table fk =>
      t ← s !! table;
      if bool_decide (tb_foreign_keys t !! name = None) && foreign_key_ok s t fk
      then Some (<[table := with_foreign_keys <[name := fk]> t]> s) else None
  | drop_constraint name table =>
      t ← s !! table;
      if bool_decide (is_Some (tb_foreign_keys t !! name))
      then Some (<[table := with_foreign_keys (delete name) t]> s) else None
  | execute_update table values _ =>
      t ← s !! table;
      if forallb (fun kv => match tb_columns t !! kv.1 with
                            | Some col => expr_ok t kv.2 col && unconstrained s table t kv.1
                            | None => false end) values
      then Some s else None
  end.

(** Whether the rows allow it. *)
Definition rows_allow (o : Op) (rows : list Row) : bool :=
  match o with
  | add_column _ _ col => cl_nullable col || bool_decide (rows = [])
  | alter_column _ c nullable => nullable || forallb (fun r => negb (has_null c r)) rows
  | create_foreign_key _ _ fk => forallb (fun r => existsb (fun c => has_null c r) (fk_columns fk)) rows
  | _ => true
  end.

Definition row_op (o : Op) : Row -> Row :=
  match o with
  | add_column _ c _ => <[c := SNull]>
  | drop_column _ c => delete c
  | execute_update _ values _ => set_columns values
  | _ => fun r => r
  end.

Definition table_of (o : Op) : string :=
  match o with
  | create_table t _ | drop_table t | add_column t _ _ | drop_column t _ | alter_column t _ _
  | create_foreign_key _ t _ | drop_constraint _ t | execute_update t _ _ => t
  end.

Definition rows_of (d : Tables) (table : string) : list Row :=
  match d !! table with Some (_, rows) => rows | None => [] end.

(** The effect: the catalogue changes by [schema_op], and only the rows of
    the operation's table change, by [row_op]. *)
Definition apply_op (o : Op) (d : Tables) : option Tables :=
  match schema_op o (schema_of d) with
  | Some s =>
      if rows_allow o (rows_of d (table_of o))
      then Some (map_imap (fun name t =>
                   Some (t, if decide (name = table_of o) then map (row_op o) (rows_of d name)
                            else rows_of d name)) s)
      else None
  | None => None
  end.

(** ** The interface *)

(** [op_text_params text]: the bind parameters SQLAlchemy finds in a text. *)
Class Alembic (D : Type) : Type := {
  db_tables : D -> Tables;
  op_text_params : string -> list string;
  op_run : Op -> D -> res D;
}.

Definition op_texts (o : Op) : list string :=
  match o with execute_update _ _ texts => texts | _ => [] end.

(** The first parameter of a statement that has no value. *)
Definition unbound `{Alembic D} (o : Op) : option string := head (concat (map op_text_params (op_texts o))).

Definition unbound_error (name : string) : exn :=
  StatementError ("A value is required for bind parameter " +:+ str_repr name).

Class AlembicLaws (D : Type) `{Alembic D} : Prop := {
  op_run_unbound o p d : unbound o = Some p -> op_run o d = Raise (unbound_error p);
  op_run_effect o d s : unbound o = None -> apply_op o (db_tables d) = Some s ->
    exists d', op_run o d = Ok d' /\ db_tables d' = s;
}.
