(* ===== verification/Migrations.v ===== *)
(** * Schema migrations ([alembic/versions], [persistence/tables.py])

    The six revisions, the order they run in, and the tables the program
    declares. *)
From Stdlib Require Import ZArith Ascii String.
From stdpp Require Import gmap strings.
From S2P Require Import Prelude Values UuidText Ddl.
Open Scope string_scope.
Open Scope list_scope.

(** ** Runtime prep tables *)
Definition upgrade_0001 : list Op := [
  new_table "patch_panels"
    [column "id" TString false;
     column "version" TString false;
     column "definition" TJSON false;
     column "created_at" TDateTime false]
    ["id"; "version"] [];
  new_table "cards"
    [column "id" TUuid false;
     column "workflow_version" TString false;
     column "current_bucket" TString false;
     column "payload" TJSON false;
     column "card_metadata" TJSON false;
     column "created_at" TDateTime false]
    ["id"] [];
  new_table "idempotency_records"
    [column "key" TString false;
     column "operation" TString false;
     column "response_ref" TText false;
     column "created_at" TDateTime false]
    ["key"] [];
  new_table "artifacts"
    [column "id" TUuid false;
     column "card_id" TUuid false;
     column "node_id" TString false;
     column "worker_id" TString true;
     column "payload" TJSON false;
     column "created_at" TDateTime false]
    ["id"] [ForeignKeyConstraint ["card_id"] "cards" ["id"]];
  new_table "card_events"
    [column "id" TUuid false;
     column "card_id" TUuid false;
     column "event_type" TString false;
     column "actor_id" TString true;
     column "payload" TJSON false;
     column "occurred_at" TDateTime false]
    ["id"] [ForeignKeyConstraint ["card_id"] "cards" ["id"]];
  new_table "leases"
    [column "id" TUuid false;
     column "card_id" TUuid false;
     column "node_id" TString false;
     column "worker_id" TString false;
     column "input_pipe" TString false;
     column "claimed_at" TDateTime false;
     column "expires_at" TDateTime false;
     column "released_at" TDateTime true]
    ["id"] [ForeignKeyConstraint ["card_id"] "cards" ["id"]]
].

Definition downgrade_0001 : list Op := [
  drop_table "leases";
  drop_table "card_events";
  drop_table "artifacts";
  drop_table "idempotency_records";
  drop_table "cards";
  drop_table "patch_panels"
].

(** ** Phase 2 runtime state tables *)
Definition upgrade_0002 : list Op := [
  new_table "workflow_versions"
    [column "id" TString false;
     column "patch_panel_id" TString false;
     column "version" TString false;
     column "active" TBoolean false;
     column "created_at" TDateTime false]
    ["id"] [];
  new_table "buckets"
    [column "workflow_version" TString false;
     column "id" TString false;
     column "definition" TJSON false;
     column "created_at" TDateTime false]
    ["workflow_version"; "id"] [ForeignKeyConstraint ["workflow_version"] "workflow_versions" ["id"]];
  new_table "card_locations"
    [column "id" TUuid false;
     column "card_id" TUuid false;
     column "bucket" TString false;
     column "status" TString false;
     column "entered_at" TDateTime false;
     column "accepted_at" TDateTime true;
     column "exited_at" TDateTime true]
    ["id"] [ForeignKeyConstraint ["card_id"] "cards" ["id"]];
  new_table "validation_results"
    [column "id" TUuid false;
     column "card_id" TUuid false;
     column "validator_id" TString false;
     column "accepted" TBoolean false;
     column "reason" TText true;
     column "payload" TJSON false;
     column "created_at" TDateTime false]
    ["id"] [ForeignKeyConstraint ["card_id"] "cards" ["id"]]
].

Definition downgrade_0002 : list Op := [
  drop_table "validation_results";
  drop_table "card_locations";
  drop_table "buckets";
  drop_table "workflow_versions"
].

(** ** Shadow and mutation tables *)
Definition upgrade_0003 : list Op := [
  new_table "shadow_card_links"
    [column "id" TUuid false;
     column "production_card_id" TUuid false;
     column "shadow_card_id" TUuid false;
     column "candidate_id" TString false;
     column "status" TString false;
     column "metrics" TJSON false;
     column "created_at" TDateTime false]
    ["id"] [ForeignKeyConstraint ["production_card_id"] "cards" ["id"];
     ForeignKeyConstraint ["shadow_card_id"] "cards" ["id"]];
  new_table "proposed_mutations"
    [column "id" TUuid false;
     column "mutation_type" TString false;
     column "proposed_by" TString false;
     column "payload" TJSON false;
     column "status" TString false;
     column "created_at" TDateTime false;
     column "validated_at" TDateTime true;
     column "promoted_at" TDateTime true]
    ["id"] []
].

Definition downgrade_0003 : list Op := [
  drop_table "proposed_mutations";
  drop_table "shadow_card_links"
].

(** Zeroes. *)
Fixpoint str_repeat (s : string) (n : nat) : string :=
  match n with O => "" | S n' => s +:+ str_repeat s n' end.

Definition LEGACY_HASH : string := "sha256:" +:+ str_repeat "0" 64.
Definition storage_ref_text : string := "'legacy-postgres-artifact:' || id::text".
(** A quotation mark; strings hold none of their own. *)
Definition quot : string := String "034" "".
Definition artifact_metadata_text : string :=
  "'{" +:+ quot +:+ "migration" +:+ quot +:+ ":" +:+ quot +:+ "legacy_payload_removed" +:+ quot +:+ ", " +:+
  quot +:+ "requires_manual_rehydration" +:+ quot +:+ ":true}'::json".
Definition legacy_payload_text : string :=
  "UPDATE artifacts SET payload = '{}'::json, node_id = 'legacy_external_store'".

(** ** Artifact references instead of payload content *)
(** Every artifact gets a reference to its former row. *)
Definition references_update : Op :=
  execute_update "artifacts"
    [("storage_ref", TextOf "legacy-postgres-artifact:" "id");
     ("content_hash", Lit (SText LEGACY_HASH));
     ("content_type", Lit (SText "application/json"));
     ("size_bytes", Lit (SInt 0));
     ("artifact_metadata", Lit (SJson (VDict [("migration", VStr "legacy_payload_removed");
                                              ("requires_manual_rehydration", VBool true)])))]
    [storage_ref_text; artifact_metadata_text].
Definition payload_update : Op :=
  execute_update "artifacts"
    [("payload", Lit (SJson (VDict []))); ("node_id", Lit (SText "legacy_external_store"))]
    [legacy_payload_text].

Definition upgrade_0004 : list Op := [
  add_column "artifacts" "event_id" (mkColumn TUuid true);
  add_column "artifacts" "storage_ref" (mkColumn TText true);
  add_column "artifacts" "content_hash" (mkColumn TString true);
  add_column "artifacts" "content_type" (mkColumn TString true);
  add_column "artifacts" "size_bytes" (mkColumn TInteger true);
  add_column "artifacts" "artifact_metadata" (mkColumn TJSON true);
  references_update;
  alter_column "artifacts" "storage_ref" false;
  alter_column "artifacts" "content_hash" false;
  alter_column "artifacts" "content_type" false;
  alter_column "artifacts" "size_bytes" false;
  alter_column "artifacts" "artifact_metadata" false;
  drop_column "artifacts" "payload";
  drop_column "artifacts" "node_id";
  drop_column "artifacts" "worker_id"
].

Definition downgrade_0004 : list Op := [
  add_column "artifacts" "worker_id" (mkColumn TString true);
  add_column "artifacts" "node_id" (mkColumn TString true);
  add_column "artifacts" "payload" (mkColumn TJSON true);
  payload_update;
  alter_column "artifacts" "payload" false;
  alter_column "artifacts" "node_id" false;
  drop_column "artifacts" "artifact_metadata";
  drop_column "artifacts" "size_bytes";
  drop_column "artifacts" "content_type";
  drop_column "artifacts" "content_hash";
  drop_column "artifacts" "storage_ref";
  drop_column "artifacts" "event_id"
].

(** [(participant_id IS NOT NULL AND role_id IS NULL) OR (participant_id IS
    NULL AND role_id IS NOT NULL)]. *)
Definition one_target : Condition :=
  Or (And (IsNotNull "participant_id") (IsNull "role_id"))
     (And (IsNull "participant_id") (IsNotNull "role_id")).

(** ** Participant authority tables *)
Definition upgrade_0005 : list Op := [
  new_table "participants"
    [column "id" TString false;
     column "type" TString false;
     column "display_name" TString true;
     column "status" TString false;
     column "trust_level" TString true;
     column "auth_method" TString true;
     column "participant_metadata" TJSON false;
     column "created_at" TDateTime false;
     column "archived_at" TDateTime true]
    ["id"] [];
  new_table "roles"
    [column "id" TString false;
     column "name" TString false;
     column "description" TText true;
     column "role_metadata" TJSON false;
     column "created_at" TDateTime false]
    ["id"] [UniqueConstraint ["name"]];
  new_table "participant_roles"
    [column "id" TUuid false;
     column "participant_id" TString false;
     column "role_id" TString false;
     column "scope_type" TString false;
     column "scope_id" TString true;
     column "assigned_by" TString true;
     column "expires_at" TDateTime true;
     column "created_at" TDateTime false;
     column "revoked_at" TDateTime true;
     column "assignment_metadata" TJSON false]
    ["id"] [ForeignKeyConstraint ["assigned_by"] "participants" ["id"];
     ForeignKeyConstraint ["participant_id"] "participants" ["id"];
     ForeignKeyConstraint ["role_id"] "roles" ["id"]];
  new_table "permission_grants"
    [column "id" TUuid false;
     column "participant_id" TString true;
     column "role_id" TString true;
     column "permission" TString false;
     column "scope_type" TString false;
     column "scope_id" TString true;
     column "granted_by" TString true;
     column "expires_at" TDateTime true;
     column "created_at" TDateTime false;
     column "revoked_at" TDateTime true;
     column "grant_metadata" TJSON false]
    ["id"] [CheckConstraint one_target "ck_permission_grants_one_target";
     ForeignKeyConstraint ["granted_by"] "participants" ["id"];
     ForeignKeyConstraint ["participant_id"] "participants" ["id"];
     ForeignKeyConstraint ["role_id"] "roles" ["id"]];
  new_table "authorization_audit_events"
    [column "id" TUuid false;
     column "action" TString false;
     column "participant_id" TString true;
     column "permission" TString true;
     column "scope_type" TString true;
     column "scope_id" TString true;
     column "allowed" TBoolean true;
     column "reason" TText true;
     column "request_ref" TText true;
     column "target_ref" TText true;
     column "event_metadata" TJSON false;
     column "created_at" TDateTime false]
    ["id"] [ForeignKeyConstraint ["participant_id"] "participants" ["id"]];
  new_table "patch_panel_registry_entries"
    [column "id" TUuid false;
     column "patch_panel_id" TString false;
     column "version" TString false;
     column "name" TString false;
     column "description" TText true;
     column "tags" TJSON false;
     column "input_types" TJSON false;
     column "output_types" TJSON false;
     column "required_tools" TJSON false;
     column "required_permissions" TJSON false;
     column "risk_level" TString true;
     column "estimated_cost" TString true;
     column "estimated_latency" TString true;
     column "owner_participant_id" TString true;
     column "status" TString false;
     column "supersedes_entry_id" TUuid true;
     column "registry_metadata" TJSON false;
     column "created_at" TDateTime false;
     column "updated_at" TDateTime false;
     column "archived_at" TDateTime true]
    ["id"] [ForeignKeyConstraint ["owner_participant_id"] "participants" ["id"];
     ForeignKeyConstraint ["supersedes_entry_id"] "patch_panel_registry_entries" ["id"]];
  add_column "leases" "participant_id" (mkColumn TString true);
  create_foreign_key "fk_leases_participant_id_participants" "leases"
    (mkForeignKey ["participant_id"] "participants" ["id"]);
  add_column "validation_results" "participant_id" (mkColumn TString true);
  create_foreign_key "fk_validation_results_participant_id_participants" "validation_results"
    (mkForeignKey ["participant_id"] "participants" ["id"]);
  add_column "card_events" "participant_id" (mkColumn TString true);
  create_foreign_key "fk_card_events_participant_id_participants" "card_events"
    (mkForeignKey ["participant_id"] "participants" ["id"]);
  add_column "proposed_mutations" "participant_id" (mkColumn TString true);
  create_foreign_key "fk_proposed_mutations_participant_id_participants" "proposed_mutations"
    (mkForeignKey ["participant_id"] "participants" ["id"])
].

Definition downgrade_0005 : list Op := [
  drop_constraint "fk_proposed_mutations_participant_id_participants" "proposed_mutations";
  drop_column "proposed_mutations" "participant_id";
  drop_constraint "fk_card_events_participant_id_participants" "card_events";
  drop_column "card_events" "participant_id";
  drop_constraint "fk_validation_results_participant_id_participants" "validation_results";
  drop_column "validation_results" "participant_id";
  drop_constraint "fk_leases_participant_id_participants" "leases";
  drop_column "leases" "participant_id";
  drop_table "patch_panel_registry_entries";
  drop_table "authorization_audit_events";
  drop_table "permission_grants";
  drop_table "participant_roles";
  drop_table "roles";
  drop_table "participants"
].

(** ** The output pipe of a validator *)
Definition upgrade_0006 : list Op := [
  add_column "validation_results" "output_pipe" (mkColumn TString true)
].

Definition downgrade_0006 : list Op := [
  drop_column "validation_results" "output_pipe"
].

(** ** The revisions *)
Record Revision : Type := mkRevision {
  revision : string;
  down_revision : option string;
  upgrade : list Op;
  downgrade : list Op;
}.

Definition revision_0001 : Revision :=
  mkRevision "20260514_0001" None upgrade_0001 downgrade_0001.
Definition revision_0002 : Revision :=
  mkRevision "20260514_0002" (Some "20260514_0001") upgrade_0002 downgrade_0002.
Definition revision_0003 : Revision :=
  mkRevision "20260514_0003" (Some "20260514_0002") upgrade_0003 downgrade_0003.
Definition revision_0004 : Revision :=
  mkRevision "20260514_0004" (Some "20260514_0003") upgrade_0004 downgrade_0004.
Definition revision_0005 : Revision :=
  mkRevision "20260514_0005" (Some "20260514_0004") upgrade_0005 downgrade_0005.
Definition revision_0006 : Revision :=
  mkRevision "20260514_0006" (Some "20260514_0005") upgrade_0006 downgrade_0006.

Definition revisions : list Revision :=
  [revision_0001; revision_0002; revision_0003; revision_0004; revision_0005; revision_0006].

(** The revisions above [current], each on top of the one before: the one
    whose [down_revision] it is. *)
Fixpoint revisions_above (n : nat) (current : option string) : list Revision :=
  match n with
  | O => []
  | S n' =>
      match py_next (fun r => bool_decide (down_revision r = current)) revisions with
      | Some r => r :: revisions_above n' (Some (revision r))
      | None => []
      end
  end.
Definition pending (current : option string) : list Revision :=
  revisions_above (length revisions) current.

Section env.
Context {D : Type} `{Alembic D}.

Fixpoint run_ops (ops : list Op) (d : D) : res D :=
  match ops with
  | [] => Ok d
  | o :: ops' => d' ← op_run o d; run_ops ops' d'
  end.

(** [context.run_migrations()] in one transaction ([alembic/env.py]): the
    database after it, and whether it raised, in which case nothing of it
    stays. *)
Definition transaction (ops : list Op) (d : D) : res () * D :=
  match run_ops ops d with Ok d' => (Ok tt, d') | Raise e => (Raise e, d) end.

(** [alembic upgrade head] and [alembic downgrade current]. *)
Definition upgrade_head (current : option string) : D -> res () * D :=
  transaction (concat (map upgrade (pending current))).
Definition downgrade_to (current : option string) : D -> res () * D :=
  transaction (concat (map downgrade (rev (pending current)))).
End env.

(** ** The declared tables ([persistence/tables.py]) *)
Inductive ColumnFlag : Type :=
  | PrimaryKey | Nullable | Unique | References (table column : string).
#[export] Instance ColumnFlag_eq_dec : EqDecision ColumnFlag.
Proof. solve_decision. Defined.

Record MetaColumn : Type := Column_ {
  mc_name : string;
  mc_type : ColumnType;
  mc_flags : list ColumnFlag;
}.

(** [Column(...)] in a [Table(...)]: a primary key is never null. *)
Definition meta_constraints (c : MetaColumn) : list Constraint :=
  flat_map (fun f => match f with
                     | References t r => [ForeignKeyConstraint [mc_name c] t [r]]
                     | Unique => [UniqueConstraint [mc_name c]]
                     | _ => [] end) (mc_flags c).

Definition metadata_table (name : string) (columns : list MetaColumn) (checks : list Constraint) : Table :=
  fold_left (add_constraint name) (flat_map meta_constraints columns ++ checks)
    (mkTable (list_to_map (map (fun c => (mc_name c, mkColumn (mc_type c) (bool_decide (Nullable ∈ mc_flags c)))) columns))
       (map mc_name (py_filter (fun c => bool_decide (PrimaryKey ∈ mc_flags c)) columns)) [] ∅ ∅).

Definition patch_panels_table : Table := metadata_table "patch_panels" [
  Column_ "id" TString [PrimaryKey];
  Column_ "version" TString [PrimaryKey];
  Column_ "definition" TJSON [];
  Column_ "created_at" TDateTime []] [].

Definition participants_table : Table := metadata_table "participants" [
  Column_ "id" TString [PrimaryKey];
  Column_ "type" TString [];
  Column_ "display_name" TString [Nullable];
  Column_ "status" TString [];
  Column_ "trust_level" TString [Nullable];
  Column_ "auth_method" TString [Nullable];
  Column_ "participant_metadata" TJSON [];
  Column_ "created_at" TDateTime [];
  Column_ "archived_at" TDateTime [Nullable]] [].

Definition roles_table : Table := metadata_table "roles" [
  Column_ "id" TString [PrimaryKey];
  Column_ "name" TString [Unique];
  Column_ "description" TText [Nullable];
  Column_ "role_metadata" TJSON [];
  Column_ "created_at" TDateTime []] [].

Definition participant_roles_table : Table := metadata_table "participant_roles" [
  Column_ "id" TUuid [PrimaryKey];
  Column_ "participant_id" TString [References "participants" "id"];
  Column_ "role_id" TString [References "roles" "id"];
  Column_ "scope_type" TString [];
  Column_ "scope_id" TString [Nullable];
  Column_ "assigned_by" TString [Nullable; References "participants" "id"];
  Column_ "expires_at" TDateTime [Nullable];
  Column_ "created_at" TDateTime [];
  Column_ "revoked_at" TDateTime [Nullable];
  Column_ "assignment_metadata" TJSON []] [].

Definition permission_grants_table : Table := metadata_table "permission_grants" [
  Column_ "id" TUuid [PrimaryKey];
  Column_ "participant_id" TString [Nullable; References "participants" "id"];
  Column_ "role_id" TString [Nullable; References "roles" "id"];
  Column_ "permission" TString [];
  Column_ "scope_type" TString [];
  Column_ "scope_id" TString [Nullable];
  Column_ "granted_by" TString [Nullable; References "participants" "id"];
  Column_ "expires_at" TDateTime [Nullable];
  Column_ "created_at" TDateTime [];
  Column_ "revoked_at" TDateTime [Nullable];
  Column_ "grant_metadata" TJSON []] [CheckConstraint one_target "ck_permission_grants_one_target"].

Definition authorization_audit_events_table : Table := metadata_table "authorization_audit_events" [
  Column_ "id" TUuid [PrimaryKey];
  Column_ "action" TString [];
  Column_ "participant_id" TString [Nullable; References "participants" "id"];
  Column_ "permission" TString [Nullable];
  Column_ "scope_type" TString [Nullable];
  Column_ "scope_id" TString [Nullable];
  Column_ "allowed" TBoolean [Nullable];
  Column_ "reason" TText [Nullable];
  Column_ "request_ref" TText [Nullable];
  Column_ "target_ref" TText [Nullable];
  Column_ "event_metadata" TJSON [];
  Column_ "created_at" TDateTime []] [].

Definition patch_panel_registry_entries_table : Table := metadata_table "patch_panel_registry_entries" [
  Column_ "id" TUuid [PrimaryKey];
  Column_ "patch_panel_id" TString [];
  Column_ "version" TString [];
  Column_ "name" TString [];
  Column_ "description" TText [Nullable];
  Column_ "tags" TJSON [];
  Column_ "input_types" TJSON [];
  Column_ "output_types" TJSON [];
  Column_ "required_tools" TJSON [];
  Column_ "required_permissions" TJSON [];
  Column_ "risk_level" TString [Nullable];
  Column_ "estimated_cost" TString [Nullable];
  Column_ "estimated_latency" TString [Nullable];
  Column_ "owner_participant_id" TString [Nullable; References "participants" "id"];
  Column_ "status" TString [];
  Column_ "supersedes_entry_id" TUuid [Nullable; References "patch_panel_registry_entries" "id"];
  Column_ "registry_metadata" TJSON [];
  Column_ "created_at" TDateTime [];
  Column_ "updated_at" TDateTime [];
  Column_ "archived_at" TDateTime [Nullable]] [].

Definition workflow_versions_table : Table := metadata_table "workflow_versions" [
  Column_ "id" TString [PrimaryKey];
  Column_ "patch_panel_id" TString [];
  Column_ "version" TString [];
  Column_ "active" TBoolean [];
  Column_ "created_at" TDateTime []] [].

Definition buckets_table : Table := metadata_table "buckets" [
  Column_ "workflow_version" TString [PrimaryKey; References "workflow_versions" "id"];
  Column_ "id" TString [PrimaryKey];
  Column_ "definition" TJSON [];
  Column_ "created_at" TDateTime []] [].

Definition cards_table : Table := metadata_table "cards" [
  Column_ "id" TUuid [PrimaryKey];
  Column_ "workflow_version" TString [];
  Column_ "current_bucket" TString [];
  Column_ "payload" TJSON [];
  Column_ "card_metadata" TJSON [];
  Column_ "created_at" TDateTime []] [].

Definition card_locations_table : Table := metadata_table "card_locations" [
  Column_ "id" TUuid [PrimaryKey];
  Column_ "card_id" TUuid [References "cards" "id"];
  Column_ "bucket" TString [];
  Column_ "status" TString [];
  Column_ "entered_at" TDateTime [];
  Column_ "accepted_at" TDateTime [Nullable];
  Column_ "exited_at" TDateTime [Nullable]] [].

Definition leases_table : Table := metadata_table "leases" [
  Column_ "id" TUuid [PrimaryKey];
  Column_ "card_id" TUuid [References "cards" "id"];
  Column_ "node_id" TString [];
  Column_ "worker_id" TString [];
  Column_ "participant_id" TString [Nullable; References "participants" "id"];
  Column_ "input_pipe" TString [];
  Column_ "claimed_at" TDateTime [];
  Column_ "expires_at" TDateTime [];
  Column_ "released_at" TDateTime [Nullable]] [].

Definition validation_results_table : Table := metadata_table "validation_results" [
  Column_ "id" TUuid [PrimaryKey];
  Column_ "card_id" TUuid [References "cards" "id"];
  Column_ "validator_id" TString [];
  Column_ "participant_id" TString [Nullable; References "participants" "id"];
  Column_ "accepted" TBoolean [];
  Column_ "reason" TText [Nullable];
  Column_ "output_pipe" TString [Nullable];
  Column_ "payload" TJSON [];
  Column_ "created_at" TDateTime []] [].

Definition artifacts_table : Table := metadata_table "artifacts" [
  Column_ "id" TUuid [PrimaryKey];
  Column_ "card_id" TUuid [References "cards" "id"];
  Column_ "event_id" TUuid [Nullable];
  Column_ "storage_ref" TText [];
  Column_ "content_hash" TString [];
  Column_ "content_type" TString [];
  Column_ "size_bytes" TInteger [];
  Column_ "artifact_metadata" TJSON [];
  Column_ "created_at" TDateTime []] [].

Definition card_events_table : Table := metadata_table "card_events" [
  Column_ "id" TUuid [PrimaryKey];
  Column_ "card_id" TUuid [References "cards" "id"];
  Column_ "event_type" TString [];
  Column_ "actor_id" TString [Nullable];
  Column_ "participant_id" TString [Nullable; References "participants" "id"];
  Column_ "payload" TJSON [];
  Column_ "occurred_at" TDateTime []] [].

Definition idempotency_records_table : Table := metadata_table "idempotency_records" [
  Column_ "key" TString [PrimaryKey];
  Column_ "operation" TString [];
  Column_ "response_ref" TText [];
  Column_ "created_at" TDateTime []] [].

Definition shadow_card_links_table : Table := metadata_table "shadow_card_links" [
  Column_ "id" TUuid [PrimaryKey];
  Column_ "production_card_id" TUuid [References "cards" "id"];
  Column_ "shadow_card_id" TUuid [References "cards" "id"];
  Column_ "candidate_id" TString [];
  Column_ "status" TString [];
  Column_ "metrics" TJSON [];
  Column_ "created_at" TDateTime []] [].

Definition proposed_mutations_table : Table := metadata_table "proposed_mutations" [
  Column_ "id" TUuid [PrimaryKey];
  Column_ "mutation_type" TString [];
  Column_ "proposed_by" TString [];
  Column_ "participant_id" TString [Nullable; References "participants" "id"];
  Column_ "payload" TJSON [];
  Column_ "status" TString [];
  Column_ "created_at" TDateTime [];
  Column_ "validated_at" TDateTime [Nullable];
  Column_ "promoted_at" TDateTime [Nullable]] [].

Definition metadata : gmap string Table := list_to_map [
  ("patch_panels", patch_panels_table);
  ("participants", participants_table);
  ("roles", roles_table);
  ("participant_roles", participant_roles_table);
  ("permission_grants", permission_grants_table);
  ("authorization_audit_events", authorization_audit_events_table);
  ("patch_panel_registry_entries", patch_panel_registry_entries_table);
  ("workflow_versions", workflow_versions_table);
  ("buckets", buckets_table);
  ("cards", cards_table);
  ("card_locations", card_locations_table);
  ("leases", leases_table);
  ("validation_results", validation_results_table);
  ("artifacts", artifacts_table);
  ("card_events", card_events_table);
  ("idempotency_records", idempotency_records_table);
  ("shadow_card_links", shadow_card_links_table);
  ("proposed_mutations", proposed_mutations_table)
].
