(* ===== verification/MigrationTheorems.v ===== *)
(** * The migrations are safe

    A static check of a sequence of operations against the catalogue: which
    columns exist and what constrains them, and which hold only nulls or
    none. It is sound: what it accepts runs on every database of the
    catalogue, and keeps it well typed. The six revisions pass it, in both
    directions. *)
From Stdlib Require Import ZArith Ascii String.
From stdpp Require Import gmap strings.
From S2P Require Import Prelude Values UuidText Ddl Migrations.
Open Scope string_scope.
Open Scope list_scope.

(** ** Well-typed databases *)
Definition value_ok (_ : string) (col : Column) (v : SqlValue) : Prop :=
  has_type (cl_type col) v = true /\ (v = SNull -> cl_nullable col = true).

(** A row has exactly the columns of its table, with values of their types. *)
Definition row_ok (t : Table) (r : Row) : Prop := map_Forall2 value_ok (tb_columns t) r.

Definition proj (key : list string) (r : Row) : list (option SqlValue) := map (fun c => r !! c) key.
Definition null_in (key : list string) (r : Row) : bool := existsb (fun c => has_null c r) key.

Fixpoint condition_holds (c : Condition) (r : Row) : bool :=
  match c with
  | IsNull x => has_null x r
  | IsNotNull x => negb (has_null x r)
  | And a b => condition_holds a r && condition_holds b r
  | Or a b => condition_holds a r || condition_holds b r
  end.

(** A foreign key with a null refers to nothing; otherwise the row is there. *)
Definition fk_holds (d : Tables) (fk : ForeignKey) (r : Row) : Prop :=
  null_in (fk_columns fk) r = true \/
  exists q, q ∈ rows_of d (fk_table fk) /\ proj (fk_referred fk) q = proj (fk_columns fk) r.

Record table_wf (d : Tables) (t : Table) (rows : list Row) : Prop := {
  wf_rows r : r ∈ rows -> row_ok t r;
  wf_keys key : is_key t key = true ->
    NoDup (map (proj key) (py_filter (fun r => negb (null_in key r)) rows));
  wf_checks n c r : tb_checks t !! n = Some c -> r ∈ rows -> condition_holds c r = true;
  wf_fks n fk r : tb_foreign_keys t !! n = Some fk -> r ∈ rows -> fk_holds d fk r;
}.

Definition well_typed (d : Tables) : Prop :=
  forall name t rows, d !! name = Some (t, rows) -> table_wf d t rows.

(** ** The static check *)

(** [true]: the column holds only nulls; [false]: it holds none. *)
Abbreviation Facts := (gmap (string * string) bool).

Definition facts_hold (f : Facts) (d : Tables) : Prop :=
  forall t c b, f !! (t, c) = Some b -> forall r, r ∈ rows_of d t -> has_null c r = b.

Definition null_expr (e : Expr) : bool := match e with Lit SNull => true | _ => false end.

Definition facts_op (o : Op) (f : Facts) : Facts :=
  match o with
  | add_column t c _ => <[(t, c) := true]> f
  | drop_column t c => delete (t, c) f
  | execute_update t values _ =>
      fold_left (fun f kv => <[(t, kv.1) := null_expr kv.2]> f) values f
  | _ => f
  end.

Definition facts_allow (o : Op) (s : gmap string Table) (f : Facts) : bool :=
  match o with
  | add_column _ _ col => cl_nullable col
  | alter_column t c nullable => nullable || bool_decide (f !! (t, c) = Some false)
  | create_foreign_key _ t fk => existsb (fun c => bool_decide (f !! (t, c) = Some true)) (fk_columns fk)
  | _ => true
  end.

Definition check_op (o : Op) (sf : gmap string Table * Facts) : option (gmap string Table * Facts) :=
  match schema_op o sf.1 with
  | Some s' => if facts_allow o sf.1 sf.2 then Some (s', facts_op o sf.2) else None
  | None => None
  end.

Fixpoint check_ops (ops : list Op) (sf : gmap string Table * Facts) : option (gmap string Table * Facts) :=
  match ops with
  | [] => Some sf
  | o :: ops' => match check_op o sf with Some sf' => check_ops ops' sf' | None => None end
  end.

(** ** Columns an operation touches *)
Definition touched (o : Op) : list string :=
  match o with
  | add_column _ c _ | drop_column _ c => [c]
  | execute_update _ values _ => map fst values
  | _ => []
  end.

Lemma set_columns_other values (r0 r : Row) c : c ∉ map fst values ->
  fold_left (fun (r' : Row) kv => <[kv.1 := eval r0 kv.2]> r') values r !! c = r !! c.
Proof.
  revert r. induction values as [|[k e] values IH]; intros r Hc; [done|]. cbn in *.
  apply not_elem_of_cons in Hc as [Hk Hc]. rewrite IH by done. by rewrite lookup_insert_ne.
Qed.

Lemma row_op_other o r c : c ∉ touched o -> row_op o r !! c = r !! c.
Proof.
  destruct o; cbn; try done.
  - intros Hc%not_elem_of_cons. by rewrite lookup_insert_ne by naive_solver.
  - intros Hc%not_elem_of_cons. by rewrite lookup_delete_ne by naive_solver.
  - apply set_columns_other.
Qed.

(** Touched columns are free of constraints. *)
Lemma not_str_in c key : existsb (fun k => str_in c k) key = false -> forall k, k ∈ key -> c ∉ k.
Proof.
  intros He k Hk Hc. assert (existsb (fun k => str_in c k) key = true); [|congruence].
  apply existsb_exists. exists k. split; [by apply list_elem_of_In|]. by apply bool_decide_eq_true.
Qed.

Lemma unconstrained_key s name t c key : unconstrained s name t c = true -> is_key t key = true -> c ∉ key.
Proof.
  intros [Hown%negb_true_iff _]%andb_true_iff Hkey. apply (not_str_in _ _ Hown).
  apply orb_true_iff in Hkey as [->%bool_decide_eq_true|Hu%bool_decide_eq_true]; [by left|].
  right. apply elem_of_app. by left.
Qed.

Lemma unconstrained_check s name t c n k : unconstrained s name t c = true ->
  tb_checks t !! n = Some k -> c ∉ condition_columns k.
Proof.
  intros [Hown%negb_true_iff _]%andb_true_iff Hk. apply (not_str_in _ _ Hown).
  right. apply elem_of_app. right. apply elem_of_app. left.
  apply list_elem_of_fmap. exists (n, k). split; [done|]. by apply elem_of_map_to_list.
Qed.

Lemma unconstrained_fk s name t c n fk : unconstrained s name t c = true ->
  tb_foreign_keys t !! n = Some fk -> c ∉ fk_columns fk.
Proof.
  intros [Hown%negb_true_iff _]%andb_true_iff Hk. apply (not_str_in _ _ Hown).
  right. apply elem_of_app. right. apply elem_of_app. right.
  apply list_elem_of_fmap. exists (n, fk). split; [done|]. by apply elem_of_map_to_list.
Qed.

Lemma unconstrained_referred s name t c name' t' n fk : unconstrained s name t c = true ->
  s !! name' = Some t' -> tb_foreign_keys t' !! n = Some fk -> fk_table fk = name -> c ∉ fk_referred fk.
Proof.
  intros [_ Href%negb_true_iff]%andb_true_iff Ht' Hfk Hname Hc.
  assert (existsb (fun nt => existsb (fun kv => bool_decide (fk_table kv.2 = name) && str_in c (fk_referred kv.2))
    (map_to_list (tb_foreign_keys nt.2))) (map_to_list s) = true); [|congruence].
  apply existsb_exists. exists (name', t'). split; [by apply list_elem_of_In, elem_of_map_to_list|].
  apply existsb_exists. exists (n, fk). split; [by apply list_elem_of_In, elem_of_map_to_list|].
  apply andb_true_iff. split; by apply bool_decide_eq_true.
Qed.

Lemma touched_free o s s' t c : schema_op o s = Some s' -> s !! table_of o = Some t -> c ∈ touched o ->
  unconstrained s (table_of o) t c = true.
Proof.
  intros Hop Ht Hc. destruct o; cbn in *; try (by apply elem_of_nil in Hc); rewrite Ht in Hop; cbn in Hop.
  1,2: apply list_elem_of_singleton in Hc as ->; destruct (_ && _) eqn:E in Hop; [|done];
    by apply andb_true_iff in E as [_ E].
  destruct (forallb _ _) eqn:E in Hop; [|done]. apply list_elem_of_fmap in Hc as [[k e] [-> Hk]].
  eapply forallb_forall in E; [|by apply list_elem_of_In]. cbn in E.
  destruct (tb_columns t !! k); [|done]. by apply andb_true_iff in E as [_ E].
Qed.

(** ** What the rows keep *)
Lemma proj_same o key r : (forall c, c ∈ key -> c ∉ touched o) -> proj key (row_op o r) = proj key r.
Proof.
  intros Hk. apply map_ext_in. intros c Hc%list_elem_of_In. by apply row_op_other, Hk.
Qed.

Lemma has_null_same o c r : c ∉ touched o -> has_null c (row_op o r) = has_null c r.
Proof. intros Hc. unfold has_null. by rewrite row_op_other. Qed.

Lemma null_in_same o key r : (forall c, c ∈ key -> c ∉ touched o) -> null_in key (row_op o r) = null_in key r.
Proof.
  intros Hk. unfold null_in. induction key as [|c key IH]; [done|]. cbn.
  rewrite has_null_same by (apply Hk; by left). rewrite IH; [done|]. intros x Hx. apply Hk. by right.
Qed.

Lemma condition_same o k r : (forall c, c ∈ condition_columns k -> c ∉ touched o) ->
  condition_holds k (row_op o r) = condition_holds k r.
Proof.
  induction k as [x|x|a IHa b IHb|a IHa b IHb]; cbn; intros Hk;
    [by rewrite has_null_same by (apply Hk; by left)..| |];
    rewrite IHa, IHb; try done; intros c Hc; apply Hk, elem_of_app; auto.
Qed.

(** Foreign keys hold while the rows they refer to keep their keys. *)
Lemma fk_holds_mono d d' fk r :
  (forall q, q ∈ rows_of d (fk_table fk) ->
     exists q', q' ∈ rows_of d' (fk_table fk) /\ proj (fk_referred fk) q' = proj (fk_referred fk) q) ->
  fk_holds d fk r -> fk_holds d' fk r.
Proof.
  intros Hq [Hnull|[q [Hin Hproj]]]; [by left|]. right. destruct (Hq q Hin) as [q' [Hin' Heq]].
  exists q'. by rewrite Heq.
Qed.

(** ** The tables after an operation *)
Lemma apply_op_schema o d d' : apply_op o d = Some d' -> schema_op o (schema_of d) = Some (schema_of d').
Proof.
  unfold apply_op. destruct (schema_op _ _) as [s|]; [|done]. destruct (rows_allow _ _); [|done].
  intros [= <-]. f_equal. apply map_eq. intros name. unfold schema_of.
  rewrite lookup_fmap, map_lookup_imap. by destruct (s !! name).
Qed.

Lemma apply_op_rows o d d' name t rows : apply_op o d = Some d' -> d' !! name = Some (t, rows) ->
  rows = if decide (name = table_of o) then map (row_op o) (rows_of d name) else rows_of d name.
Proof.
  unfold apply_op. destruct (schema_op _ _) as [s|]; [|done]. destruct (rows_allow _ _); [|done].
  intros [= <-]. rewrite map_lookup_imap. destruct (s !! name); [|done]. cbn. by intros [= _ <-].
Qed.

Lemma schema_lookup d name t rows : d !! name = Some (t, rows) -> schema_of d !! name = Some t.
Proof. unfold schema_of. rewrite lookup_fmap. by intros ->. Qed.

Lemma schema_lookup_inv d name t : schema_of d !! name = Some t -> d !! name = Some (t, rows_of d name).
Proof.
  unfold schema_of, rows_of. rewrite lookup_fmap. destruct (d !! name) as [[t' rows]|]; [|done].
  by intros [= ->].
Qed.

Lemma schema_none d name : schema_of d !! name = None -> rows_of d name = [].
Proof. unfold schema_of, rows_of. rewrite lookup_fmap. by destruct (d !! name). Qed.

Lemma apply_op_rows_of o d d' name : apply_op o d = Some d' -> schema_of d' !! name <> None ->
  rows_of d' name = if decide (name = table_of o) then map (row_op o) (rows_of d name) else rows_of d name.
Proof.
  intros Hop Hs. destruct (schema_of d' !! name) as [t|] eqn:Et; [|done].
  apply schema_lookup_inv in Et. by apply (apply_op_rows _ _ _ _ _ _ Hop) in Et.
Qed.

(** Only the table of the operation changes. *)
Lemma schema_op_other o s s' name : schema_op o s = Some s' -> name <> table_of o -> s' !! name = s !! name.
Proof.
  intros Hop Hne. destruct o; cbn in *;
    repeat match goal with
    | H : (match ?x with Some _ => _ | None => _ end) = Some _ |- _ => destruct x eqn:?; [|done]
    | H : (?x ≫= _) = Some _ |- _ => destruct x eqn:?; [cbn in H|done]
    | H : (if ?b then _ else _) = Some _ |- _ => destruct b eqn:?; [|done] || (destruct b eqn:?; [done|])
    end; simplify_eq; rewrite ?lookup_insert_ne, ?lookup_delete_ne by done; done.
Qed.

(** [o] keeps the constraints of its table but for the foreign key it adds
    or drops. *)
Definition kept_constraints (o : Op) (t t' : Table) : Prop :=
  tb_primary_key t' = tb_primary_key t /\ tb_uniques t' = tb_uniques t /\ tb_checks t' = tb_checks t /\
  forall n fk, tb_foreign_keys t' !! n = Some fk ->
    tb_foreign_keys t !! n = Some fk \/ o = create_foreign_key n (table_of o) fk.

Ltac op_cases H :=
  repeat match type of H with
  | (match ?x with Some _ => _ | None => _ end) = Some _ => destruct x eqn:?; [|done]
  | (?x ≫= _) = Some _ => destruct x eqn:?; [cbn in H|done]
  | (if ?b then _ else _) = Some _ => destruct b eqn:?; [|done] || (destruct b eqn:?; [done|])
  end.

Lemma schema_op_own o s s' t' : schema_op o s = Some s' -> s' !! table_of o = Some t' ->
  s !! table_of o = None \/ exists t, s !! table_of o = Some t /\ kept_constraints o t t'.
Proof.
  intros Hop Ht'. unfold kept_constraints. destruct o; cbn in Hop, Ht'; op_cases Hop; simplify_eq.
  all: try (left; repeat match goal with
         | H : _ && _ = true |- _ => apply andb_true_iff in H as [? ?]
         | H : bool_decide _ = true |- _ => apply bool_decide_eq_true in H end; done).
  all: try (rewrite ?lookup_insert_eq, ?lookup_delete_eq in Ht'; simplify_eq).
  all: right; eexists; split; [done|].
  all: try by repeat split; auto.
  all: repeat split; auto; cbn; intros n fk' Hfk.
  - destruct (decide (n = name)) as [->|Hne].
    + rewrite lookup_insert_eq in Hfk. simplify_eq. by right.
    + rewrite lookup_insert_ne in Hfk by done. by left.
  - apply lookup_delete_Some in Hfk as [_ ?]. by left.
Qed.

(** A column of UUIDs without nulls holds UUIDs. *)
Lemma uuid_column t r c : row_ok t r ->
  match tb_columns t !! c with
  | Some src => bool_decide (cl_type src = TUuid) && negb (cl_nullable src)
  | None => false end = true ->
  exists u, r !! c = Some (SUuid u).
Proof.
  intros Hr Hc. specialize (Hr c). destruct (tb_columns t !! c) as [src|]; [|done].
  apply andb_true_iff in Hc as [Hu%bool_decide_eq_true Hn].
  inversion Hr as [? v [Hv Hnull] Ecol Ev|]; subst. rewrite Hu in Hv.
  destruct v; try done; [by rewrite Hnull in Hn | by eexists].
Qed.

Lemma eval_ok t r e col : row_ok t r -> expr_ok t e col = true -> value_ok "" col (eval r e).
Proof.
  intros Hr He. destruct e as [v|p c]; cbn in He |- *; apply andb_true_iff in He as [Ht Hc].
  - split; [done|]. intros ->. by destruct (cl_nullable col).
  - by destruct (uuid_column t r c Hr Hc) as [u ->].
Qed.

Lemma eval_null t r e col : row_ok t r -> expr_ok t e col = true ->
  match eval r e with SNull => true | _ => false end = null_expr e.
Proof.
  intros Hr He. destruct e as [v|p c]; cbn in He |- *; [by destruct v|].
  apply andb_true_iff in He as [Ht Hc]. by destruct (uuid_column t r c Hr Hc) as [u ->].
Qed.

Lemma set_columns_ok t (r0 : Row) values : row_ok t r0 ->
  forallb (fun kv => match tb_columns t !! kv.1 with
                     | Some col => expr_ok t kv.2 col | None => false end) values = true ->
  row_ok t (set_columns values r0).
Proof.
  intros Hr0. unfold set_columns. generalize Hr0. generalize r0 at 1 3 as r. revert r0 Hr0.
  intros r0 Hr0. induction values as [|[c e] values IH]; intros r Hr Hall; [done|]. cbn in Hall |- *.
  apply andb_true_iff in Hall as [He Hall]. apply IH; [|done].
  destruct (tb_columns t !! c) as [col|] eqn:Ec; [|done].
  unfold row_ok. rewrite <- (insert_id (tb_columns t) c col) by done.
  apply map_Forall2_insert_2; [|done]. eapply eval_ok; done.
Qed.

(** A table's rows follow its columns. *)
Lemma row_ok_op o s s' t t' f r : schema_op o s = Some s' -> facts_allow o s f = true ->
  s !! table_of o = Some t -> s' !! table_of o = Some t' ->
  (forall c, f !! (table_of o, c) = Some false -> has_null c r = false) ->
  row_ok t r -> row_ok t' (row_op o r).
Proof.
  intros Hop Hf Ht Ht' Hfacts Hr. destruct o; cbn in Hop, Hf, Ht, Ht', Hfacts |- *; op_cases Hop; simplify_eq;
    try (rewrite ?lookup_insert_eq, ?lookup_delete_eq in Ht'; simplify_eq).
  - apply andb_true_iff in Heqb as [Hn _]. apply bool_decide_eq_true in Hn. by rewrite Ht in Hn.
  - apply map_Forall2_insert_2; [|done]. split; [by destruct (cl_type c) | done].
  - by apply map_Forall2_delete.
  - pose proof (Hr column) as Hc. rewrite Heqo0 in Hc. inversion Hc as [? v [Hv Hnull] Ecol Ev|]; subst.
    unfold row_ok. cbn. rewrite <- (insert_id r column v) by done.
    apply map_Forall2_insert_2; [|done]. split; [done|]. intros ->. cbn.
    apply orb_true_iff in Hf as [->|Hf]; [done|]. apply bool_decide_eq_true, Hfacts in Hf.
    unfold has_null in Hf. by rewrite <- Ev in Hf.
  - done.
  - done.
  - apply set_columns_ok; [done|]. rewrite forallb_forall in Heqb |- *. intros kv Hin.
    specialize (Heqb kv Hin). destruct (tb_columns _ !! kv.1); [|done].
    by apply andb_true_iff in Heqb as [? _].
Qed.

(** ** Facts about nulls *)
Lemma rows_allowed o s f d : facts_allow o s f = true -> facts_hold f d ->
  rows_allow o (rows_of d (table_of o)) = true.
Proof.
  intros Hf Hfacts. destruct o; cbn in Hf |- *; try done.
  - by rewrite Hf.
  - apply orb_true_iff in Hf as [->|Hf%bool_decide_eq_true]; [done|]. apply orb_true_iff. right.
    apply forallb_forall. intros r Hr%list_elem_of_In. by rewrite (Hfacts _ _ _ Hf r Hr).
  - apply existsb_exists in Hf as [c [Hc Hf%bool_decide_eq_true]].
    apply forallb_forall. intros r Hr%list_elem_of_In. apply existsb_exists. exists c.
    by rewrite (Hfacts _ _ _ Hf r Hr).
Qed.

Lemma rows_after o d d' t r' : apply_op o d = Some d' -> r' ∈ rows_of d' t ->
  exists r, r ∈ rows_of d t /\ r' = if decide (t = table_of o) then row_op o r else r.
Proof.
  intros Hop Hr'. destruct (schema_of d' !! t) as [tb|] eqn:Et; [|by rewrite (schema_none _ _ Et) in Hr'; apply elem_of_nil in Hr'].
  rewrite (apply_op_rows_of _ _ _ t Hop) in Hr' by by rewrite Et. case_decide; [|by exists r'].
  apply list_elem_of_fmap in Hr' as [r [-> Hr]]. by exists r.
Qed.

Lemma facts_other o f t c : t <> table_of o -> facts_op o f !! (t, c) = f !! (t, c).
Proof.
  intros Hne. destruct o; cbn in *; try done.
  - rewrite lookup_insert_ne; [done|congruence].
  - rewrite lookup_delete_ne; [done|congruence].
  - revert f. induction values as [|[k e] values IH]; intros f; [done|]. cbn. rewrite IH.
    rewrite lookup_insert_ne; [done|congruence].
Qed.

Lemma set_columns_null table t (r0 r : Row) values f c b : row_ok t r0 ->
  forallb (fun kv => match tb_columns t !! kv.1 with
                     | Some col => expr_ok t kv.2 col | None => false end) values = true ->
  (f !! (table, c) = Some b -> has_null c r = b) ->
  fold_left (fun (f : Facts) kv => <[(table, kv.1) := null_expr kv.2]> f) values f !! (table, c) = Some b ->
  has_null c (fold_left (fun (r' : Row) kv => <[kv.1 := eval r0 kv.2]> r') values r) = b.
Proof.
  intros Hr0. revert r f. induction values as [|[k e] values IH]; intros r f Hall Hf; cbn in *; [exact Hf|].
  apply andb_true_iff in Hall as [He Hall]. apply IH; [done|]. destruct (decide (c = k)) as [->|Hne].
  - rewrite lookup_insert_eq. intros [= <-]. unfold has_null. rewrite lookup_insert_eq.
    destruct (tb_columns t !! k) as [col|]; [|done]. by apply (eval_null t r0 e col).
  - rewrite lookup_insert_ne by congruence. intros Hb. unfold has_null. rewrite lookup_insert_ne by done.
    by apply Hf.
Qed.

Lemma facts_own o s s' f t c b r : schema_op o s = Some s' -> s !! table_of o = Some t -> row_ok t r ->
  (f !! (table_of o, c) = Some b -> has_null c r = b) ->
  facts_op o f !! (table_of o, c) = Some b -> has_null c (row_op o r) = b.
Proof.
  intros Hop Ht Hr Hf. destruct o; cbn in Hop, Ht, Hf |- *; try exact Hf.
  - unfold has_null. destruct (decide (c = column)) as [->|Hne].
    + rewrite !lookup_insert_eq. by intros [= <-].
    + rewrite !lookup_insert_ne by congruence. apply Hf.
  - unfold has_null. destruct (decide (c = column)) as [->|Hne].
    + by rewrite !lookup_delete_eq.
    + rewrite !lookup_delete_ne by congruence. apply Hf.
  - rewrite Ht in Hop. cbn in Hop. apply set_columns_null with (t := t); [done| |done].
    destruct (forallb _ _) eqn:E in Hop; [|done]. rewrite forallb_forall in E |- *.
    intros kv Hin. specialize (E kv Hin). destruct (tb_columns t !! kv.1); [|done].
    by apply andb_true_iff in E as [? _].
Qed.

Lemma facts_op_hold o f d d' : apply_op o d = Some d' -> well_typed d -> facts_hold f d ->
  facts_hold (facts_op o f) d'.
Proof.
  intros Hop Hwt Hf t c b Hb r' Hr'. pose proof (apply_op_schema _ _ _ Hop) as Hs.
  destruct (rows_after _ _ _ _ _ Hop Hr') as [r [Hr ->]]. case_decide as Ht.
  - subst t. destruct (d !! table_of o) as [[t rows]|] eqn:Ed.
    + apply (facts_own o (schema_of d) (schema_of d') f t); try done.
      * by apply (schema_lookup _ _ _ _ Ed).
      * apply (wf_rows _ _ _ (Hwt _ _ _ Ed)). unfold rows_of in Hr. by rewrite Ed in Hr.
      * intros Hfb. by apply (Hf _ _ _ Hfb).
    + unfold rows_of in Hr. rewrite Ed in Hr. by apply elem_of_nil in Hr.
  - rewrite facts_other in Hb by done. by apply (Hf _ _ _ Hb).
Qed.

(** ** Constraints are kept *)
Lemma schema_op_survives o s s' x : schema_op o s = Some s' -> o <> drop_table x ->
  is_Some (s !! x) -> is_Some (s' !! x).
Proof.
  intros Hop Hdrop Hx. destruct (decide (x = table_of o)) as [->|Hne]; [|by rewrite (schema_op_other _ _ _ _ Hop Hne)].
  destruct o; cbn in Hop, Hdrop, Hx |- *; op_cases Hop; simplify_eq; try done; rewrite lookup_insert_eq; by eexists.
Qed.

(** No other table refers to a table that is dropped. *)
Lemma fk_target_survives o s s' name t n fk : schema_op o s = Some s' -> is_Some (s' !! name) ->
  s !! name = Some t -> tb_foreign_keys t !! n = Some fk -> is_Some (s !! fk_table fk) -> is_Some (s' !! fk_table fk).
Proof.
  intros Hop Hname Ht Hfk Hx. apply (schema_op_survives _ _ _ _ Hop); [|done]. intros ->. cbn in Hop.
  destruct (_ && _) eqn:E in Hop; [|done]. simplify_eq. apply andb_true_iff in E as [_ Href%negb_true_iff].
  destruct (decide (name = fk_table fk)) as [->|Hne]; [by rewrite lookup_delete_eq in Hname; destruct Hname|].
  assert (referred_to s (fk_table fk) = true); [|congruence].
  apply existsb_exists. exists (name, t). split; [by apply list_elem_of_In, elem_of_map_to_list|].
  apply andb_true_iff. split; [by apply negb_true_iff, bool_decide_eq_false|].
  apply existsb_exists. exists (n, fk). split; [by apply list_elem_of_In, elem_of_map_to_list|].
  by apply bool_decide_eq_true.
Qed.

Lemma fk_step o d d' name t n fk r : apply_op o d = Some d' -> schema_of d !! name = Some t ->
  is_Some (schema_of d' !! name) -> tb_foreign_keys t !! n = Some fk -> fk_holds d fk r -> fk_holds d' fk r.
Proof.
  intros Hop Ht Hname Hfk. pose proof (apply_op_schema _ _ _ Hop) as Hs. apply fk_holds_mono.
  intros q Hq. destruct (d !! fk_table fk) as [[t2 rows2]|] eqn:Ed; [|unfold rows_of in Hq; rewrite Ed in Hq; by apply elem_of_nil in Hq].
  apply schema_lookup in Ed.
  destruct (fk_target_survives _ _ _ _ _ _ _ Hs Hname Ht Hfk (mk_is_Some _ _ Ed)) as [t3 Et3].
  exists (if decide (fk_table fk = table_of o) then row_op o q else q).
  rewrite (apply_op_rows_of _ _ _ _ Hop) by by rewrite Et3. case_decide as Htb; [|done].
  split; [apply list_elem_of_fmap; by exists q|]. apply proj_same. intros c Hc Htouch. rewrite Htb in Ed.
  eapply unconstrained_referred; [by eapply touched_free|exact Ht|exact Hfk|done|exact Hc].
Qed.

Lemma table_wf_nil d t : table_wf d t [].
Proof. split; [by intros ? ?%elem_of_nil | by constructor | by intros ??? _ ?%elem_of_nil | by intros ??? _ ?%elem_of_nil]. Qed.

Lemma keys_step o rows key : (forall c, c ∈ key -> c ∉ touched o) ->
  map (proj key) (py_filter (fun r => negb (null_in key r)) (map (row_op o) rows)) =
  map (proj key) (py_filter (fun r => negb (null_in key r)) rows).
Proof.
  intros Hk. induction rows as [|r rows IH]; [done|]. cbn. rewrite null_in_same by done.
  destruct (null_in key r); cbn; [done|]. rewrite proj_same by done. by f_equal.
Qed.

(** A new foreign key holds of rows that have a null in it. *)
Lemma new_fk_holds n table fk s f d r : facts_allow (create_foreign_key n table fk) s f = true ->
  facts_hold f d -> r ∈ rows_of d table -> null_in (fk_columns fk) r = true.
Proof.
  intros [c [Hc Hf%bool_decide_eq_true]]%existsb_exists Hfacts Hr. apply existsb_exists. exists c.
  by rewrite (Hfacts _ _ _ Hf r Hr).
Qed.

Lemma own_table_step o f d d' t t' : apply_op o d = Some d' -> facts_allow o (schema_of d) f = true ->
  facts_hold f d -> well_typed d -> d !! table_of o = Some (t, rows_of d (table_of o)) ->
  schema_of d' !! table_of o = Some t' -> kept_constraints o t t' ->
  table_wf d' t' (map (row_op o) (rows_of d (table_of o))).
Proof.
  intros Hop Hallow Hf Hwt Hd Ht' (Hpk & Hu & Hk & Hfks). pose proof (apply_op_schema _ _ _ Hop) as Hs.
  pose proof (schema_lookup _ _ _ _ Hd) as Ht. pose proof (Hwt _ _ _ Hd) as Hwf.
  assert (forall c, c ∈ touched o -> unconstrained (schema_of d) (table_of o) t c = true) as Hfree.
  { intros c Hc. by eapply touched_free. }
  split.
  - intros r' [r [-> Hr]]%list_elem_of_fmap. eapply row_ok_op; try done; [|by eapply wf_rows].
    intros c Hc. by apply (Hf _ _ _ Hc).
  - intros key Hkey. unfold is_key in Hkey. rewrite Hpk, Hu in Hkey. rewrite keys_step; [by eapply wf_keys|].
    intros c Hc Htouch. by eapply unconstrained_key; [apply Hfree| |].
  - intros n c r' Hc [r [-> Hr]]%list_elem_of_fmap. rewrite Hk in Hc. rewrite condition_same; [by eapply wf_checks|].
    intros x Hx Htouch. by eapply unconstrained_check; [apply Hfree| |].
  - intros n fk r' Hfk [r [-> Hr]]%list_elem_of_fmap. destruct (Hfks _ _ Hfk) as [Hfk'|Ho].
    + assert (forall c, c ∈ fk_columns fk -> c ∉ touched o) as Hcols.
      { intros c Hc Htouch. by eapply unconstrained_fk; [apply Hfree| |]. }
      pose proof (fk_step _ _ _ _ _ _ _ r Hop Ht (mk_is_Some _ _ Ht') Hfk' (wf_fks _ _ _ Hwf _ _ _ Hfk' Hr)) as Hold.
      unfold fk_holds. rewrite null_in_same, proj_same by done. exact Hold.
    + left. rewrite Ho in Hallow, Hr |- *. cbn [row_op table_of] in *. by eapply new_fk_holds.
Qed.

Lemma well_typed_step o f d d' : apply_op o d = Some d' -> facts_allow o (schema_of d) f = true ->
  facts_hold f d -> well_typed d -> well_typed d'.
Proof.
  intros Hop Hallow Hf Hwt name t' rows' Hd'. pose proof (apply_op_schema _ _ _ Hop) as Hs.
  pose proof (apply_op_rows _ _ _ _ _ _ Hop Hd') as ->. apply schema_lookup in Hd' as Ht'. case_decide as Hname.
  - subst name. destruct (schema_op_own _ _ _ _ Hs Ht') as [Hnone|(t & Ht & Hkept)].
    + rewrite (schema_none _ _ Hnone). apply table_wf_nil.
    + apply (own_table_step o f d d' t t'); try done. by apply schema_lookup_inv.
  - pose proof Ht' as Ht. rewrite (schema_op_other _ _ _ _ Hs Hname) in Ht.
    apply schema_lookup_inv in Ht as Hd. destruct (Hwt _ _ _ Hd) as [Hrows Hkeys Hchecks Hfks].
    split; try done. intros n fk r Hfk Hr. by eapply fk_step; [..|eapply Hfks].
Qed.

(** ** Soundness of the check *)
Definition models (d : Tables) (sf : gmap string Table * Facts) : Prop :=
  schema_of d = sf.1 /\ facts_hold sf.2 d /\ well_typed d.

Lemma check_op_sound o d sf sf' : models d sf -> check_op o sf = Some sf' ->
  exists d', apply_op o d = Some d' /\ models d' sf'.
Proof.
  destruct sf as [s f]. intros (Hs & Hf & Hwt). unfold check_op. cbn in *. subst s.
  destruct (schema_op o (schema_of d)) as [s'|] eqn:Eop; [|done].
  destruct (facts_allow _ _ _) eqn:Eallow; [|done]. intros [= <-].
  assert (exists d', apply_op o d = Some d') as [d' Hop].
  { unfold apply_op. rewrite Eop, (rows_allowed _ _ _ _ Eallow Hf). by eexists. }
  exists d'. split; [done|]. split; [|split].
  - pose proof (apply_op_schema _ _ _ Hop) as Hs. cbn. congruence.
  - by apply (facts_op_hold o f d d').
  - by apply (well_typed_step o f d d').
Qed.

Fixpoint apply_ops (ops : list Op) (d : Tables) : option Tables :=
  match ops with
  | [] => Some d
  | o :: ops' => match apply_op o d with Some d' => apply_ops ops' d' | None => None end
  end.

Lemma check_ops_sound ops d sf sf' : models d sf -> check_ops ops sf = Some sf' ->
  exists d', apply_ops ops d = Some d' /\ models d' sf'.
Proof.
  revert d sf. induction ops as [|o ops IH]; intros d sf Hm Hc; cbn in *; [simplify_eq; by exists d|].
  destruct (check_op o sf) as [sf1|] eqn:Eo; [|done].
  destruct (check_op_sound _ _ _ _ Hm Eo) as (d1 & -> & Hm1). by apply (IH d1 sf1).
Qed.

Lemma check_ops_app ops1 ops2 sf sf' : check_ops (ops1 ++ ops2) sf = Some sf' ->
  exists sf1, check_ops ops1 sf = Some sf1 /\ check_ops ops2 sf1 = Some sf'.
Proof.
  revert sf. induction ops1 as [|o ops1 IH]; intros sf; cbn; [by exists sf|].
  destruct (check_op o sf); [apply IH | done].
Qed.

Lemma apply_ops_app ops1 ops2 d d' : apply_ops (ops1 ++ ops2) d = Some d' ->
  exists d1, apply_ops ops1 d = Some d1 /\ apply_ops ops2 d1 = Some d'.
Proof.
  revert d. induction ops1 as [|o ops1 IH]; intros d; cbn; [by exists d|].
  destruct (apply_op o d); [apply IH | done].
Qed.

(** ** The data that stays *)

(** The values of a column, row by row. *)
Definition cells (d : Tables) (t c : string) : list (option SqlValue) := map (fun r : Row => r !! c) (rows_of d t).

Definition keeps (t c : string) (o : Op) : bool :=
  negb (bool_decide (t = table_of o)) ||
  negb (str_in c (touched o)) && match o with drop_table _ => false | _ => true end.

Lemma cells_step o d d' t c : apply_op o d = Some d' -> keeps t c o = true -> cells d' t c = cells d t c.
Proof.
  intros Hop Hk. pose proof (apply_op_schema _ _ _ Hop) as Hs. unfold cells.
  destruct (schema_of d' !! t) as [tb|] eqn:Et.
  - rewrite (apply_op_rows_of _ _ _ _ Hop) by by rewrite Et. case_decide as Ht; [|done].
    rewrite map_map. apply map_ext. intros r. apply row_op_other. unfold keeps in Hk.
    rewrite bool_decide_eq_true_2 in Hk by done. apply andb_true_iff in Hk as [Hc _].
    by apply negb_true_iff, bool_decide_eq_false in Hc.
  - rewrite (schema_none _ _ Et). destruct (schema_of d !! t) as [tb|] eqn:Ed; [|by rewrite (schema_none _ _ Ed)].
    destruct (schema_op_survives _ _ _ t Hs) as [? Hsome]; [|by rewrite Ed|by rewrite Et in Hsome].
    intros ->. unfold keeps in Hk. cbn in Hk. rewrite bool_decide_eq_true_2 in Hk by done. done.
Qed.

Lemma cells_kept ops d d' t c : apply_ops ops d = Some d' -> forallb (keeps t c) ops = true ->
  cells d' t c = cells d t c.
Proof.
  revert d. induction ops as [|o ops IH]; intros d; cbn; [by intros [= ->]|].
  destruct (apply_op o d) as [d1|] eqn:E; [|done]. intros Ha [Hk Hks]%andb_true_iff.
  rewrite (IH _ Ha Hks). by apply (cells_step o).
Qed.

(** A column set from the UUIDs of another. *)
Definition text_cell (prefix : string) (v : option SqlValue) : option SqlValue :=
  Some (match v with Some (SUuid u) => SText (prefix +:+ uuid_str u) | _ => SNull end).

Lemma cells_set t c p src values texts d d' : c ∉ map fst values ->
  apply_op (execute_update t ((c, TextOf p src) :: values) texts) d = Some d' ->
  cells d' t c = map (text_cell p) (cells d t src).
Proof.
  intros Hc Hop. pose proof (apply_op_schema _ _ _ Hop) as Hs. unfold cells. cbn in Hs.
  destruct (schema_of d !! t) as [tb|] eqn:Et; [|done]. cbn in Hs. destruct (_ && _) in Hs; [|done].
  simplify_eq. rewrite (apply_op_rows_of _ _ _ t Hop) by congruence. rewrite decide_True by done.
  rewrite !map_map. apply map_ext. intros r. cbn. unfold set_columns. cbn [fold_left fst snd].
  rewrite set_columns_other by done. by rewrite lookup_insert_eq.
Qed.

Lemma cells_set_within t c p src values texts pre post d d' : c ∉ map fst values ->
  apply_ops (pre ++ execute_update t ((c, TextOf p src) :: values) texts :: post) d = Some d' ->
  forallb (keeps t src) pre = true -> forallb (keeps t c) post = true ->
  cells d' t c = map (text_cell p) (cells d t src).
Proof.
  intros Hc (d1 & Hpre & Hrest)%apply_ops_app Hkpre Hkpost. cbn [apply_ops] in Hrest.
  destruct (apply_op _ d1) as [d2|] eqn:E; [|done].
  rewrite (cells_kept _ _ _ _ _ Hrest Hkpost), (cells_set _ _ _ _ _ _ _ _ Hc E).
  by rewrite (cells_kept _ _ _ _ _ Hpre Hkpre).
Qed.

(** ** The revisions pass the check *)
Definition revision_at (k : nat) : option string :=
  match k with O => None | S j => option_map revision (nth_error revisions j) end.

Definition upgrades (k : nat) : list Op := concat (map upgrade (pending (revision_at k))).
Definition downgrades (k : nat) : list Op := concat (map downgrade (rev (pending (revision_at k)))).

(** The catalogue at a revision. *)
Definition schema_at (k : nat) : gmap string Table :=
  match fold_left (fun s o => match s with Some s => schema_op o s | None => None end)
          (concat (map upgrade (firstn k revisions))) (Some ∅) with
  | Some s => s
  | None => ∅
  end.

Definition lost (k : nat) (t c : string) : bool :=
  Nat.ltb k 4 && bool_decide (t = "artifacts") && str_in c ["payload"; "node_id"; "worker_id"].

Definition leads_to (ops : list Op) (s s' : gmap string Table) : bool :=
  match check_ops ops (s, ∅) with Some sf => bool_decide (sf.1 = s') | None => false end.

Definition keeps_columns (ops : list Op) (k : nat) : bool :=
  forallb (fun nt => forallb (fun cc => lost k nt.1 cc.1 || forallb (keeps nt.1 cc.1) ops)
    (map_to_list (tb_columns nt.2))) (map_to_list (schema_at k)).

Lemma revisions_pass : forallb (fun k =>
  leads_to (upgrades k) (schema_at k) (schema_at 6) && leads_to (downgrades k) (schema_at 6) (schema_at k) &&
  keeps_columns (upgrades k) k && keeps_columns (downgrades k) k) (seq 0 7) = true.
Proof. vm_compute. reflexivity. Qed.

(** The same table but for the names of its foreign keys. *)
Definition same_table (t t' : Table) : bool :=
  let covers (a b : gmap string ForeignKey) :=
    forallb (fun x => existsb (fun y => bool_decide (x.2 = y.2)) (map_to_list b)) (map_to_list a) in
  bool_decide (tb_columns t = tb_columns t') && bool_decide (tb_primary_key t = tb_primary_key t') &&
  bool_decide (tb_uniques t = tb_uniques t') && bool_decide (tb_checks t = tb_checks t') &&
  covers (tb_foreign_keys t) (tb_foreign_keys t') && covers (tb_foreign_keys t') (tb_foreign_keys t).

Definition same_schema (s s' : gmap string Table) : Prop :=
  map_Forall2 (fun _ t t' => same_table t t' = true) s s'.

Lemma same_schema_decided s s' :
  forallb (fun nt => match s' !! nt.1 with Some t' => same_table nt.2 t' | None => false end) (map_to_list s) = true ->
  forallb (fun nt => bool_decide (is_Some (s !! nt.1))) (map_to_list s') = true -> same_schema s s'.
Proof.
  rewrite !forallb_forall. intros Hall Hback name. destruct (s !! name) as [t|] eqn:Et.
  - specialize (Hall (name, t)). cbn in Hall. destruct (s' !! name); [constructor; apply Hall | discriminate Hall];
      by apply list_elem_of_In, elem_of_map_to_list.
  - destruct (s' !! name) as [t'|] eqn:Et'; [|constructor]. specialize (Hback (name, t')). cbn in Hback.
    rewrite Et in Hback. discriminate Hback. by apply list_elem_of_In, elem_of_map_to_list.
Qed.

Lemma head_is_metadata : same_schema (schema_at 6) metadata.
Proof. apply same_schema_decided; vm_compute; reflexivity. Qed.

(** ** Running them *)
Section run.
Context {D : Type} `{AlembicLaws D}.

Definition bound (ops : list Op) : Prop := forall o, o ∈ ops -> unbound o = None.

(** A database at a revision: its tables, and rows of their types. *)
Definition at_revision (k : nat) (d : D) : Prop :=
  schema_of (db_tables d) = schema_at k /\ well_typed (db_tables d).

Lemma run_ops_effect ops d s : bound ops -> apply_ops ops (db_tables d) = Some s ->
  exists d', run_ops ops d = Ok d' /\ db_tables d' = s.
Proof.
  revert d. induction ops as [|o ops IH]; intros d Hb; cbn; [intros [= <-]; by exists d|].
  destruct (apply_op o (db_tables d)) as [s1|] eqn:Eo; [|done]. intros Hs.
  destruct (op_run_effect o d s1) as (d1 & Hrun & Hd1); [by apply Hb; left|done|]. rewrite Hrun.
  subst s1. apply IH; [|done]. intros x Hx. apply Hb. by right.
Qed.

Lemma run_ops_app a b d : run_ops (a ++ b) d = match run_ops a d with Ok d' => run_ops b d' | Raise e => Raise e end.
Proof. revert d. induction a as [|o a IH]; intros d; cbn; [done|]. destruct (op_run o d); [apply IH | done]. Qed.

Lemma run_ops_unbound pre o post d s p : bound pre -> apply_ops pre (db_tables d) = Some s -> unbound o = Some p ->
  run_ops (pre ++ o :: post) d = Raise (unbound_error p).
Proof.
  intros Hb Hpre Ho. destruct (run_ops_effect pre d s Hb Hpre) as (d1 & Hrun & _).
  rewrite run_ops_app, Hrun. cbn. by rewrite (op_run_unbound o p).
Qed.

(** Only the updates of revision 4 have texts that SQLAlchemy parses. *)
Definition textless (o : Op) : bool := match op_texts o with [] => true | _ => false end.

Lemma bound_textless ops : forallb textless ops = true -> bound ops.
Proof.
  rewrite forallb_forall. intros Hall o Ho%list_elem_of_In. specialize (Hall o Ho).
  unfold unbound. unfold textless in Hall. by destruct (op_texts o).
Qed.

Lemma bound_but u ops : unbound u = None ->
  forallb (fun o => textless o || bool_decide (op_texts o = op_texts u)) ops = true -> bound ops.
Proof.
  rewrite forallb_forall. intros Hu Hall o Ho%list_elem_of_In. specialize (Hall o Ho).
  unfold unbound in *. unfold textless in Hall. destruct (op_texts o); [done|].
  by apply bool_decide_eq_true in Hall as ->.
Qed.

Lemma transaction_ok ops d sf : models (db_tables d) sf -> bound ops ->
  forall sf', check_ops ops sf = Some sf' -> exists d',
    transaction ops d = (Ok tt, d') /\ apply_ops ops (db_tables d) = Some (db_tables d') /\
    models (db_tables d') sf'.
Proof.
  intros Hm Hb sf' Hc. destruct (check_ops_sound _ _ _ _ Hm Hc) as (s & Hs & Hm').
  destruct (run_ops_effect ops d s Hb Hs) as (d' & Hrun & Hd'). exists d'. unfold transaction.
  by rewrite Hrun, Hd'.
Qed.

(** The columns of revision [k] that the revisions above keep hold the same. *)
Definition stays (k : nat) (d d' : D) : Prop :=
  forall t tb c, schema_at k !! t = Some tb -> is_Some (tb_columns tb !! c) -> lost k t c = false ->
    cells (db_tables d') t c = cells (db_tables d) t c.

Lemma stays_kept k ops d d' : apply_ops ops (db_tables d) = Some (db_tables d') ->
  keeps_columns ops k = true -> stays k d d'.
Proof.
  intros Ha Hk t tb c Ht [col Hc] Hlost. apply (cells_kept ops); [done|].
  unfold keeps_columns in Hk. rewrite forallb_forall in Hk. assert (In (t, tb) (map_to_list (schema_at k))) as Hin
    by by apply list_elem_of_In, elem_of_map_to_list.
  specialize (Hk _ Hin). cbn [fst snd] in Hk. rewrite forallb_forall in Hk.
  assert (In (c, col) (map_to_list (tb_columns tb))) as Hcol
    by by apply list_elem_of_In, elem_of_map_to_list.
  specialize (Hk _ Hcol). cbn [fst snd] in Hk. by rewrite Hlost in Hk.
Qed.

(** A sequence that passes the check runs. *)
Lemma transaction_leads ops k k' d : at_revision k d -> bound ops ->
  leads_to ops (schema_at k) (schema_at k') = true -> exists d',
    transaction ops d = (Ok tt, d') /\ at_revision k' d' /\ apply_ops ops (db_tables d) = Some (db_tables d').
Proof.
  intros [Hs Hwt] Hb Hl. unfold leads_to in Hl.
  destruct (check_ops ops (schema_at k, ∅)) as [sf|] eqn:Ec; [|done]. apply bool_decide_eq_true in Hl.
  assert (models (db_tables d) (schema_at k, ∅)) as Hm by (split; [done|]; split; [by intros ???|done]).
  destruct (transaction_ok ops d _ Hm Hb sf Ec) as (d' & Ht & Ha & Hs' & _ & Hwt').
  exists d'. split; [done|]. split; [|done]. split; [congruence|done].
Qed.

(** The first parameter SQLAlchemy finds in the texts of revision 4. *)
Definition upgrade_param (k : nat) : option string := if Nat.ltb k 4 then unbound references_update else None.
Definition downgrade_param (k : nat) : option string := if Nat.ltb k 4 then unbound payload_update else None.

Definition before_update (k : nat) : list Op :=
  concat (map upgrade (firstn (3 - k) (pending (revision_at k)))) ++ firstn 6 upgrade_0004.
Definition after_update : list Op := skipn 7 upgrade_0004 ++ upgrade_0005 ++ upgrade_0006.

Lemma update_splits k : (k < 4)%nat ->
  upgrades k = before_update k ++ references_update :: after_update /\
  forallb textless (before_update k) = true /\ forallb (keeps "artifacts" "id") (before_update k) = true.
Proof. intros Hk. do 4 (destruct k as [|k]; [by repeat split|]). lia. Qed.

Lemma bound_upgrades k : (k <= 6)%nat -> upgrade_param k = None -> bound (upgrades k).
Proof.
  intros Hk Hp. unfold upgrade_param in Hp. do 4 (destruct k as [|k]; [by apply (bound_but references_update)|]).
  apply bound_textless. do 3 (destruct k as [|k]; [done|]). lia.
Qed.

Lemma bound_downgrades k : (k <= 6)%nat -> downgrade_param k = None -> bound (downgrades k).
Proof.
  intros Hk Hp. unfold downgrade_param in Hp. do 4 (destruct k as [|k]; [by apply (bound_but payload_update)|]).
  apply bound_textless. do 3 (destruct k as [|k]; [done|]). lia.
Qed.

Lemma revision_passes k : (k <= 6)%nat ->
  leads_to (upgrades k) (schema_at k) (schema_at 6) = true /\
  leads_to (downgrades k) (schema_at 6) (schema_at k) = true /\
  keeps_columns (upgrades k) k = true /\ keeps_columns (downgrades k) k = true.
Proof.
  intros Hk. pose proof revisions_pass as Hall. rewrite forallb_forall in Hall. specialize (Hall k).
  rewrite !andb_true_iff in Hall. destruct Hall as [[[? ?] ?] ?]; [apply in_seq; lia|done].
Qed.

Lemma upgrade_unbound k d p : at_revision k d -> (k <= 6)%nat -> upgrade_param k = Some p ->
  upgrade_head (revision_at k) d = (Raise (unbound_error p), d).
Proof.
  intros [Hs Hwt] Hk Hp. unfold upgrade_param in Hp. destruct (Nat.ltb_spec k 4) as [Hk4|]; [|done].
  destruct (update_splits k Hk4) as (Hsplit & Hbefore & _). destruct (revision_passes k Hk) as (Hl & _).
  unfold leads_to in Hl. rewrite Hsplit in Hl.
  destruct (check_ops (_ ++ _) _) as [sf|] eqn:Ec; [|done]. apply check_ops_app in Ec as (sf1 & Hpre & _).
  destruct (check_ops_sound (before_update k) (db_tables d) (schema_at k, ∅) sf1) as (s & Hs1 & _); [|done|].
  { split; [done|]. split; [by intros ???|done]. }
  unfold upgrade_head, transaction. change (concat _) with (upgrades k). rewrite Hsplit.
  by rewrite (run_ops_unbound _ _ _ _ s p (bound_textless _ Hbefore)).
Qed.

(** C40. The migrations are safe. They run to the end or change nothing: a
    database at any revision whose rows have the types of its columns, with
    its keys, checks and foreign keys satisfied, is brought to head, which
    is the declared tables, and every row has the declared types and
    satisfies the declared constraints. All columns keep their values, but
    for the artifact columns that revision 4 replaces by references to the
    former rows. Downgrading brings it back to a well-typed database of the
    first revision with the same values. The exception is the texts of
    revision 4: if SQLAlchemy reads a bind parameter in them, no database
    below revision 4 can be upgraded. *)
Theorem migrations_safe k d : (k <= 6)%nat -> at_revision k d ->
  same_schema (schema_at 6) metadata /\
  match upgrade_param k with
  | Some p => upgrade_head (revision_at k) d = (Raise (unbound_error p), d)
  | None => exists d', upgrade_head (revision_at k) d = (Ok tt, d') /\ at_revision 6 d' /\ stays k d d' /\
      (k < 4 -> cells (db_tables d') "artifacts" "storage_ref" =
                map (text_cell "legacy-postgres-artifact:") (cells (db_tables d) "artifacts" "id"))%nat /\
      (downgrade_param k = None ->
       exists d'', downgrade_to (revision_at k) d' = (Ok tt, d'') /\ at_revision k d'' /\ stays k d d'')
  end.
Proof.
  intros Hk Hd. split; [apply head_is_metadata|]. destruct (upgrade_param k) as [p|] eqn:Ep.
  { by apply upgrade_unbound. }
  destruct (revision_passes k Hk) as (Hup & Hdown & Hkeep & Hkeep').
  destruct (transaction_leads (upgrades k) k 6 d Hd) as (d' & Hrun & Hd' & Ha); [by apply bound_upgrades|done|].
  pose proof (stays_kept k _ _ _ Ha Hkeep) as Hstays. exists d'.
  split; [done|]. split; [done|]. split; [done|]. split.
  - intros Hk4. destruct (update_splits k Hk4) as (Hsplit & _ & Hid). rewrite Hsplit in Ha.
    eapply cells_set_within; [|exact Ha|done|done]. by apply (bool_decide_unpack _).
  - intros Ep'. destruct (transaction_leads (downgrades k) 6 k d' Hd') as (d'' & Hrun' & Hd'' & Ha');
      [by apply bound_downgrades|done|]. exists d''. split; [done|]. split; [done|].
    intros t tb c Ht Hc Hlost. rewrite (stays_kept k _ _ _ Ha' Hkeep' t tb c) by done. by apply (Hstays t tb c).
Qed.
End run.

(** ** An executable instance *)
Module Demo.

Definition is_word (c : ascii) : bool :=
  let n := N_of_ascii c in
  (N.leb 48 n && N.leb n 57) || (N.leb 65 n && N.leb n 90) || (N.leb 97 n && N.leb n 122) ||
  bool_decide (c = "_"%char).

(** The longest word at the start of a text, and the rest. *)
Fixpoint word_of (s : string) : string * string :=
  match s with
  | String c s' => if is_word c then let (w, r) := word_of s' in (String c w, r) else ("", s)
  | EmptyString => ("", "")
  end.

(** SQLAlchemy's rule: a colon and a word, unless a colon, a word or a
    backslash is before it or a colon behind it. *)
Fixpoint bind_params (n : nat) (prev : ascii) (s : string) : list string :=
  match n, s with
  | S n', String ":" s' =>
      match word_of s' with
      | ("", _) => bind_params n' ":" s'
      | (_, String ":" _) => bind_params n' ":" s'
      | (w, rest) =>
          if is_word prev || bool_decide (prev ∈ [":"%char; "092"%char]) then bind_params n' ":" s'
          else w :: bind_params n' "a" rest
      end
  | S n', String c s' => bind_params n' c s'
  | _, _ => []
  end.

#[local] Instance engine : Alembic Tables := {|
  db_tables d := d;
  op_text_params text := bind_params (String.length text) " " text;
  op_run o d :=
    match head (concat (map (fun text => bind_params (String.length text) " " text) (op_texts o))) with
    | Some p => Raise (unbound_error p)
    | None => match apply_op o d with Some d' => Ok d' | None => Raise (ProgrammingError "") end
    end;
|}.

#[local] Instance engine_laws : AlembicLaws Tables.
Proof.
  split.
  - intros o p d Hp. cbn in *. unfold unbound in Hp. cbn in Hp. by rewrite Hp.
  - intros o d s Hb Ho. cbn in *. unfold unbound in Hb. cbn in Hb. rewrite Hb, Ho. by exists s.
Qed.

(** The parameter [true] in the metadata of revision 4. *)
Example colon_true : op_text_params artifact_metadata_text = ["true"] /\
  op_text_params storage_ref_text = [] /\ op_text_params legacy_payload_text = [].
Proof. vm_compute. by repeat split. Qed.

(** A card and an artifact; the other tables are empty. *)
Definition card_row : Row := list_to_map [
  ("id", SUuid 7); ("workflow_version", SText "pp:1"); ("current_bucket", SText "todo");
  ("payload", SJson VNone); ("card_metadata", SJson (VDict [])); ("created_at", STime (Aware 0))].
Definition artifact_row : Row := list_to_map [
  ("id", SUuid 8); ("card_id", SUuid 7); ("event_id", SNull); ("storage_ref", SText "s3://b/k");
  ("content_hash", SText "sha256:0"); ("content_type", SText "text/plain"); ("size_bytes", SInt 2);
  ("artifact_metadata", SJson (VDict [])); ("created_at", STime (Aware 1))].
Definition old_artifact_row : Row := list_to_map [
  ("id", SUuid 8); ("card_id", SUuid 7); ("node_id", SText "n"); ("worker_id", SNull);
  ("payload", SJson VNone); ("created_at", STime (Aware 1))].

Definition filled (k : nat) (artifact : Row) : Tables :=
  map_imap (fun name t => Some (t, if bool_decide (name = "cards") then [card_row]
                                   else if bool_decide (name = "artifacts") then [artifact] else []))
    (schema_at k).

Definition ok_value (col : Column) (v : SqlValue) : bool :=
  has_type (cl_type col) v && (cl_nullable col || match v with SNull => false | _ => true end).
Definition ok_row (t : Table) (r : Row) : bool :=
  forallb (fun cc => match r !! cc.1 with Some v => ok_value cc.2 v | None => false end)
    (map_to_list (tb_columns t)) &&
  forallb (fun cv => bool_decide (is_Some (tb_columns t !! cv.1))) (map_to_list r).

Lemma ok_row_spec t r : ok_row t r = true -> row_ok t r.
Proof.
  intros [Hcols Hback]%andb_true_iff c. rewrite forallb_forall in Hcols, Hback.
  destruct (tb_columns t !! c) as [col|] eqn:Ec.
  - assert (In (c, col) (map_to_list (tb_columns t))) as Hin by by apply list_elem_of_In, elem_of_map_to_list.
    specialize (Hcols _ Hin). cbn [fst snd] in Hcols. destruct (r !! c) as [v|]; [|done]. constructor.
    apply andb_true_iff in Hcols as [Ht Hn]. split; [done|]. intros ->. by destruct (cl_nullable col).
  - destruct (r !! c) as [v|] eqn:Ev; [|constructor].
    assert (In (c, v) (map_to_list r)) as Hin by by apply list_elem_of_In, elem_of_map_to_list.
    specialize (Hback _ Hin). cbn [fst] in Hback. rewrite Ec in Hback. discriminate Hback.
Qed.

Definition card_key : ForeignKey := mkForeignKey ["card_id"] "cards" ["id"].
(** Good rows: no checks, and no foreign key but to the card. *)
Definition filled_ok (k : nat) (artifact : Row) : bool :=
  bool_decide (is_Some (schema_at k !! "cards")) &&
  match artifact !! "card_id" with Some (SUuid u) => bool_decide (u = 7%N) | _ => false end &&
  forallb (fun nt => forallb (fun r => ok_row nt.2 r && bool_decide (tb_checks nt.2 = ∅) &&
     forallb (fun kv => bool_decide (nt.1 = "artifacts" /\ kv.2 = card_key)) (map_to_list (tb_foreign_keys nt.2)))
     (rows_of (filled k artifact) nt.1)) (map_to_list (schema_at k)).

Lemma filled_rows k a name t : schema_at k !! name = Some t -> rows_of (filled k a) name =
  if bool_decide (name = "cards") then [card_row] else if bool_decide (name = "artifacts") then [a] else [].
Proof. intros Ht. unfold rows_of, filled. rewrite map_lookup_imap, Ht. done. Qed.

Lemma filled_at_revision k a : filled_ok k a = true -> at_revision k (filled k a).
Proof.
  intros [[Hcards Hkey]%andb_true_iff Hall]%andb_true_iff. apply bool_decide_eq_true in Hcards as [tc Hcards].
  rewrite forallb_forall in Hall. cbn [db_tables engine].
  assert (schema_of (filled k a) = schema_at k) as Hs.
  { apply map_eq. intros name. unfold schema_of, filled. rewrite lookup_fmap, map_lookup_imap.
    by destruct (schema_at k !! name). }
  split; [exact Hs|]. intros name t rows Hd. cbn [db_tables engine] in Hd.
  pose proof (schema_lookup _ _ _ _ Hd) as Ht. rewrite Hs in Ht.
  assert (rows = rows_of (filled k a) name) as -> by (unfold rows_of; by rewrite Hd).
  assert (In (name, t) (map_to_list (schema_at k))) as Hin by by apply list_elem_of_In, elem_of_map_to_list.
  specialize (Hall _ Hin). cbn [fst snd] in Hall. rewrite forallb_forall in Hall.
  assert (forall r, r ∈ rows_of (filled k a) name -> _) as Hrow by
    (intros r Hr%list_elem_of_In; exact (Hall r Hr)). clear Hall.
  setoid_rewrite andb_true_iff in Hrow. setoid_rewrite andb_true_iff in Hrow. split.
  - intros r Hr. by apply ok_row_spec, Hrow.
  - intros key _. rewrite (filled_rows _ _ _ _ Ht). repeat case_bool_decide; cbn;
      repeat match goal with |- context [negb ?b] => destruct b; cbn end;
      first [apply NoDup_nil_2 | apply NoDup_singleton].
  - intros n c r Hc Hr. destruct (Hrow r Hr) as [[_ He%bool_decide_eq_true] _]. by rewrite He in Hc.
  - intros n fk r Hfk Hr. destruct (Hrow r Hr) as [_ Hfks]. rewrite forallb_forall in Hfks.
    assert (In (n, fk) (map_to_list (tb_foreign_keys t))) as Hn by by apply list_elem_of_In, elem_of_map_to_list.
    specialize (Hfks _ Hn). apply bool_decide_eq_true in Hfks as [-> Hcard]. cbn in Hcard. subst fk.
    rewrite (filled_rows _ _ _ _ Ht) in Hr. cbn in Hr. apply list_elem_of_singleton in Hr as ->.
    change (fk_holds (filled k a) card_key a). right. exists card_row. change (fk_table card_key) with "cards".
    split; [rewrite (filled_rows _ _ _ _ Hcards); by left|].
    cbn. destruct (a !! "card_id") as [[]|]; try done. by apply bool_decide_eq_true in Hkey as ->.
Qed.

Lemma old_filled_ok : filled_ok 3 old_artifact_row = true.
Proof. vm_compute. reflexivity. Qed.
Lemma new_filled_ok : filled_ok 4 artifact_row = true.
Proof. vm_compute. reflexivity. Qed.

(** A column of revision 4 and its value. *)
Lemma storage_ref_column : exists t, schema_at 4 !! "artifacts" = Some t /\ is_Some (tb_columns t !! "storage_ref").
Proof. by vm_compute; eexists; split; [reflexivity|eexists]. Qed.
Lemma artifact_cells : cells (filled 4 artifact_row) "artifacts" "storage_ref" = [Some (SText "s3://b/k")].
Proof. vm_compute. reflexivity. Qed.
Lemma param_3 : upgrade_param 3 = Some "true".
Proof. vm_compute. reflexivity. Qed.

Lemma migrations_safe_witness :
  upgrade_head (revision_at 3) (filled 3 old_artifact_row) =
    (Raise (unbound_error "true"), filled 3 old_artifact_row) /\
  exists d', upgrade_head (revision_at 4) (filled 4 artifact_row) = (Ok tt, d') /\
    cells (db_tables d') "artifacts" "storage_ref" = [Some (SText "s3://b/k")].
Proof.
  split.
  - destruct (migrations_safe 3 (filled 3 old_artifact_row)) as [_ Hrun];
      [lia | apply filled_at_revision, old_filled_ok|]. by rewrite param_3 in Hrun.
  - destruct (migrations_safe 4 (filled 4 artifact_row)) as [_ (d' & Hrun & _ & Hstays & _)];
      [lia | apply filled_at_revision, new_filled_ok|].
    destruct storage_ref_column as (t & Ht & Hcol). exists d'. split; [exact Hrun|].
    rewrite (Hstays "artifacts" t "storage_ref" Ht Hcol eq_refl). exact artifact_cells.
Defined.
End Demo.
